(** * Configuru: a shallow embedding of [configuru.hpp]

    The development follows the layout of the header: the value model
    ([Config], its accessors, [deep_eq], [check_dangling]), the parser
    ([Parser], [parse_string]) and the writer ([Writer], [write]).

    Conventions of the embedding.
    - A [std::string] and a zero-ended [const char*] are Rocq [string]s; a
      [char] is an [ascii], compared through its unsigned code.
    - [int64_t], [unsigned] and the other machine integers are [Z] with the
      wrap-around written out.
    - A [double] is a [spec_float] of the binary64 format, a [float] one of
      the binary32 format.
    - [std::map<std::string, ObjectEntry>] is an association list kept
      sorted by key, so that iteration visits the keys in the order of
      [std::map].
    - The payload of an array or of an object is reference-counted and
      shared by copies: a [Config] holds the address of the allocation
      next to its contents, and two values share a payload when the
      addresses agree.
    - A reference into an object ([Config&] from [operator[]]) is the key
      it designates; a function that changes [*this] or an argument
      returns the new value.
    - An exception is a value of [exception]; a function that may throw
      returns a [result].  The loops and the recursion of the parser are
      bounded by a fuel; running out of it is a third outcome, apart from
      a value and an exception.
    - The file system is outside of the embedding: no file can be opened,
      for reading ([#include]) or for writing. *)

From Stdlib Require Import ZArith List String Ascii Bool Lia.
From Stdlib Require Import SpecFloat DecimalString.
Import ListNotations.

#[local] Set Warnings "-register-all".
#[local] Open Scope string_scope.
#[local] Open Scope Z_scope.

(** ** Characters *)

Definition code (c : ascii) : Z := Z.of_N (N_of_ascii c).

(** [(char) z]: the low eight bits. *)
Definition chr (z : Z) : ascii := ascii_of_N (Z.to_N (z mod 256)).

Definition NUL : ascii := "000"%char.
Definition TAB : ascii := "009"%char.
Definition LF : ascii := "010"%char.
Definition CR : ascii := "013"%char.
Definition BS : ascii := "008"%char.
Definition FF : ascii := "012"%char.
Definition DQUOTE : ascii := "034"%char.

Definition in_range (a b c : ascii) : bool :=
  (code a <=? code c) && (code c <=? code b).

Definition is_digit (c : ascii) : bool := in_range "0" "9" c.

(** [std::to_string] on an integer, and [operator<<] on one. *)
Definition to_string (z : Z) : string := NilZero.string_of_int (Z.to_int z).

Definition str1 (c : ascii) : string := String c EmptyString.

(** ** Machine integers *)

Definition wrap_unsigned (bits : Z) (z : Z) : Z := z mod 2 ^ bits.

Definition wrap_signed (bits : Z) (z : Z) : Z :=
  (z + 2 ^ (bits - 1)) mod 2 ^ bits - 2 ^ (bits - 1).

Definition INT64_MIN : Z := - 2 ^ 63.
Definition INT64_MAX : Z := 2 ^ 63 - 1.
Definition UINT64_MAX : Z := 2 ^ 64 - 1.

(** [(int64_t) z]. *)
Definition int64 (z : Z) : Z := wrap_signed 64 z.

(** [(unsigned) z]. *)
Definition unsigned (z : Z) : Z := wrap_unsigned 32 z.

(** [const unsigned BAD_ENTRY = -1;] *)
Definition BAD_ENTRY : Z := unsigned (-1).

(** An integral type [IntT] of [as_integer<IntT>]. *)
Record IntT := mkIntT { is_signed : bool; bits : Z }.

Definition signed_int : IntT := mkIntT true 32.
Definition unsigned_int : IntT := mkIntT false 32.
Definition signed_long : IntT := mkIntT true 64.
Definition unsigned_long : IntT := mkIntT false 64.
Definition signed_long_long : IntT := mkIntT true 64.
Definition unsigned_long_long : IntT := mkIntT false 64.

(** [(IntT) z] *)
Definition cast (T : IntT) (z : Z) : Z :=
  if is_signed T then wrap_signed (bits T) z else wrap_unsigned (bits T) z.

(** The values of [IntT]. *)
Definition representable (T : IntT) (z : Z) : Prop :=
  if is_signed T then - 2 ^ (bits T - 1) <= z < 2 ^ (bits T - 1)
  else 0 <= z < 2 ^ (bits T).

(** ** Floating point *)

Definition double := spec_float.
Definition float := spec_float.

(** [(double) i] and [(float) i] for an integer [i]: rounded to nearest. *)
Definition double_of_int (i : Z) : double := binary_normalize 53 1024 i 0 false.
Definition float_of_int (i : Z) : float := binary_normalize 24 128 i 0 false.

(** [(float) d] for a [double] [d]. *)
Definition float_of_double (d : double) : float :=
  match d with
  | S754_finite s m e => binary_normalize 24 128 (cond_Zopp s (Zpos m)) e s
  | _ => d
  end.

(** [(double) f] for a [float] [f]: exact, in the representation of the
    wider format. *)
Definition double_of_float (f : float) : double :=
  match f with
  | S754_finite s m e => binary_normalize 53 1024 (cond_Zopp s (Zpos m)) e s
  | _ => f
  end.

(** [a == b] on floating-point numbers. *)
Definition feq (a b : spec_float) : bool := SFeqb a b.

Definition isfinite (d : double) : bool :=
  match d with
  | S754_zero _ | S754_finite _ _ _ => true
  | _ => false
  end.

Definition infinity : double := S754_infinity false.
Definition quiet_NaN : double := S754_nan.

(** [(int64_t) d]: truncation toward zero.  The conversion of a value that
    does not fit is undefined in C++; it is modelled as on x86-64, where
    the instruction yields the "integer indefinite" value [INT64_MIN]. *)
Definition int64_of_double (d : double) : Z :=
  match d with
  | S754_zero _ => 0
  | S754_finite s m e =>
      let t := match e with
               | Zneg p => Z.shiftr (Zpos m) (Zpos p)
               | _ => Z.shiftl (Zpos m) e
               end in
      let v := cond_Zopp s t in
      if (INT64_MIN <=? v) && (v <=? INT64_MAX) then v else INT64_MIN
  | _ => INT64_MIN
  end.

(** ** Exceptions *)

Inductive exception :=
| ParseError (line column : Z) (what : string)
| runtime_error (what : string)
| assertion_failed (test : string).

(** The outcome of a call: a value, an exception, or the exhaustion of the
    fuel that bounds the loops and the recursion of the embedding. *)
Inductive result (A : Type) :=
| Ok (a : A)
| Throw (e : exception)
| OutOfFuel.
Arguments Ok {A} a.
Arguments Throw {A} e.
Arguments OutOfFuel {A}.

Definition rbind {A B} (r : result A) (k : A -> result B) : result B :=
  match r with
  | Ok a => k a
  | Throw e => Throw e
  | OutOfFuel => OutOfFuel
  end.

(** [CONFIGURU_ONERROR(message_str)] *)
Definition CONFIGURU_ONERROR {A} (message_str : string) : result A :=
  Throw (runtime_error message_str).

(** ** The value model *)

(** [struct DocInfo], held through a [DocInfo_SP].  [doc_addr] stands for
    the address of the allocation: two [DocInfo_SP] are the same pointer
    when their addresses agree.  An includer is a document and a line. *)
Inductive DocInfo :=
| mkDocInfo (doc_addr : nat) (filename : string) (includers : list (DocInfo * Z)).

Definition doc_addr (d : DocInfo) : nat := let (a, _, _) := d in a.
Definition filename (d : DocInfo) : string := let (_, f, _) := d in f.
Definition includers (d : DocInfo) : list (DocInfo * Z) := let (_, _, i) := d in i.

Definition DocInfo_SP := option DocInfo.

(** [a == b] on two [DocInfo_SP]. *)
Definition doc_eq (a b : DocInfo_SP) : bool :=
  match a, b with
  | None, None => true
  | Some x, Some y => Nat.eqb (doc_addr x) (doc_addr y)
  | _, _ => false
  end.

Definition pop_back (s : string) : string :=
  substring 0 (String.length s - 1) s.

(** [DocInfo::append_include_info]: the text appended to [ret]. *)
Fixpoint append_include_info (d : DocInfo) (indent : string) : string :=
  match d with
  | mkDocInfo _ _ incl =>
      match incl with
      | [] => ""
      | _ =>
          pop_back
            (", included at:" ++ str1 LF ++
             (fix each (l : list (DocInfo * Z)) : string :=
                match l with
                | [] => ""
                | (idoc, iline) :: l' =>
                    indent ++ filename idoc ++ ":" ++ to_string iline ++
                    append_include_info idoc (indent ++ "    ") ++
                    str1 LF ++ each l'
                end) incl)
      end
  end.

(** [where_is] *)
Definition where_is (doc : DocInfo_SP) (line : Z) : string :=
  match doc with
  | Some d =>
      filename d ++
      (if line =? BAD_ENTRY then "" else ":" ++ to_string line) ++
      append_include_info d "    " ++ ": "
  | None =>
      if line =? BAD_ENTRY then "" else "line " ++ to_string line ++ ": "
  end.

Definition Comment := string.
Definition Comments := list Comment.

Record ConfigComments := mkComments {
  prefix : Comments;
  postfix : Comments;
  pre_end_brace : Comments
}.

Definition no_comments : ConfigComments := mkComments [] [] [].

Definition is_nil {A} (l : list A) : bool :=
  match l with [] => true | _ => false end.

(** [ConfigComments::empty] *)
Definition comments_empty (c : ConfigComments) : bool :=
  is_nil (prefix c) && is_nil (postfix c) && is_nil (pre_end_brace c).

(** [ConfigComments::append] *)
Definition comments_append (c other : ConfigComments) : ConfigComments :=
  mkComments (prefix c ++ prefix other)%list (postfix c ++ postfix other)%list
             (pre_end_brace c ++ pre_end_brace other)%list.

(** [enum Type] *)
Inductive Type_ :=
| Uninitialized | BadLookupType | Null | Bool | Int | Float | String_
| Array | Object.

Definition Type_eqb (a b : Type_) : bool :=
  match a, b with
  | Uninitialized, Uninitialized | BadLookupType, BadLookupType
  | Null, Null | Bool, Bool | Int, Int | Float, Float
  | String_, String_ | Array, Array | Object, Object => true
  | _, _ => false
  end.

(** [struct BadLookupInfo]: document and line of the parent object, and the
    key that was not found. *)
Record BadLookupInfo := mkBadLookupInfo {
  bl_doc : DocInfo_SP;
  bl_line : Z;
  bl_key : string
}.

(** [Config_Entry<Config_T>] *)
Record Config_Entry (Config_T : Type) := mkEntry {
  value : Config_T;
  nr : Z;
  accessed : bool
}.
Arguments mkEntry {Config_T}.
Arguments value {Config_T}.
Arguments nr {Config_T}.
Arguments accessed {Config_T}.

(** The tag [_type] together with the active member of the union [_u].  An
    array and an object live in a reference-counted allocation
    ([ConfigArray], [ConfigObject]): the first argument is the address of
    the allocation, the second its [impl].  Two values share a payload when
    the addresses agree. *)
Inductive Payload (Config_T : Type) :=
| VUninitialized
| VBadLookup (bad_lookup : BadLookupInfo)
| VNull
| VBool (b : bool)
| VInt (i : Z)
| VFloat (f : double)
| VString (str : string)
| VArray (addr : nat) (impl : list Config_T)
| VObject (addr : nat) (impl : list (string * Config_Entry Config_T)).
Arguments VUninitialized {Config_T}.
Arguments VBadLookup {Config_T}.
Arguments VNull {Config_T}.
Arguments VBool {Config_T}.
Arguments VInt {Config_T}.
Arguments VFloat {Config_T}.
Arguments VString {Config_T}.
Arguments VArray {Config_T}.
Arguments VObject {Config_T}.

(** [class Config] *)
Inductive Config := mkConfig {
  _u : Payload Config;
  _doc : DocInfo_SP;
  _line : Z;
  _comments : option ConfigComments
}.

Definition ObjectEntry := Config_Entry Config.
Definition ConfigArrayImpl := list Config.
Definition ConfigObjectImpl := list (string * ObjectEntry).

(** [Config::type] *)
Definition type (c : Config) : Type_ :=
  match _u c with
  | VUninitialized => Uninitialized
  | VBadLookup _ => BadLookupType
  | VNull => Null
  | VBool _ => Bool
  | VInt _ => Int
  | VFloat _ => Float
  | VString _ => String_
  | VArray _ _ => Array
  | VObject _ _ => Object
  end.

Definition is_null (c : Config) := Type_eqb (type c) Null.
Definition is_bool (c : Config) := Type_eqb (type c) Bool.
Definition is_int (c : Config) := Type_eqb (type c) Int.
Definition is_float (c : Config) := Type_eqb (type c) Float.
Definition is_string (c : Config) := Type_eqb (type c) String_.
Definition is_object (c : Config) := Type_eqb (type c) Object.
Definition is_array (c : Config) := Type_eqb (type c) Array.
Definition is_number (c : Config) := is_int c || is_float c.

(** The constructors: a fresh value has no document, line [-1] and no
    comments. *)
Definition Config_of (u : Payload Config) : Config :=
  mkConfig u None BAD_ENTRY None.

Definition Config_default : Config := Config_of VUninitialized.
Definition Config_nullptr : Config := Config_of VNull.
Definition Config_double (f : double) : Config := Config_of (VFloat f).
Definition Config_bool (b : bool) : Config := Config_of (VBool b).
Definition Config_int (i : Z) : Config := Config_of (VInt i).
Definition Config_string (s : string) : Config := Config_of (VString s).

(** [Config(unsigned long long i)] *)
Definition Config_unsigned_long_long (i : Z) : result Config :=
  if Z.land i 0x8000000000000000 =? 0 then Ok (Config_of (VInt (int64 i)))
  else CONFIGURU_ONERROR "Integer too large to fit into 63 bits".

(** [Config::where] *)
Definition where_ (c : Config) : string := where_is (_doc c) (_line c).

(** [Config::on_error] *)
Definition on_error {A} (c : Config) (msg : string) : result A :=
  CONFIGURU_ONERROR (where_ c ++ msg).

(** [Config::check] *)
Definition check (c : Config) (b : bool) (msg : string) : result unit :=
  if b then Ok tt else on_error c msg.

(** [Config::type_str] *)
Definition type_str (t : Type_) : string :=
  match t with
  | Uninitialized => "uninitialized"
  | BadLookupType => "undefined"
  | Null => "null"
  | Bool => "bool"
  | Int => "integer"
  | Float => "float"
  | String_ => "string"
  | Array => "array"
  | Object => "object"
  end.

(** [Config::assert_type] *)
Definition assert_type (c : Config) (exepected : Type_) : result unit :=
  match _u c with
  | VBadLookup bad_lookup =>
      let where' := where_is (bl_doc bad_lookup) (bl_line bad_lookup) in
      CONFIGURU_ONERROR (where' ++ "Failed to find key '" ++ bl_key bad_lookup ++ "'")
  | _ =>
      if negb (Type_eqb (type c) exepected) then
        let message := where_ c ++ "Expected " ++ type_str exepected ++
                       ", got " ++ type_str (type c) in
        if Type_eqb (type c) Uninitialized && Type_eqb exepected Object then
          CONFIGURU_ONERROR (message ++ ". Did you forget to call Config::object()?")
        else if Type_eqb (type c) Uninitialized && Type_eqb exepected Array then
          CONFIGURU_ONERROR (message ++ ". Did you forget to call Config::array()?")
        else CONFIGURU_ONERROR message
      else Ok tt
  end.

Declare Scope result_scope.
Delimit Scope result_scope with result.
Notation "x <- e ;; k" := (rbind e (fun x => k))
  (at level 61, e at next level, right associativity) : result_scope.
Notation "e ;;; k" := (rbind e (fun _ => k))
  (at level 61, right associativity) : result_scope.
#[local] Open Scope result_scope.

(** Reading a member of the union [_u]; an inactive member reads as a
    default value (no accessor reads one: [assert_type] throws first). *)
Definition u_b (c : Config) : bool :=
  match _u c with VBool b => b | _ => false end.
Definition u_i (c : Config) : Z :=
  match _u c with VInt i => i | _ => 0 end.
Definition u_f (c : Config) : double :=
  match _u c with VFloat f => f | _ => S754_zero false end.
Definition u_str (c : Config) : string :=
  match _u c with VString s => s | _ => "" end.
Definition u_array (c : Config) : ConfigArrayImpl :=
  match _u c with VArray _ impl => impl | _ => [] end.
Definition u_object (c : Config) : ConfigObjectImpl :=
  match _u c with VObject _ impl => impl | _ => [] end.

(** *** Convertors *)

Definition as_string (c : Config) : result string :=
  assert_type c String_ ;;; Ok (u_str c).

Definition c_str (c : Config) : result string :=
  assert_type c String_ ;;; Ok (u_str c).

Definition as_bool (c : Config) : result bool :=
  assert_type c Bool ;;; Ok (u_b c).

Definition as_integer (T : IntT) (c : Config) : result Z :=
  assert_type c Int ;;;
  check c (int64 (cast T (u_i c)) =? u_i c) "Integer out of range" ;;;
  Ok (cast T (u_i c)).

Definition as_float (c : Config) : result float :=
  if Type_eqb (type c) Int then Ok (float_of_int (u_i c))
  else assert_type c Float ;;; Ok (float_of_double (u_f c)).

Definition as_double (c : Config) : result double :=
  if Type_eqb (type c) Int then Ok (double_of_int (u_i c))
  else assert_type c Float ;;; Ok (u_f c).

Definition as_array (c : Config) : result ConfigArrayImpl :=
  assert_type c Array ;;; Ok (u_array c).

Definition as_object (c : Config) : result ConfigObjectImpl :=
  assert_type c Object ;;; Ok (u_object c).

(** *** Assignment *)

Definition has_line (c : Config) : bool := negb (_line c =? BAD_ENTRY).

(** [Config& operator=(const Config& o)]: the new [*this], for [o]
    another value than [*this].  A string is copied, an array or an object
    is shared (same address).  For a [BadLookupType] value the source
    increments [_u.array->ref_count] where [_u] holds a [BadLookupInfo*]:
    the write lands in the [doc] of the sentinel and not in a counter, and
    the behaviour is undefined.  The embedding gives no value there. *)
Definition assign (this o : Config) : option Config :=
  match _u o with
  | VBadLookup _ => None
  | _ =>
      Some (mkConfig (_u o)
              (match _doc o with
               | Some d => Some d
               | None => if has_line o then None else _doc this
               end)
              (match _doc o with
               | Some _ => _line o
               | None => if has_line o then _line o else _line this
               end)
              (match _comments o with
               | Some c => Some c
               | None => _comments this
               end))
  end.

(** [Config& operator=(Config&& o)]: the new [*this] (what is left in [o]
    is dropped by every caller). *)
Definition move_assign (this o : Config) : Config :=
  let swap_where := match _doc o with Some _ => true | None => has_line o end in
  mkConfig (_u o)
    (if swap_where then _doc o else _doc this)
    (if swap_where then _line o else _line this)
    (match _comments o with
     | Some c => Some c
     | None => _comments this
     end).

(** [Config::tag] *)
Definition tag (c : Config) (doc : DocInfo_SP) (line column : Z) : Config :=
  mkConfig (_u c) doc line (_comments c).

(** [Config::has_comments] *)
Definition has_comments (c : Config) : bool :=
  match _comments c with
  | Some cc => negb (comments_empty cc)
  | None => false
  end.

(** [const ConfigComments& comments() const] *)
Definition comments (c : Config) : ConfigComments :=
  match _comments c with
  | Some cc => cc
  | None => no_comments
  end.

(** Writing [f] through the reference returned by the non-const
    [comments()], which allocates the comments when there are none. *)
Definition update_comments (c : Config)
    (f : ConfigComments -> ConfigComments) : Config :=
  mkConfig (_u c) (_doc c) (_line c) (Some (f (comments c))).

(** [Config::make_object] and [Config::make_array]; [addr] is the address
    of the new allocation. *)
Definition make_object (c : Config) (addr : nat) : result Config :=
  assert_type c Uninitialized ;;;
  Ok (mkConfig (VObject addr []) (_doc c) (_line c) (_comments c)).

Definition make_array (c : Config) (addr : nat) : result Config :=
  assert_type c Uninitialized ;;;
  Ok (mkConfig (VArray addr []) (_doc c) (_line c) (_comments c)).

(** [Config::object()] and [Config::array()] *)
Definition Config_object (addr : nat) : Config := Config_of (VObject addr []).
Definition Config_array (addr : nat) : Config := Config_of (VArray addr []).

(** *** Arrays *)

Definition with_array (c : Config) (impl : ConfigArrayImpl) : Config :=
  match _u c with
  | VArray addr _ => mkConfig (VArray addr impl) (_doc c) (_line c) (_comments c)
  | _ => c
  end.

Definition array_size (c : Config) : result Z :=
  array <- as_array c ;; Ok (Z.of_nat (List.length array)).

(** [Config::push_back]: the array after the call. *)
Definition push_back (c : Config) (v : Config) : result Config :=
  array <- as_array c ;; Ok (with_array c (array ++ [v])%list).

(** [const Config& operator[](size_t ix) const] *)
Definition at_index (c : Config) (ix : Z) : result Config :=
  array <- as_array c ;;
  check c (ix <? Z.of_nat (List.length array)) "Array index out of range" ;;;
  Ok (nth (Z.to_nat ix) array Config_default).

(** *** [std::map<std::string, V>] as a list sorted by key *)

Section StdMap.
Context {V : Type}.

Fixpoint map_find (key : string) (m : list (string * V)) : option V :=
  match m with
  | [] => None
  | (k, v) :: m' => if String.eqb k key then Some v else map_find key m'
  end.

Definition map_count (key : string) (m : list (string * V)) : Z :=
  match map_find key m with Some _ => 1 | None => 0 end.

(** [it->second = v] for the iterator [it] of [key]. *)
Fixpoint map_replace (key : string) (v : V) (m : list (string * V))
    : list (string * V) :=
  match m with
  | [] => []
  | (k, x) :: m' =>
      if String.eqb k key then (key, v) :: m'
      else (k, x) :: map_replace key v m'
  end.

(** The insertion of a new [key], at the place the order of the keys
    gives it. *)
Fixpoint map_insert (key : string) (v : V) (m : list (string * V))
    : list (string * V) :=
  match m with
  | [] => [(key, v)]
  | (k, x) :: m' =>
      if String.ltb key k then (key, v) :: (k, x) :: m'
      else (k, x) :: map_insert key v m'
  end.

Fixpoint map_erase (key : string) (m : list (string * V))
    : list (string * V) :=
  match m with
  | [] => []
  | (k, x) :: m' =>
      if String.eqb k key then m' else (k, x) :: map_erase key m'
  end.
End StdMap.

(** *** Objects *)

Definition with_object (c : Config) (impl : ConfigObjectImpl) : Config :=
  match _u c with
  | VObject addr _ => mkConfig (VObject addr impl) (_doc c) (_line c) (_comments c)
  | _ => c
  end.

Definition object_size (c : Config) : result Z :=
  object <- as_object c ;; Ok (Z.of_nat (List.length object)).

(** [Config::has_key] *)
Definition has_key (c : Config) (key : string) : result bool :=
  object <- as_object c ;; Ok (negb (map_count key object =? 0)).

Definition set_accessed (entry : ObjectEntry) (v : bool) : ObjectEntry :=
  mkEntry (value entry) (nr entry) v.

Definition set_value (entry : ObjectEntry) (v : Config) : ObjectEntry :=
  mkEntry v (nr entry) (accessed entry).

(** [const Config& operator[](const std::string& key) const].  The entry
    is [mutable]: the call returns the value found and the object with the
    entry marked as accessed. *)
Definition at_key (c : Config) (key : string) : result (Config * Config) :=
  object <- as_object c ;;
  match map_find key object with
  | None => on_error c ("Key '" ++ key ++ "' not in object")
  | Some entry =>
      Ok (value entry, with_object c (map_replace key (set_accessed entry true) object))
  end.

(** [Config& operator[](const std::string& key)].  The call returns the
    object after it; the reference it returns designates the value of the
    entry at [key] in that object, read with [deref] and written with
    [assign_at] and [move_assign_at]. *)
Definition index (c : Config) (key : string) : result Config :=
  object <- as_object c ;;
  match map_find key object with
  | None =>
      (* [object[key]] has inserted a default entry: a new entry *)
      let nr := unsigned (unsigned (Z.of_nat (List.length object) + 1) - 1) in
      let v := mkConfig (VBadLookup (mkBadLookupInfo (_doc c) (_line c) key))
                        None BAD_ENTRY None in
      Ok (with_object c (map_insert key (mkEntry v nr false) object))
  | Some entry =>
      if nr entry =? BAD_ENTRY then
        let nr := unsigned (unsigned (Z.of_nat (List.length object)) - 1) in
        let v := mkConfig (VBadLookup (mkBadLookupInfo (_doc c) (_line c) key))
                          (_doc (value entry)) (_line (value entry))
                          (_comments (value entry)) in
        Ok (with_object c (map_replace key (mkEntry v nr (accessed entry)) object))
      else
        Ok (with_object c (map_replace key (set_accessed entry true) object))
  end.

Definition deref (c : Config) (key : string) : Config :=
  match map_find key (u_object c) with
  | Some entry => value entry
  | None => Config_default
  end.

Definition update_at (c : Config) (key : string) (f : Config -> Config) : Config :=
  match map_find key (u_object c) with
  | Some entry =>
      with_object c (map_replace key (set_value entry (f (value entry))) (u_object c))
  | None => c
  end.

(** [ref = o] through a reference obtained from [index]. *)
Definition assign_at (c : Config) (key : string) (o : Config) : option Config :=
  match map_find key (u_object c) with
  | Some entry =>
      match assign (value entry) o with
      | Some v => Some (with_object c (map_replace key (set_value entry v) (u_object c)))
      | None => None
      end
  | None => Some c
  end.

Definition move_assign_at (c : Config) (key : string) (o : Config) : Config :=
  update_at c key (fun this => move_assign this o).

(** [Config::erase]: the result and the object after the call. *)
Definition erase (c : Config) (key : string) : result (bool * Config) :=
  object <- as_object c ;;
  match map_find key object with
  | None => Ok (false, c)
  | Some _ => Ok (true, with_object c (map_erase key object))
  end.

(** [Config::get_or], for the conversion [as_T] of the requested type. *)
Definition get_or {T} (as_T : Config -> result T) (c : Config)
    (key : string) (default_value : T) : result (T * Config) :=
  object <- as_object c ;;
  match map_find key object with
  | None => Ok (default_value, c)
  | Some entry =>
      v <- as_T (value entry) ;;
      Ok (v, with_object c (map_replace key (set_accessed entry true) object))
  end.

(** [Config::as_or] *)
Definition as_or {T} (as_T : Config -> result T) (c : Config)
    (default_value : T) : result T :=
  match type c with
  | Uninitialized | BadLookupType => Ok default_value
  | _ => as_T c
  end.

(** *** Deep equality *)

(** [Config::deep_eq] *)
Fixpoint deep_eq (a b : Config) : bool :=
  match _u a, _u b with
  | VNull, VNull => true
  | VBool x, VBool y => Bool.eqb x y
  | VInt x, VInt y => x =? y
  | VFloat x, VFloat y => feq x y
  | VString x, VString y => String.eqb x y
  | VObject a_addr a_object, VObject b_addr b_object =>
      if Nat.eqb a_addr b_addr then true
      else if negb (Nat.eqb (List.length a_object) (List.length b_object)) then false
      else
        (fix each (l : ConfigObjectImpl) : bool :=
           match l with
           | [] => true
           | (key, entry) :: l' =>
               match map_find key b_object with
               | None => false
               | Some it =>
                   if negb (deep_eq (value entry) (value it)) then false
                   else each l'
               end
           end) a_object
  | VArray a_addr a_array, VArray b_addr b_array =>
      if Nat.eqb a_addr b_addr then true
      else if negb (Nat.eqb (List.length a_array) (List.length b_array)) then false
      else
        (* [for i: if (!deep_eq(a_array[i], a_array[i])) return false;] *)
        (fix each (l : ConfigArrayImpl) : bool :=
           match l with
           | [] => true
           | a_i :: l' => if negb (deep_eq a_i a_i) then false else each l'
           end) a_array
  | _, _ => false
  end.

(** *** Dangling keys *)

(** [Config::check_dangling]: the calls of [CONFIGURU_ON_DANGLING(where,
    key)], in order. *)
Fixpoint check_dangling (c : Config) : list (string * string) :=
  match _u c with
  | VObject _ object =>
      (fix each (l : ConfigObjectImpl) : list (string * string) :=
         match l with
         | [] => []
         | (key, entry) :: l' =>
             ((if accessed entry then check_dangling (value entry)
               else [(where_ (value entry), key)]) ++ each l')%list
         end) object
  | VArray _ array =>
      (fix each (l : ConfigArrayImpl) : list (string * string) :=
         match l with
         | [] => []
         | e :: l' => (check_dangling e ++ each l')%list
         end) array
  | _ => []
  end.

(** [Config::mark_accessed]: the value after the call. *)
Fixpoint mark_accessed (v : bool) (c : Config) : Config :=
  match _u c with
  | VObject addr object =>
      mkConfig
        (VObject addr
           ((fix each (l : ConfigObjectImpl) : ConfigObjectImpl :=
               match l with
               | [] => []
               | (key, entry) :: l' =>
                   (key, mkEntry (mark_accessed v (value entry)) (nr entry) v)
                   :: each l'
               end) object))
        (_doc c) (_line c) (_comments c)
  | VArray addr array =>
      mkConfig
        (VArray addr
           ((fix each (l : ConfigArrayImpl) : ConfigArrayImpl :=
               match l with
               | [] => []
               | e :: l' => mark_accessed v e :: each l'
               end) array))
        (_doc c) (_line c) (_comments c)
  | _ => c
  end.

(** ** Format options *)

Record FormatOptions := mkFormatOptions {
  indentation : string;
  enforce_indentation : bool;
  empty_file : bool;
  implicit_top_object : bool;
  implicit_top_array : bool;
  single_line_comments : bool;
  block_comments : bool;
  nesting_block_comments : bool;
  inf : bool;
  nan : bool;
  hexadecimal_integers : bool;
  binary_integers : bool;
  unary_plus : bool;
  array_omit_comma : bool;
  array_trailing_comma : bool;
  identifiers_keys : bool;
  object_separator_equal : bool;
  allow_space_before_colon : bool;
  omit_colon_before_object : bool;
  object_omit_comma : bool;
  object_trailing_comma : bool;
  object_duplicate_keys : bool;
  str_csharp_verbatim : bool;
  str_python_multiline : bool;
  str_32bit_unicode : bool;
  str_allow_tab : bool;
  allow_macro : bool;
  write_comments : bool;
  sort_keys : bool
}.

(** [FormatOptions::compact] *)
Definition compact (o : FormatOptions) : bool :=
  String.eqb (indentation o) "".

(** [static const FormatOptions CFG = FormatOptions();] *)
Definition CFG : FormatOptions :=
  {| indentation := str1 TAB;
     enforce_indentation := true;
     empty_file := false;
     implicit_top_object := true;
     implicit_top_array := true;
     single_line_comments := true;
     block_comments := true;
     nesting_block_comments := true;
     inf := true;
     nan := true;
     hexadecimal_integers := true;
     binary_integers := true;
     unary_plus := true;
     array_omit_comma := true;
     array_trailing_comma := true;
     identifiers_keys := true;
     object_separator_equal := false;
     allow_space_before_colon := false;
     omit_colon_before_object := false;
     object_omit_comma := true;
     object_trailing_comma := true;
     object_duplicate_keys := false;
     str_csharp_verbatim := true;
     str_python_multiline := true;
     str_32bit_unicode := true;
     str_allow_tab := true;
     allow_macro := true;
     write_comments := true;
     sort_keys := false |}.

(** [make_json_options] *)
Definition JSON : FormatOptions :=
  {| indentation := str1 TAB;
     enforce_indentation := false;
     empty_file := false;
     implicit_top_object := false;
     implicit_top_array := false;
     single_line_comments := false;
     block_comments := false;
     nesting_block_comments := false;
     inf := false;
     nan := false;
     hexadecimal_integers := false;
     binary_integers := false;
     unary_plus := false;
     array_omit_comma := false;
     array_trailing_comma := false;
     identifiers_keys := false;
     object_separator_equal := false;
     allow_space_before_colon := true;
     omit_colon_before_object := false;
     object_omit_comma := false;
     object_trailing_comma := false;
     object_duplicate_keys := false;
     str_csharp_verbatim := false;
     str_python_multiline := false;
     str_32bit_unicode := false;
     str_allow_tab := false;
     allow_macro := false;
     write_comments := false;
     sort_keys := false |}.

(** ** UTF-8 *)

(** [encode_utf8]: the bytes appended to [dst]; none on error. *)
Definition encode_utf8 (c : Z) : string :=
  let b (z : Z) := str1 (chr z) in
  if c <=? 0x7F then b c
  else if c <=? 0x7FF then
    b (Z.lor 0xC0 (Z.shiftr c 6)) ++ b (Z.lor 0x80 (Z.land c 0x3F))
  else if c <=? 0xFFFF then
    b (Z.lor 0xE0 (Z.shiftr c 12)) ++
    b (Z.lor 0x80 (Z.land (Z.shiftr c 6) 0x3F)) ++
    b (Z.lor 0x80 (Z.land c 0x3F))
  else if c <=? 0x1FFFFF then
    b (Z.lor 0xF0 (Z.shiftr c 18)) ++
    b (Z.lor 0x80 (Z.land (Z.shiftr c 12) 0x3F)) ++
    b (Z.lor 0x80 (Z.land (Z.shiftr c 6) 0x3F)) ++
    b (Z.lor 0x80 (Z.land c 0x3F))
  else if c <=? 0x3FFFFFF then
    b (Z.lor 0xF8 (Z.shiftr c 24)) ++
    b (Z.lor 0x80 (Z.shiftr c 18)) ++
    b (Z.lor 0x80 (Z.land (Z.shiftr c 12) 0x3F)) ++
    b (Z.lor 0x80 (Z.land (Z.shiftr c 6) 0x3F)) ++
    b (Z.lor 0x80 (Z.land c 0x3F))
  else if c <=? 0x7FFFFFFF then
    b (Z.lor 0xFC (Z.shiftr c 30)) ++
    b (Z.lor 0x80 (Z.land (Z.shiftr c 24) 0x3F)) ++
    b (Z.lor 0x80 (Z.land (Z.shiftr c 18) 0x3F)) ++
    b (Z.lor 0x80 (Z.land (Z.shiftr c 12) 0x3F)) ++
    b (Z.lor 0x80 (Z.land (Z.shiftr c 6) 0x3F)) ++
    b (Z.lor 0x80 (Z.land c 0x3F))
  else "".

(** [quote] *)
Definition quote (c : ascii) : string :=
  if Ascii.eqb c NUL then "<eof>"
  else if Ascii.eqb c " " then "<space>"
  else if Ascii.eqb c LF then "'\n'"
  else if Ascii.eqb c TAB then "'\t'"
  else if Ascii.eqb c CR then "'\r'"
  else if Ascii.eqb c BS then "'\b'"
  else "'" ++ str1 c ++ "'".

(** ** The C library *)

(** What the header uses of [<cstdlib>], after the C standard: [strtoll],
    [strtoull], [strtod] and [strtof].  Each returns the value and the
    number of characters it has consumed ([endptr - nptr]); no conversion
    consumes nothing. *)

Definition isspace (c : ascii) : bool :=
  Ascii.eqb c " " || in_range TAB CR c.

Fixpoint skip_spaces (s : string) : nat * string :=
  match s with
  | String c s' =>
      if isspace c then let (n, r) := skip_spaces s' in (S n, r) else (O, s)
  | EmptyString => (O, s)
  end.

(** The value of a digit in the bases up to 36. *)
Definition digit_value (c : ascii) : option Z :=
  if in_range "0" "9" c then Some (code c - code "0")
  else if in_range "a" "z" c then Some (code c - code "a" + 10)
  else if in_range "A" "Z" c then Some (code c - code "A" + 10)
  else None.

(** The longest run of digits of [base]: their value after [acc], their
    number, and what follows. *)
Fixpoint digits_run (base : Z) (s : string) (acc : Z) : Z * nat * string :=
  match s with
  | String c s' =>
      match digit_value c with
      | Some d =>
          if d <? base then
            let '(v, n, r) := digits_run base s' (acc * base + d) in
            (v, S n, r)
          else (acc, O, s)
      | None => (acc, O, s)
      end
  | EmptyString => (acc, O, s)
  end.

Definition read_sign (s : string) : bool * nat * string :=
  match s with
  | String c s' =>
      if Ascii.eqb c "-" then (true, 1%nat, s')
      else if Ascii.eqb c "+" then (false, 1%nat, s')
      else (false, O, s)
  | EmptyString => (false, O, s)
  end.

(** The subject sequence of [strtol] and its kin: sign, magnitude and
    length, or [None] when there is no digit.  In base 16 a prefix [0x] or
    [0X] is skipped when a digit follows it. *)
Definition integer_subject (base : Z) (s : string) : option (bool * Z * nat) :=
  let (n_ws, s1) := skip_spaces s in
  let '(neg, n_sign, s2) := read_sign s1 in
  let '(n_pre, s3) :=
    match s2 with
    | String z (String x s') =>
        if (base =? 16) && Ascii.eqb z "0" && (Ascii.eqb x "x" || Ascii.eqb x "X") &&
           (let '(_, n, _) := digits_run base s' 0 in negb (Nat.eqb n 0))
        then (2%nat, s') else (O, s2)
    | _ => (O, s2)
    end in
  let '(v, n, _) := digits_run base s3 0 in
  if Nat.eqb n 0 then None
  else Some (neg, v, (n_ws + n_sign + n_pre + n)%nat).

(** [strtoll(nptr, &endptr, base)]: out of range gives [LLONG_MAX] or
    [LLONG_MIN]. *)
Definition strtoll (nptr : string) (base : Z) : Z * nat :=
  match integer_subject base nptr with
  | None => (0, O)
  | Some (neg, v, n) =>
      let x := if neg then - v else v in
      (Z.max INT64_MIN (Z.min INT64_MAX x), n)
  end.

(** [strtoull(nptr, &endptr, base)]: out of range gives [ULLONG_MAX]; a
    minus sign negates in the unsigned type. *)
Definition strtoull (nptr : string) (base : Z) : Z * nat :=
  match integer_subject base nptr with
  | None => (0, O)
  | Some (neg, v, n) =>
      if UINT64_MAX <? v then (UINT64_MAX, n)
      else ((if neg then wrap_unsigned 64 (- v) else v), n)
  end.

(** The decimal number [m * 10^e], correctly rounded to the format of
    precision [prec] and maximal exponent [emax].  An exponent out of any
    range is cut off first: the result is then an infinity or a zero. *)
Definition round_decimal (prec emax : Z) (neg : bool) (m e : Z) (ndigits : Z)
    : spec_float :=
  if m =? 0 then S754_zero neg
  else if 400 <? e then S754_infinity neg
  else if e + ndigits <? - 400 then S754_zero neg
  else if 0 <=? e then binary_normalize prec emax (cond_Zopp neg (m * 10 ^ e)) 0 neg
  else
    SFdiv prec emax (S754_finite neg (Z.to_pos m) 0)
                    (S754_finite false (Z.to_pos (10 ^ (- e))) 0).

(** The subject sequence of [strtod] in its decimal form: digits with an
    optional point, then an optional exponent.  The forms that no caller
    in this program can pass (hexadecimal, [inf], [nan]) convert nothing. *)
Definition decimal_subject (s : string) : option (bool * Z * Z * Z * nat) :=
  let (n_ws, s1) := skip_spaces s in
  let '(neg, n_sign, s2) := read_sign s1 in
  let '(ip, n_ip, s3) := digits_run 10 s2 0 in
  let '(m, n_fp, n_point, s4) :=
    match s3 with
    | String c s' =>
        if Ascii.eqb c "." then
          let '(m, n_fp, r) := digits_run 10 s' ip in (m, n_fp, 1%nat, r)
        else (ip, O, O, s3)
    | EmptyString => (ip, O, O, s3)
    end in
  if Nat.eqb (n_ip + n_fp) 0 then None
  else
    let '(ex, n_ex) :=
      match s4 with
      | String x s' =>
          if Ascii.eqb x "e" || Ascii.eqb x "E" then
            let '(eneg, n_esign, s5) := read_sign s' in
            let '(v, n, _) := digits_run 10 s5 0 in
            if Nat.eqb n 0 then (0, O)
            else ((if eneg then - v else v), (1 + n_esign + n)%nat)
          else (0, O)
      | EmptyString => (0, O)
      end in
    Some (neg, m, ex - Z.of_nat n_fp, Z.of_nat (n_ip + n_fp),
          (n_ws + n_sign + n_ip + n_point + n_fp + n_ex)%nat).

Definition strto_float (prec emax : Z) (nptr : string) : spec_float * nat :=
  match decimal_subject nptr with
  | None => (S754_zero false, O)
  | Some (neg, m, e, ndigits, n) => (round_decimal prec emax neg m e ndigits, n)
  end.

Definition strtod (nptr : string) : double * nat := strto_float 53 1024 nptr.
Definition strtof (nptr : string) : float * nat := strto_float 24 128 nptr.

(** ** The parser *)

(** A [const char*] into the zero-ended text being parsed: the distance
    from the start of the text, and the characters from there to the
    terminating zero. *)
Record cptr := mkPtr { offset : nat; chars : string }.

Fixpoint drop (n : nat) (s : string) : string :=
  match n, s with
  | S n', String _ s' => drop n' s'
  | _, _ => s
  end.

(** [p[i]] *)
Definition peek (p : cptr) (i : nat) : ascii :=
  match String.get i (chars p) with
  | Some c => c
  | None => NUL
  end.

(** [p + n] *)
Definition advance (p : cptr) (n : nat) : cptr :=
  mkPtr (offset p + n) (drop n (chars p)).

(** The text of a [const char*]: up to the first zero. *)
Fixpoint c_string (s : string) : string :=
  match s with
  | String c s' => if Ascii.eqb c NUL then "" else String c (c_string s')
  | EmptyString => ""
  end.

(** [struct State] *)
Record State := mkState {
  ptr : cptr;
  line_nr : Z;
  line_start : cptr
}.

(** The fields of [struct Parser] that change during a parse.  [_next_addr]
    is the address that the next allocation of an array or of an object
    receives. *)
Record Parser := mkParser {
  _ptr : cptr;
  _line_nr : Z;
  _line_start : cptr;
  _indentation : Z;
  _next_addr : nat
}.

(** A member function of [Parser]. *)
Definition M (A : Type) : Type := Parser -> result (A * Parser).

Definition ret {A} (a : A) : M A := fun p => Ok (a, p).

Definition bind {A B} (m : M A) (k : A -> M B) : M B :=
  fun p =>
    match m p with
    | Ok (a, p') => k a p'
    | Throw e => Throw e
    | OutOfFuel => OutOfFuel
    end.

Definition out_of_fuel {A} : M A := fun _ => OutOfFuel.

(** A call of a function of the value model. *)
Definition lift {A} (r : result A) : M A :=
  fun p =>
    match r with
    | Ok a => Ok (a, p)
    | Throw e => Throw e
    | OutOfFuel => OutOfFuel
    end.

Declare Scope parser_scope.
Delimit Scope parser_scope with parser.
Notation "x <- e ;; k" := (bind e (fun x => k))
  (at level 61, e at next level, right associativity) : parser_scope.
Notation "' pat <- e ;; k" := (bind e (fun x => match x with pat => k end))
  (at level 61, pat pattern, e at next level, right associativity) : parser_scope.
Notation "e ;;; k" := (bind e (fun _ => k))
  (at level 61, right associativity) : parser_scope.

Definition get_ptr : M cptr := fun p => Ok (_ptr p, p).

(** [_ptr[i]] *)
Definition at_ptr (i : nat) : M ascii := fun p => Ok (peek (_ptr p) i, p).

(** [_ptr += n] *)
Definition skip (n : nat) : M unit :=
  fun p => Ok (tt, mkParser (advance (_ptr p) n) (_line_nr p) (_line_start p)
                            (_indentation p) (_next_addr p)).

(** [_line_nr += 1; _line_start = _ptr;] *)
Definition new_line : M unit :=
  fun p => Ok (tt, mkParser (_ptr p) (_line_nr p + 1) (_ptr p)
                            (_indentation p) (_next_addr p)).

Definition get_indentation : M Z := fun p => Ok (_indentation p, p).

Definition add_indentation (d : Z) : M unit :=
  fun p => Ok (tt, mkParser (_ptr p) (_line_nr p) (_line_start p)
                            (_indentation p + d) (_next_addr p)).

(** The address of a [new ConfigArray()] or [new ConfigObject()]. *)
Definition new_addr : M nat :=
  fun p => Ok (_next_addr p,
               mkParser (_ptr p) (_line_nr p) (_line_start p)
                        (_indentation p) (S (_next_addr p))).

(** [Parser::get_state] and [Parser::set_state] *)
Definition get_state : M State :=
  fun p => Ok (mkState (_ptr p) (_line_nr p) (_line_start p), p).

Definition set_state (s : State) : M unit :=
  fun p => Ok (tt, mkParser (ptr s) (line_nr s) (line_start s)
                            (_indentation p) (_next_addr p)).

(** [Parser::column] *)
Definition column (p : Parser) : Z :=
  unsigned (Z.of_nat (offset (_ptr p)) - Z.of_nat (offset (_line_start p)) + 1).

(** The length of the line from [s] on: up to a zero, [\r] or [\n]. *)
Fixpoint to_end_of_line (s : string) : nat :=
  match s with
  | String c s' =>
      if Ascii.eqb c CR || Ascii.eqb c LF then O else S (to_end_of_line s')
  | EmptyString => O
  end.

Fixpoint map_chars (f : ascii -> string) (s : string) : string :=
  match s with
  | String c s' => f c ++ map_chars f s'
  | EmptyString => ""
  end.

(** The two lines that [Parser::throw_error] draws under the message: the
    line of the error, and a caret under the column. *)
Definition orientation (p : Parser) : string :=
  let before := (offset (_ptr p) - offset (_line_start p))%nat in
  let sol_to_eol :=
    substring 0 (before + to_end_of_line (chars (_ptr p))) (chars (_line_start p)) in
  let sol_to_ptr := substring 0 before (chars (_line_start p)) in
  map_chars (fun c => if Ascii.eqb c TAB then "    " else str1 c) sol_to_eol ++
  str1 LF ++
  map_chars (fun c => if Ascii.eqb c TAB then "    " else " ") sol_to_ptr ++
  "^".

Definition streq (a b : string) : bool := String.eqb a b.
Definition cheq (a b : ascii) : bool := Ascii.eqb a b.

(** The length of a single-line comment: up to a zero or [\n]. *)
Fixpoint to_newline (s : string) : nat :=
  match s with
  | String c s' => if cheq c LF then O else S (to_newline s')
  | EmptyString => O
  end.

(** [std::string(from, to)] *)
Definition between (from to : cptr) : string :=
  substring 0 (offset to - offset from) (chars from).

Section Parser.
#[local] Open Scope parser_scope.

Variable _options : FormatOptions.
Variable _doc : DocInfo.

(** [ParseError::ParseError] *)
Definition make_ParseError (line column : Z) (msg : string) : exception :=
  ParseError line column
    (filename _doc ++ ":" ++ to_string line ++ ":" ++ to_string column ++
     append_include_info _doc "    " ++ ": " ++ msg).

(** [Parser::throw_error] *)
Definition throw_error {A} (desc : string) : M A :=
  fun p =>
    Throw (make_ParseError (_line_nr p) (column p)
             (desc ++ str1 LF ++ orientation p)).

(** [Parser::throw_indentation_error] *)
Definition throw_indentation_error (found_tabs expected_tabs : Z) : M unit :=
  if enforce_indentation _options then
    throw_error ("Bad indentation: expected " ++ to_string found_tabs ++
                 " tabs, found " ++ to_string expected_tabs)
  else ret tt.

(** [Parser::parse_assert], without and with an error state. *)
Definition parse_assert (b : bool) (error_msg : string) : M unit :=
  if b then ret tt else throw_error error_msg.

Definition parse_assert_at (b : bool) (error_msg : string)
    (error_state : State) : M unit :=
  if b then ret tt else set_state error_state ;;; throw_error error_msg.

(** [Parser::swallow] on a character. *)
Definition swallow (c : ascii) : M unit :=
  c0 <- at_ptr 0 ;;
  if cheq c0 c then skip 1 else throw_error ("Expected " ++ quote c).

(** [Parser::try_swallow] *)
Definition try_swallow (str : string) : M bool :=
  p <- get_ptr ;;
  if String.prefix str (chars p) then skip (String.length str) ;;; ret true
  else ret false.

(** [Parser::swallow] on a string, with its error message. *)
Definition swallow_str (str error_msg : string) : M unit :=
  b <- try_swallow str ;; parse_assert b error_msg.

(** The tables [IDENT_STARTERS] and [IDENT_CHARS], indexed by a [char].
    A [char] above 127 is a negative index; it reads as [false]. *)
Definition IDENT_STARTERS (c : ascii) : bool :=
  cheq c "_" || in_range "a" "z" c || in_range "A" "Z" c.

Definition IDENT_CHARS (c : ascii) : bool :=
  cheq c "_" || in_range "a" "z" c || in_range "A" "Z" c || in_range "0" "9" c.

(** [Parser::is_reserved_identifier] *)
Definition is_reserved_identifier (p : cptr) : bool :=
  if String.prefix "true" (chars p) || String.prefix "null" (chars p) then
    negb (IDENT_CHARS (peek p 4))
  else if String.prefix "false" (chars p) then
    negb (IDENT_CHARS (peek p 5))
  else false.

(** The [do ... while (nesting > 0)] loop of a block comment. *)
Fixpoint block_comment_loop (fuel : nat) (state : State) (nesting : Z)
    : M unit :=
  match fuel with
  | O => out_of_fuel
  | S fuel' =>
      c0 <- at_ptr 0 ;;
      c1 <- at_ptr 1 ;;
      nesting' <-
        (if cheq c0 NUL then
           set_state state ;;; throw_error "Non-ending /* comment"
         else if cheq c0 "/" && cheq c1 "*" then
           skip 2 ;;;
           parse_assert (nesting_block_comments _options)
             "Nesting comments (/* /* */ */) forbidden." ;;;
           ret (nesting + 1)
         else if cheq c0 "*" && cheq c1 "/" then
           skip 2 ;;; ret (nesting - 1)
         else if cheq c0 LF then
           skip 1 ;;; new_line ;;; ret nesting
         else
           skip 1 ;;; ret nesting) ;;
      if 0 <? nesting' then block_comment_loop fuel' state nesting'
      else ret tt
  end.

(** The [for (;;)] loop of [Parser::skip_white].  It yields whether the
    function has returned from inside the loop, the comments found, and
    [out_indentation]. *)
Fixpoint skip_white_loop (fuel : nat) (break_on_newline : bool)
    (out_comments : Comments) (out_indentation : Z) (found_newline : bool)
    : M (bool * Comments * Z) :=
  match fuel with
  | O => out_of_fuel
  | S fuel' =>
      let indentation := indentation _options in
      c0 <- at_ptr 0 ;;
      c1 <- at_ptr 1 ;;
      start <- get_ptr ;;
      if cheq c0 LF then
        skip 1 ;;; new_line ;;;
        if break_on_newline then ret (true, out_comments, 0)
        else skip_white_loop fuel' break_on_newline out_comments 0 true
      else if cheq c0 CR then
        parse_assert (cheq c1 LF) "CR with no LF. \r only allowed before \n." ;;;
        skip 2 ;;; new_line ;;;
        if break_on_newline then ret (true, out_comments, 0)
        else skip_white_loop fuel' break_on_newline out_comments 0 true
      else if negb (streq indentation "") &&
              String.prefix indentation (chars start) then
        skip (String.length indentation) ;;;
        (if enforce_indentation _options && streq indentation (str1 TAB) then
           parse_assert (negb (out_indentation =? -1))
             "Tabs should only occur on the start of a line!"
         else ret tt) ;;;
        skip_white_loop fuel' break_on_newline out_comments
          (out_indentation + 1) found_newline
      else if cheq c0 TAB then
        skip 1 ;;;
        (if enforce_indentation _options then
           parse_assert (negb (out_indentation =? -1))
             "Tabs should only occur on the start of a line!"
         else ret tt) ;;;
        skip_white_loop fuel' break_on_newline out_comments
          (out_indentation + 1) found_newline
      else if cheq c0 " " then
        (if found_newline && enforce_indentation _options then
           if streq indentation (str1 TAB) then
             throw_error "Found a space at beginning of a line. Indentation must be done using tabs!"
           else
             throw_error ("Indentation should be a multiple of " ++
                          to_string (Z.of_nat (String.length indentation)) ++
                          " spaces.")
         else ret tt) ;;;
        skip 1 ;;;
        skip_white_loop fuel' break_on_newline out_comments (-1) found_newline
      else if cheq c0 "/" && cheq c1 "/" then
        parse_assert (single_line_comments _options)
          "Single line comments forbidden." ;;;
        skip (2 + to_newline (drop 2 (chars start))) ;;;
        p <- get_ptr ;;
        let out_comments := (out_comments ++ [between start p])%list in
        if break_on_newline then ret (true, out_comments, 0)
        else skip_white_loop fuel' break_on_newline out_comments 0 found_newline
      else if cheq c0 "/" && cheq c1 "*" then
        parse_assert (block_comments _options) "Block comments forbidden." ;;;
        state <- get_state ;;
        skip 2 ;;;
        block_comment_loop fuel' state 1 ;;;
        p <- get_ptr ;;
        let out_comments := (out_comments ++ [between start p])%list in
        if break_on_newline then ret (true, out_comments, -1)
        else skip_white_loop fuel' break_on_newline out_comments (-1) found_newline
      else
        ret (false, out_comments, out_indentation)
  end.

(** [Parser::skip_white]: whether white-space was skipped, the comments
    found (for a caller that passes [out_comments]), and
    [out_indentation].  Every turn of the loops consumes a character, so
    the length of the text bounds them. *)
Definition skip_white (break_on_newline : bool) : M (bool * Comments * Z) :=
  start_ptr <- get_ptr ;;
  '(returned, out_comments, out_indentation) <-
    skip_white_loop (S (String.length (chars start_ptr))) break_on_newline [] 0 false ;;
  if returned then ret (true, out_comments, out_indentation)
  else
    p <- get_ptr ;;
    if Nat.eqb (offset start_ptr) (offset p) then ret (false, out_comments, -1)
    else ret (true, out_comments, out_indentation).

(** [Parser::skip_white_ignore_comments] *)
Definition skip_white_ignore_comments : M bool :=
  '(did_skip, _, _) <- skip_white false ;; ret did_skip.

(** [Parser::skip_pre_white]: the result, [out_indentation] and
    [*config]. *)
Definition skip_pre_white (config : Config) : M (bool * Z * Config) :=
  '(did_skip, comments, out_indentation) <- skip_white false ;;
  if negb (is_nil comments) then
    ret (did_skip, out_indentation,
         update_comments config (fun c =>
           mkComments (prefix c ++ comments)%list (postfix c) (pre_end_brace c)))
  else ret (did_skip, out_indentation, config).

(** [Parser::skip_post_white]: the result and [*config]. *)
Definition skip_post_white (config : Config) : M (bool * Config) :=
  '(did_skip, comments, _) <- skip_white true ;;
  if negb (is_nil comments) then
    ret (did_skip,
         update_comments config (fun c =>
           mkComments (prefix c) (postfix c ++ comments)%list (pre_end_brace c)))
  else ret (did_skip, config).

(** [Parser::tag] *)
Definition parser_tag (var : Config) : M Config :=
  fun p => Ok (tag var (Some _doc) (_line_nr p) (column p), p).

(** The loop of [Parser::parse_hex]: [n] turns are left, [i] is the
    index. *)
Fixpoint parse_hex_loop (n i : nat) (r : Z) : M Z :=
  match n with
  | O => ret r
  | S n' =>
      let r := wrap_unsigned 64 (r * 16) in
      c <- at_ptr i ;;
      if in_range "0" "9" c then
        parse_hex_loop n' (S i) (wrap_unsigned 64 (r + (code c - code "0")))
      else if in_range "a" "f" c then
        parse_hex_loop n' (S i) (wrap_unsigned 64 (r + (code c - code "a")))
      else if in_range "A" "F" c then
        parse_hex_loop n' (S i) (wrap_unsigned 64 (r + (code c - code "A")))
      else
        c0 <- at_ptr 0 ;;
        throw_error ("Expected hexadecimal digit, got " ++ quote c0)
  end.

(** [Parser::parse_hex] *)
Definition parse_hex (count : nat) : M Z :=
  r <- parse_hex_loop count 0 0 ;;
  skip count ;;;
  ret r.

(** The loop of a C# verbatim string. *)
Fixpoint verbatim_loop (fuel : nat) (state : State) (str : string) : M string :=
  match fuel with
  | O => out_of_fuel
  | S fuel' =>
      c0 <- at_ptr 0 ;;
      c1 <- at_ptr 1 ;;
      if cheq c0 NUL then
        set_state state ;;; throw_error "Unterminated verbatim string"
      else if cheq c0 LF then
        throw_error "Newline in verbatim string"
      else if cheq c0 DQUOTE && cheq c1 DQUOTE then
        skip 2 ;;; verbatim_loop fuel' state (str ++ str1 DQUOTE)
      else if cheq c0 DQUOTE then
        skip 1 ;;; ret str
      else
        skip 1 ;;; verbatim_loop fuel' state (str ++ str1 c0)
  end.

(** The loop of a multiline string. *)
Fixpoint multiline_loop (fuel : nat) (state : State) (start : cptr) : M string :=
  match fuel with
  | O => out_of_fuel
  | S fuel' =>
      c0 <- at_ptr 0 ;;
      c1 <- at_ptr 1 ;;
      c2 <- at_ptr 2 ;;
      c3 <- at_ptr 3 ;;
      if cheq c0 NUL || cheq c1 NUL || cheq c2 NUL then
        set_state state ;;; throw_error "Unterminated multiline string"
      else if cheq c0 DQUOTE && cheq c1 DQUOTE && cheq c2 DQUOTE &&
              negb (cheq c3 DQUOTE) then
        p <- get_ptr ;;
        skip 3 ;;;
        ret (between start p)
      else if cheq c0 LF then
        skip 1 ;;; new_line ;;; multiline_loop fuel' state start
      else
        skip 1 ;;; multiline_loop fuel' state start
  end.

(** The loop of a quoted string with escape sequences. *)
Fixpoint normal_loop (fuel : nat) (state : State) (str : string) : M string :=
  match fuel with
  | O => out_of_fuel
  | S fuel' =>
      c0 <- at_ptr 0 ;;
      if cheq c0 NUL then
        set_state state ;;; throw_error "Unterminated string"
      else if cheq c0 DQUOTE then
        skip 1 ;;; ret str
      else if cheq c0 LF then
        throw_error "Newline in string"
      else
        (if cheq c0 TAB then
           parse_assert (str_allow_tab _options)
             "Un-escaped tab not allowed in string"
         else ret tt) ;;;
        if cheq c0 "\" then
          skip 1 ;;;
          e <- at_ptr 0 ;;
          if cheq e DQUOTE then skip 1 ;;; normal_loop fuel' state (str ++ str1 DQUOTE)
          else if cheq e "\" then skip 1 ;;; normal_loop fuel' state (str ++ "\")
          else if cheq e "/" then skip 1 ;;; normal_loop fuel' state (str ++ "/")
          else if cheq e "b" then skip 1 ;;; normal_loop fuel' state (str ++ str1 BS)
          else if cheq e "f" then skip 1 ;;; normal_loop fuel' state (str ++ str1 FF)
          else if cheq e "n" then skip 1 ;;; normal_loop fuel' state (str ++ str1 LF)
          else if cheq e "r" then skip 1 ;;; normal_loop fuel' state (str ++ str1 CR)
          else if cheq e "t" then skip 1 ;;; normal_loop fuel' state (str ++ str1 TAB)
          else if cheq e "u" then
            skip 1 ;;;
            unicode <- parse_hex 4 ;;
            let bytes := encode_utf8 unicode in
            parse_assert (negb (streq bytes "")) "Bad unicode codepoint" ;;;
            normal_loop fuel' state (str ++ bytes)
          else if cheq e "U" then
            parse_assert (str_32bit_unicode _options)
              "\U 32 bit unicodes forbidden." ;;;
            skip 1 ;;;
            unicode <- parse_hex 8 ;;
            let bytes := encode_utf8 unicode in
            parse_assert (negb (streq bytes "")) "Bad unicode codepoint" ;;;
            normal_loop fuel' state (str ++ bytes)
          else
            throw_error ("Unknown escape character " ++ quote e)
        else
          skip 1 ;;; normal_loop fuel' state (str ++ str1 c0)
  end.

(** [Parser::parse_string].  A turn of a loop consumes a character, so
    the length of the text bounds the loops. *)
Definition Parser_parse_string : M string :=
  state <- get_state ;;
  let fuel := S (String.length (chars (ptr state))) in
  c0 <- at_ptr 0 ;;
  if cheq c0 "@" then
    parse_assert (str_csharp_verbatim _options)
      "C# @-style verbatim strings forbidden." ;;;
    skip 1 ;;;
    swallow DQUOTE ;;;
    verbatim_loop fuel state ""
  else
    parse_assert (cheq c0 DQUOTE) ("Quote (" ++ str1 DQUOTE ++ ") expected") ;;;
    c1 <- at_ptr 1 ;;
    c2 <- at_ptr 2 ;;
    if cheq c1 DQUOTE && cheq c2 DQUOTE then
      parse_assert (str_python_multiline _options)
        ("Python " ++ str1 DQUOTE ++ str1 DQUOTE ++ str1 DQUOTE ++
         "-style multiline strings forbidden.") ;;;
      skip 3 ;;;
      start <- get_ptr ;;
      multiline_loop fuel state start
    else
      skip 1 ;;;
      normal_loop fuel state "".

(** [Parser::parse_finite_number]: the new [dst]. *)
Definition parse_finite_number (dst : Config) : M Config :=
  c0 <- at_ptr 0 ;;
  (if cheq c0 "+" then
     parse_assert (unary_plus _options)
       "Prefixing numbers with + is forbidden." ;;;
     skip 1 ;;;
     skip_white_ignore_comments ;;; ret tt
   else ret tt) ;;;
  c0 <- at_ptr 0 ;;
  sign <-
    (if cheq c0 "-" then
       skip 1 ;;; skip_white_ignore_comments ;;; ret (-1)
     else ret 1) ;;
  c0 <- at_ptr 0 ;;
  c1 <- at_ptr 1 ;;
  parse_assert (negb (cheq c0 "+") && negb (cheq c0 "-")) "Duplicate sign" ;;;
  if cheq c0 "0" && cheq c1 "x" then
    parse_assert (hexadecimal_integers _options)
      "Hexadecimal numbers forbidden." ;;;
    skip 2 ;;;
    start <- get_ptr ;;
    let (v, n) := strtoull (chars start) 16 in
    skip n ;;;
    let dst := move_assign dst (Config_int (int64 (sign * int64 v))) in
    parse_assert (0 <? n)%nat "Missing hexaxdecimal digits after 0x" ;;;
    ret dst
  else if cheq c0 "0" && cheq c1 "b" then
    parse_assert (binary_integers _options) "Binary numbers forbidden." ;;;
    skip 2 ;;;
    start <- get_ptr ;;
    let (v, n) := strtoull (chars start) 2 in
    skip n ;;;
    let dst := move_assign dst (Config_int (int64 (sign * int64 v))) in
    parse_assert (0 <? n)%nat "Missing binary digits after 0b" ;;;
    ret dst
  else
    start <- get_ptr ;;
    let '(_, _, after_digits) := digits_run 10 (chars start) 0 in
    let p := match after_digits with String c _ => c | EmptyString => NUL end in
    if cheq p "." || cheq p "e" || cheq p "E" then
      let (v, n) := strtod (chars start) in
      skip n ;;;
      let dst := move_assign dst
                   (Config_double (SFmul 53 1024 (double_of_int sign) v)) in
      parse_assert (0 <? n)%nat "Invalid float" ;;;
      ret dst
    else
      let (unsigned_number, n) := strtoll (chars start) 10 in
      skip n ;;;
      let dst := move_assign dst (Config_int (int64 (sign * unsigned_number))) in
      parse_assert (0 <? n)%nat "Invalid integer" ;;;
      parse_assert (negb (cheq (peek start 0) "0") || (unsigned_number =? 0))
        "Integer may not start with a zero" ;;;
      ret dst.

(** The loop of [Parser::parse_macro] over the path: the number of
    characters before the one that stops it. *)
Fixpoint include_path_length (terminator : ascii) (s : string) : nat :=
  match s with
  | String c s' =>
      if cheq c terminator || cheq c LF then O
      else S (include_path_length terminator s')
  | EmptyString => O
  end.

(** [my_path.find_last_of('/')], as the length of the directory part. *)
Fixpoint dir_length (s : string) : option nat :=
  match s with
  | String c s' =>
      match dir_length s' with
      | Some n => Some (S n)
      | None => if cheq c "/" then Some 1%nat else None
      end
  | EmptyString => None
  end.

(** [Parser::parse_macro].  The file system is outside of the embedding
    and is taken to hold no file: [read_text_file] fails to open the
    path, so that no file is ever entered into [parsed_files]. *)
Definition parse_macro (dst : Config) : M Config :=
  parse_assert (allow_macro _options) "#macros forbidden." ;;;
  swallow_str "#include" "Expected '#include'" ;;;
  skip_white_ignore_comments ;;;
  c0 <- at_ptr 0 ;;
  '(absolute, terminator) <-
    (if cheq c0 DQUOTE then ret (false, DQUOTE)
     else if cheq c0 "<" then ret (true, ">"%char)
     else throw_error ("Expected " ++ str1 DQUOTE ++ " or <")) ;;
  state <- get_state ;;
  skip 1 ;;;
  start <- get_ptr ;;
  skip (include_path_length terminator (chars start)) ;;;
  stop <- at_ptr 0 ;;
  (if cheq stop NUL then
     set_state state ;;; throw_error "Unterminated include path"
   else if cheq stop terminator then ret tt
   else throw_error "Newline in string") ;;;
  p <- get_ptr ;;
  let path := between start p in
  skip 1 ;;;
  let path :=
    if absolute then path
    else match dir_length (filename _doc) with
         | Some n => substring 0 n (filename _doc) ++ path
         | None => path
         end in
  lift (CONFIGURU_ONERROR ("Failed to open '" ++ path ++
                           "' for reading: No such file or directory")).

(** [Parser::parse_array] and [Parser::parse_object], over the function
    that parses the contents. *)
Definition parse_array_with (parse_array_contents : Config -> M Config)
    (array : Config) : M Config :=
  state <- get_state ;;
  swallow "[" ;;;
  add_indentation 1 ;;;
  array <- parse_array_contents array ;;
  add_indentation (-1) ;;;
  c0 <- at_ptr 0 ;;
  if cheq c0 "]" then skip 1 ;;; ret array
  else set_state state ;;; throw_error "Non-terminated array".

Definition parse_object_with (parse_object_contents : Config -> M Config)
    (object : Config) : M Config :=
  state <- get_state ;;
  swallow "{" ;;;
  add_indentation 1 ;;;
  object <- parse_object_contents object ;;
  add_indentation (-1) ;;;
  c0 <- at_ptr 0 ;;
  if cheq c0 "}" then skip 1 ;;; ret object
  else set_state state ;;; throw_error "Non-terminated object".

(** The start of a turn of the loops of [parse_array_contents] and
    [parse_object_contents]: [Config value] with the prefix comments
    left by the turn before. *)
Definition fresh_value (next_prefix_comments : Comments) : Config :=
  if negb (is_nil next_prefix_comments) then
    update_comments Config_default (fun c =>
      mkComments next_prefix_comments (postfix c) (pre_end_brace c))
  else Config_default.

(** [container.comments().pre_end_brace = value.comments().prefix] when
    [value] has comments. *)
Definition take_pre_end_brace (container value : Config) : Config :=
  if has_comments value then
    update_comments container (fun c =>
      mkComments (prefix c) (postfix c) (prefix (comments value)))
  else container.

(** The key of an entry, in [parse_object_contents]. *)
Fixpoint identifier_length (s : string) : nat :=
  match s with
  | String c s' => if IDENT_CHARS c then S (identifier_length s') else O
  | EmptyString => O
  end.

Definition parse_key : M string :=
  p <- get_ptr ;;
  if IDENT_STARTERS (peek p 0) && negb (is_reserved_identifier p) then
    parse_assert (identifiers_keys _options)
      "You need to surround keys with quotes" ;;;
    let n := identifier_length (chars p) in
    skip n ;;;
    ret (substring 0 n (chars p))
  else if cheq (peek p 0) DQUOTE || cheq (peek p 0) "@" then
    Parser_parse_string
  else
    throw_error ("Object key expected (either an identifier or a quoted string), got "
                 ++ quote (peek p 0)).

(** What follows the key: [:], [=] or nothing, by the options. *)
Definition parse_key_separator : M unit :=
  space_after_key <- skip_white_ignore_comments ;;
  c0 <- at_ptr 0 ;;
  if cheq c0 ":" || (object_separator_equal _options && cheq c0 "=") then
    parse_assert (allow_space_before_colon _options || negb (cheq c0 ":") ||
                  negb space_after_key)
      "No space allowed before colon" ;;;
    skip 1 ;;;
    skip_white_ignore_comments ;;; ret tt
  else if omit_colon_before_object _options && (cheq c0 "{" || cheq c0 "#") then
    ret tt
  else if object_separator_equal _options && omit_colon_before_object _options then
    throw_error "Expected one of '=', ':', '{' or '#' after object key"
  else
    throw_error "Expected : after object key".

(** The check of a container's separators after an element. *)
Definition check_separator (closing : ascii) (omit_comma trailing_comma : bool)
    (has_comma has_separator : bool) (comma_state : State)
    (msg_separator msg_comma : string) : M unit :=
  c0 <- at_ptr 0 ;;
  let is_last_element := cheq c0 NUL || cheq c0 closing in
  if is_last_element then
    parse_assert_at (negb has_comma || trailing_comma)
      "Trailing comma forbidden." comma_state
  else if omit_comma then parse_assert has_separator msg_separator
  else parse_assert has_comma msg_comma.

(** [Parser::parse_value], with the [for (;;)] loops of
    [Parser::parse_array_contents] and [Parser::parse_object_contents].
    [fuel] bounds the depth of the calls and the turns of the loops. *)
Fixpoint parse_value (fuel : nat) (dst : Config) {struct fuel}
    : M (Config * bool) :=
  match fuel with
  | O => out_of_fuel
  | S fuel' =>
      '(_, line_indentation, dst) <- skip_pre_white dst ;;
      dst <- parser_tag dst ;;
      ind <- get_indentation ;;
      (if (0 <=? line_indentation) && negb (ind - 1 =? line_indentation) then
         throw_indentation_error (ind - 1) line_indentation
       else ret tt) ;;;
      c0 <- at_ptr 0 ;;
      c1 <- at_ptr 1 ;;
      c2 <- at_ptr 2 ;;
      c3 <- at_ptr 3 ;;
      c4 <- at_ptr 4 ;;
      c5 <- at_ptr 5 ;;
      dst <-
        (if cheq c0 DQUOTE || cheq c0 "@" then
           s <- Parser_parse_string ;; ret (move_assign dst (Config_string s))
         else if cheq c0 "n" then
           parse_assert (cheq c1 "u" && cheq c2 "l" && cheq c3 "l") "Expected 'null'" ;;;
           parse_assert (negb (IDENT_CHARS c4)) "Expected 'null'" ;;;
           skip 4 ;;;
           ret (move_assign dst Config_nullptr)
         else if cheq c0 "t" then
           parse_assert (cheq c1 "r" && cheq c2 "u" && cheq c3 "e") "Expected 'true'" ;;;
           parse_assert (negb (IDENT_CHARS c4)) "Expected 'true'" ;;;
           skip 4 ;;;
           ret (move_assign dst (Config_bool true))
         else if cheq c0 "f" then
           parse_assert (cheq c1 "a" && cheq c2 "l" && cheq c3 "s" && cheq c4 "e")
             "Expected 'false'" ;;;
           parse_assert (negb (IDENT_CHARS c5)) "Expected 'false'" ;;;
           skip 5 ;;;
           ret (move_assign dst (Config_bool false))
         else if cheq c0 "{" then
           parse_object_with
             (fun object =>
                a <- new_addr ;;
                object <- lift (make_object object a) ;;
                object_loop fuel' object [])
             dst
         else if cheq c0 "[" then
           parse_array_with
             (fun array =>
                a <- new_addr ;;
                array <- lift (make_array array a) ;;
                array_loop fuel' array [])
             dst
         else if cheq c0 "#" then
           parse_macro dst
         else if cheq c0 "+" || cheq c0 "-" || cheq c0 "." || in_range "0" "9" c0 then
           if cheq c0 "-" && cheq c1 "i" && cheq c2 "n" && cheq c3 "f" then
             parse_assert (negb (IDENT_CHARS c4)) "Expected -inf" ;;;
             parse_assert (inf _options) "infinity forbidden." ;;;
             skip 4 ;;;
             ret (move_assign dst (Config_double (SFopp infinity)))
           else if cheq c0 "+" && cheq c1 "i" && cheq c2 "n" && cheq c3 "f" then
             parse_assert (negb (IDENT_CHARS c4)) "Expected +inf" ;;;
             parse_assert (inf _options) "infinity forbidden." ;;;
             skip 4 ;;;
             ret (move_assign dst (Config_double infinity))
           else if cheq c0 "+" && cheq c1 "N" && cheq c2 "a" && cheq c3 "N" then
             parse_assert (negb (IDENT_CHARS c4)) "Expected +NaN" ;;;
             parse_assert (nan _options) "NaN (Not a Number) forbidden." ;;;
             skip 4 ;;;
             ret (move_assign dst (Config_double quiet_NaN))
           else parse_finite_number dst
         else throw_error "Expected value") ;;
      '(did_skip, dst) <- skip_post_white dst ;;
      ret (dst, did_skip)
  end

with array_loop (fuel : nat) (array : Config) (next_prefix_comments : Comments)
    {struct fuel} : M Config :=
  match fuel with
  | O => out_of_fuel
  | S fuel' =>
      let value := fresh_value next_prefix_comments in
      '(_, line_indentation, value) <- skip_pre_white value ;;
      ind <- get_indentation ;;
      p <- get_ptr ;;
      if cheq (peek p 0) "]" then
        (if (0 <=? line_indentation) && negb (ind - 1 =? line_indentation) then
           throw_indentation_error (ind - 1) line_indentation
         else ret tt) ;;;
        ret (take_pre_end_brace array value)
      else if cheq (peek p 0) NUL then
        ret (take_pre_end_brace array value)
      else
        (if (0 <=? line_indentation) && negb (ind =? line_indentation) then
           throw_indentation_error ind line_indentation
         else ret tt) ;;;
        (if IDENT_STARTERS (peek p 0) && negb (is_reserved_identifier p) then
           throw_error "Found identifier; expected value. Did you mean to use a {object} rather than a [array]?"
         else ret tt) ;;;
        '(value, has_separator) <- parse_value fuel' value ;;
        '(_, next_prefix_comments, _) <- skip_white false ;;
        comma_state <- get_state ;;
        c0 <- at_ptr 0 ;;
        let has_comma := cheq c0 "," in
        '(has_separator, value) <-
          (if has_comma then
             skip 1 ;;;
             '(_, value) <- skip_post_white value ;;
             ret (true, value)
           else ret (has_separator, value)) ;;
        array <- lift (push_back array value) ;;
        check_separator "]" (array_omit_comma _options)
          (array_trailing_comma _options) has_comma has_separator comma_state
          "Expected a space, newline, comma or ]" "Expected a comma or ]" ;;;
        array_loop fuel' array next_prefix_comments
  end

with object_loop (fuel : nat) (object : Config) (next_prefix_comments : Comments)
    {struct fuel} : M Config :=
  match fuel with
  | O => out_of_fuel
  | S fuel' =>
      let value := fresh_value next_prefix_comments in
      '(_, line_indentation, value) <- skip_pre_white value ;;
      ind <- get_indentation ;;
      p <- get_ptr ;;
      if cheq (peek p 0) "}" then
        (if (0 <=? line_indentation) && negb (ind - 1 =? line_indentation) then
           throw_indentation_error (ind - 1) line_indentation
         else ret tt) ;;;
        ret (take_pre_end_brace object value)
      else if cheq (peek p 0) NUL then
        ret (take_pre_end_brace object value)
      else
        (if (0 <=? line_indentation) && negb (ind =? line_indentation) then
           throw_indentation_error ind line_indentation
         else ret tt) ;;;
        pre_key_state <- get_state ;;
        key <- parse_key ;;
        dup <- (if negb (object_duplicate_keys _options) then lift (has_key object key)
                else ret false) ;;
        (if dup then
           set_state pre_key_state ;;;
           object' <- lift (index object key) ;;
           throw_error ("Duplicate key: " ++ str1 DQUOTE ++ key ++ str1 DQUOTE ++
                        ". Already set at " ++ where_ (deref object' key))
         else ret tt) ;;;
        parse_key_separator ;;;
        '(value, has_separator) <- parse_value fuel' value ;;
        '(_, next_prefix_comments, _) <- skip_white false ;;
        comma_state <- get_state ;;
        c0 <- at_ptr 0 ;;
        let has_comma := cheq c0 "," in
        '(has_separator, value) <-
          (if has_comma then
             skip 1 ;;;
             '(_, value) <- skip_post_white value ;;
             ret (true, value)
           else ret (has_separator, value)) ;;
        object <- lift (index object key) ;;
        let object := move_assign_at object key value in
        check_separator "}" (object_omit_comma _options)
          (object_trailing_comma _options) has_comma has_separator comma_state
          "Expected a space, newline, comma or }" "Expected a comma or }" ;;;
        object_loop fuel' object next_prefix_comments
  end.

(** [Parser::parse_array_contents] and [Parser::parse_object_contents] *)
Definition parse_array_contents (fuel : nat) (array : Config) : M Config :=
  a <- new_addr ;;
  array <- lift (make_array array a) ;;
  array_loop fuel array [].

Definition parse_object_contents (fuel : nat) (object : Config) : M Config :=
  a <- new_addr ;;
  object <- lift (make_object object a) ;;
  object_loop fuel object [].

(** [Parser::top_level] *)
Definition top_level (fuel : nat) : M Config :=
  is_object <-
    (if implicit_top_object _options then
       state <- get_state ;;
       skip_white_ignore_comments ;;;
       p <- get_ptr ;;
       is_object <-
         (if IDENT_STARTERS (peek p 0) && negb (is_reserved_identifier p) then
            ret true
          else if cheq (peek p 0) DQUOTE || cheq (peek p 0) "@" then
            Parser_parse_string ;;;
            skip_white_ignore_comments ;;;
            c0 <- at_ptr 0 ;;
            ret (cheq c0 ":" || cheq c0 "=")
          else ret false) ;;
       set_state state ;;;
       ret is_object
     else ret false) ;;
  ret_ <- parser_tag Config_default ;;
  ret_ <-
    (if is_object then parse_object_contents fuel ret_
     else
       ret_ <- parse_array_contents fuel ret_ ;;
       n <- lift (array_size ret_) ;;
       parse_assert ((n <=? 1) || implicit_top_array _options)
         "Multiple values not allowed without enclosing []" ;;;
       ret ret_) ;;
  '(_, ret_) <- skip_post_white ret_ ;;
  c0 <- at_ptr 0 ;;
  parse_assert (cheq c0 NUL) "Expected EoF" ;;;
  if negb is_object && (Z.of_nat (List.length (u_array ret_)) =? 0) then
    if empty_file _options then
      a <- new_addr ;;
      ret (mkConfig (VObject a []) None BAD_ENTRY (_comments ret_))
    else throw_error "Empty file"
  else if negb is_object && (Z.of_nat (List.length (u_array ret_)) =? 1) then
    first <- lift (at_index ret_ 0) ;;
    if has_comments ret_ then
      ret (update_comments first (fun c => comments_append c (comments ret_)))
    else ret first
  else ret ret_.
End Parser.

(** [Parser::Parser]: the parser at the start of [str].  [heap] is the
    first address that the parse may allocate at. *)
Definition Parser_new (str : string) (heap : nat) : Parser :=
  let start := mkPtr 0 (c_string str) in
  mkParser start 1 start 0 heap.

(** [parse_string(str, options, doc, info)]: the text is parsed by a new
    [Parser].  The constructor asserts that indentation is not enforced
    under an empty indentation. *)
Definition parse_string_doc (fuel : nat) (str : string) (options : FormatOptions)
    (doc : DocInfo) (heap : nat) : result Config :=
  if negb (streq (indentation options) "") || negb (enforce_indentation options) then
    match top_level options doc fuel (Parser_new str heap) with
    | Ok (c, _) => Ok c
    | Throw e => Throw e
    | OutOfFuel => OutOfFuel
    end
  else Throw (assertion_failed ("_options.indentation != " ++ str1 DQUOTE ++ str1 DQUOTE ++
                            " || !_options.enforce_indentation")).

(** [parse_string(str, options, name)], with the address of the new
    [DocInfo]. *)
Definition parse_string (fuel : nat) (str : string) (options : FormatOptions)
    (name : string) (doc_address heap : nat) : result Config :=
  parse_string_doc fuel str options (mkDocInfo doc_address name []) heap.

(** ** Output of numbers *)

(** What the writer uses of [operator<<] on a [double]: the conversion
    [%g] of [printf] with the precision of the stream, here for a finite
    number, rounded to nearest with ties to even. *)

Definition digit_char (d : Z) : ascii := chr (code "0" + d).

(** The [n] decimal digits of [q], the most significant first. *)
Fixpoint digits_of (n : nat) (q : Z) : string :=
  match n with
  | O => ""
  | S n' => digits_of n' (q / 10) ++ str1 (digit_char (q mod 10))
  end.

Fixpoint strip_trailing_zeros_rev (l : list ascii) : list ascii :=
  match l with
  | c :: l' => if cheq c "0" then strip_trailing_zeros_rev l' else l
  | [] => []
  end.

Definition strip_trailing_zeros (s : string) : string :=
  string_of_list_ascii (rev (strip_trailing_zeros_rev (rev (list_ascii_of_string s)))).

Fixpoint zeros (n : nat) : string :=
  match n with
  | O => ""
  | S n' => String "0" (zeros n')
  end.

(** [num / den] rounded to the nearest integer, ties to even. *)
Definition div_nearest_even (num den : Z) : Z :=
  let q := num / den in
  let r := num mod den in
  match 2 * r ?= den with
  | Lt => q
  | Gt => q + 1
  | Eq => if Z.even q then q else q + 1
  end.

(** [10^x <= num / den], for positive [num] and [den]. *)
Definition pow10_le (x num den : Z) : bool :=
  if 0 <=? x then 10 ^ x * den <=? num else den <=? num * 10 ^ (- x).

(** The decimal exponent of [num / den]: the [x] with
    [10^x <= num / den < 10^(x+1)], found upwards from an under-estimate. *)
Fixpoint exponent10_from (fuel : nat) (x num den : Z) : Z :=
  match fuel with
  | O => x
  | S fuel' =>
      if pow10_le (x + 1) num den then exponent10_from fuel' (x + 1) num den
      else x
  end.

Definition exponent10 (num den : Z) : Z :=
  let l := Z.log2 num - Z.log2 den in
  exponent10_from 8 ((l - 1) * 30103 / 100000 - 2) num den.

(** [num / den] to [P] significant digits: the digits as a number of [P]
    digits, and the decimal exponent of the rounded value. *)
Definition significant_digits (P : Z) (num den : Z) : Z * Z :=
  let x := exponent10 num den in
  let k := x - P + 1 in
  let q := if 0 <=? k then div_nearest_even num (den * 10 ^ k)
           else div_nearest_even (num * 10 ^ (- k)) den in
  if 10 ^ P <=? q then (q / 10, x + 1) else (q, x).

(** The exponent of [%e]: a sign and at least two digits. *)
Definition exponent_text (x : Z) : string :=
  (if x <? 0 then "e-" else "e+") ++
  (if Z.abs x <? 10 then "0" else "") ++ to_string (Z.abs x).

Definition with_fraction (int_part frac : string) : string :=
  let frac := strip_trailing_zeros frac in
  if streq frac "" then int_part else int_part ++ "." ++ frac.

(** [%.Pg] of a positive number [num / den]. *)
Definition format_g_pos (P : Z) (num den : Z) : string :=
  let (q, x) := significant_digits P num den in
  let ds := digits_of (Z.to_nat P) q in
  if (x <? -4) || (P <=? x) then
    with_fraction (substring 0 1 ds) (drop 1 ds) ++ exponent_text x
  else if 0 <=? x then
    with_fraction (substring 0 (Z.to_nat (x + 1)) ds) (drop (Z.to_nat (x + 1)) ds)
  else
    with_fraction "0" (zeros (Z.to_nat (- x - 1)) ++ ds).

(** [os << std::setprecision(precision) << d] *)
Definition format_double (precision : Z) (d : double) : string :=
  let P := if precision =? 0 then 1 else precision in
  match d with
  | S754_zero s => if s then "-0" else "0"
  | S754_infinity s => if s then "-inf" else "inf"
  | S754_nan => "nan"
  | S754_finite s m e =>
      (if s then "-" else "") ++
      match e with
      | Zneg p => format_g_pos P (Zpos m) (2 ^ Zpos p)
      | _ => format_g_pos P (Zpos m * 2 ^ e) 1
      end
  end.

(** ** The writer *)

Definition is_ident_start (c : ascii) : bool :=
  cheq c "_" || in_range "a" "z" c || in_range "A" "Z" c.

Fixpoint all_ident_chars (s : string) : bool :=
  match s with
  | String c s' =>
      if is_ident_start c || in_range "0" "9" c then all_ident_chars s' else false
  | EmptyString => true
  end.

(** [is_identifier], on the text [p] of a [const char*]. *)
Definition is_identifier (p : string) : bool :=
  match c_string p with
  | String c s' => if is_ident_start c then all_ident_chars s' else false
  | EmptyString => false
  end.

(** [is_simple] *)
Definition is_simple (var : Config) : bool :=
  if is_array var || is_object var then false
  else if has_comments var then false
  else true.

(** [is_all_numbers] *)
Definition is_all_numbers (array : Config) : bool :=
  forallb is_number (u_array array).

(** [is_simple_array] *)
Definition is_simple_array (array : Config) : bool :=
  let size := Z.of_nat (List.length (u_array array)) in
  if (size <=? 16) && is_all_numbers array then true
  else if 4 <? size then false
  else forallb is_simple (u_array array).

(** [has_pre_end_brace_comments] *)
Definition has_pre_end_brace_comments (cfg : Config) : bool :=
  has_comments cfg && negb (is_nil (pre_end_brace (comments cfg))).

Fixpoint repeat_string (n : nat) (s : string) : string :=
  match n with
  | O => ""
  | S n' => s ++ repeat_string n' s
  end.

Definition contains (sub s : string) : bool :=
  match String.index 0 sub s with
  | Some _ => true
  | None => false
  end.

(** A stable insertion sort, for [std::sort] over the entries of an
    object.  ([std::sort] leaves the order of equal elements open; the
    keys of a map are distinct, and so are the [nr] of the entries that
    the parser makes.) *)
Section Sort.
Context {A : Type} (lt : A -> A -> bool).

Fixpoint insert_sorted (x : A) (l : list A) : list A :=
  match l with
  | [] => [x]
  | y :: l' => if lt y x then y :: insert_sorted x l' else x :: l
  end.

Definition sort (l : list A) : list A :=
  fold_right insert_sorted [] l.
End Sort.

Section Writer.
Variable _options : FormatOptions.

(** [Writer::write_indent] *)
Definition write_indent (indent : nat) : string :=
  if compact _options then "" else repeat_string indent (indentation _options).

(** [Writer::write_prefix_comments] *)
Definition write_prefix_comments (indent : nat) (comments : Comments) : string :=
  if negb (write_comments _options) then ""
  else if negb (is_nil comments) then
    str1 LF ++
    String.concat "" (map (fun c => write_indent indent ++ c ++ str1 LF) comments)
  else "".

(** [Writer::write_postfix_comments] *)
Definition write_postfix_comments (indent : nat) (comments : Comments) : string :=
  if negb (write_comments _options) then ""
  else String.concat "" (map (fun c => " " ++ c) comments).

(** [Writer::write_pre_brace_comments] *)
Definition write_pre_brace_comments (indent : nat) (comments : Comments) : string :=
  write_prefix_comments indent comments.

(** [Writer::write_hex_digit]: [num] is an [unsigned], and so is
    ['a' + num - 10], which the stream prints as a number. *)
Definition write_hex_digit (num : Z) : string :=
  if num <? 10 then to_string num
  else to_string (unsigned (code "a" + num - 10)).

(** [Writer::write_hex_16] *)
Definition write_hex_16 (n : Z) : string :=
  write_hex_digit (Z.land (Z.shiftr n 12) 0x0f) ++
  write_hex_digit (Z.land (Z.shiftr n 8) 0x0f) ++
  write_hex_digit (Z.land (Z.shiftr n 4) 0x0f) ++
  write_hex_digit (Z.land (Z.shiftr n 0) 0x0f).

(** [Writer::write_unicode_16] *)
Definition write_unicode_16 (c : Z) : string := "\u" ++ write_hex_16 c.

(** [Writer::write_quoted_string] *)
Definition write_quoted_string (str : string) : string :=
  str1 DQUOTE ++
  map_chars (fun c =>
    if cheq c "\" then "\\"
    else if cheq c DQUOTE then "\" ++ str1 DQUOTE
    else if cheq c NUL then "\0"
    else if cheq c BS then "\b"
    else if cheq c FF then "\f"
    else if cheq c LF then "\n"
    else if cheq c CR then "\r"
    else if cheq c TAB then "\t"
    else if code c <? 0x20 then write_unicode_16 (code c)
    else str1 c) str ++
  str1 DQUOTE.

(** [Writer::write_verbatim_string] *)
Definition write_verbatim_string (str : string) : string :=
  let q3 := str1 DQUOTE ++ str1 DQUOTE ++ str1 DQUOTE in
  q3 ++ str ++ q3.

(** [Writer::write_string] *)
Definition write_string (str : string) : string :=
  let LONG_LINE := 240%nat in
  if negb (str_python_multiline _options) ||
     negb (contains (str1 LF) str) ||
     (String.length str <? LONG_LINE)%nat ||
     contains (str1 DQUOTE ++ str1 DQUOTE ++ str1 DQUOTE) str
  then write_quoted_string str
  else write_verbatim_string str.

(** [Writer::write_key] *)
Definition write_key (str : string) : string :=
  if identifiers_keys _options && is_identifier str then str
  else write_string str.

(** [Writer::write_number] *)
Definition write_number (val : double) : result string :=
  let as_int := int64_of_double val in
  if feq (double_of_int as_int) val then Ok (to_string as_int)
  else if isfinite val then
    let as_float := float_of_double val in
    if feq (double_of_float as_float) val then
      let str := format_double 6 (double_of_float as_float) in
      if feq (fst (strtof str)) as_float then Ok str
      else Ok (format_double 8 (double_of_float as_float))
    else
      let str := format_double 6 val in
      if feq (fst (strtod str)) val then Ok str
      else Ok (format_double 16 val)
  else if feq val infinity then
    if negb (inf _options) then CONFIGURU_ONERROR "Can't encode infinity"
    else Ok "+inf"
  else if feq val (SFopp infinity) then
    if negb (inf _options) then CONFIGURU_ONERROR "Can't encode negative infinity"
    else Ok "-inf"
  else
    if negb (nan _options) then CONFIGURU_ONERROR "Can't encode NaN"
    else Ok "+NaN".

(** An entry of an object on its way to the output: the key, the entry,
    and what [write_value] gives for its value. *)
Definition Pair : Type := string * ObjectEntry * result string.

Definition pair_key (p : Pair) : string := fst (fst p).
Definition pair_entry (p : Pair) : ObjectEntry := snd (fst p).
Definition pair_text (p : Pair) : result string := snd p.

(** The loop of [Writer::write_object_contents] over the sorted pairs;
    [left] pairs are left after this one. *)
Fixpoint write_pairs (indent longest_key : nat) (pairs : list Pair)
    : result string :=
  match pairs with
  | [] => Ok ""
  | p :: pairs' =>
      let value := value (pair_entry p) in
      let key := pair_key p in
      let head :=
        write_prefix_comments indent (prefix (comments value)) ++
        write_indent indent ++
        write_key key ++
        (if compact _options then ":"
         else if omit_colon_before_object _options && is_object value &&
                 negb (Nat.eqb (List.length (u_object value)) 0) then " "
         else ": " ++ repeat_string (longest_key - String.length key) " ") in
      text <- pair_text p ;;
      let tail :=
        if compact _options then
          if is_nil pairs' then "" else ","
        else if array_omit_comma _options || is_nil pairs' then str1 LF
        else "," ++ str1 LF in
      rest <- write_pairs indent longest_key pairs' ;;
      Ok (head ++ text ++ tail ++ rest)
  end.

(** [Writer::write_object_contents], over the function that writes a
    value. *)
Definition write_object_contents_with
    (write_value : nat -> Config -> bool -> bool -> result string)
    (indent : nat) (object : ConfigObjectImpl) (pre_end_brace : Comments)
    : result string :=
  let pairs : list Pair :=
    map (fun p => (fst p, snd p, write_value indent (value (snd p)) false true))
        object in
  let longest_key :=
    fold_left (fun m p => Nat.max m (String.length (fst p))) object O in
  let pairs :=
    if sort_keys _options then
      sort (fun a b => String.ltb (pair_key a) (pair_key b)) pairs
    else
      sort (fun a b => nr (pair_entry a) <? nr (pair_entry b)) pairs in
  text <- write_pairs indent longest_key pairs ;;
  Ok (text ++ write_pre_brace_comments indent pre_end_brace).

(** The elements of an array on one line, and one on each line. *)
Fixpoint write_elements_inline (texts : list (result string)) : result string :=
  match texts with
  | [] => Ok ""
  | t :: texts' =>
      text <- t ;;
      let sep :=
        if compact _options then
          if is_nil texts' then "" else ","
        else if array_omit_comma _options || is_nil texts' then " "
        else ", " in
      rest <- write_elements_inline texts' ;;
      Ok (text ++ sep ++ rest)
  end.

Fixpoint write_elements_lines (indent : nat)
    (texts : list (Config * result string)) : result string :=
  match texts with
  | [] => Ok ""
  | (element, t) :: texts' =>
      let head :=
        write_prefix_comments (indent + 1) (prefix (comments element)) ++
        write_indent (indent + 1) in
      text <- t ;;
      let sep :=
        if array_omit_comma _options || is_nil texts' then str1 LF
        else "," ++ str1 LF in
      rest <- write_elements_lines indent texts' ;;
      Ok (head ++ text ++ sep ++ rest)
  end.

(** [write_text_file].  The file system is outside of the embedding: no
    file can be opened. *)
Definition write_text_file (path data : string) : result unit :=
  CONFIGURU_ONERROR ("Failed to open '" ++ path ++
                     "' for writing: No such file or directory").

(** [Writer::write_value]; [w_doc] is the document [_doc] of the writer.
    At a value of another document the function calls [write_file], and
    through it [write] for a writer of that document: [as_root] is what
    that writer does with the value. *)
Fixpoint write_value (w_doc : DocInfo_SP) (indent : nat) (config : Config)
    (write_prefix write_postfix : bool) {struct config} : result string :=
  let body (w_doc : DocInfo_SP) (indent : nat) (write_prefix write_postfix : bool)
      : result string :=
    let pre :=
      if write_prefix then write_prefix_comments indent (prefix (comments config))
      else "" in
    text <-
      match _u config with
      | VNull => Ok "null"
      | VBool _ => b <- as_bool config ;; Ok (if b then "true" else "false")
      | VInt _ => i <- as_integer signed_long config ;; Ok (to_string i)
      | VFloat _ => d <- as_double config ;; write_number d
      | VString _ => s <- as_string config ;; Ok (write_string s)
      | VArray _ array =>
          if Nat.eqb (List.length array) 0 && negb (has_pre_end_brace_comments config) then
            Ok (if compact _options then "[]" else "[ ]")
          else if compact _options || is_simple_array config then
            elements <- write_elements_inline
                          (map (fun e => write_value w_doc (indent + 1) e false true) array) ;;
            Ok ("[" ++ (if negb (compact _options) then " " else "") ++
                elements ++
                write_pre_brace_comments (indent + 1) (pre_end_brace (comments config)) ++
                "]")
          else
            elements <- write_elements_lines indent
                          (map (fun e => (e, write_value w_doc (indent + 1) e false true)) array) ;;
            Ok ("[" ++ str1 LF ++ elements ++
                write_pre_brace_comments (indent + 1) (pre_end_brace (comments config)) ++
                write_indent indent ++ "]")
      | VObject _ object =>
          if Nat.eqb (List.length object) 0 && negb (has_pre_end_brace_comments config) then
            Ok (if compact _options then "{}" else "{ }")
          else
            contents <- write_object_contents_with (write_value w_doc) (indent + 1)
                          object (pre_end_brace (comments config)) ;;
            Ok ((if compact _options then "{" else "{" ++ str1 LF) ++
                contents ++ write_indent indent ++ "}")
      | _ => Throw (runtime_error "Cannot serialize Config")
      end ;;
    Ok (pre ++ text ++
        (if write_postfix then write_postfix_comments indent (postfix (comments config))
         else "")) in
  match _doc config with
  | Some doc =>
      if allow_macro _options && negb (doc_eq (_doc config) w_doc) then
        let as_root :=
          match _u config with
          | VObject _ object =>
              if implicit_top_object _options then
                write_object_contents_with (write_value (_doc config)) 0 object
                  (pre_end_brace (comments config))
              else text <- body (_doc config) O true true ;; Ok (text ++ str1 LF)
          | _ => text <- body (_doc config) O true true ;; Ok (text ++ str1 LF)
          end in
        str <- as_root ;;
        write_text_file (filename doc) str ;;;
        Ok ("#include <" ++ filename doc ++ ">")
      else body w_doc indent write_prefix write_postfix
  | None => body w_doc indent write_prefix write_postfix
  end.

(** [Writer::write_object_contents] *)
Definition write_object_contents (w_doc : DocInfo_SP) (indent : nat)
    (config : Config) : result string :=
  object <- as_object config ;;
  write_object_contents_with (write_value w_doc) indent object
    (pre_end_brace (comments config)).
End Writer.

(** [write] *)
Definition write (config : Config) (options : FormatOptions) : result string :=
  let w_doc := _doc config in
  if implicit_top_object options && is_object config then
    write_object_contents options w_doc 0 config
  else
    text <- write_value options w_doc 0 config true true ;;
    Ok (text ++ str1 LF).

(** ** The typed accessors as a family *)

(** The typed accessors of [Config], named after the member functions, with
    the type each requests in [assert_type] and what each returns. *)
Inductive accessor :=
| acc_as_string | acc_c_str | acc_as_bool | acc_as_integer (T : IntT)
| acc_as_float | acc_as_double | acc_as_array | acc_as_object.

Inductive read_value :=
| RString (s : string) | RBool (b : bool) | RInteger (i : Z)
| RFloat (f : float) | RDouble (d : double)
| RArray (a : ConfigArrayImpl) | RObject (o : ConfigObjectImpl).

Definition requested (a : accessor) : Type_ :=
  match a with
  | acc_as_string | acc_c_str => String_
  | acc_as_bool => Bool
  | acc_as_integer _ => Int
  | acc_as_float | acc_as_double => Float
  | acc_as_array => Array
  | acc_as_object => Object
  end.

Definition rmap {A B} (f : A -> B) (r : result A) : result B :=
  x <- r ;; Ok (f x).

Definition read (a : accessor) (c : Config) : result read_value :=
  match a with
  | acc_as_string => rmap RString (as_string c)
  | acc_c_str => rmap RString (c_str c)
  | acc_as_bool => rmap RBool (as_bool c)
  | acc_as_integer T => rmap RInteger (as_integer T c)
  | acc_as_float => rmap RFloat (as_float c)
  | acc_as_double => rmap RDouble (as_double c)
  | acc_as_array => rmap RArray (as_array c)
  | acc_as_object => rmap RObject (as_object c)
  end.

(** The messages of the errors of the accessors.  The one of a type
    mismatch ends in a hint for a value that was never initialized. *)
Definition type_mismatch_message (c : Config) (expected : Type_) : string :=
  where_ c ++ "Expected " ++ type_str expected ++ ", got " ++ type_str (type c) ++
  match type c, expected with
  | Uninitialized, Object => ". Did you forget to call Config::object()?"
  | Uninitialized, Array => ". Did you forget to call Config::array()?"
  | _, _ => ""
  end.

Definition missing_key_message (doc : DocInfo_SP) (line : Z) (key : string) : string :=
  where_is doc line ++ "Failed to find key '" ++ key ++ "'".

Definition magnitude_message (c : Config) : string :=
  where_ c ++ "Integer out of range".

(** ** Sample documents and values *)

Definition sample_doc : DocInfo := mkDocInfo 0 "sample.cfg" [].

(** The document [{"a": 1, "b": 2}]. *)
Definition text_a1_b2 : string :=
  "{" ++ str1 DQUOTE ++ "a" ++ str1 DQUOTE ++ ": 1, " ++
  str1 DQUOTE ++ "b" ++ str1 DQUOTE ++ ": 2}".

(** The documents [a:\n\t1] and [a:\n1], and [{\na: 1\n}]. *)
Definition text_a_tab_1 : string := "a:" ++ str1 LF ++ str1 TAB ++ "1".
Definition text_a_1 : string := "a:" ++ str1 LF ++ "1".
Definition text_unindented_entry : string :=
  "{" ++ str1 LF ++ "a: 1" ++ str1 LF ++ "}".

(** The document [[1 // c\n2]]: an array of two numbers, the first with a
    comment after it. *)
Definition text_commented_array : string := "[1 // c" ++ str1 LF ++ "2]".

(** The string literal ["\u00e9"]. *)
Definition text_u00e9 : string := str1 DQUOTE ++ "\u00e9" ++ str1 DQUOTE.

(** The array that [text_commented_array] parses to, as a host builds it. *)
Definition commented_array : Config :=
  Config_of (VArray 0
    [mkConfig (VInt 1) None BAD_ENTRY (Some (mkComments [] ["// c"] []));
     Config_int 2]).

(** The result of [cfg["missing"]] on an empty object without document. *)
Definition bad_lookup_missing : Config :=
  Config_of (VBadLookup (mkBadLookupInfo None BAD_ENTRY "missing")).

(** An object with one entry, under the key [present]. *)
Definition object_present : Config :=
  Config_of (VObject 0 [("present", mkEntry (Config_int 1) 0 false)]).

(** An object whose entry [outer] was never read and holds an object with
    two entries. *)
Definition object_nested_unread : Config :=
  Config_of (VObject 0
    [("outer",
      mkEntry (Config_of (VObject 1 [("x", mkEntry (Config_int 1) 0 false);
                                     ("y", mkEntry (Config_int 2) 1 false)]))
              0 false)]).

(** The claim about an array on a single line, in the words of the
    specification: all elements are non-container and comment-free, and
    either all are numeric and there are at most 16, or there are at most
    4. *)
Definition single_line_by_spec (array : Config) : bool :=
  let elements := u_array array in
  forallb is_simple elements &&
  ((forallb is_number elements && (Z.of_nat (List.length elements) <=? 16)) ||
   (Z.of_nat (List.length elements) <=? 4)).

(** Whether a text holds a line break before its end. *)
Definition single_line (text : string) : bool :=
  negb (contains (str1 LF) (pop_back text)).

(** A decimal integer token: a run of decimal digits, and its usual
    reading in base 10. *)
Fixpoint all_digits (s : string) : bool :=
  match s with
  | String c s' => is_digit c && all_digits s'
  | EmptyString => true
  end.

Fixpoint decimal_reading_from (acc : Z) (s : string) : Z :=
  match s with
  | String c s' => decimal_reading_from (acc * 10 + (code c - code "0")) s'
  | EmptyString => acc
  end.

Definition decimal_reading (s : string) : Z := decimal_reading_from 0 s.

(** What may follow an integer token: no digit, and none of the characters
    that make the token a float. *)
Definition ends_integer (rest : string) : bool :=
  match rest with
  | String c _ =>
      negb (is_digit c) && negb (cheq c ".") && negb (cheq c "e") && negb (cheq c "E")
  | EmptyString => true
  end.

(** The indentation unit of a dialect does not begin with a digit (it is
    made of tabs or spaces). *)
Definition indentation_no_digit (o : FormatOptions) : bool :=
  match indentation o with
  | String x _ => negb (is_digit x)
  | EmptyString => true
  end.

(** The parser at a position where the text [s] is left, and the same
    parser [n] characters further. *)
Definition parser_at (s : string) (p : Parser) : Prop := chars (_ptr p) = s.

Definition parser_skip (n : nat) (p : Parser) : Parser :=
  mkParser (advance (_ptr p) n) (_line_nr p) (_line_start p)
           (_indentation p) (_next_addr p).

(** A step of a member function of the parser: the results of the calls
    are matched, and [rw] rewrites with what is known of the text. *)
Ltac parser_steps rw :=
  repeat progress (cbv beta iota; unfold ret; rw;
                   cbn [String.get append negb andb orb]).

(** ** The order of the keys of a [std::map] *)

(** The keys of a [std::map<std::string, V>] are strictly increasing: each
    key is less than every key after it. *)
Fixpoint keys_increasing {V : Type} (m : list (string * V)) : bool :=
  match m with
  | [] => true
  | (k, _) :: m' => forallb (fun p => String.ltb k (fst p)) m' && keys_increasing m'
  end.

(** ** More sample values *)

(** The object [{a: 1, b: 2}], whose entry [b] has been read. *)
Definition object_a1_b2 : Config :=
  Config_of (VObject 0 [("a", mkEntry (Config_int 1) 0 false);
                        ("b", mkEntry (Config_int 2) 1 true)]).

(** The array [[1, 2]]. *)
Definition array_1_2 : Config :=
  Config_of (VArray 0 [Config_int 1; Config_int 2]).

(** ** Quoted strings *)

(** What [Writer::write_quoted_string] writes for one character. *)
Definition quoted_char (c : ascii) : string :=
  if cheq c "\" then "\\"
  else if cheq c DQUOTE then "\" ++ str1 DQUOTE
  else if cheq c NUL then "\0"
  else if cheq c BS then "\b"
  else if cheq c FF then "\f"
  else if cheq c LF then "\n"
  else if cheq c CR then "\r"
  else if cheq c TAB then "\t"
  else if code c <? 0x20 then write_unicode_16 (code c)
  else str1 c.

(** The characters that [write_quoted_string] writes as they are or with
    one of the two-character escapes (of the backslash, the quote, and the
    control characters BS, FF, LF, CR and TAB): all but the zero and the
    other control characters. *)
Definition quotes_plainly (c : ascii) : bool :=
  (0x20 <=? code c) || cheq c BS || cheq c FF || cheq c LF || cheq c CR || cheq c TAB.

(** The control characters that [write_quoted_string] writes as a \u
    escape, and whose escape has a last digit below ten. *)
Definition escapes_in_digits (c : ascii) : bool :=
  (0 <? code c) && (code c <? 0x20) && (code c mod 16 <? 10).

(** The control characters that [write_quoted_string] writes as a \u
    escape, and whose escape has a last digit of ten or more. *)
Definition escapes_in_letters (c : ascii) : bool :=
  (code c <? 0x20) && (10 <=? code c mod 16) &&
  negb (cheq c FF || cheq c LF || cheq c CR).

(** The characters of [quotes_plainly] and of [escapes_in_digits]. *)
Definition quotes_readably (c : ascii) : bool :=
  quotes_plainly c || escapes_in_digits c.

(** The parser with its pointer at [ptr]. *)
Definition parser_with_ptr (ptr : cptr) (p : Parser) : Parser :=
  mkParser ptr (_line_nr p) (_line_start p) (_indentation p) (_next_addr p).

(** The comparisons of two known characters are decided. *)
Ltac decide_cheq :=
  repeat match goal with
         | |- context [Ascii.eqb ?a ?b] =>
             let v := eval vm_compute in (Ascii.eqb a b) in
             first [ constr_eq v true; change (Ascii.eqb a b) with true
                   | constr_eq v false; change (Ascii.eqb a b) with false ]
         end.

(** A string with a quote, a backslash, a tab, a newline and the control
    character 0x12 in it. *)
Definition string_with_escapes : string :=
  "a" ++ str1 DQUOTE ++ "\" ++ str1 TAB ++ str1 LF ++ str1 (chr 0x12) ++ "z".

(** ** Hexadecimal tokens *)

(** The reading in base 16 of a run of decimal digits. *)
Fixpoint hexadecimal_reading_from (acc : Z) (s : string) : Z :=
  match s with
  | String c s' => hexadecimal_reading_from (acc * 16 + (code c - code "0")) s'
  | EmptyString => acc
  end.

Definition hexadecimal_reading (s : string) : Z := hexadecimal_reading_from 0 s.

(** ** UTF-8 sequences *)

(** The six payload bits of a continuation byte [10xxxxxx]. *)
Definition utf8_continuation (b : ascii) : option Z :=
  if (0x80 <=? code b) && (code b <? 0xC0) then Some (code b - 0x80) else None.


(** ** Keys *)

(** What may follow a bare key: no character of an identifier. *)
Definition ends_identifier (rest : string) : bool :=
  match rest with
  | String c _ => negb (IDENT_CHARS c)
  | EmptyString => true
  end.

(** ** Deep copies *)

(** [Config(const Config& o)]: a new value assigned from [o]; there is
    none where the assignment is undefined, for a [BadLookupType] value. *)
Definition Config_copy (o : Config) : option Config := assign Config_default o.

(** The loops of [Config::deep_clone], over the function that clones a
    value; [next] is the address of the next allocation. *)
Section DeepCloneLoops.
Variable deep_clone : Config -> nat -> option (Config * nat).

(** [dst = ret._u.object->impl[p.first]; dst.nr = p.second.nr;
    dst.value = p.second.value.deep_clone();] for each entry. *)
Fixpoint clone_entries (l : ConfigObjectImpl) (impl : ConfigObjectImpl) (next : nat)
    : option (ConfigObjectImpl * nat) :=
  match l with
  | [] => Some (impl, next)
  | (key, entry) :: l' =>
      match deep_clone (value entry) next with
      | Some (clone, next) =>
          let impl :=
            match map_find key impl with
            | Some dst =>
                map_replace key
                  (mkEntry (move_assign (value dst) clone) (nr entry) (accessed dst)) impl
            | None =>
                map_insert key
                  (mkEntry (move_assign Config_default clone) (nr entry) false) impl
            end in
          clone_entries l' impl next
      | None => None
      end
  end.

(** [ret.push_back(value.deep_clone())] for each element. *)
Fixpoint clone_elements (l : ConfigArrayImpl) (impl : ConfigArrayImpl) (next : nat)
    : option (ConfigArrayImpl * nat) :=
  match l with
  | [] => Some (impl, next)
  | value :: l' =>
      match deep_clone value next with
      | Some (clone, next) => clone_elements l' (impl ++ [clone])%list next
      | None => None
      end
  end.
End DeepCloneLoops.

(** [Config::deep_clone]: the clone, and the address of the next
    allocation after the call.  [ret] is a copy of [*this], so [ret._type]
    is the type of [*this]; the loops run over [this->as_object()] and
    [this->as_array()].  There is no clone where a copy is undefined: of a
    [BadLookupType] value, or of a value that holds one. *)
Fixpoint deep_clone (c : Config) (next : nat) {struct c} : option (Config * nat) :=
  match Config_copy c with
  | Some ret =>
      match _u c with
      | VObject _ object =>
          let ret := move_assign ret (Config_object next) in
          match clone_entries deep_clone object [] (S next) with
          | Some (impl, next) => Some (with_object ret impl, next)
          | None => None
          end
      | VArray _ array =>
          let ret := move_assign ret (Config_array next) in
          match clone_elements deep_clone array [] (S next) with
          | Some (impl, next) => Some (with_array ret impl, next)
          | None => None
          end
      | _ => Some (ret, next)
      end
  | None => None
  end.

(** No [BadLookupType] value in the value: the value is none, and no
    element and no value of an entry holds one, at any depth. *)
Fixpoint holds_no_sentinel (c : Config) : bool :=
  match _u c with
  | VBadLookup _ => false
  | VObject _ object =>
      forallb (fun p : string * ObjectEntry => holds_no_sentinel (value (snd p))) object
  | VArray _ array => forallb holds_no_sentinel array
  | _ => true
  end.

(** The addresses of the allocations that a value holds, the one of the
    value first. *)
Fixpoint addresses (c : Config) : list nat :=
  match _u c with
  | VObject addr object =>
      addr :: flat_map (fun p : string * ObjectEntry => addresses (value (snd p))) object
  | VArray addr array => addr :: flat_map addresses array
  | _ => []
  end.

(** The value without what a deep copy renews: every allocation at the
    address 0 and every entry not accessed. *)
Fixpoint content (c : Config) : Config :=
  match _u c with
  | VObject _ object =>
      mkConfig
        (VObject O
           (map (fun p : string * ObjectEntry =>
                   (fst p, mkEntry (content (value (snd p))) (nr (snd p)) false))
                object))
        (_doc c) (_line c) (_comments c)
  | VArray _ array =>
      mkConfig (VArray O (map content array)) (_doc c) (_line c) (_comments c)
  | _ => c
  end.

(** The keys of every object in the value are in increasing order, as the
    keys of a [std::map] are. *)
Fixpoint keys_in_order (c : Config) : bool :=
  match _u c with
  | VObject _ object =>
      keys_increasing object &&
      forallb (fun p : string * ObjectEntry => keys_in_order (value (snd p))) object
  | VArray _ array => forallb keys_in_order array
  | _ => true
  end.

(** What [deep_clone] keeps and what it renews, for one value. *)
Definition clones_well (v : Config) : Prop :=
  keys_in_order v = true ->
  holds_no_sentinel v = true ->
  forall next : nat,
  exists clone : Config,
    deep_clone v next = Some (clone, (next + List.length (addresses v))%nat) /\
    content clone = content v /\
    mark_accessed false clone = clone /\
    addresses clone = seq next (List.length (addresses v)).

Definition content_entry (p : string * ObjectEntry) : string * ObjectEntry :=
  (fst p, mkEntry (content (value (snd p))) (nr (snd p)) false).

Definition unread_entry (p : string * ObjectEntry) : string * ObjectEntry :=
  (fst p, mkEntry (mark_accessed false (value (snd p))) (nr (snd p)) false).

Definition entry_addresses (p : string * ObjectEntry) : list nat :=
  addresses (value (snd p)).

(** The object [{a: [1, 2], b: {c: 3}}], with the array also held by a
    second entry, [z]. *)
Definition object_with_shared_array : Config :=
  Config_of (VObject 0
    [("a", mkEntry array_1_2 0 true);
     ("b", mkEntry (Config_of (VObject 1 [("c", mkEntry (Config_int 3) 0 true)])) 1 false);
     ("z", mkEntry array_1_2 2 false)]).

(** ** Documents of one number *)

(** The indentation unit of a dialect begins with neither a digit nor a
    minus sign (it is made of tabs or spaces). *)
Definition indentation_no_number (o : FormatOptions) : bool :=
  match indentation o with
  | String x _ => negb (is_digit x) && negb (cheq x "-")
  | EmptyString => true
  end.

(** The parser after a line feed at its pointer: on the next line. *)
Definition parser_next_line (p : Parser) : Parser :=
  mkParser (advance (_ptr p) 1) (_line_nr p + 1) (advance (_ptr p) 1)
           (_indentation p) (_next_addr p).

(** ** Multiline strings *)

(** The three quotes around a multiline string. *)
Definition triple_quote : string := str1 DQUOTE ++ str1 DQUOTE ++ str1 DQUOTE.

(** The parser after the allocation of an array or of an object. *)
Definition parser_after_alloc (p : Parser) : Parser :=
  mkParser (_ptr p) (_line_nr p) (_line_start p) (_indentation p) (S (_next_addr p)).

(** The indentation unit of a dialect is empty or begins with a space or
    a tab. *)
Definition indentation_is_white (o : FormatOptions) : bool :=
  match indentation o with
  | String x _ => cheq x " " || cheq x TAB
  | EmptyString => true
  end.

(** ** Verbatim strings *)

(** How a character stands in a C# verbatim string: a quote is doubled,
    any other character stands for itself. *)
Definition verbatim_char (c : ascii) : string :=
  if cheq c DQUOTE then String DQUOTE (str1 DQUOTE) else str1 c.

(** The verbatim string, with its at sign and its quotes, that stands for
    [str]. *)
Definition verbatim_text (str : string) : string :=
  String "@" (String DQUOTE (map_chars verbatim_char str ++ str1 DQUOTE)).

(** Neither the zero nor the newline. *)
Definition stays_on_line (c : ascii) : bool :=
  negb (cheq c NUL) && negb (cheq c LF).

(** ** Arrays of integers *)

(** The indentation unit of a dialect is empty or begins with a tab. *)
Definition indentation_is_tabs (o : FormatOptions) : bool :=
  match indentation o with
  | String x _ => cheq x TAB
  | EmptyString => true
  end.

(** An [Int] value and an array of [Int] values, with the same document
    and line and no comments. *)
Definition Int_at (d : DocInfo_SP) (l : Z) (i : Z) : Config :=
  mkConfig (VInt i) d l None.

Definition Int_array_at (a : nat) (d : DocInfo_SP) (l : Z) (ints : list Z) : Config :=
  mkConfig (VArray a (map (Int_at d l) ints)) d l None.

(** The integers of an array on one line, as a dialect that is not
    compact separates them. *)
Fixpoint integers_on_a_line (o : FormatOptions) (ints : list Z) : string :=
  match ints with
  | [] => ""
  | i :: ints' =>
      to_string i ++
      (if array_omit_comma o || is_nil ints' then " " else ", ") ++
      integers_on_a_line o ints'
  end.

(** The 64-bit integers other than the least one. *)
Definition above_INT64_MIN (i : Z) : bool := (INT64_MIN <? i) && (i <=? INT64_MAX).

(** A character that [skip_white] stops at: neither white-space nor a
    slash. *)
Definition is_black (c : ascii) : bool :=
  negb (cheq c LF || cheq c CR || cheq c TAB || cheq c " " || cheq c "/").

(** ** Objects of integers *)

(** The entries of an object of integers whose keys are in increasing
    order and that are numbered in that order, from [n] on; the first
    value is on line [line], the next one [step] lines further. *)
Fixpoint Int_entries (d : DocInfo_SP) (line step n : Z)
    (entries : list (string * Z)) : ConfigObjectImpl :=
  match entries with
  | [] => []
  | (key, i) :: entries' =>
      (key, mkEntry (Int_at d line i) n false) ::
      Int_entries d (line + step) step (n + 1) entries'
  end.

Definition Int_object_at (a : nat) (d : DocInfo_SP) (l : Z)
    (entries : list (string * Z)) : Config :=
  mkConfig (VObject a (Int_entries d l 0 0 entries)) d l None.

(** The length of the longest key, as [write_object_contents] finds it. *)
Definition longest_of {V : Type} (m : nat) (object : list (string * V)) : nat :=
  fold_left (fun m p => Nat.max m (String.length (fst p))) object m.

(** The lines of the entries of an object of integers at depth one, as a
    dialect that is not compact and indents with one tab writes them. *)
Fixpoint integer_lines (o : FormatOptions) (longest : nat)
    (entries : list (string * Z)) : string :=
  match entries with
  | [] => ""
  | (key, i) :: entries' =>
      str1 TAB ++ write_key o key ++ ": " ++
      repeat_string (longest - String.length key) " " ++
      to_string i ++
      (if array_omit_comma o || is_nil entries' then str1 LF else "," ++ str1 LF) ++
      integer_lines o longest entries'
  end.

(** A key that is written on one line and read back: a bare identifier
    other than the three reserved words, or a quoted string without a line
    feed whose characters are read back. *)
Definition key_on_a_line (o : FormatOptions) (key : string) : bool :=
  if identifiers_keys o && is_identifier key then
    negb (String.eqb key "true" || String.eqb key "null" || String.eqb key "false") &&
    String.eqb (c_string key) key
  else
    forallb quotes_readably (list_ascii_of_string key) &&
    negb (contains (str1 LF) key).

(** The same lines from the key of the first entry on, followed by
    [close]. *)
Fixpoint lines_after_tab (o : FormatOptions) (longest : nat)
    (entries : list (string * Z)) (close : string) : string :=
  match entries with
  | [] => close
  | (key, i) :: entries' =>
      write_key o key ++ ": " ++
      repeat_string (longest - String.length key) " " ++
      to_string i ++
      (if array_omit_comma o || is_nil entries' then str1 LF else "," ++ str1 LF) ++
      (if is_nil entries' then "" else str1 TAB) ++
      lines_after_tab o longest entries' close
  end.

(** A list that [sort] leaves as it is: no element is below the one
    before it. *)
Fixpoint in_sorted_order {A : Type} (lt : A -> A -> bool) (l : list A) : bool :=
  match l with
  | x :: l' =>
      match l' with
      | y :: _ => negb (lt y x)
      | [] => true
      end && in_sorted_order lt l'
  | [] => true
  end.

(** An object with the keys [b], [key one] and [z], in that order. *)
Definition sample_integer_entries : list (string * Z) :=
  [("b", 1); ("key one", -20); ("z", 300)].

(** The options of JSON but for [array_omit_comma]: arrays may be written
    and read without commas, objects may not. *)
Definition JSON_without_array_commas : FormatOptions :=
  {| indentation := indentation JSON;
     enforce_indentation := enforce_indentation JSON;
     empty_file := empty_file JSON;
     implicit_top_object := implicit_top_object JSON;
     implicit_top_array := implicit_top_array JSON;
     single_line_comments := single_line_comments JSON;
     block_comments := block_comments JSON;
     nesting_block_comments := nesting_block_comments JSON;
     inf := inf JSON;
     nan := nan JSON;
     hexadecimal_integers := hexadecimal_integers JSON;
     binary_integers := binary_integers JSON;
     unary_plus := unary_plus JSON;
     array_omit_comma := true;
     array_trailing_comma := array_trailing_comma JSON;
     identifiers_keys := identifiers_keys JSON;
     object_separator_equal := object_separator_equal JSON;
     allow_space_before_colon := allow_space_before_colon JSON;
     omit_colon_before_object := omit_colon_before_object JSON;
     object_omit_comma := object_omit_comma JSON;
     object_trailing_comma := object_trailing_comma JSON;
     object_duplicate_keys := object_duplicate_keys JSON;
     str_csharp_verbatim := str_csharp_verbatim JSON;
     str_python_multiline := str_python_multiline JSON;
     str_32bit_unicode := str_32bit_unicode JSON;
     str_allow_tab := str_allow_tab JSON;
     allow_macro := allow_macro JSON;
     write_comments := write_comments JSON;
     sort_keys := sort_keys JSON |}.

(** * Properties *)

(** ** The map of an object *)

Section StdMapFacts.
Context {V : Type}.
Implicit Types (m : list (string * V)) (key : string) (v : V).

Lemma map_find_insert key v m :
  map_find key m = None -> map_find key (map_insert key v m) = Some v.
Proof.
  induction m as [|[k x] m IH]; simpl; intros H.
  - now rewrite String.eqb_refl.
  - destruct (String.eqb k key) eqn:E; [discriminate|].
    destruct (String.ltb key k); simpl.
    + now rewrite String.eqb_refl.
    + rewrite E. auto.
Qed.

Lemma map_insert_length key v m :
  List.length (map_insert key v m) = S (List.length m).
Proof.
  induction m as [|[k x] m IH]; simpl; [reflexivity|].
  destruct (String.ltb key k); simpl; congruence.
Qed.

Lemma map_insert_In key v m : In (key, v) (map_insert key v m).
Proof.
  induction m as [|[k x] m IH]; simpl; [now left|].
  destruct (String.ltb key k); simpl; auto.
Qed.

Lemma map_find_replace key v m x :
  map_find key m = Some x -> map_find key (map_replace key v m) = Some v.
Proof.
  induction m as [|[k y] m IH]; simpl; intros H; [discriminate|].
  destruct (String.eqb k key) eqn:E; simpl.
  - now rewrite String.eqb_refl.
  - rewrite E. auto.
Qed.

Lemma map_replace_length key v m :
  List.length (map_replace key v m) = List.length m.
Proof.
  induction m as [|[k y] m IH]; simpl; [reflexivity|].
  destruct (String.eqb k key); simpl; congruence.
Qed.
End StdMapFacts.

(** ** Objects and the dangling check *)

Lemma type_Object_inv (c : Config) :
  type c = Object -> exists addr impl, _u c = VObject addr impl.
Proof.
  destruct c as [u d l cm]; unfold type; simpl.
  destruct u; try discriminate. eauto.
Qed.

(** An entry that was never accessed is reported, under its key. *)
Lemma check_dangling_reports (c : Config) (key : string) (entry : ObjectEntry) :
  In (key, entry) (u_object c) -> accessed entry = false ->
  In (where_ (value entry), key) (check_dangling c).
Proof.
  destruct c as [u d l cm]. unfold u_object. simpl.
  destruct u; simpl; try contradiction.
  induction impl as [|[k e] impl IH]; simpl; [contradiction|].
  intros [H|H] Hacc; apply in_or_app.
  - inversion H; subst. left. rewrite Hacc. now left.
  - right. auto.
Qed.

(** The dangling check of an object, entry by entry: an accessed entry
    gives what its value gives, an entry never accessed gives one call,
    for its key, whatever its value holds. *)
Lemma check_dangling_object (addr : nat) (object : ConfigObjectImpl)
    (doc : DocInfo_SP) (line : Z) (cm : option ConfigComments) :
  check_dangling (mkConfig (VObject addr object) doc line cm) =
  flat_map (fun p => if accessed (snd p) then check_dangling (value (snd p))
                     else [(where_ (value (snd p)), fst p)]) object.
Proof.
  simpl. induction object as [|[k e] object IH]; simpl; [reflexivity|].
  now rewrite IH.
Qed.

(** C10.  For an object [O] and a key [k] that is not in it, the mutable
    lookup [O[k]] inserts an entry for [k] that holds the BadLookup
    sentinel, whether or not something is assigned through the result:
    afterwards [has_key(k)] is true, [object_size()] is one greater, and
    the entry has never been accessed, so that [check_dangling] reports
    [k]. *)
Theorem index_absent_key_inserts_sentinel (O : Config) (k : string) :
  type O = Object ->
  map_find k (u_object O) = None ->
  exists (O' : Config) (entry : ObjectEntry) (n : Z),
    index O k = Ok O' /\
    has_key O' k = Ok true /\
    object_size O = Ok n /\
    object_size O' = Ok (n + 1) /\
    map_find k (u_object O') = Some entry /\
    _u (value entry) = VBadLookup (mkBadLookupInfo (_doc O) (_line O) k) /\
    accessed entry = false /\
    In (where_ (value entry), k) (check_dangling O').
Proof.
  intros Hty Habs.
  destruct (type_Object_inv O Hty) as (addr & impl & Hu).
  destruct O as [u d l cm]; simpl in Hu; subst u.
  unfold u_object in Habs; simpl in Habs.
  remember (mkEntry (mkConfig (VBadLookup (mkBadLookupInfo d l k)) None BAD_ENTRY None)
              (unsigned (unsigned (Z.of_nat (List.length impl) + 1) - 1)) false)
    as entry eqn:Hentry.
  exists (mkConfig (VObject addr (map_insert k entry impl)) d l cm), entry,
         (Z.of_nat (List.length impl)).
  assert (Hfind : @map_find ObjectEntry k (map_insert k entry impl) = Some entry)
    by now apply map_find_insert.
  repeat split.
  - unfold index, as_object, assert_type, u_object; simpl.
    rewrite Habs. now subst entry.
  - unfold has_key, as_object, assert_type, map_count, u_object; simpl.
    now rewrite Hfind.
  - unfold object_size, as_object, assert_type, u_object; simpl.
    rewrite map_insert_length, Nat2Z.inj_succ. f_equal; lia.
  - exact Hfind.
  - now subst entry.
  - now subst entry.
  - apply check_dangling_reports; [|now subst entry].
    unfold u_object; simpl. apply map_insert_In.
Qed.

Lemma index_absent_key_inserts_sentinel_witness :
  type object_present = Object /\
  map_find "missing" (u_object object_present) = None /\
  exists (O' : Config) (entry : ObjectEntry) (n : Z),
    index object_present "missing" = Ok O' /\
    has_key O' "missing" = Ok true /\
    object_size object_present = Ok n /\
    object_size O' = Ok (n + 1) /\
    map_find "missing" (u_object O') = Some entry /\
    _u (value entry) =
      VBadLookup (mkBadLookupInfo (_doc object_present) (_line object_present) "missing") /\
    accessed entry = false /\
    In (where_ (value entry), "missing") (check_dangling O').
Proof.
  split; [reflexivity|]. split; [reflexivity|].
  apply (index_absent_key_inserts_sentinel object_present "missing"); reflexivity.
Defined.

(** ** Machine integers *)

Lemma pow2_double (b : Z) : 0 < b -> 2 ^ b = 2 * 2 ^ (b - 1).
Proof.
  intros Hb. replace b with (Z.succ (b - 1)) at 1 by lia.
  rewrite Z.pow_succ_r by lia. reflexivity.
Qed.

Lemma wrap_signed_id (b z : Z) :
  0 < b -> - 2 ^ (b - 1) <= z < 2 ^ (b - 1) -> wrap_signed b z = z.
Proof.
  intros Hb Hz. unfold wrap_signed.
  pose proof (pow2_double b Hb) as Hp.
  rewrite Z.mod_small; lia.
Qed.

Lemma wrap_signed_range (b z : Z) :
  0 < b -> - 2 ^ (b - 1) <= wrap_signed b z < 2 ^ (b - 1).
Proof.
  intros Hb. unfold wrap_signed.
  assert (H : 0 < 2 ^ b) by (apply Z.pow_pos_nonneg; lia).
  pose proof (Z.mod_pos_bound (z + 2 ^ (b - 1)) (2 ^ b) H) as Hm.
  pose proof (pow2_double b Hb) as Hp. lia.
Qed.

Lemma wrap_unsigned_id (b z : Z) :
  0 <= z < 2 ^ b -> wrap_unsigned b z = z.
Proof. intros Hz. unfold wrap_unsigned. now apply Z.mod_small. Qed.

Lemma wrap_unsigned_range (b z : Z) :
  0 <= b -> 0 <= wrap_unsigned b z < 2 ^ b.
Proof.
  intros Hb. unfold wrap_unsigned. apply Z.mod_pos_bound.
  apply Z.pow_pos_nonneg; lia.
Qed.

Lemma int64_id (z : Z) : INT64_MIN <= z <= INT64_MAX -> int64 z = z.
Proof.
  unfold INT64_MIN, INT64_MAX, int64. intros Hz.
  apply wrap_signed_id; [lia|]. change (64 - 1) with 63. lia.
Qed.

(** The number of a new entry is not [BAD_ENTRY] in an object of a size
    that an [unsigned] holds. *)
Lemma new_nr_not_BAD_ENTRY (n : Z) :
  0 <= n -> n + 1 < 2 ^ 32 ->
  (unsigned (unsigned (n + 1) - 1) =? BAD_ENTRY) = false.
Proof.
  intros H0 Hn. unfold BAD_ENTRY, unsigned.
  rewrite (wrap_unsigned_id 32 (n + 1)) by lia.
  rewrite (wrap_unsigned_id 32 (n + 1 - 1)) by lia.
  apply Z.eqb_neq. unfold wrap_unsigned.
  change ((-1) mod 2 ^ 32) with (2 ^ 32 - 1). lia.
Qed.

(** ** The mutable lookup *)

(** [O[k]] for a key that is not in [O]. *)
Lemma index_absent (addr : nat) (impl : ConfigObjectImpl) (d : DocInfo_SP)
    (l : Z) (cm : option ConfigComments) (k : string) :
  map_find k impl = None ->
  index (mkConfig (VObject addr impl) d l cm) k =
  Ok (mkConfig
        (VObject addr
           (map_insert k
              (mkEntry (mkConfig (VBadLookup (mkBadLookupInfo d l k)) None BAD_ENTRY None)
                       (unsigned (unsigned (Z.of_nat (List.length impl) + 1) - 1))
                       false)
              impl))
        d l cm).
Proof.
  intros Habs. unfold index, as_object, assert_type, u_object; simpl.
  now rewrite Habs.
Qed.

(** [O[k]] for a key that is in [O], with an entry that is not taken for a
    new one. *)
Lemma index_present (addr : nat) (impl : ConfigObjectImpl) (d : DocInfo_SP)
    (l : Z) (cm : option ConfigComments) (k : string) (entry : ObjectEntry) :
  map_find k impl = Some entry ->
  (nr entry =? BAD_ENTRY) = false ->
  index (mkConfig (VObject addr impl) d l cm) k =
  Ok (mkConfig (VObject addr (map_replace k (set_accessed entry true) impl)) d l cm).
Proof.
  intros Hfind Hnr. unfold index, as_object, assert_type, u_object; simpl.
  now rewrite Hfind, Hnr.
Qed.

(** Every typed accessor fails on the sentinel, naming the key. *)
Lemma read_bad_lookup (a : accessor) (c : Config) (info : BadLookupInfo) :
  _u c = VBadLookup info ->
  read a c =
  Throw (runtime_error (missing_key_message (bl_doc info) (bl_line info) (bl_key info))).
Proof.
  intros Hu. destruct c as [u d l cm]; simpl in Hu; subst u.
  destruct a; reflexivity.
Qed.

(** An integer that fits is read back. *)
Lemma as_integer_Int (T : IntT) (i : Z) (d : DocInfo_SP) (l : Z)
    (cm : option ConfigComments) :
  as_integer T (mkConfig (VInt i) d l cm) =
  if int64 (cast T i) =? i then Ok (cast T i)
  else Throw (runtime_error (magnitude_message (mkConfig (VInt i) d l cm))).
Proof.
  unfold as_integer, assert_type, check, u_i; simpl.
  destruct (int64 (cast T i) =? i); reflexivity.
Qed.

Lemma as_integer_signed_int (i : Z) (d : DocInfo_SP) (l : Z)
    (cm : option ConfigComments) :
  - 2 ^ 31 <= i < 2 ^ 31 ->
  as_integer signed_int (mkConfig (VInt i) d l cm) = Ok i.
Proof.
  intros Hi. rewrite as_integer_Int. unfold cast; simpl.
  rewrite (wrap_signed_id 32 i) by (change (32 - 1) with 31; lia).
  rewrite int64_id by (unfold INT64_MIN, INT64_MAX; lia).
  now rewrite Z.eqb_refl.
Qed.


(** C3.  On an object, a mutable lookup of an absent key followed by an
    assignment ([cfg[key] = i] for an [int] [i], as in [cfg["missing"] =
    5]) installs the value: a later lookup of the key succeeds and gives
    [i], through the const lookup and, when the size of the object fits
    the [unsigned] number of an entry, through the mutable one.  Without
    the assignment, the result of the mutable lookup fails with an error
    that names the key when it is read through any typed accessor. *)
Theorem assign_through_missing_key (cfg : Config) (key : string) (i : Z) :
  type cfg = Object ->
  map_find key (u_object cfg) = None ->
  - 2 ^ 31 <= i < 2 ^ 31 ->
  exists cfg1 : Config,
    index cfg key = Ok cfg1 /\
    (forall a : accessor,
        read a (deref cfg1 key) =
        Throw (runtime_error (missing_key_message (_doc cfg) (_line cfg) key))) /\
    (exists v cfg3 : Config,
        at_key (move_assign_at cfg1 key (Config_int i)) key = Ok (v, cfg3) /\
        as_integer signed_int v = Ok i) /\
    (Z.of_nat (List.length (u_object cfg)) + 1 < 2 ^ 32 ->
     exists cfg3 : Config,
        index (move_assign_at cfg1 key (Config_int i)) key = Ok cfg3 /\
        as_integer signed_int (deref cfg3 key) = Ok i).
Proof.
  intros Hty Habs Hi.
  destruct (type_Object_inv cfg Hty) as (addr & impl & Hu).
  destruct cfg as [u d l cm]; simpl in Hu; subst u.
  unfold u_object in *; simpl in *.
  remember (mkEntry (mkConfig (VBadLookup (mkBadLookupInfo d l key)) None BAD_ENTRY None)
              (unsigned (unsigned (Z.of_nat (List.length impl) + 1) - 1)) false)
    as entry eqn:Hentry.
  exists (mkConfig (VObject addr (map_insert key entry impl)) d l cm).
  split; [subst entry; now apply index_absent|].
  assert (Hfind : @map_find ObjectEntry key (map_insert key entry impl) = Some entry)
    by now apply map_find_insert.
  assert (Hassign :
    move_assign_at (mkConfig (VObject addr (map_insert key entry impl)) d l cm)
                   key (Config_int i) =
    mkConfig (VObject addr
                (map_replace key (mkEntry (Config_int i) (nr entry) false)
                   (map_insert key entry impl))) d l cm).
  { unfold move_assign_at, update_at, u_object, with_object; simpl.
    rewrite Hfind. subst entry. reflexivity. }
  assert (Hfind' :
    @map_find ObjectEntry key
       (map_replace key (mkEntry (Config_int i) (nr entry) false)
          (map_insert key entry impl)) =
    Some (mkEntry (Config_int i) (nr entry) false))
    by (eapply map_find_replace; exact Hfind).
  split; [|split].
  - intros a. unfold deref, u_object; simpl. rewrite Hfind.
    subst entry; simpl. now rewrite (read_bad_lookup a _ (mkBadLookupInfo d l key)).
  - rewrite Hassign. unfold at_key, as_object, assert_type, u_object; simpl.
    rewrite Hfind'. do 2 eexists. split; [reflexivity|].
    simpl. now apply as_integer_signed_int.
  - intros Hsize. rewrite Hassign.
    erewrite index_present; [| exact Hfind' |].
    + eexists. split; [reflexivity|].
      unfold deref, u_object; simpl.
      erewrite map_find_replace by exact Hfind'.
      simpl. now apply as_integer_signed_int.
    + subst entry; simpl. apply new_nr_not_BAD_ENTRY; [lia | exact Hsize].
Qed.

Lemma assign_through_missing_key_witness :
  type object_present = Object /\
  map_find "missing" (u_object object_present) = None /\
  - 2 ^ 31 <= 5 < 2 ^ 31 /\
  exists cfg1 : Config,
    index object_present "missing" = Ok cfg1 /\
    (forall a : accessor,
        read a (deref cfg1 "missing") =
        Throw (runtime_error
                 (missing_key_message (_doc object_present) (_line object_present)
                    "missing"))) /\
    (exists v cfg3 : Config,
        at_key (move_assign_at cfg1 "missing" (Config_int 5)) "missing" = Ok (v, cfg3) /\
        as_integer signed_int v = Ok 5) /\
    (Z.of_nat (List.length (u_object object_present)) + 1 < 2 ^ 32 ->
     exists cfg3 : Config,
        index (move_assign_at cfg1 "missing" (Config_int 5)) "missing" = Ok cfg3 /\
        as_integer signed_int (deref cfg3 "missing") = Ok 5).
Proof.
  split; [reflexivity|]. split; [reflexivity|]. split; [lia|].
  apply (assign_through_missing_key object_present "missing" 5);
    [reflexivity | reflexivity | lia].
Defined.

(** C4.  For the object parsed from [{"a": 1, "b": 2}]: after reading only
    the key [a], [check_dangling] calls the warning sink once, with the key
    [b]; after reading both keys it does not call it.  And the check does
    not go into the value of an entry that was never accessed: such an
    entry gives one call, for its own key, whatever its value holds, as
    for the object [object_nested_unread], whose unread entry holds two
    unread keys. *)
Theorem check_dangling_reports_unread_keys_once :
  (exists cfg : Config,
      parse_string 100 text_a1_b2 CFG "sample.cfg" 0 0 = Ok cfg /\
      (exists v cfg' : Config,
          at_key cfg "a" = Ok (v, cfg') /\
          _u v = VInt 1 /\
          check_dangling cfg' = [("sample.cfg:1: ", "b")]) /\
      (exists va cfg' vb cfg'' : Config,
          at_key cfg "a" = Ok (va, cfg') /\
          at_key cfg' "b" = Ok (vb, cfg'') /\
          check_dangling cfg'' = [])) /\
  (forall (addr : nat) (object : ConfigObjectImpl) (doc : DocInfo_SP) (line : Z)
          (cm : option ConfigComments),
      check_dangling (mkConfig (VObject addr object) doc line cm) =
      flat_map (fun p => if accessed (snd p) then check_dangling (value (snd p))
                         else [(where_ (value (snd p)), fst p)]) object) /\
  check_dangling object_nested_unread = [("", "outer")].
Proof.
  split; [|split].
  - eexists. split; [vm_compute; reflexivity|]. split.
    + do 2 eexists. split; [vm_compute; reflexivity|].
      split; vm_compute; reflexivity.
    + do 4 eexists. split; [vm_compute; reflexivity|].
      split; vm_compute; reflexivity.
  - exact check_dangling_object.
  - vm_compute; reflexivity.
Qed.

(** ** Deep equality *)

(** Two arrays of the same length in different allocations: the loop of
    [deep_eq] compares each element of the first array with itself, and
    never looks at the second array. *)
Lemma deep_eq_arrays (a_addr b_addr : nat) (a_array b_array : ConfigArrayImpl)
    (da db : DocInfo_SP) (la lb : Z) (ca cb : option ConfigComments) :
  a_addr <> b_addr ->
  List.length a_array = List.length b_array ->
  deep_eq (mkConfig (VArray a_addr a_array) da la ca)
          (mkConfig (VArray b_addr b_array) db lb cb) =
  forallb (fun a_i => deep_eq a_i a_i) a_array.
Proof.
  intros Haddr Hlen. simpl.
  apply Nat.eqb_neq in Haddr. rewrite Haddr, Hlen, Nat.eqb_refl. simpl.
  clear. induction a_array as [|x l IH]; simpl; [reflexivity|].
  destruct (deep_eq x x); simpl; auto.
Qed.

(** C2.  [deep_eq] on the arrays [[1]] and [[2]], two allocations of the
    same length whose elements differ (as [deep_eq] itself finds for the
    elements): the code answers [true], where the claim has [false]. *)
Theorem deep_eq_true_on_different_arrays :
  deep_eq (Config_of (VArray 0 [Config_int 1])) (Config_of (VArray 1 [Config_int 2])) = true /\
  deep_eq (Config_int 1) (Config_int 2) = false.
Proof. split; reflexivity. Qed.

(** ** Escapes *)

(** C6.  The string literal [text_u00e9], a quoted [\u00e9], parses to the
    one-byte string [I]
    (code point 0x49: the digit [e] counts as 4), and not to the UTF-8
    encoding of the code point 0xE9, the bytes 0xC3 0xA9. *)
Theorem parse_u00e9_gives_0x49 :
  (exists c : Config,
      parse_string 100 text_u00e9 CFG "sample.cfg" 0 0 = Ok c /\
      _u c = VString "I") /\
  encode_utf8 0xE9 = String (chr 0xC3) (String (chr 0xA9) "") /\
  "I" <> encode_utf8 0xE9.
Proof.
  split; [|split].
  - eexists. split; vm_compute; reflexivity.
  - reflexivity.
  - vm_compute. discriminate.
Qed.

(** The value that [parse_hex] gives to a letter among its digits: the
    letters [a] to [f] count from zero to five. *)
Lemma parse_hex_letter_digit (doc : DocInfo) (c : ascii) (rest : string) (p : Parser) :
  chars (_ptr p) = String c rest ->
  in_range "a" "f" c = true ->
  exists p' : Parser, parse_hex doc 1 p = Ok (code c - code "a", p').
Proof.
  intros Hp Hc. unfold parse_hex, parse_hex_loop, bind, at_ptr, peek, ret, skip.
  rewrite Hp. simpl.
  unfold in_range in *. apply andb_true_iff in Hc. destruct Hc as [A B].
  apply Z.leb_le in A, B.
  change (code "a") with 97 in *. change (code "f") with 102 in *.
  change (code "0") with 48. change (code "9") with 57.
  replace (48 <=? code c) with true by (symmetry; apply Z.leb_le; lia).
  replace (code c <=? 57) with false by (symmetry; apply Z.leb_gt; lia).
  replace (97 <=? code c) with true by (symmetry; apply Z.leb_le; lia).
  replace (code c <=? 102) with true by (symmetry; apply Z.leb_le; lia).
  simpl. unfold wrap_unsigned. rewrite Z.mod_small.
  - eexists. reflexivity.
  - change (2 ^ 64) with 18446744073709551616. lia.
Qed.

(** ** The layout of arrays *)

(** [is_simple_array] as a formula: the test on numbers comes first and
    does not look at comments. *)
Lemma is_simple_array_formula (array : Config) :
  is_simple_array array =
  let size := Z.of_nat (List.length (u_array array)) in
  ((size <=? 16) && is_all_numbers array) ||
  ((size <=? 4) && forallb is_simple (u_array array)).
Proof.
  unfold is_simple_array. cbv zeta.
  destruct ((Z.of_nat (List.length (u_array array)) <=? 16) && is_all_numbers array);
    [reflexivity|].
  rewrite Z.ltb_antisym.
  destruct (Z.of_nat (List.length (u_array array)) <=? 4); reflexivity.
Qed.

(** C9.  In non-compact mode, the array of the numbers 1 and 2 whose first
    element carries the comment [// c] is not comment-free, so that the
    claim puts one element on each line; [write] renders it on a single
    line, [[ 1 // c 2 ]], where the comment swallows the rest of the
    array. *)
Theorem commented_number_array_on_one_line :
  compact CFG = false /\
  single_line_by_spec commented_array = false /\
  is_simple_array commented_array = true /\
  write commented_array CFG = Ok ("[ 1 // c 2 ]" ++ str1 LF) /\
  single_line ("[ 1 // c 2 ]" ++ str1 LF) = true.
Proof. repeat split; vm_compute; reflexivity. Qed.

(** ** Round trips *)

(** C1.  The document [[1 // c\n2]] parses under the default dialect; the
    tree is written as [[ 1 // c 2 ]], and this text does not parse
    again: the comment runs to the end of the line, and the array is not
    terminated. *)
Theorem roundtrip_fails_on_commented_array :
  exists (T : Config) (text : string),
    parse_string 100 text_commented_array CFG "sample.cfg" 0 0 = Ok T /\
    write T CFG = Ok text /\
    text = "[ 1 // c 2 ]" ++ str1 LF /\
    exists (line column : Z) (what : string),
      parse_string 100 text CFG "sample.cfg" 1 100 = Throw (ParseError line column what).
Proof.
  do 2 eexists. split; [vm_compute; reflexivity|].
  split; [vm_compute; reflexivity|].
  split; [reflexivity|].
  do 3 eexists. vm_compute. reflexivity.
Qed.

(** The document [{}] parses to an empty object, which is written as the
    empty text, and the empty text is an error. *)
Lemma roundtrip_fails_on_empty_object :
  exists T : Config,
    parse_string 100 "{}" CFG "sample.cfg" 0 0 = Ok T /\
    write T CFG = Ok "" /\
    exists (line column : Z) (what : string),
      parse_string 100 "" CFG "sample.cfg" 1 100 = Throw (ParseError line column what).
Proof.
  eexists. split; [vm_compute; reflexivity|].
  split; [vm_compute; reflexivity|].
  do 3 eexists. vm_compute. reflexivity.
Qed.

(** The document [1.0] parses to a float, which is written as [1], and
    [1] parses to an integer: the two trees are not deep-equal. *)
Lemma roundtrip_changes_integral_float :
  exists T T' : Config,
    parse_string 100 "1.0" CFG "sample.cfg" 0 0 = Ok T /\
    write T CFG = Ok ("1" ++ str1 LF) /\
    parse_string 100 ("1" ++ str1 LF) CFG "sample.cfg" 1 100 = Ok T' /\
    type T = Float /\ type T' = Int /\
    deep_eq T T' = false.
Proof.
  do 2 eexists. split; [vm_compute; reflexivity|].
  split; [vm_compute; reflexivity|].
  split; [vm_compute; reflexivity|].
  repeat split; vm_compute; reflexivity.
Qed.

(** ** Indentation *)

(** C5, as stated, fails: the document [a:\n1] does not raise a
    [ParseError]. *)
Lemma unindented_value_is_no_error :
  ~ (exists (line column : Z) (what : string),
        parse_string 100 text_a_1 CFG "sample.cfg" 0 0 =
        Throw (ParseError line column what)).
Proof.
  intros (line & column & what & H). vm_compute in H. discriminate.
Qed.

(** C5, amended.  Under the default dialect the documents [a:\n\t1] and
    [a:\n1] both parse, and to the same value: an object whose only key
    [a] holds the integer 1, read on line 2. *)
Theorem value_after_key_parses_with_and_without_tab :
  parse_string 100 text_a_tab_1 CFG "sample.cfg" 0 0 =
  Ok (mkConfig
        (VObject 0
           [("a", mkEntry (mkConfig (VInt 1) (Some (mkDocInfo 0 "sample.cfg" [])) 2 None)
                    0 false)])
        (Some (mkDocInfo 0 "sample.cfg" [])) 1 None) /\
  parse_string 100 text_a_1 CFG "sample.cfg" 0 0 =
  parse_string 100 text_a_tab_1 CFG "sample.cfg" 0 0.
Proof.
  split; vm_compute; reflexivity.
Qed.

(** Three more documents under the default dialect.  A first entry that
    starts a line between braces without a tab is an indentation error; a
    second entry without its tab is none; a space at the start of the line
    of a value is an error of its own. *)
Lemma unindented_first_entry_is_an_error :
  exists (line column : Z) (orientation : string),
    parse_string 100 text_unindented_entry CFG "sample.cfg" 0 0 =
    Throw (ParseError line column
             ("sample.cfg:2:1: Bad indentation: expected 1 tabs, found 0" ++
              orientation)).
Proof.
  do 3 eexists. vm_compute. reflexivity.
Qed.

Lemma unindented_second_entry_is_no_error :
  exists c : Config,
    parse_string 100
      ("{" ++ str1 LF ++ str1 TAB ++ "a: 1" ++ str1 LF ++ "b: 2" ++ str1 LF ++ "}")
      CFG "sample.cfg" 0 0 = Ok c /\
    map fst (u_object c) = ["a"; "b"].
Proof.
  eexists. split; vm_compute; reflexivity.
Qed.

Lemma space_before_value_is_an_error :
  exists (line column : Z) (orientation : string),
    parse_string 100 ("a:" ++ str1 LF ++ " 1") CFG "sample.cfg" 0 0 =
    Throw (ParseError line column
             ("sample.cfg:2:1: Found a space at beginning of a line. " ++
              "Indentation must be done using tabs!" ++ orientation)).
Proof.
  do 3 eexists. vm_compute. reflexivity.
Qed.

(** ** Typed accessors *)

Lemma append_empty_r (s : string) : s ++ "" = s.
Proof. induction s as [|c s IH]; simpl; congruence. Qed.

Lemma append_assoc (a b c : string) : (a ++ b) ++ c = a ++ b ++ c.
Proof. induction a as [|x a IH]; simpl; congruence. Qed.

(** A typed accessor on a value of another type, the sentinel apart. *)
Lemma read_type_mismatch (a : accessor) (c : Config) :
  type c <> BadLookupType ->
  type c <> requested a ->
  ~ (requested a = Float /\ type c = Int) ->
  read a c = Throw (runtime_error (type_mismatch_message c (requested a))).
Proof.
  intros Hbad Hty Hwiden. unfold type_mismatch_message.
  destruct c as [u d l cm]. unfold type in *; simpl in *.
  destruct a; destruct u; simpl in *;
    try congruence; try (exfalso; apply Hwiden; split; reflexivity);
    unfold read, rmap, as_string, c_str, as_bool, as_integer, as_float, as_double,
      as_array, as_object, assert_type, CONFIGURU_ONERROR, type; simpl;
    rewrite ?append_assoc; simpl; rewrite ?append_assoc; simpl;
    rewrite ?append_empty_r; reflexivity.
Qed.

(** The check of [as_integer] holds exactly for the values of [IntT], for a
    signed type of at most 64 bits and an unsigned one of fewer. *)
Lemma as_integer_check (T : IntT) (i : Z) :
  INT64_MIN <= i <= INT64_MAX ->
  0 < bits T <= 64 ->
  (is_signed T = false -> bits T < 64) ->
  (int64 (cast T i) =? i) = true <-> representable T i.
Proof.
  intros Hi Hb Hu. unfold cast, representable, INT64_MIN, INT64_MAX in *.
  rewrite Z.eqb_eq.
  destruct (is_signed T).
  - pose proof (wrap_signed_range (bits T) i (proj1 Hb)) as Hr.
    assert (Hp : 2 ^ (bits T - 1) <= 2 ^ 63) by (apply Z.pow_le_mono_r; lia).
    rewrite int64_id by (unfold INT64_MIN, INT64_MAX; lia).
    split; intros H.
    + rewrite <- H. exact Hr.
    + apply wrap_signed_id; [lia | exact H].
  - specialize (Hu eq_refl).
    pose proof (wrap_unsigned_range (bits T) i ltac:(lia)) as Hr.
    assert (Hp : 2 ^ bits T <= 2 ^ 63) by (apply Z.pow_le_mono_r; lia).
    rewrite int64_id by (unfold INT64_MIN, INT64_MAX; lia).
    split; intros H.
    + rewrite <- H. exact Hr.
    + apply wrap_unsigned_id. exact H.
Qed.

Lemma cast_representable (T : IntT) (i : Z) :
  0 < bits T -> representable T i -> cast T i = i.
Proof.
  unfold cast, representable. intros Hb.
  destruct (is_signed T); intros H.
  - now apply wrap_signed_id.
  - now apply wrap_unsigned_id.
Qed.

(** C7, as stated, fails: [as_bool] on the sentinel of a missing key does
    not fail with the type-mismatch error but with the missing-key one. *)
Lemma sentinel_read_is_no_type_mismatch :
  type bad_lookup_missing <> requested acc_as_bool /\
  read acc_as_bool bad_lookup_missing =
    Throw (runtime_error "Failed to find key 'missing'") /\
  read acc_as_bool bad_lookup_missing <>
    Throw (runtime_error (type_mismatch_message bad_lookup_missing (requested acc_as_bool))).
Proof.
  split; [discriminate|]. split; [reflexivity|].
  vm_compute. discriminate.
Qed.

(** The check of [as_integer] for [unsigned long long] lets a negative
    value through. *)
Lemma as_integer_unsigned_long_long_negative :
  as_integer unsigned_long_long (Config_int (-1)) = Ok 18446744073709551615 /\
  ~ representable unsigned_long_long (-1).
Proof.
  split; [reflexivity|]. unfold representable; simpl. lia.
Qed.

(** C7, amended.  A typed accessor on a value whose tag differs from the
    requested type fails with the type-mismatch error, unless the tag is
    BadLookup, where every accessor fails with the missing-key error, and
    unless [as_float] or [as_double] reads an Int, which succeeds with the
    value converted to floating point.  An integer read of an Int whose
    stored value is a 64-bit signed one succeeds, for a signed type of at
    most 64 bits or an unsigned one of fewer, exactly when the value is
    one of the requested type, and fails otherwise with the error [Integer
    out of range]. *)
Theorem typed_accessors_on_other_tags (a : accessor) (c : Config) :
  (type c <> BadLookupType ->
   type c <> requested a ->
   ~ (requested a = Float /\ type c = Int) ->
   read a c = Throw (runtime_error (type_mismatch_message c (requested a)))) /\
  (forall info : BadLookupInfo,
      _u c = VBadLookup info ->
      read a c =
      Throw (runtime_error
               (missing_key_message (bl_doc info) (bl_line info) (bl_key info)))) /\
  (forall i : Z,
      _u c = VInt i ->
      as_float c = Ok (float_of_int i) /\ as_double c = Ok (double_of_int i)) /\
  (forall (T : IntT) (i : Z),
      _u c = VInt i ->
      INT64_MIN <= i <= INT64_MAX ->
      0 < bits T <= 64 ->
      (is_signed T = false -> bits T < 64) ->
      (representable T i -> as_integer T c = Ok i) /\
      (~ representable T i ->
       as_integer T c = Throw (runtime_error (magnitude_message c)))).
Proof.
  split; [|split; [|split]].
  - apply read_type_mismatch.
  - intros info. apply read_bad_lookup.
  - intros i Hu. destruct c as [u d l cm]; simpl in Hu; subst u.
    split; reflexivity.
  - intros T i Hu Hi Hb Hus. destruct c as [u d l cm]; simpl in Hu; subst u.
    rewrite as_integer_Int.
    pose proof (as_integer_check T i Hi Hb Hus) as Hc.
    split; intros Hr.
    + rewrite (proj2 Hc Hr). now rewrite cast_representable by (tauto || lia).
    + destruct (int64 (cast T i) =? i); [|reflexivity].
      exfalso. apply Hr, Hc. reflexivity.
Qed.

Lemma typed_accessors_on_other_tags_witness :
  read acc_as_bool (Config_int 300) =
    Throw (runtime_error "Expected bool, got integer") /\
  read acc_as_string bad_lookup_missing =
    Throw (runtime_error "Failed to find key 'missing'") /\
  (as_float (Config_int 300) = Ok (float_of_int 300) /\
   as_double (Config_int 300) = Ok (double_of_int 300)) /\
  as_integer unsigned_int (Config_int 300) = Ok 300 /\
  as_integer unsigned_int (Config_int (-1)) =
    Throw (runtime_error "Integer out of range").
Proof.
  split; [|split; [|split; [|split]]].
  - apply (proj1 (typed_accessors_on_other_tags acc_as_bool (Config_int 300)));
      [discriminate | discriminate | intros [H _]; discriminate].
  - apply (proj1 (proj2 (typed_accessors_on_other_tags acc_as_string bad_lookup_missing))
             (mkBadLookupInfo None BAD_ENTRY "missing")).
    reflexivity.
  - apply (proj1 (proj2 (proj2 (typed_accessors_on_other_tags acc_as_bool (Config_int 300))))
             300).
    reflexivity.
  - apply (proj2 (proj2 (proj2 (typed_accessors_on_other_tags acc_as_bool (Config_int 300))))
             unsigned_int 300);
      [reflexivity | unfold INT64_MIN, INT64_MAX; lia | simpl; lia | simpl; lia
      | unfold representable; simpl; lia].
  - apply (proj2 (proj2 (proj2 (typed_accessors_on_other_tags acc_as_bool (Config_int (-1)))))
             unsigned_int (-1));
      [reflexivity | unfold INT64_MIN, INT64_MAX; lia | simpl; lia | simpl; lia
      | unfold representable; simpl; lia].
Defined.

(** ** Integer tokens *)

Lemma is_digit_code (c : ascii) : is_digit c = true <-> 48 <= code c <= 57.
Proof.
  unfold is_digit, in_range. change (code "0") with 48. change (code "9") with 57.
  rewrite andb_true_iff, !Z.leb_le. tauto.
Qed.

Lemma cheq_code_false (a b : ascii) : code a <> code b -> cheq a b = false.
Proof.
  intros H. unfold cheq. apply Ascii.eqb_neq. intros E. apply H. now subst.
Qed.

Lemma in_range_code (a b c : ascii) :
  in_range a b c = true <-> code a <= code c <= code b.
Proof. unfold in_range. rewrite andb_true_iff, !Z.leb_le. tauto. Qed.

Lemma in_range_false (a b c : ascii) :
  code c < code a \/ code b < code c -> in_range a b c = false.
Proof.
  intros H. destruct (in_range a b c) eqn:E; [|reflexivity].
  apply in_range_code in E. lia.
Qed.

Lemma digit_value_digit (c : ascii) :
  is_digit c = true -> digit_value c = Some (code c - code "0").
Proof. intros H. unfold digit_value. unfold is_digit in H. now rewrite H. Qed.

(** A character that is no decimal digit is no digit of base 10. *)
Lemma digit_value_other (c : ascii) :
  is_digit c = false ->
  match digit_value c with Some d => d <? 10 | None => false end = false.
Proof.
  intros H. unfold digit_value. unfold is_digit in H. rewrite H.
  destruct (in_range "a" "z" c) eqn:E1.
  - apply in_range_code in E1. apply Z.ltb_ge. lia.
  - destruct (in_range "A" "Z" c) eqn:E2; [|reflexivity].
    apply in_range_code in E2. apply Z.ltb_ge. lia.
Qed.

Lemma ends_integer_no_digit (rest : string) :
  ends_integer rest = true ->
  match rest with String c _ => is_digit c = false | EmptyString => True end.
Proof.
  destruct rest as [|c r]; simpl; [trivial|].
  rewrite !andb_true_iff, negb_true_iff. tauto.
Qed.

(** The digits of a token are what [digits_run] takes; it stops where the
    token ends. *)
Lemma digits_run_token (ds rest : string) (acc : Z) :
  all_digits ds = true ->
  match rest with String c _ => is_digit c = false | EmptyString => True end ->
  digits_run 10 (ds ++ rest) acc =
  (decimal_reading_from acc ds, String.length ds, rest).
Proof.
  revert acc. induction ds as [|c ds IH]; intros acc Hds Hrest; simpl.
  - destruct rest as [|c r]; [reflexivity|]. simpl.
    pose proof (digit_value_other c Hrest) as Hc.
    destruct (digit_value c) as [d|]; [|reflexivity].
    now rewrite Hc.
  - simpl in Hds. apply andb_true_iff in Hds. destruct Hds as [Hc Hds].
    rewrite (digit_value_digit c Hc).
    apply is_digit_code in Hc. change (code "0") with 48.
    replace (code c - 48 <? 10) with true by (symmetry; apply Z.ltb_lt; lia).
    now rewrite (IH _ Hds Hrest).
Qed.

Lemma decimal_reading_from_le (ds : string) (acc : Z) :
  all_digits ds = true -> 0 <= acc -> acc <= decimal_reading_from acc ds.
Proof.
  revert acc. induction ds as [|c ds IH]; intros acc Hds Hacc; simpl; [lia|].
  simpl in Hds. apply andb_true_iff in Hds. destruct Hds as [Hc Hds].
  apply is_digit_code in Hc. change (code "0") with 48.
  specialize (IH (acc * 10 + (code c - 48)) Hds). lia.
Qed.

Lemma digit_not_space (c : ascii) : is_digit c = true -> isspace c = false.
Proof.
  intros Hc. apply is_digit_code in Hc. unfold isspace.
  change (Ascii.eqb c " ") with (cheq c " ").
  rewrite cheq_code_false by (change (code " ") with 32; lia).
  rewrite in_range_false; [reflexivity|].
  right. change (code CR) with 13. lia.
Qed.

Lemma digit_not_sign (c : ascii) :
  is_digit c = true -> Ascii.eqb c "-" = false /\ Ascii.eqb c "+" = false.
Proof.
  intros Hc. apply is_digit_code in Hc.
  split; apply (cheq_code_false c).
  - change (code "-") with 45. lia.
  - change (code "+") with 43. lia.
Qed.

(** [strtoll] on a token: the reading in base 10, cut off at [LLONG_MAX]. *)
Lemma strtoll_token (ds rest : string) :
  all_digits ds = true -> ds <> "" ->
  match rest with String c _ => is_digit c = false | EmptyString => True end ->
  strtoll (ds ++ rest) 10 =
  (Z.min INT64_MAX (decimal_reading ds), String.length ds).
Proof.
  intros Hds Hne Hrest. unfold strtoll, integer_subject.
  destruct ds as [|c ds']; [congruence|].
  pose proof Hds as Hds0. simpl in Hds. apply andb_true_iff in Hds.
  destruct Hds as [Hc Hds'].
  destruct (digit_not_sign c Hc) as [Hm Hp].
  change ((String c ds' ++ rest)%string) with (String c (ds' ++ rest)).
  cbn [skip_spaces]. rewrite (digit_not_space c Hc).
  cbn [read_sign]. rewrite Hm, Hp.
  replace (match (ds' ++ rest)%string with
           | String x s' =>
               if (10 =? 16) && Ascii.eqb c "0" && (Ascii.eqb x "x" || Ascii.eqb x "X") &&
                  (let '(_, n, _) := digits_run 10 s' 0 in negb (Nat.eqb n 0))
               then (2%nat, s') else (O, String c (ds' ++ rest))
           | EmptyString => (O, String c (ds' ++ rest))
           end) with (O, String c (ds' ++ rest))
    by (destruct (ds' ++ rest)%string; reflexivity).
  change (String c (ds' ++ rest)) with ((String c ds' ++ rest)%string).
  rewrite (digits_run_token (String c ds') rest 0 Hds0 Hrest).
  cbn [String.length Nat.eqb].
  pose proof (decimal_reading_from_le (String c ds') 0 Hds0 ltac:(lia)) as Hpos.
  fold (decimal_reading (String c ds')).
  f_equal. unfold INT64_MIN, INT64_MAX in *.
  fold (decimal_reading (String c ds')) in Hpos. lia.
Qed.

(** A decimal integer token that does not begin with [0] parses to its
    reading in base 10, cut off at the largest [int64_t]. *)
Lemma parse_integer_token (opts : FormatOptions) (doc : DocInfo) (dst : Config)
    (p : Parser) (ds rest : string) :
  parser_at (ds ++ rest) p ->
  all_digits ds = true -> ds <> "" ->
  ends_integer rest = true ->
  peek (_ptr p) 0 <> "0"%char ->
  parse_finite_number opts doc dst p =
  Ok (move_assign dst (Config_int (Z.min INT64_MAX (decimal_reading ds))),
      parser_skip (String.length ds) p).
Proof.
  intros Hat Hds Hne Hrest Hz.
  destruct ds as [|c ds']; [congruence|].
  pose proof Hds as Hds0. simpl in Hds. apply andb_true_iff in Hds.
  destruct Hds as [Hc Hds'].
  destruct (digit_not_sign c Hc) as [Hm Hp].
  unfold parser_at in Hat.
  unfold peek in Hz. rewrite Hat in Hz. simpl in Hz.
  assert (H0 : Ascii.eqb c "0" = false) by now apply Ascii.eqb_neq.
  pose proof (ends_integer_no_digit rest Hrest) as Hnd.
  assert (Hrun : digits_run 10 (String c (ds' ++ rest)) 0 =
                 (decimal_reading (String c ds'), String.length (String c ds'), rest))
    by (now apply (digits_run_token (String c ds') rest 0)).
  assert (Hstr : strtoll (String c (ds' ++ rest)) 10 =
                 (Z.min INT64_MAX (decimal_reading (String c ds')),
                  String.length (String c ds')))
    by (now apply (strtoll_token (String c ds') rest)).
  assert (Hfl : cheq (match rest with String x _ => x | EmptyString => NUL end) "." ||
                cheq (match rest with String x _ => x | EmptyString => NUL end) "e" ||
                cheq (match rest with String x _ => x | EmptyString => NUL end) "E" = false).
  { destruct rest as [|x r]; [reflexivity|]. simpl in Hrest.
    rewrite !andb_true_iff, !negb_true_iff in Hrest.
    destruct Hrest as [[[_ A] B] C]. now rewrite A, B, C. }
  pose proof (decimal_reading_from_le (String c ds') 0 Hds0 ltac:(lia)) as Hpos.
  fold (decimal_reading (String c ds')) in Hpos.
  unfold parse_finite_number, bind, at_ptr, get_ptr, peek, parse_assert.
  unfold cheq in *.
  parser_steps ltac:(rewrite ?Hat, ?Hp, ?Hm, ?H0).
  rewrite Hrun. cbv beta iota. rewrite Hfl. rewrite Hstr.
  unfold skip. cbn [String.length Nat.ltb Nat.leb].
  parser_steps ltac:(rewrite ?Hat, ?Hp, ?Hm, ?H0).
  rewrite Z.mul_1_l, int64_id by (unfold INT64_MIN, INT64_MAX in *; lia).
  reflexivity.
Qed.

(** A token of several digits that begins with [0] and does not read as
    zero is refused. *)
Lemma parse_leading_zero_token (opts : FormatOptions) (doc : DocInfo) (dst : Config)
    (p : Parser) (ds rest : string) :
  parser_at (String "0" ds ++ rest) p ->
  all_digits ds = true -> ds <> "" ->
  ends_integer rest = true ->
  decimal_reading (String "0" ds) <> 0 ->
  parse_finite_number opts doc dst p =
  Throw (make_ParseError doc (_line_nr p)
           (column (parser_skip (String.length (String "0" ds)) p))
           ("Integer may not start with a zero" ++ str1 LF ++
            orientation (parser_skip (String.length (String "0" ds)) p))).
Proof.
  intros Hat Hds Hne Hrest Hnz.
  destruct ds as [|c ds']; [congruence|].
  assert (Hds0 : all_digits (String "0" (String c ds')) = true) by exact Hds.
  simpl in Hds. apply andb_true_iff in Hds. destruct Hds as [Hc Hds'].
  apply is_digit_code in Hc.
  assert (Hx : Ascii.eqb c "x" = false)
    by (apply (cheq_code_false c); change (code "x") with 120; lia).
  assert (Hb : Ascii.eqb c "b" = false)
    by (apply (cheq_code_false c); change (code "b") with 98; lia).
  unfold parser_at in Hat.
  pose proof (ends_integer_no_digit rest Hrest) as Hnd.
  assert (Hrun : digits_run 10 (String "0" (String c (ds' ++ rest))) 0 =
                 (decimal_reading (String "0" (String c ds')),
                  String.length (String "0" (String c ds')), rest))
    by (now apply (digits_run_token (String "0" (String c ds')) rest 0)).
  assert (Hstr : strtoll (String "0" (String c (ds' ++ rest))) 10 =
                 (Z.min INT64_MAX (decimal_reading (String "0" (String c ds'))),
                  String.length (String "0" (String c ds'))))
    by (now apply (strtoll_token (String "0" (String c ds')) rest)).
  assert (Hfl : cheq (match rest with String x _ => x | EmptyString => NUL end) "." ||
                cheq (match rest with String x _ => x | EmptyString => NUL end) "e" ||
                cheq (match rest with String x _ => x | EmptyString => NUL end) "E" = false).
  { destruct rest as [|x r]; [reflexivity|]. simpl in Hrest.
    rewrite !andb_true_iff, !negb_true_iff in Hrest.
    destruct Hrest as [[[_ A] B] C]. now rewrite A, B, C. }
  pose proof (decimal_reading_from_le (String "0" (String c ds')) 0 Hds0 ltac:(lia)) as Hpos.
  fold (decimal_reading (String "0" (String c ds'))) in Hpos.
  assert (Hmin : (Z.min INT64_MAX (decimal_reading (String "0" (String c ds'))) =? 0) = false)
    by (apply Z.eqb_neq; unfold INT64_MAX; lia).
  unfold parse_finite_number, bind, at_ptr, get_ptr, peek, parse_assert.
  unfold cheq in *.
  assert (Hz1 : Ascii.eqb "0" "+" = false) by reflexivity.
  assert (Hz2 : Ascii.eqb "0" "-" = false) by reflexivity.
  assert (Hz3 : Ascii.eqb "0" "0" = true) by reflexivity.
  parser_steps ltac:(rewrite ?Hat, ?Hx, ?Hb, ?Hmin, ?Hz1, ?Hz2, ?Hz3).
  rewrite Hrun. cbv beta iota. rewrite Hfl. rewrite Hstr.
  unfold skip. cbn [String.length Nat.ltb Nat.leb].
  parser_steps ltac:(rewrite ?Hat, ?Hx, ?Hb, ?Hmin, ?Hz1, ?Hz2, ?Hz3).
  reflexivity.
Qed.

(** C8.  The token [00] begins with the digit 0 and is not the single
    character 0; the code parses it, to the integer 0, where the claim has
    a [ParseError] (as the code raises for [01]). *)
Theorem double_zero_parses :
  (exists c : Config,
      parse_string 100 "00" CFG "sample.cfg" 0 0 = Ok c /\ _u c = VInt 0) /\
  (exists (line column : Z) (orientation : string),
      parse_string 100 "01" CFG "sample.cfg" 0 0 =
      Throw (ParseError line column
               ("sample.cfg:1:3: Integer may not start with a zero" ++ orientation))).
Proof.
  split.
  - eexists. split; vm_compute; reflexivity.
  - do 3 eexists. vm_compute. reflexivity.
Qed.

(** A token beyond the largest [int64_t] parses all the same, to that
    largest number. *)
Lemma integer_token_saturates :
  exists c : Config,
    parse_string 100 "9223372036854775808" CFG "sample.cfg" 0 0 = Ok c /\
    _u c = VInt 9223372036854775807.
Proof. eexists. split; vm_compute; reflexivity. Qed.

Lemma prefix_first_differs (x c : ascii) (r s : string) :
  x <> c -> String.prefix (String x r) (String c s) = false.
Proof.
  intros H. simpl. destruct (ascii_dec x c); [contradiction|reflexivity].
Qed.

(** Before a digit there is no white-space to skip. *)
Lemma skip_white_at_digit (opts : FormatOptions) (doc : DocInfo)
    (break_on_newline : bool) (p : Parser) (c : ascii) (s : string) :
  parser_at (String c s) p ->
  is_digit c = true ->
  indentation_no_digit opts = true ->
  skip_white opts doc break_on_newline p = Ok ((false, [], -1), p).
Proof.
  intros Hat Hc Hind. unfold parser_at in Hat.
  pose proof (proj1 (is_digit_code c) Hc) as Hcode.
  assert (H1 : Ascii.eqb c LF = false)
    by (apply (cheq_code_false c); change (code LF) with 10; lia).
  assert (H2 : Ascii.eqb c CR = false)
    by (apply (cheq_code_false c); change (code CR) with 13; lia).
  assert (H3 : Ascii.eqb c TAB = false)
    by (apply (cheq_code_false c); change (code TAB) with 9; lia).
  assert (H4 : Ascii.eqb c " " = false)
    by (apply (cheq_code_false c); change (code " ") with 32; lia).
  assert (H5 : Ascii.eqb c "/" = false)
    by (apply (cheq_code_false c); change (code "/") with 47; lia).
  assert (H6 : negb (streq (indentation opts) "") &&
               String.prefix (indentation opts) (String c s) = false).
  { unfold indentation_no_digit in Hind.
    destruct (indentation opts) as [|x r]; [reflexivity|].
    rewrite prefix_first_differs; [apply andb_false_r|].
    intros E; subst x. rewrite Hc in Hind. discriminate. }
  unfold skip_white, bind, get_ptr. rewrite Hat.
  cbn [skip_white_loop]. unfold bind, at_ptr, get_ptr, peek, cheq.
  parser_steps ltac:(rewrite ?Hat, ?H1, ?H2, ?H3, ?H4, ?H5, ?H6).
  now rewrite Nat.eqb_refl.
Qed.

(** A token with a minus sign: the reading in base 10, cut off at the
    largest [int64_t], then negated. *)
Lemma parse_negative_integer_token (opts : FormatOptions) (doc : DocInfo)
    (dst : Config) (p : Parser) (ds rest : string) :
  parser_at (String "-" (ds ++ rest)) p ->
  all_digits ds = true -> ds <> "" ->
  ends_integer rest = true ->
  String.get 0 ds <> Some "0"%char ->
  indentation_no_digit opts = true ->
  parse_finite_number opts doc dst p =
  Ok (move_assign dst (Config_int (- Z.min INT64_MAX (decimal_reading ds))),
      parser_skip (String.length ds) (parser_skip 1 p)).
Proof.
  intros Hat Hds Hne Hrest Hz Hind.
  destruct ds as [|c ds']; [congruence|].
  pose proof Hds as Hds0. simpl in Hds. apply andb_true_iff in Hds.
  destruct Hds as [Hc Hds'].
  destruct (digit_not_sign c Hc) as [Hm Hp].
  unfold parser_at in Hat. simpl in Hz.
  assert (H0 : Ascii.eqb c "0" = false) by (apply Ascii.eqb_neq; congruence).
  pose proof (ends_integer_no_digit rest Hrest) as Hnd.
  assert (Hrun : digits_run 10 (String c (ds' ++ rest)) 0 =
                 (decimal_reading (String c ds'), String.length (String c ds'), rest))
    by (now apply (digits_run_token (String c ds') rest 0)).
  assert (Hstr : strtoll (String c (ds' ++ rest)) 10 =
                 (Z.min INT64_MAX (decimal_reading (String c ds')),
                  String.length (String c ds')))
    by (now apply (strtoll_token (String c ds') rest)).
  assert (Hfl : cheq (match rest with String x _ => x | EmptyString => NUL end) "." ||
                cheq (match rest with String x _ => x | EmptyString => NUL end) "e" ||
                cheq (match rest with String x _ => x | EmptyString => NUL end) "E" = false).
  { destruct rest as [|x r]; [reflexivity|]. simpl in Hrest.
    rewrite !andb_true_iff, !negb_true_iff in Hrest.
    destruct Hrest as [[[_ A] B] C]. now rewrite A, B, C. }
  pose proof (decimal_reading_from_le (String c ds') 0 Hds0 ltac:(lia)) as Hpos.
  fold (decimal_reading (String c ds')) in Hpos.
  assert (Hat1 : parser_at (String c (ds' ++ rest)) (parser_skip 1 p))
    by (unfold parser_at, parser_skip, advance; simpl; now rewrite Hat).
  pose proof (skip_white_at_digit opts doc false _ c _ Hat1 Hc Hind) as Hsw.
  unfold parser_at in Hat1.
  assert (Hs1 : Ascii.eqb "-" "+" = false) by reflexivity.
  assert (Hs2 : Ascii.eqb "-" "-" = true) by reflexivity.
  unfold parse_finite_number, bind, at_ptr, get_ptr, peek, parse_assert.
  unfold cheq in *.
  parser_steps ltac:(rewrite ?Hat, ?Hs1, ?Hs2).
  unfold skip at 1. fold (parser_skip 1 p).
  unfold skip_white_ignore_comments, bind. rewrite Hsw.
  parser_steps ltac:(rewrite ?Hat1, ?Hp, ?Hm, ?H0).
  rewrite Hrun. cbv beta iota. rewrite Hfl. rewrite Hstr.
  unfold skip. cbn [String.length Nat.ltb Nat.leb].
  parser_steps ltac:(rewrite ?Hat1, ?Hp, ?Hm, ?H0).
  replace (-1 * Z.min INT64_MAX (decimal_reading (String c ds')))
    with (- Z.min INT64_MAX (decimal_reading (String c ds'))) by lia.
  rewrite int64_id by (unfold INT64_MIN, INT64_MAX in *; lia).
  reflexivity.
Qed.

(** A token with a plus sign, in a dialect that allows it: the reading in
    base 10, cut off at the largest [int64_t]. *)
Lemma parse_positive_integer_token (opts : FormatOptions) (doc : DocInfo)
    (dst : Config) (p : Parser) (ds rest : string) :
  parser_at (String "+" (ds ++ rest)) p ->
  unary_plus opts = true ->
  all_digits ds = true -> ds <> "" ->
  ends_integer rest = true ->
  String.get 0 ds <> Some "0"%char ->
  indentation_no_digit opts = true ->
  parse_finite_number opts doc dst p =
  Ok (move_assign dst (Config_int (Z.min INT64_MAX (decimal_reading ds))),
      parser_skip (String.length ds) (parser_skip 1 p)).
Proof.
  intros Hat Hplus Hds Hne Hrest Hz Hind.
  destruct ds as [|c ds']; [congruence|].
  pose proof Hds as Hds0. simpl in Hds. apply andb_true_iff in Hds.
  destruct Hds as [Hc Hds'].
  destruct (digit_not_sign c Hc) as [Hm Hp].
  unfold parser_at in Hat. simpl in Hz.
  assert (H0 : Ascii.eqb c "0" = false) by (apply Ascii.eqb_neq; congruence).
  pose proof (ends_integer_no_digit rest Hrest) as Hnd.
  assert (Hrun : digits_run 10 (String c (ds' ++ rest)) 0 =
                 (decimal_reading (String c ds'), String.length (String c ds'), rest))
    by (now apply (digits_run_token (String c ds') rest 0)).
  assert (Hstr : strtoll (String c (ds' ++ rest)) 10 =
                 (Z.min INT64_MAX (decimal_reading (String c ds')),
                  String.length (String c ds')))
    by (now apply (strtoll_token (String c ds') rest)).
  assert (Hfl : cheq (match rest with String x _ => x | EmptyString => NUL end) "." ||
                cheq (match rest with String x _ => x | EmptyString => NUL end) "e" ||
                cheq (match rest with String x _ => x | EmptyString => NUL end) "E" = false).
  { destruct rest as [|x r]; [reflexivity|]. simpl in Hrest.
    rewrite !andb_true_iff, !negb_true_iff in Hrest.
    destruct Hrest as [[[_ A] B] C]. now rewrite A, B, C. }
  pose proof (decimal_reading_from_le (String c ds') 0 Hds0 ltac:(lia)) as Hpos.
  fold (decimal_reading (String c ds')) in Hpos.
  assert (Hat1 : parser_at (String c (ds' ++ rest)) (parser_skip 1 p))
    by (unfold parser_at, parser_skip, advance; simpl; now rewrite Hat).
  pose proof (skip_white_at_digit opts doc false _ c _ Hat1 Hc Hind) as Hsw.
  unfold parser_at in Hat1.
  assert (Hs1 : Ascii.eqb "+" "+" = true) by reflexivity.
  assert (Hs2 : Ascii.eqb "+" "-" = false) by reflexivity.
  unfold parse_finite_number, bind, at_ptr, get_ptr, peek, parse_assert.
  unfold cheq in *.
  parser_steps ltac:(rewrite ?Hat, ?Hs1, ?Hs2, ?Hplus).
  unfold skip at 1. fold (parser_skip 1 p).
  unfold skip_white_ignore_comments, bind. rewrite Hsw.
  parser_steps ltac:(rewrite ?Hat1, ?Hp, ?Hm, ?H0).
  rewrite Hrun. cbv beta iota. rewrite Hfl. rewrite Hstr.
  unfold skip. cbn [String.length Nat.ltb Nat.leb].
  parser_steps ltac:(rewrite ?Hat1, ?Hp, ?Hm, ?H0).
  rewrite Z.mul_1_l, int64_id by (unfold INT64_MIN, INT64_MAX in *; lia).
  reflexivity.
Qed.

(** ** Numbers through the parser and the writer *)

(** The literal [0.1] parses to a float that is written back as [0.1];
    [9223372036854775807] parses to an integer and is written back as it
    is; [0x1F] parses to the integer 31. *)
Example numeric_literals :
  (exists c : Config,
      parse_string 100 "0.1" CFG "sample.cfg" 0 0 = Ok c /\
      type c = Float /\
      write c CFG = Ok ("0.1" ++ str1 LF)) /\
  (exists c : Config,
      parse_string 100 "9223372036854775807" CFG "sample.cfg" 0 0 = Ok c /\
      _u c = VInt 9223372036854775807 /\
      write c CFG = Ok ("9223372036854775807" ++ str1 LF)) /\
  (exists c : Config,
      parse_string 100 "0x1F" CFG "sample.cfg" 0 0 = Ok c /\
      _u c = VInt 31).
Proof.
  repeat split; eexists; repeat split; vm_compute; reflexivity.
Qed.

(** A float that is not a [float] takes the long form when the short one
    does not read back. *)
Example write_number_forms :
  write_number CFG (fst (strtod "3.14159265358979")) = Ok "3.14159265358979" /\
  write_number CFG (fst (strtod "0.5")) = Ok "0.5" /\
  write_number CFG (fst (strtod "1e300")) = Ok "1e+300" /\
  write_number CFG (fst (strtod "300.0")) = Ok "300" /\
  write_number CFG quiet_NaN = Ok "+NaN" /\
  write_number JSON infinity = Throw (runtime_error "Can't encode infinity").
Proof. repeat split; vm_compute; reflexivity. Qed.

(** ** Objects that were never read *)

(** In an object none of whose entries was ever accessed, the dangling
    check calls the sink once for each entry and for nothing below. *)
Lemma check_dangling_all_unread (addr : nat) (object : ConfigObjectImpl)
    (doc : DocInfo_SP) (line : Z) (cm : option ConfigComments) :
  (forall p, In p object -> accessed (snd p) = false) ->
  check_dangling (mkConfig (VObject addr object) doc line cm) =
  map (fun p => (where_ (value (snd p)), fst p)) object.
Proof.
  intros Hall. rewrite check_dangling_object.
  induction object as [|[k e] object IH]; [reflexivity|].
  cbn [flat_map map fst snd].
  pose proof (Hall (k, e) (or_introl eq_refl)) as He. cbn [snd] in He.
  rewrite He. cbn [app]. f_equal.
  apply IH. intros q Hq. apply Hall. now right.
Qed.

(** * Further properties *)

(** ** Induction on a value and its elements *)

Section ConfigInduction.
Variable P : Config -> Prop.
Hypothesis H_array : forall addr impl d l cm,
  Forall P impl -> P (mkConfig (VArray addr impl) d l cm).
Hypothesis H_object : forall addr impl d l cm,
  Forall (fun p : string * ObjectEntry => P (value (snd p))) impl ->
  P (mkConfig (VObject addr impl) d l cm).
Hypothesis H_other : forall c,
  type c <> Array -> type c <> Object -> P c.

Lemma Config_induction (c : Config) : P c.
Proof.
  revert c. fix IH 1. intros [u d l cm]. destruct u as [| | | | | | |addr impl|addr impl];
    try (apply H_other; cbn; discriminate).
  - apply H_array. induction impl as [|e impl IHl]; constructor; [apply IH | exact IHl].
  - apply H_object. induction impl as [|[k e] impl IHl]; constructor; [apply IH | exact IHl].
Qed.
End ConfigInduction.

Lemma check_dangling_array (addr : nat) (array : ConfigArrayImpl)
    (doc : DocInfo_SP) (line : Z) (cm : option ConfigComments) :
  check_dangling (mkConfig (VArray addr array) doc line cm) =
  flat_map check_dangling array.
Proof.
  cbn. induction array as [|e l IH]; [reflexivity|]. cbn. now rewrite IH.
Qed.

Lemma mark_accessed_object (v : bool) (addr : nat) (object : ConfigObjectImpl)
    (doc : DocInfo_SP) (line : Z) (cm : option ConfigComments) :
  mark_accessed v (mkConfig (VObject addr object) doc line cm) =
  mkConfig (VObject addr
     (map (fun p : string * ObjectEntry =>
             (fst p, mkEntry (mark_accessed v (value (snd p))) (nr (snd p)) v)) object))
     doc line cm.
Proof.
  cbn. f_equal. f_equal. induction object as [|[k e] l IH]; [reflexivity|]. cbn. now rewrite IH.
Qed.

Lemma mark_accessed_array (v : bool) (addr : nat) (array : ConfigArrayImpl)
    (doc : DocInfo_SP) (line : Z) (cm : option ConfigComments) :
  mark_accessed v (mkConfig (VArray addr array) doc line cm) =
  mkConfig (VArray addr (map (mark_accessed v) array)) doc line cm.
Proof.
  reflexivity.
Qed.

Lemma mark_accessed_other (v : bool) (c : Config) :
  type c <> Array -> type c <> Object -> mark_accessed v c = c.
Proof.
  destruct c as [u d l cm]; destruct u; cbn; intros; congruence.
Qed.

Lemma check_dangling_other (c : Config) :
  type c <> Array -> type c <> Object -> check_dangling c = [].
Proof.
  destruct c as [u d l cm]; destruct u; cbn; intros; congruence.
Qed.

(** X21: after [mark_accessed(true)] no key is dangling. *)
Theorem mark_accessed_true_leaves_no_dangling (c : Config) :
  check_dangling (mark_accessed true c) = [].
Proof.
  induction c using Config_induction.
  - rewrite mark_accessed_array, check_dangling_array.
    induction H as [|e es He Hl IH]; [reflexivity|]. cbn. now rewrite He, IH.
  - rewrite mark_accessed_object, check_dangling_object.
    induction H as [|p ps Hp Hl IH]; [reflexivity|]. cbn. now rewrite Hp, IH.
  - rewrite mark_accessed_other by assumption. now apply check_dangling_other.
Qed.

(** ** The order of strings and the map operations *)

Lemma ascii_compare_trans (a b c : ascii) :
  Ascii.compare a b = Lt -> Ascii.compare b c = Lt -> Ascii.compare a c = Lt.
Proof.
  unfold Ascii.compare. rewrite !N.compare_lt_iff. lia.
Qed.

Lemma ascii_compare_refl (a : ascii) : Ascii.compare a a = Eq.
Proof. unfold Ascii.compare. apply N.compare_refl. Qed.

Lemma string_compare_refl (s : string) : String.compare s s = Eq.
Proof.
  induction s as [|c s IH]; [reflexivity|]. cbn. now rewrite ascii_compare_refl.
Qed.

Lemma string_compare_trans (a b c : string) :
  String.compare a b = Lt -> String.compare b c = Lt -> String.compare a c = Lt.
Proof.
  revert b c. induction a as [|x a IH]; intros [|y b] [|z c]; cbn; try congruence.
  destruct (Ascii.compare x y) eqn:Hxy; try discriminate.
  - apply Ascii.compare_eq_iff in Hxy. subst y.
    destruct (Ascii.compare x z); try congruence. apply IH.
  - intros _. destruct (Ascii.compare y z) eqn:Hyz; try discriminate.
    + apply Ascii.compare_eq_iff in Hyz. subst z. now rewrite Hxy.
    + intros _. now rewrite (ascii_compare_trans x y z).
Qed.

Lemma ltb_irrefl (s : string) : String.ltb s s = false.
Proof. unfold String.ltb. now rewrite string_compare_refl. Qed.

Lemma ltb_trans (a b c : string) :
  String.ltb a b = true -> String.ltb b c = true -> String.ltb a c = true.
Proof.
  unfold String.ltb. intros Hab Hbc.
  destruct (String.compare a b) eqn:H1; try discriminate.
  destruct (String.compare b c) eqn:H2; try discriminate.
  now rewrite (string_compare_trans a b c).
Qed.

Lemma ltb_neq (a b : string) : String.ltb a b = true -> String.eqb a b = false.
Proof.
  intros H. apply String.eqb_neq. intros ->. now rewrite ltb_irrefl in H.
Qed.

Lemma ltb_total (a b : string) :
  String.ltb a b = false -> String.eqb b a = false -> String.ltb b a = true.
Proof.
  unfold String.ltb. intros H Hne. rewrite String.compare_antisym.
  destruct (String.compare a b) eqn:Hc; try discriminate; [|reflexivity].
  apply String.compare_eq_iff in Hc. subst. now rewrite String.eqb_refl in Hne.
Qed.

Section StdMapInvariant.
Context {V : Type}.
Implicit Types (m : list (string * V)) (key : string).

Lemma map_find_above key m :
  forallb (fun p => String.ltb key (fst p)) m = true -> map_find key m = None.
Proof.
  induction m as [|[k x] m IH]; [reflexivity|]. cbn.
  intros H. apply andb_prop in H as [Hk Hm].
  apply ltb_neq in Hk. rewrite String.eqb_sym, Hk. now apply IH.
Qed.

Lemma map_find_erase key m :
  keys_increasing m = true -> map_find key (map_erase key m) = None.
Proof.
  induction m as [|[k x] m IH]; [reflexivity|]. cbn.
  intros H. apply andb_prop in H as [Hk Hm].
  destruct (String.eqb k key) eqn:E.
  - apply String.eqb_eq in E. subst k. now apply map_find_above.
  - cbn. rewrite E. now apply IH.
Qed.

Lemma map_find_erase_other key k' m :
  k' <> key -> map_find k' (map_erase key m) = map_find k' m.
Proof.
  intros Hne. induction m as [|[k x] m IH]; [reflexivity|]. cbn.
  destruct (String.eqb k key) eqn:E.
  - apply String.eqb_eq in E. subst k.
    destruct (String.eqb key k') eqn:E'; [|reflexivity].
    apply String.eqb_eq in E'. congruence.
  - cbn. now rewrite IH.
Qed.

Lemma map_erase_length key m x :
  map_find key m = Some x -> S (List.length (map_erase key m)) = List.length m.
Proof.
  induction m as [|[k y] m IH]; [discriminate|]. cbn.
  destruct (String.eqb k key); [reflexivity|]. intros H. cbn. now rewrite IH.
Qed.

Lemma forallb_erase (f : string * V -> bool) key m :
  forallb f m = true -> forallb f (map_erase key m) = true.
Proof.
  induction m as [|[k x] m IH]; [reflexivity|]. cbn.
  intros H. apply andb_prop in H as [Hk Hm].
  destruct (String.eqb k key); [exact Hm|]. cbn. now rewrite Hk, IH.
Qed.

Lemma keys_increasing_erase key m :
  keys_increasing m = true -> keys_increasing (map_erase key m) = true.
Proof.
  induction m as [|[k x] m IH]; [reflexivity|]. cbn.
  intros H. apply andb_prop in H as [Hk Hm].
  destruct (String.eqb k key); [exact Hm|]. cbn.
  now rewrite forallb_erase, IH.
Qed.

Lemma map_find_replace_other key k' v m :
  k' <> key -> map_find k' (map_replace key v m) = map_find k' m.
Proof.
  intros Hne. induction m as [|[k x] m IH]; [reflexivity|]. cbn.
  destruct (String.eqb k key) eqn:E.
  - apply String.eqb_eq in E. subst k. cbn.
    destruct (String.eqb key k') eqn:E'; [|reflexivity].
    apply String.eqb_eq in E'. congruence.
  - cbn. now rewrite IH.
Qed.

Lemma map_find_insert_other key k' v m :
  k' <> key -> map_find k' (map_insert key v m) = map_find k' m.
Proof.
  intros Hne. induction m as [|[k x] m IH]; cbn.
  - destruct (String.eqb key k') eqn:E'; [|reflexivity].
    apply String.eqb_eq in E'. congruence.
  - destruct (String.ltb key k); cbn.
    + destruct (String.eqb key k') eqn:E'; [|reflexivity].
      apply String.eqb_eq in E'. congruence.
    + now rewrite IH.
Qed.

Lemma forallb_replace (f : string * V -> bool) key v m x :
  map_find key m = Some x ->
  (forall y, f (key, y) = f (key, v)) ->
  forallb f m = true -> forallb f (map_replace key v m) = true.
Proof.
  intros Hf Hkey. induction m as [|[k y] m IH]; [reflexivity|]. cbn in *.
  intros H. apply andb_prop in H as [Hk Hm].
  destruct (String.eqb k key) eqn:E.
  - apply String.eqb_eq in E. subst k. cbn. now rewrite <- (Hkey y), Hk, Hm.
  - cbn. rewrite Hk. now apply IH.
Qed.

Lemma keys_increasing_replace key v m :
  keys_increasing m = true -> keys_increasing (map_replace key v m) = true.
Proof.
  induction m as [|[k x] m IH]; [reflexivity|]. cbn.
  intros H. apply andb_prop in H as [Hk Hm].
  destruct (String.eqb k key) eqn:E.
  - apply String.eqb_eq in E. subst k. cbn. now rewrite Hk, Hm.
  - cbn. rewrite IH by assumption. rewrite andb_true_r.
    clear IH Hm E. induction m as [|[k2 y] m IH]; [reflexivity|]. cbn in *.
    apply andb_prop in Hk as [H1 H2].
    destruct (String.eqb k2 key) eqn:E.
    + apply String.eqb_eq in E. subst k2. cbn. now rewrite H1, H2.
    + cbn. now rewrite H1, IH.
Qed.

Lemma forallb_insert (f : string * V -> bool) key v m :
  f (key, v) = true -> forallb f m = true -> forallb f (map_insert key v m) = true.
Proof.
  intros Hf. induction m as [|[k y] m IH]; cbn; [now rewrite Hf|].
  intros H. apply andb_prop in H as [Hk Hm].
  destruct (String.ltb key k); cbn; [now rewrite Hf, Hk, Hm|]. now rewrite Hk, IH.
Qed.

Lemma keys_increasing_insert key v m :
  map_find key m = None ->
  keys_increasing m = true -> keys_increasing (map_insert key v m) = true.
Proof.
  induction m as [|[k x] m IH]; [reflexivity|]. cbn.
  destruct (String.eqb k key) eqn:E; [discriminate|].
  intros Hf H. apply andb_prop in H as [Hk Hm].
  destruct (String.ltb key k) eqn:L; cbn.
  - rewrite L, Hk, Hm. cbn. rewrite andb_true_r.
    apply forallb_forall. intros p Hp.
    rewrite forallb_forall in Hk. now apply (ltb_trans key k (fst p)), Hk.
  - rewrite IH by assumption. rewrite andb_true_r.
    apply forallb_insert; [|exact Hk]. cbn. now apply ltb_total.
Qed.
End StdMapInvariant.

(** ** Objects and arrays *)

Lemma as_object_Object (c : Config) :
  type c = Object -> as_object c = Ok (u_object c).
Proof.
  destruct c as [u d l cm]; destruct u; cbn; intros; try discriminate. reflexivity.
Qed.

Lemma as_object_Ok (c : Config) (object : ConfigObjectImpl) :
  as_object c = Ok object -> type c = Object /\ object = u_object c.
Proof.
  destruct c as [u d l cm]; destruct u; cbn; intros H; try discriminate.
  now inversion H.
Qed.

Lemma with_object_u_object (c : Config) (impl : ConfigObjectImpl) :
  type c = Object ->
  type (with_object c impl) = Object /\ u_object (with_object c impl) = impl.
Proof.
  destruct c as [u d l cm]; destruct u; cbn; intros; try discriminate. now split.
Qed.

(** X18: [erase] removes the entry of a key that is present, and only it. *)
Theorem erase_removes_key (c : Config) (key : string) (entry : ObjectEntry) :
  type c = Object ->
  keys_increasing (u_object c) = true ->
  map_find key (u_object c) = Some entry ->
  exists c' : Config,
    erase c key = Ok (true, c') /\
    has_key c' key = Ok false /\
    erase c' key = Ok (false, c') /\
    (forall n, object_size c = Ok n -> object_size c' = Ok (n - 1)) /\
    (forall k', k' <> key -> map_find k' (u_object c') = map_find k' (u_object c)) /\
    keys_increasing (u_object c') = true.
Proof.
  intros Ht Hs Hf.
  destruct (with_object_u_object c (map_erase key (u_object c)) Ht) as [Ht' Hu'].
  exists (with_object c (map_erase key (u_object c))).
  assert (Hnone : @map_find ObjectEntry key (map_erase key (u_object c)) = None)
    by now apply map_find_erase.
  repeat split.
  - unfold erase. rewrite (as_object_Object c Ht). cbn. now rewrite Hf.
  - unfold has_key. rewrite (as_object_Object _ Ht'), Hu'. cbn.
    unfold map_count. now rewrite Hnone.
  - unfold erase. rewrite (as_object_Object _ Ht'), Hu'. cbn. now rewrite Hnone.
  - intros n. unfold object_size.
    rewrite (as_object_Object c Ht), (as_object_Object _ Ht'), Hu'. cbn.
    intros H. inversion H. f_equal.
    rewrite <- (map_erase_length key (u_object c) entry Hf). lia.
  - intros k' Hk. rewrite Hu'. now apply map_find_erase_other.
  - rewrite Hu'. now apply keys_increasing_erase.
Qed.

Lemma erase_removes_key_witness :
  type object_a1_b2 = Object /\
  keys_increasing (u_object object_a1_b2) = true /\
  map_find "a" (u_object object_a1_b2) = Some (mkEntry (Config_int 1) 0 false) /\
  exists c' : Config,
    erase object_a1_b2 "a" = Ok (true, c') /\
    has_key c' "a" = Ok false /\
    erase c' "a" = Ok (false, c') /\
    (forall n, object_size object_a1_b2 = Ok n -> object_size c' = Ok (n - 1)) /\
    (forall k', k' <> "a" ->
                map_find k' (u_object c') = map_find k' (u_object object_a1_b2)) /\
    keys_increasing (u_object c') = true.
Proof.
  split; [reflexivity|]. split; [reflexivity|]. split; [reflexivity|].
  apply (erase_removes_key object_a1_b2 "a" (mkEntry (Config_int 1) 0 false));
    reflexivity.
Defined.

(** X19: the mutable lookup of one key leaves the entries of all other keys as
    they are, and the keys in order. *)
Theorem index_keeps_other_entries (c c' : Config) (key : string) :
  index c key = Ok c' ->
  keys_increasing (u_object c) = true ->
  type c' = Object /\
  has_key c' key = Ok true /\
  (forall k', k' <> key -> map_find k' (u_object c') = map_find k' (u_object c)) /\
  keys_increasing (u_object c') = true.
Proof.
  unfold index. intros H Hs.
  destruct (as_object c) as [object| |] eqn:Ho; try discriminate. cbn [rbind] in H.
  apply as_object_Ok in Ho as [Ht ->].
  assert (Hkey : forall impl entry,
             @map_find ObjectEntry key impl = Some entry ->
             has_key (with_object c impl) key = Ok true).
  { intros impl entry Hf.
    destruct (with_object_u_object c impl Ht) as [Ht' Hu'].
    unfold has_key. rewrite (as_object_Object _ Ht'), Hu'. cbn.
    unfold map_count. now rewrite Hf. }
  destruct (map_find key (u_object c)) as [entry|] eqn:Hf.
  - destruct (nr entry =? BAD_ENTRY); injection H as <-;
      match goal with
      | |- context [with_object c ?impl] =>
          destruct (with_object_u_object c impl Ht) as [Ht' Hu']
      end;
      (split; [exact Ht'|]); (split; [eapply Hkey, map_find_replace, Hf|]);
      rewrite Hu'; (split; [intros k' Hk; now apply map_find_replace_other
                           | now apply keys_increasing_replace]).
  - injection H as <-.
    match goal with
    | |- context [with_object c ?impl] =>
        destruct (with_object_u_object c impl Ht) as [Ht' Hu']
    end.
    split; [exact Ht'|]. split; [eapply Hkey, map_find_insert, Hf|].
    rewrite Hu'. split; [intros k' Hk; now apply map_find_insert_other
                        | now apply keys_increasing_insert].
Qed.

Lemma index_keeps_other_entries_witness :
  exists c' : Config,
    index object_a1_b2 "aa" = Ok c' /\
    keys_increasing (u_object object_a1_b2) = true /\
    type c' = Object /\
    has_key c' "aa" = Ok true /\
    (forall k', k' <> "aa" ->
                map_find k' (u_object c') = map_find k' (u_object object_a1_b2)) /\
    keys_increasing (u_object c') = true.
Proof.
  eexists. split; [reflexivity|]. split; [reflexivity|].
  apply (index_keeps_other_entries object_a1_b2 _ "aa"); reflexivity.
Defined.





Lemma deep_eq_array_unfold (a_addr b_addr : nat) (a_array b_array : ConfigArrayImpl)
    (da db : DocInfo_SP) (la lb : Z) (ca cb : option ConfigComments) :
  deep_eq (mkConfig (VArray a_addr a_array) da la ca)
          (mkConfig (VArray b_addr b_array) db lb cb) =
  if Nat.eqb a_addr b_addr then true
  else if negb (Nat.eqb (List.length a_array) (List.length b_array)) then false
  else forallb (fun a_i => deep_eq a_i a_i) a_array.
Proof.
  cbn. destruct (Nat.eqb a_addr b_addr); [reflexivity|].
  destruct (negb _); [reflexivity|].
  induction a_array as [|e l IH]; [reflexivity|]. cbn.
  destruct (deep_eq e e); [exact IH | reflexivity].
Qed.

Lemma deep_eq_object_unfold (a_addr b_addr : nat) (a_object b_object : ConfigObjectImpl)
    (da db : DocInfo_SP) (la lb : Z) (ca cb : option ConfigComments) :
  deep_eq (mkConfig (VObject a_addr a_object) da la ca)
          (mkConfig (VObject b_addr b_object) db lb cb) =
  if Nat.eqb a_addr b_addr then true
  else if negb (Nat.eqb (List.length a_object) (List.length b_object)) then false
  else forallb (fun p : string * ObjectEntry =>
                  match map_find (fst p) b_object with
                  | None => false
                  | Some it => deep_eq (value (snd p)) (value it)
                  end) a_object.
Proof.
  cbn. destruct (Nat.eqb a_addr b_addr); [reflexivity|].
  destruct (negb _); [reflexivity|].
  induction a_object as [|[k e] l IH]; [reflexivity|]. cbn.
  rewrite <- IH.
  change (@map_find ObjectEntry k b_object) with (@map_find (Config_Entry Config) k b_object).
  destruct (@map_find (Config_Entry Config) k b_object) as [it|]; [|reflexivity].
  destruct (deep_eq (value e) (value it)); reflexivity.
Qed.

Lemma map_find_map {V W : Type} (f : V -> W) (key : string)
    (m : list (string * V)) :
  map_find key (map (fun p : string * V => (fst p, f (snd p))) m) =
  option_map f (map_find key m).
Proof.
  induction m as [|[k e] m IH]; [reflexivity|]. cbn.
  destruct (String.eqb k key); [reflexivity | exact IH].
Qed.

Lemma forallb_map_compose {A B : Type} (f : B -> bool) (g : A -> B) (l : list A) :
  forallb f (map g l) = forallb (fun x => f (g x)) l.
Proof.
  induction l as [|x l IH]; [reflexivity|]. cbn. now rewrite IH.
Qed.

Lemma forallb_ext_Forall {A : Type} (P : A -> Prop) (f g : A -> bool) (l : list A) :
  Forall P l -> (forall x, P x -> f x = g x) -> forallb f l = forallb g l.
Proof.
  intros H Hfg. induction H as [|x l Hx Hl IH]; [reflexivity|]. cbn.
  now rewrite (Hfg x Hx), IH.
Qed.

(** X23: [deep_eq] does not depend on the accessed flags. *)
Theorem deep_eq_ignores_accessed (v w : bool) (a b : Config) :
  deep_eq (mark_accessed v a) (mark_accessed w b) = deep_eq a b.
Proof.
  revert v w b. induction a using Config_induction; intros v w b.
  - destruct b as [u db lb cb]; destruct u; try reflexivity.
    rewrite !mark_accessed_array, !deep_eq_array_unfold, !length_map.
    destruct (Nat.eqb _ _); [reflexivity|]. destruct (negb _); [reflexivity|].
    rewrite forallb_map_compose.
    apply (forallb_ext_Forall _ _ _ _ H). intros e He. apply He.
  - destruct b as [u db lb cb]; destruct u; try reflexivity.
    rewrite !mark_accessed_object, !deep_eq_object_unfold, !length_map.
    destruct (Nat.eqb _ _); [reflexivity|]. destruct (negb _); [reflexivity|].
    rewrite forallb_map_compose.
    apply (forallb_ext_Forall _ _ _ _ H). intros [k e] He. cbn [fst snd value].
    unfold ObjectEntry in *.
    rewrite (map_find_map
               (fun e : Config_Entry Config =>
                  mkEntry (mark_accessed w (value e)) (nr e) w) k impl0).
    destruct (map_find k impl0) as [it|]; [|reflexivity]. cbn. apply He.
  - rewrite (mark_accessed_other v a) by assumption.
    destruct a as [ua da la ca], b as [ub db lb cb].
    destruct ua; cbn in H, H0; try congruence; destruct ub; reflexivity.
Qed.

(** X22: after [mark_accessed(false)] on an object, [check_dangling] reports
    each key of the object once, in the order of the keys, and nothing of
    what the values hold. *)
Theorem mark_accessed_false_reports_every_key (c : Config) :
  type c = Object ->
  check_dangling (mark_accessed false c) =
  map (fun p : string * ObjectEntry => (where_ (value (snd p)), fst p)) (u_object c).
Proof.
  destruct c as [u d l cm]; destruct u; try discriminate. intros _.
  rewrite mark_accessed_object, check_dangling_object. cbn [u_object _u].
  induction impl as [|[k e] m IH]; [reflexivity|]. cbn. f_equal; [|exact IH].
  f_equal. destruct (value e) as [ue de le ce]; destruct ue; reflexivity.
Qed.

Lemma mark_accessed_false_reports_every_key_witness :
  type object_a1_b2 = Object /\
  check_dangling (mark_accessed false object_a1_b2) = [("", "a"); ("", "b")].
Proof.
  split; [reflexivity|].
  exact (mark_accessed_false_reports_every_key object_a1_b2 eq_refl).
Defined.

Lemma land_pow2 (i n : Z) :
  0 <= n -> Z.land i (2 ^ n) = if Z.testbit i n then 2 ^ n else 0.
Proof.
  intros Hn. apply Z.bits_inj'. intros m Hm.
  rewrite Z.land_spec, Z.pow2_bits_eqb by assumption.
  destruct (Z.eqb_spec n m) as [->|Hne].
  - destruct (Z.testbit i m) eqn:E; cbn.
    + now rewrite Z.pow2_bits_eqb, Z.eqb_refl.
    + now rewrite Z.bits_0.
  - rewrite andb_false_r. destruct (Z.testbit i n).
    + rewrite Z.pow2_bits_eqb by assumption. symmetry. now apply Z.eqb_neq.
    + now rewrite Z.bits_0.
Qed.

(** X24: the constructor from [unsigned long long] accepts exactly the values
    below 2^63 and keeps them as they are. *)
Theorem Config_unsigned_long_long_bound (i : Z) :
  0 <= i < 2 ^ 64 ->
  Config_unsigned_long_long i =
  if i <? 2 ^ 63 then Ok (Config_int i)
  else Throw (runtime_error "Integer too large to fit into 63 bits").
Proof.
  intros Hi. unfold Config_unsigned_long_long.
  change 0x8000000000000000 with (2 ^ 63). rewrite land_pow2 by lia.
  assert (Hq : 0 <= i / 2 ^ 63 < 2).
  { split; [apply Z.div_pos; lia | apply Z.div_lt_upper_bound; lia]. }
  destruct (Z.ltb_spec i (2 ^ 63)) as [Hlt|Hge].
  - assert (Hb : Z.testbit i 63 = false).
    { destruct (Z.testbit i 63) eqn:E; [|reflexivity].
      apply Z.testbit_true in E; [|lia].
      rewrite Z.div_small in E by lia. discriminate. }
    rewrite Hb. cbn. unfold Config_int. do 3 f_equal.
    apply int64_id. unfold INT64_MIN, INT64_MAX. lia.
  - assert (Hb : Z.testbit i 63 = true).
    { apply Z.testbit_true; [lia|].
      assert (i / 2 ^ 63 = 1); [|now replace (i / 2 ^ 63) with 1].
      assert (1 <= i / 2 ^ 63) by (apply Z.div_le_lower_bound; lia). lia. }
    rewrite Hb. reflexivity.
Qed.

Lemma Config_unsigned_long_long_bound_witness :
  0 <= 9223372036854775808 < 2 ^ 64 /\
  Config_unsigned_long_long 9223372036854775808 =
  Throw (runtime_error "Integer too large to fit into 63 bits").
Proof.
  split; [lia|].
  apply (Config_unsigned_long_long_bound 9223372036854775808). lia.
Defined.

(** ** Hexadecimal escapes *)

Lemma get_drop (i : nat) (s : string) : String.get i s = String.get 0 (drop i s).
Proof.
  revert s. induction i as [|i IH]; intros [|c s]; try reflexivity. exact (IH s).
Qed.

Lemma drop_S (i : nat) (s : string) (c : ascii) (r : string) :
  drop i s = String c r -> drop (S i) s = r.
Proof.
  revert s. induction i as [|i IH]; intros [|x s]; cbn; try discriminate.
  - now intros [= _ ->].
  - apply IH.
Qed.

Lemma hexadecimal_reading_bound (ds : string) (r : Z) :
  all_digits ds = true -> 0 <= r ->
  0 <= hexadecimal_reading_from r ds < (r + 1) * 16 ^ Z.of_nat (String.length ds).
Proof.
  revert r. induction ds as [|c ds IH]; intros r Hd Hr.
  - cbn. lia.
  - cbn [all_digits] in Hd. apply andb_prop in Hd as [Hc Hd].
    pose proof (proj1 (is_digit_code c) Hc) as Hcode.
    cbn [hexadecimal_reading_from String.length]. change (code "0") with 48.
    assert (H0 : 0 <= r * 16 + (code c - 48)) by lia.
    specialize (IH (r * 16 + (code c - 48)) Hd H0).
    assert (Hpow : 0 < 16 ^ Z.of_nat (String.length ds)) by (apply Z.pow_pos_nonneg; lia).
    rewrite Nat2Z.inj_succ, Z.pow_succ_r by lia. nia.
Qed.

Lemma parse_hex_loop_digits (doc : DocInfo) (p : Parser) (ds : string) :
  forall (i : nat) (r : Z) (rest : string),
    drop i (chars (_ptr p)) = ds ++ rest ->
    all_digits ds = true ->
    0 <= r ->
    (r + 1) * 16 ^ Z.of_nat (String.length ds) <= 2 ^ 64 ->
    parse_hex_loop doc (String.length ds) i r p =
    Ok (hexadecimal_reading_from r ds, p).
Proof.
  induction ds as [|c ds IH]; intros i r rest Hat Hd Hr Hb; [reflexivity|].
  cbn [all_digits] in Hd. apply andb_prop in Hd as [Hc Hd].
  pose proof (proj1 (is_digit_code c) Hc) as Hcode.
  assert (H0 : 0 <= r * 16 + (code c - 48)) by lia.
  pose proof (hexadecimal_reading_bound ds (r * 16 + (code c - 48)) Hd H0) as Hrd.
  cbn [String.length] in Hb. rewrite Nat2Z.inj_succ, Z.pow_succ_r in Hb by lia.
  assert (Hpow : 0 < 16 ^ Z.of_nat (String.length ds)) by (apply Z.pow_pos_nonneg; lia).
  cbn [String.length parse_hex_loop hexadecimal_reading_from].
  unfold bind, at_ptr, peek. rewrite get_drop, Hat. cbn [append String.get].
  assert (Hin : in_range "0" "9" c = true) by exact Hc.
  rewrite Hin.
  rewrite (wrap_unsigned_id 64 (r * 16)) by nia.
  change (code "0") with 48 in *.
  rewrite (wrap_unsigned_id 64 (r * 16 + (code c - 48))) by nia.
  apply (IH (S i) _ rest); [exact (drop_S _ _ _ _ Hat) | exact Hd | lia | nia].
Qed.

(** X12: [parse_hex] reads [count] decimal digits in base 16 and moves past
    them. *)
Theorem parse_hex_decimal_digits (doc : DocInfo) (p : Parser) (ds rest : string) :
  parser_at (ds ++ rest) p ->
  all_digits ds = true ->
  (String.length ds <= 16)%nat ->
  parse_hex doc (String.length ds) p =
  Ok (hexadecimal_reading ds, parser_skip (String.length ds) p).
Proof.
  intros Hat Hd Hlen. unfold parse_hex, bind.
  rewrite (parse_hex_loop_digits doc p ds 0 0 rest Hat Hd ltac:(lia)).
  - reflexivity.
  - rewrite Z.add_0_l, Z.mul_1_l. change (2 ^ 64) with (16 ^ 16).
    apply Z.pow_le_mono_r; lia.
Qed.

Lemma parse_hex_decimal_digits_witness :
  parser_at ("0041" ++ "rest") (Parser_new "0041rest" 0) /\
  all_digits "0041" = true /\
  (String.length "0041" <= 16)%nat /\
  parse_hex sample_doc (String.length "0041") (Parser_new "0041rest" 0) =
  Ok (65, parser_skip (String.length "0041") (Parser_new "0041rest" 0)).
Proof.
  split; [reflexivity|]. split; [reflexivity|]. split; [cbn; lia|].
  apply (parse_hex_decimal_digits sample_doc (Parser_new "0041rest" 0) "0041" "rest");
    [reflexivity | reflexivity | cbn; lia].
Defined.

(** ** Quoted strings *)

Lemma write_quoted_string_quoted_char (str : string) :
  write_quoted_string str =
  str1 DQUOTE ++ map_chars quoted_char str ++ str1 DQUOTE.
Proof. reflexivity. Qed.

Lemma length_append (a b : string) :
  String.length (a ++ b) = (String.length a + String.length b)%nat.
Proof. induction a as [|c a IH]; [reflexivity|]. cbn. now rewrite IH. Qed.

Lemma code_inj (a b : ascii) : code a = code b -> a = b.
Proof.
  unfold code. intros H. apply N2Z.inj in H.
  rewrite <- (ascii_N_embedding a), <- (ascii_N_embedding b). now rewrite H.
Qed.

Lemma cheq_false_code (a b : ascii) : cheq a b = false -> code a <> code b.
Proof.
  unfold cheq. intros H E. apply code_inj in E. subst. now rewrite Ascii.eqb_refl in H.
Qed.

Lemma drop_append (a b : string) : drop (String.length a) (a ++ b) = b.
Proof. induction a as [|c a IH]; [now destruct b|]. exact IH. Qed.

Section QuotedString.
Variable opts : FormatOptions.
Variable doc : DocInfo.
Variable state : State.

Lemma normal_loop_end (fuel : nat) (acc rest : string) (p : Parser) :
  chars (_ptr p) = String DQUOTE rest ->
  normal_loop opts doc (S fuel) state acc p =
  Ok (acc, parser_with_ptr (mkPtr (offset (_ptr p) + 1) rest) p).
Proof.
  intros Hat. cbn [normal_loop]. unfold bind, at_ptr, peek, skip, advance, cheq.
  parser_steps ltac:(rewrite ?Hat; decide_cheq). reflexivity.
Qed.

Lemma normal_loop_plain (fuel : nat) (acc rest : string) (c : ascii) (p : Parser) :
  chars (_ptr p) = String c rest ->
  cheq c NUL = false -> cheq c DQUOTE = false -> cheq c LF = false ->
  cheq c TAB = false -> cheq c "\" = false ->
  normal_loop opts doc (S fuel) state acc p =
  normal_loop opts doc fuel state (acc ++ str1 c)
    (parser_with_ptr (mkPtr (offset (_ptr p) + 1) rest) p).
Proof.
  intros Hat H1 H2 H3 H4 H5. cbn [normal_loop].
  unfold bind, at_ptr, peek, skip, advance.
  unfold cheq in *.
  parser_steps ltac:(rewrite ?Hat, ?H1, ?H2, ?H3, ?H4, ?H5). reflexivity.
Qed.

Lemma normal_loop_escape (fuel : nat) (acc rest : string) (e x : ascii) (p : Parser) :
  chars (_ptr p) = String "\" (String e rest) ->
  (e = DQUOTE /\ x = DQUOTE) \/ (e = "\"%char /\ x = "\"%char) \/
  (e = "b"%char /\ x = BS) \/ (e = "f"%char /\ x = FF) \/
  (e = "n"%char /\ x = LF) \/ (e = "r"%char /\ x = CR) \/
  (e = "t"%char /\ x = TAB) ->
  normal_loop opts doc (S fuel) state acc p =
  normal_loop opts doc fuel state (acc ++ str1 x)
    (parser_with_ptr (mkPtr (offset (_ptr p) + 2) rest) p).
Proof.
  intros Hat He.
  destruct He as [[-> ->]|[[-> ->]|[[-> ->]|[[-> ->]|[[-> ->]|[[-> ->]|[-> ->]]]]]]];
    cbn [normal_loop];
    unfold bind, at_ptr, peek, skip, advance, cheq;
    parser_steps ltac:(rewrite ?Hat; decide_cheq);
    cbn [_ptr chars drop offset _line_nr _line_start _indentation _next_addr];
    parser_steps ltac:(decide_cheq);
    cbn [_ptr chars drop offset _line_nr _line_start _indentation _next_addr];
    replace (offset (_ptr p) + 1 + 1)%nat with (offset (_ptr p) + 2)%nat by lia;
    reflexivity.
Qed.
End QuotedString.

Lemma control_character_code (c : ascii) (P : ascii -> Prop) :
  code c < 0x20 ->
  (forall n : nat, (n < 32)%nat -> P (chr (Z.of_nat n))) ->
  P c.
Proof.
  intros Hc HP.
  assert (H0 : 0 <= code c) by (unfold code; lia).
  assert (E : c = chr (Z.of_nat (Z.to_nat (code c)))).
  { apply code_inj. rewrite Z2Nat.id by lia. unfold code, chr.
    rewrite Z.mod_small by (unfold code in *; lia).
    rewrite N_ascii_embedding; unfold code in *; lia. }
  rewrite E. apply HP. lia.
Qed.

Lemma escape_in_digits (c : ascii) :
  escapes_in_digits c = true -> quotes_plainly c = false ->
  quoted_char c = String "\" (String "u" (write_hex_16 (code c))) /\
  String.length (write_hex_16 (code c)) = 4%nat /\
  all_digits (write_hex_16 (code c)) = true /\
  encode_utf8 (hexadecimal_reading (write_hex_16 (code c))) = str1 c.
Proof.
  unfold escapes_in_digits. intros H.
  apply andb_prop in H as [H H3]. apply andb_prop in H as [H1 H2].
  apply Z.ltb_lt in H2. revert H1 H3.
  apply (control_character_code c); [exact H2|].
  intros n Hn.
  do 32 (destruct n as [|n];
         [vm_compute; intros; try discriminate; repeat split|]).
  lia.
Qed.

Section UnicodeEscape.
Variable opts : FormatOptions.
Variable doc : DocInfo.
Variable state : State.

Lemma normal_loop_unicode (fuel : nat) (acc ds rest : string) (p : Parser) :
  chars (_ptr p) = String "\" (String "u" (ds ++ rest)) ->
  String.length ds = 4%nat -> all_digits ds = true ->
  normal_loop opts doc (S fuel) state acc p =
  normal_loop opts doc fuel state (acc ++ encode_utf8 (hexadecimal_reading ds))
    (parser_with_ptr (mkPtr (offset (_ptr p) + 6) rest) p).
Proof.
  intros Hat Hlen Hd.
  pose proof (hexadecimal_reading_bound ds 0 Hd ltac:(lia)) as Hb.
  rewrite Hlen in Hb. change ((0 + 1) * 16 ^ Z.of_nat 4) with 65536 in Hb.
  fold (hexadecimal_reading ds) in Hb.
  cbn [normal_loop].
  unfold bind, at_ptr, peek, skip, advance, cheq.
  parser_steps ltac:(rewrite ?Hat; decide_cheq).
  cbn [_ptr chars drop offset _line_nr _line_start _indentation _next_addr String.get].
  parser_steps ltac:(decide_cheq).
  cbn [_ptr chars drop offset _line_nr _line_start _indentation _next_addr String.get].
  unfold parse_hex, bind. rewrite <- Hlen.
  rewrite (parse_hex_loop_digits doc _ ds 0 0 rest);
    [| reflexivity | exact Hd | lia | rewrite Hlen; cbn; lia].
  fold (hexadecimal_reading ds).
  unfold skip, advance, parse_assert, ret. cbv beta iota.
  cbn [_ptr chars drop offset _line_nr _line_start _indentation _next_addr].
  assert (Hne : negb (streq (encode_utf8 (hexadecimal_reading ds)) EmptyString) = true).
  { unfold encode_utf8.
    destruct (hexadecimal_reading ds <=? 127); [reflexivity|].
    destruct (hexadecimal_reading ds <=? 2047); [reflexivity|].
    rewrite (proj2 (Z.leb_le _ _)) by lia. reflexivity. }
  rewrite Hne. cbv beta iota.
  rewrite drop_append. unfold parser_with_ptr.
  cbn [_line_nr _line_start _indentation _next_addr].
  replace (offset (_ptr p) + 1 + 1 + String.length ds)%nat
    with (offset (_ptr p) + S (S (String.length ds)))%nat by lia.
  reflexivity.
Qed.
End UnicodeEscape.

Lemma quoted_char_cases (c : ascii) :
  quotes_plainly c = true ->
  (exists e : ascii,
      quoted_char c = String "\" (String e "") /\
      ((e = DQUOTE /\ c = DQUOTE) \/ (e = "\"%char /\ c = "\"%char) \/
       (e = "b"%char /\ c = BS) \/ (e = "f"%char /\ c = FF) \/
       (e = "n"%char /\ c = LF) \/ (e = "r"%char /\ c = CR) \/
       (e = "t"%char /\ c = TAB))) \/
  (quoted_char c = str1 c /\
   cheq c NUL = false /\ cheq c DQUOTE = false /\ cheq c LF = false /\
   cheq c TAB = false /\ cheq c "\" = false).
Proof.
  unfold quotes_plainly, quoted_char, cheq. intros Hq.
  destruct (Ascii.eqb_spec c "\") as [E|_];
    [subst c; left; exists "\"%char; split; [reflexivity | tauto]|].
  destruct (Ascii.eqb_spec c DQUOTE) as [E|_];
    [subst c; left; exists DQUOTE; split; [reflexivity | tauto]|].
  destruct (Ascii.eqb_spec c NUL) as [E|_]; [subst c; discriminate|].
  destruct (Ascii.eqb_spec c BS) as [E|_];
    [subst c; left; exists "b"%char; split; [reflexivity | tauto]|].
  destruct (Ascii.eqb_spec c FF) as [E|_];
    [subst c; left; exists "f"%char; split; [reflexivity | tauto]|].
  destruct (Ascii.eqb_spec c LF) as [E|_];
    [subst c; left; exists "n"%char; split; [reflexivity | tauto]|].
  destruct (Ascii.eqb_spec c CR) as [E|_];
    [subst c; left; exists "r"%char; split; [reflexivity | tauto]|].
  destruct (Ascii.eqb_spec c TAB) as [E|_];
    [subst c; left; exists "t"%char; split; [reflexivity | tauto]|].
  rewrite !orb_false_r in Hq. apply Z.leb_le in Hq.
  rewrite (proj2 (Z.ltb_ge _ _)) by lia. right. tauto.
Qed.

Lemma parser_with_ptr_twice (a b : cptr) (p : Parser) :
  parser_with_ptr a (parser_with_ptr b p) = parser_with_ptr a p.
Proof. reflexivity. Qed.

Lemma quotes_readably_cases (c : ascii) :
  quotes_readably c = true ->
  quotes_plainly c = true \/
  exists ds : string,
    quoted_char c = String "\" (String "u" ds) /\
    String.length ds = 4%nat /\ all_digits ds = true /\
    encode_utf8 (hexadecimal_reading ds) = str1 c.
Proof.
  unfold quotes_readably. intros H.
  destruct (quotes_plainly c) eqn:Hp; [now left | right].
  exists (write_hex_16 (code c)). now apply escape_in_digits.
Qed.

Lemma normal_loop_quoted (opts : FormatOptions) (doc : DocInfo) (state : State)
    (str : string) :
  forall (acc : string) (fuel : nat) (p : Parser) (rest : string),
    forallb quotes_readably (list_ascii_of_string str) = true ->
    chars (_ptr p) = map_chars quoted_char str ++ String DQUOTE rest ->
    (String.length (map_chars quoted_char str) < fuel)%nat ->
    normal_loop opts doc fuel state acc p =
    Ok (acc ++ str,
        parser_with_ptr
          (mkPtr (offset (_ptr p) + S (String.length (map_chars quoted_char str))) rest)
          p).
Proof.
  induction str as [|c str IH]; intros acc fuel p rest Hq Hat Hf.
  - destruct fuel as [|fuel]; [cbn in Hf; lia|].
    rewrite (normal_loop_end opts doc state fuel acc rest p Hat).
    now rewrite append_empty_r.
  - cbn [forallb list_ascii_of_string map_chars] in *.
    apply andb_prop in Hq as [Hc Hq].
    rewrite length_append in *. rewrite append_assoc in Hat.
    destruct fuel as [|fuel]; [lia|].
    destruct (quotes_readably_cases c Hc) as [Hp|[ds [Hqc [Hl [Hd He]]]]];
      [destruct (quoted_char_cases c Hp)
         as [[e [Hqc He]]|[Hqc [H1 [H2 [H3 [H4 H5]]]]]]|];
      rewrite Hqc in *; unfold str1 in Hat, Hf; cbn [append String.length] in Hat, Hf |- *.
    + rewrite (normal_loop_escape opts doc state fuel acc _ e c p Hat He).
      rewrite (IH _ fuel _ rest Hq); [| reflexivity | cbn; lia].
      rewrite append_assoc. unfold parser_with_ptr. cbn [_ptr offset].
      replace (offset (_ptr p) + 2 + S (String.length (map_chars quoted_char str)))%nat
        with (offset (_ptr p) + S (2 + String.length (map_chars quoted_char str)))%nat
        by lia.
      reflexivity.
    + rewrite (normal_loop_plain opts doc state fuel acc _ c p Hat H1 H2 H3 H4 H5).
      rewrite (IH _ fuel _ rest Hq); [| reflexivity | cbn; lia].
      rewrite append_assoc. unfold parser_with_ptr. cbn [_ptr offset].
      replace (offset (_ptr p) + 1 + S (String.length (map_chars quoted_char str)))%nat
        with (offset (_ptr p) + S (1 + String.length (map_chars quoted_char str)))%nat
        by lia.
      reflexivity.
    + rewrite (normal_loop_unicode opts doc state fuel acc ds _ p Hat Hl Hd).
      rewrite He.
      rewrite (IH _ fuel _ rest Hq); [| reflexivity | cbn; lia].
      rewrite append_assoc. unfold parser_with_ptr. cbn [_ptr offset].
      rewrite Hl.
      replace (offset (_ptr p) + 6 + S (String.length (map_chars quoted_char str)))%nat
        with (offset (_ptr p) + S (S (S (4 + String.length (map_chars quoted_char str)))))%nat
        by lia.
      reflexivity.
Qed.

Lemma quoted_char_first (c : ascii) (s : string) :
  quotes_readably c = true ->
  exists (x : ascii) (r : string),
    quoted_char c ++ s = String x r /\ cheq x DQUOTE = false.
Proof.
  intros Hc.
  destruct (quotes_readably_cases c Hc) as [Hp|[ds [Hqc _]]];
    [destruct (quoted_char_cases c Hp) as [[e [Hqc _]]|[Hqc [_ [H2 _]]]]|];
    rewrite Hqc.
  - now exists "\"%char, (String e s).
  - now exists c, s.
  - now exists "\"%char, (String "u" (ds ++ s)).
Qed.

(** A string of characters that are written as they are, with a
    two-character escape or with a \u escape in decimal digits is read
    back from what [write_quoted_string] gives for it. *)
Lemma parse_quoted_text (opts : FormatOptions) (doc : DocInfo)
    (str rest : string) (p : Parser) :
  parser_at (write_quoted_string str ++ rest) p ->
  forallb quotes_readably (list_ascii_of_string str) = true ->
  (str = "" -> String.get 0 rest <> Some DQUOTE) ->
  Parser_parse_string opts doc p =
  Ok (str, parser_skip (String.length (write_quoted_string str)) p).
Proof.
  unfold parser_at. rewrite write_quoted_string_quoted_char.
  intros Hat Hq Hrest.
  unfold str1 in Hat. rewrite !append_assoc in Hat. cbn [append] in Hat.
  set (body := map_chars quoted_char str) in *.
  assert (Hmulti : cheq (peek (_ptr p) 1) DQUOTE && cheq (peek (_ptr p) 2) DQUOTE = false).
  { unfold peek. rewrite Hat. cbn [String.get]. subst body.
    destruct str as [|c str].
    - cbn [map_chars append String.get]. decide_cheq. cbn [andb].
      specialize (Hrest eq_refl). unfold cheq.
      destruct rest as [|x rest]; [reflexivity|]. cbn [String.get] in *.
      apply Ascii.eqb_neq. congruence.
    - cbn [map_chars forallb list_ascii_of_string] in *.
      apply andb_prop in Hq as [Hc _]. rewrite append_assoc.
      destruct (quoted_char_first c (map_chars quoted_char str ++ String DQUOTE rest) Hc)
        as [x [r [E Hx]]].
      rewrite E. cbn [String.get]. now rewrite Hx. }
  unfold Parser_parse_string, bind, get_state, at_ptr, parse_assert, skip.
  cbv beta iota. cbn [ptr].
  fold (peek (_ptr p) 1). fold (peek (_ptr p) 2).
  unfold peek at 1 2. rewrite Hat. cbn [String.get]. unfold cheq at 1 2. decide_cheq.
  cbv beta iota. unfold ret. cbv beta iota.
  rewrite Hmulti.
  rewrite (normal_loop_quoted opts doc _ str "" _ _ rest Hq).
  - unfold parser_with_ptr, parser_skip, advance.
    cbn [_ptr offset chars _line_nr _line_start _indentation _next_addr append].
    rewrite Hat.
    replace (String DQUOTE (body ++ String DQUOTE rest))
      with ((String DQUOTE (body ++ String DQUOTE "")) ++ rest)
      by (cbn [append]; now rewrite append_assoc).
    rewrite drop_append. unfold str1. cbn [append String.length].
    rewrite !length_append. cbn [String.length].
    fold body.
    replace (offset (_ptr p) + 1 + S (String.length body))%nat
      with (offset (_ptr p) + S (String.length body + 1))%nat by lia.
    reflexivity.
  - unfold advance. cbn [_ptr chars]. rewrite Hat. reflexivity.
  - fold body. cbn [String.length]. rewrite length_append. lia.
Qed.

Lemma normal_loop_quoted_prefix (opts : FormatOptions) (doc : DocInfo) (state : State)
    (str : string) :
  forall (acc : string) (fuel : nat) (p : Parser) (tail : string),
    forallb quotes_readably (list_ascii_of_string str) = true ->
    chars (_ptr p) = map_chars quoted_char str ++ tail ->
    normal_loop opts doc (String.length str + fuel) state acc p =
    normal_loop opts doc fuel state (acc ++ str)
      (parser_with_ptr
         (mkPtr (offset (_ptr p) + String.length (map_chars quoted_char str)) tail) p).
Proof.
  induction str as [|c str IH]; intros acc fuel p tail Hq Hat.
  - cbn [String.length map_chars Nat.add append] in *. rewrite append_empty_r, Nat.add_0_r.
    destruct p as [[o s] l ls i a]. cbn in Hat. subst s. reflexivity.
  - cbn [forallb list_ascii_of_string map_chars String.length Nat.add] in *.
    apply andb_prop in Hq as [Hc Hq].
    rewrite length_append. rewrite append_assoc in Hat.
    destruct (quotes_readably_cases c Hc) as [Hp|[ds [Hqc [Hl [Hd He]]]]];
      [destruct (quoted_char_cases c Hp)
         as [[e [Hqc He]]|[Hqc [H1 [H2 [H3 [H4 H5]]]]]]|];
      rewrite Hqc in *; unfold str1 in Hat; cbn [append String.length] in Hat |- *.
    + rewrite (normal_loop_escape opts doc state _ acc _ e c p Hat He).
      rewrite (IH _ fuel _ tail Hq); [| reflexivity].
      rewrite append_assoc. unfold parser_with_ptr. cbn [_ptr offset].
      replace (offset (_ptr p) + 2 + String.length (map_chars quoted_char str))%nat
        with (offset (_ptr p) + S (S (String.length (map_chars quoted_char str))))%nat
        by lia.
      reflexivity.
    + rewrite (normal_loop_plain opts doc state _ acc _ c p Hat H1 H2 H3 H4 H5).
      rewrite (IH _ fuel _ tail Hq); [| reflexivity].
      rewrite append_assoc. unfold parser_with_ptr. cbn [_ptr offset].
      replace (offset (_ptr p) + 1 + String.length (map_chars quoted_char str))%nat
        with (offset (_ptr p) + S (String.length (map_chars quoted_char str)))%nat
        by lia.
      reflexivity.
    + rewrite (normal_loop_unicode opts doc state _ acc ds _ p Hat Hl Hd).
      rewrite He.
      rewrite (IH _ fuel _ tail Hq); [| reflexivity].
      rewrite append_assoc. unfold parser_with_ptr. cbn [_ptr offset].
      rewrite Hl.
      replace (offset (_ptr p) + 6 + String.length (map_chars quoted_char str))%nat
        with (offset (_ptr p) + S (S (4 + String.length (map_chars quoted_char str))))%nat
        by lia.
      reflexivity.
Qed.

Lemma map_chars_append (f : ascii -> string) (a b : string) :
  map_chars f (a ++ b) = map_chars f a ++ map_chars f b.
Proof.
  induction a as [|c a IH]; [reflexivity|]. cbn. now rewrite IH, append_assoc.
Qed.

(** X10: a string with a zero in it is written with the escape \0, which
    [parse_string] refuses. *)
Theorem quoted_zero_is_refused (opts : FormatOptions) (doc : DocInfo)
    (pre post rest : string) (p : Parser) :
  forallb quotes_readably (list_ascii_of_string pre) = true ->
  parser_at (write_quoted_string (pre ++ String NUL post) ++ rest) p ->
  exists p' : Parser,
    Parser_parse_string opts doc p =
    throw_error doc ("Unknown escape character " ++ quote "0") p'.
Proof.
  unfold parser_at. rewrite write_quoted_string_quoted_char.
  intros Hq Hat.
  rewrite map_chars_append in Hat. cbn [map_chars] in Hat.
  change (quoted_char NUL) with "\0" in Hat.
  unfold str1 in Hat. rewrite !append_assoc in Hat. cbn [append] in Hat.
  set (tail := String "\" (String "0" (map_chars quoted_char post ++ String DQUOTE rest))) in *.
  assert (Hmulti : cheq (peek (_ptr p) 1) DQUOTE = false).
  { unfold peek. rewrite Hat. cbn [String.get].
    destruct pre as [|c pre]; [reflexivity|].
    cbn [map_chars forallb list_ascii_of_string] in *.
    apply andb_prop in Hq as [Hc _]. rewrite append_assoc.
    destruct (quoted_char_first c (map_chars quoted_char pre ++ tail) Hc)
      as [x [r [E Hx]]].
    rewrite E. cbn [String.get]. exact Hx. }
  unfold Parser_parse_string, bind, get_state, at_ptr, parse_assert, skip.
  cbv beta iota. cbn [ptr].
  fold (peek (_ptr p) 1). fold (peek (_ptr p) 2).
  unfold peek at 1 2. rewrite Hat. cbn [String.get]. unfold cheq at 1 2. decide_cheq.
  cbv beta iota. unfold ret. cbv beta iota.
  rewrite Hmulti. cbn [andb].
  assert (Hlen : (String.length pre < String.length (map_chars quoted_char pre ++ tail))%nat).
  { rewrite length_append. subst tail. cbn [String.length].
    assert (String.length pre <= String.length (map_chars quoted_char pre))%nat; [|lia].
    clear - Hq. induction pre as [|c pre IH]; [cbn; lia|].
    cbn [forallb list_ascii_of_string map_chars String.length] in *.
    apply andb_prop in Hq as [Hc Hq]. rewrite length_append. specialize (IH Hq).
    destruct (quotes_readably_cases c Hc) as [Hp|[ds [Hqc _]]];
      [destruct (quoted_char_cases c Hp) as [[e [Hqc _]]|[Hqc _]]|];
      rewrite Hqc; cbn; lia. }
  cbn [String.length].
  replace (S (S (String.length (map_chars quoted_char pre ++ tail))))
    with (String.length pre +
          S (S (S (String.length (map_chars quoted_char pre ++ tail) -
                   S (String.length pre)))))%nat by lia.
  rewrite (normal_loop_quoted_prefix opts doc _ pre "" _ _ tail Hq);
    [| unfold advance; cbn [_ptr chars]; rewrite Hat; reflexivity].
  eexists. subst tail. cbn [normal_loop].
  unfold bind, at_ptr, peek, skip, advance, parser_with_ptr, cheq.
  parser_steps ltac:(decide_cheq).
  cbn [_ptr chars drop offset _line_nr _line_start _indentation _next_addr String.get].
  parser_steps ltac:(decide_cheq).
  reflexivity.
Qed.

Lemma quoted_zero_is_refused_witness :
  forallb quotes_readably (list_ascii_of_string "a") = true /\
  parser_at (write_quoted_string ("a" ++ String NUL "b") ++ str1 LF)
    (Parser_new (write_quoted_string ("a" ++ String NUL "b") ++ str1 LF) 0) /\
  exists p' : Parser,
    Parser_parse_string CFG sample_doc
      (Parser_new (write_quoted_string ("a" ++ String NUL "b") ++ str1 LF) 0) =
    throw_error sample_doc ("Unknown escape character " ++ quote "0") p'.
Proof.
  split; [reflexivity|]. split; [reflexivity|].
  apply (quoted_zero_is_refused CFG sample_doc "a" "b" (str1 LF)); reflexivity.
Defined.

Lemma escape_in_letters (c : ascii) :
  escapes_in_letters c = true ->
  exists (x : ascii) (ds tail : string),
    quoted_char c = String "\" (String "u" (ds ++ tail)) /\
    String.length ds = 4%nat /\ all_digits ds = true /\
    encode_utf8 (hexadecimal_reading ds) = str1 x /\
    forallb quotes_readably (list_ascii_of_string tail) = true /\
    map_chars quoted_char tail = tail /\
    tail <> EmptyString.
Proof.
  unfold escapes_in_letters. intros H.
  exists (chr (hexadecimal_reading (substring 0 4 (write_hex_16 (code c))))),
         (substring 0 4 (write_hex_16 (code c))),
         (substring 4 3 (write_hex_16 (code c))).
  apply andb_prop in H as [H H3]. apply andb_prop in H as [H1 H2].
  apply Z.ltb_lt in H1. revert H2 H3.
  apply (control_character_code c); [exact H1|].
  intros n Hn.
  do 32 (destruct n as [|n];
         [vm_compute; intros; try discriminate; repeat split; discriminate|]).
  lia.
Qed.

Lemma quoted_length_le (str : string) :
  forallb quotes_readably (list_ascii_of_string str) = true ->
  (String.length str <= String.length (map_chars quoted_char str))%nat.
Proof.
  induction str as [|c str IH]; [cbn; lia|].
  cbn [forallb list_ascii_of_string map_chars String.length].
  intros Hq. apply andb_prop in Hq as [Hc Hq]. rewrite length_append. specialize (IH Hq).
  destruct (quotes_readably_cases c Hc) as [Hp|[ds [Hqc _]]];
    [destruct (quoted_char_cases c Hp) as [[e [Hqc _]]|[Hqc _]]|];
    rewrite Hqc; cbn; lia.
Qed.

Lemma forallb_list_ascii_append (f : ascii -> bool) (a b : string) :
  forallb f (list_ascii_of_string (a ++ b)) =
  forallb f (list_ascii_of_string a) && forallb f (list_ascii_of_string b).
Proof.
  induction a as [|c a IH]; [reflexivity|]. cbn. now rewrite IH, andb_assoc.
Qed.

(** X8: a control character that [write_quoted_string] writes as a \u
    escape with a last digit of ten or more is not read back: that digit
    is written as the decimal number of a letter, and [parse_string] gives
    another character followed by digits. *)
Theorem control_character_is_not_read_back (opts : FormatOptions) (doc : DocInfo)
    (pre post rest : string) (c : ascii) (p : Parser) :
  escapes_in_letters c = true ->
  forallb quotes_readably (list_ascii_of_string pre) = true ->
  forallb quotes_readably (list_ascii_of_string post) = true ->
  parser_at (write_quoted_string (pre ++ String c post) ++ rest) p ->
  exists (x : ascii) (tail : string) (p' : Parser),
    tail <> EmptyString /\
    Parser_parse_string opts doc p = Ok (pre ++ String x (tail ++ post), p').
Proof.
  unfold parser_at. rewrite write_quoted_string_quoted_char.
  intros Hc Hpre Hpost Hat.
  destruct (escape_in_letters c Hc) as [x [ds [tail [Hqc [Hl [Hd [He [Ht [Hm Hne]]]]]]]]].
  exists x, tail.
  rewrite map_chars_append in Hat. cbn [map_chars] in Hat. rewrite Hqc in Hat.
  unfold str1 in Hat. rewrite !append_assoc in Hat. cbn [append] in Hat.
  rewrite !append_assoc in Hat.
  set (after := tail ++ map_chars quoted_char post ++ String DQUOTE rest) in *.
  set (text := String "\" (String "u" (ds ++ after))) in *.
  assert (Hmulti : cheq (peek (_ptr p) 1) DQUOTE = false).
  { unfold peek. rewrite Hat. cbn [String.get].
    destruct pre as [|c0 pre]; [reflexivity|].
    cbn [map_chars forallb list_ascii_of_string] in *.
    apply andb_prop in Hpre as [Hc0 _]. rewrite append_assoc.
    destruct (quoted_char_first c0 (map_chars quoted_char pre ++ text) Hc0)
      as [y [r [E Hy]]].
    rewrite E. cbn [String.get]. exact Hy. }
  unfold Parser_parse_string, bind, get_state, at_ptr, parse_assert, skip.
  cbv beta iota. cbn [ptr].
  fold (peek (_ptr p) 1). fold (peek (_ptr p) 2).
  unfold peek at 1 2. rewrite Hat. cbn [String.get]. unfold cheq at 1 2. decide_cheq.
  cbv beta iota. unfold ret. cbv beta iota.
  rewrite Hmulti. cbn [andb].
  pose proof (quoted_length_le pre Hpre) as Hlen.
  assert (Hafter : map_chars quoted_char (tail ++ post) ++ String DQUOTE rest = after).
  { subst after. now rewrite map_chars_append, Hm, append_assoc. }
  assert (Hq : forallb quotes_readably (list_ascii_of_string (tail ++ post)) = true).
  { now rewrite forallb_list_ascii_append, Ht, Hpost. }
  cbn [String.length]. rewrite length_append.
  subst text. cbn [String.length]. rewrite length_append, Hl.
  set (n := String.length after).
  replace (S (S (String.length (map_chars quoted_char pre) + S (S (4 + n)))))
    with (String.length pre +
          S (S (String.length (map_chars quoted_char pre) - String.length pre
                + S (S (4 + n)))))%nat by lia.
  rewrite (normal_loop_quoted_prefix opts doc _ pre "" _ _
             (String "\" (String "u" (ds ++ after))) Hpre);
    [| unfold advance; cbn [_ptr chars]; rewrite Hat; reflexivity].
  rewrite (normal_loop_unicode opts doc _ _ _ ds after); [| reflexivity | exact Hl | exact Hd].
  rewrite He. cbn [append].
  eexists. split; [exact Hne|].
  rewrite (normal_loop_quoted opts doc _ (tail ++ post) _ _ _ rest Hq).
  - unfold str1. rewrite !append_assoc. reflexivity.
  - cbn [parser_with_ptr _ptr chars]. now rewrite Hafter.
  - assert (String.length (map_chars quoted_char (tail ++ post)) <= n)%nat; [|lia].
    subst n. rewrite <- Hafter, length_append. lia.
Qed.

Lemma control_character_is_not_read_back_witness :
  escapes_in_letters (chr 0x1B) = true /\
  forallb quotes_readably (list_ascii_of_string "a") = true /\
  forallb quotes_readably (list_ascii_of_string "z") = true /\
  parser_at (write_quoted_string ("a" ++ String (chr 0x1B) "z") ++ str1 LF)
    (Parser_new (write_quoted_string ("a" ++ String (chr 0x1B) "z") ++ str1 LF) 0) /\
  exists (x : ascii) (tail : string) (p' : Parser),
    tail <> EmptyString /\
    Parser_parse_string CFG sample_doc
      (Parser_new (write_quoted_string ("a" ++ String (chr 0x1B) "z") ++ str1 LF) 0) =
    Ok ("a" ++ String x (tail ++ "z"), p').
Proof.
  split; [reflexivity|]. split; [reflexivity|]. split; [reflexivity|].
  split; [reflexivity|].
  apply (control_character_is_not_read_back CFG sample_doc "a" "z" (str1 LF) (chr 0x1B));
    reflexivity.
Defined.

(** ** The text of an integer *)

From Stdlib Require DecimalPos DecimalFacts.

Lemma reading_of_uint_acc (d : Decimal.uint) (acc : positive) :
  decimal_reading_from (Z.pos acc) (NilEmpty.string_of_uint d) =
  Z.pos (Pos.of_uint_acc d acc).
Proof.
  revert acc. induction d; intros acc; cbn [NilEmpty.string_of_uint decimal_reading_from Pos.of_uint_acc];
    try reflexivity; rewrite <- IHd; f_equal; vm_compute (code _ - code _); lia.
Qed.

Lemma reading_of_uint (d : Decimal.uint) :
  decimal_reading (NilEmpty.string_of_uint d) = Z.of_N (Pos.of_uint d).
Proof.
  unfold decimal_reading.
  induction d; cbn [NilEmpty.string_of_uint decimal_reading_from Pos.of_uint];
    try reflexivity; try exact IHd;
    cbn [Z.of_N]; rewrite <- reading_of_uint_acc; f_equal.
Qed.

Lemma all_digits_of_uint (d : Decimal.uint) :
  all_digits (NilEmpty.string_of_uint d) = true.
Proof.
  induction d; cbn [NilEmpty.string_of_uint all_digits]; try reflexivity;
    rewrite IHd; reflexivity.
Qed.

Lemma nzhead_not_D0 (d d' : Decimal.uint) : Decimal.nzhead d <> Decimal.D0 d'.
Proof. induction d; cbn; try discriminate. exact IHd. Qed.

Lemma to_uint_no_leading_zero (p : positive) (d : Decimal.uint) :
  Pos.to_uint p <> Decimal.D0 d.
Proof.
  intros E.
  pose proof (DecimalPos.Unsigned.to_of (Pos.to_uint p)) as H.
  rewrite DecimalPos.Unsigned.of_to in H. cbn [N.to_uint] in H.
  rewrite E in H. unfold Decimal.unorm in H. cbn [Decimal.nzhead] in H.
  destruct (Decimal.nzhead d) eqn:En; try discriminate.
  - inversion H. subst d. exact (DecimalPos.Unsigned.to_uint_nonzero p E).
  - exact (nzhead_not_D0 d u En).
Qed.

(** The text of a positive number: decimal digits, the first one not a
    zero, that read as the number. *)
Lemma to_string_pos (p : positive) :
  exists (c : ascii) (ds : string),
    to_string (Z.pos p) = String c ds /\
    all_digits (String c ds) = true /\
    c <> "0"%char /\
    decimal_reading (String c ds) = Z.pos p.
Proof.
  unfold to_string. cbn [Z.to_int NilZero.string_of_int].
  pose proof (DecimalPos.Unsigned.to_uint_nonnil p) as Hnil.
  pose proof (to_uint_no_leading_zero p) as Hz.
  pose proof (reading_of_uint (Pos.to_uint p)) as Hr.
  pose proof (all_digits_of_uint (Pos.to_uint p)) as Hd.
  rewrite DecimalPos.Unsigned.of_to in Hr. cbn [Z.of_N] in Hr.
  unfold NilZero.string_of_uint.
  destruct (Pos.to_uint p) as [|d|d|d|d|d|d|d|d|d|d] eqn:E;
    [congruence | exfalso; exact (Hz d eq_refl) | ..];
    cbn [NilEmpty.string_of_uint] in *;
    eexists _, _; (split; [reflexivity|]); (split; [exact Hd|]);
    (split; [discriminate | exact Hr]).
Qed.

Lemma drop_drop (m n : nat) (s : string) : drop n (drop m s) = drop (m + n) s.
Proof.
  revert s. induction m as [|m IH]; intros s; [reflexivity|].
  destruct s as [|c s]; [now destruct n|]. exact (IH s).
Qed.

Lemma parser_skip_skip (m n : nat) (p : Parser) :
  parser_skip n (parser_skip m p) = parser_skip (m + n) p.
Proof.
  unfold parser_skip, advance. cbn [_ptr offset chars _line_nr _line_start _indentation _next_addr].
  now rewrite drop_drop, Nat.add_assoc.
Qed.

Lemma parse_zero_token (opts : FormatOptions) (doc : DocInfo) (dst : Config)
    (p : Parser) (rest : string) :
  parser_at (String "0" rest) p ->
  ends_integer rest = true ->
  String.get 0 rest <> Some "x"%char ->
  String.get 0 rest <> Some "b"%char ->
  parse_finite_number opts doc dst p =
  Ok (move_assign dst (Config_int 0), parser_skip 1 p).
Proof.
  intros Hat Hrest Hx Hb. unfold parser_at in Hat.
  pose proof (ends_integer_no_digit rest Hrest) as Hnd.
  assert (Hrun : digits_run 10 (String "0" rest) 0 = (0, 1%nat, rest))
    by (now apply (digits_run_token "0" rest 0)).
  assert (Hstr : strtoll (String "0" rest) 10 = (0, 1%nat))
    by (now apply (strtoll_token "0" rest)).
  assert (Hfl : cheq (match rest with String x _ => x | EmptyString => NUL end) "." ||
                cheq (match rest with String x _ => x | EmptyString => NUL end) "e" ||
                cheq (match rest with String x _ => x | EmptyString => NUL end) "E" = false).
  { destruct rest as [|x r]; [reflexivity|]. simpl in Hrest.
    rewrite !andb_true_iff, !negb_true_iff in Hrest.
    destruct Hrest as [[[_ A] B] C]. now rewrite A, B, C. }
  assert (Hc1 : Ascii.eqb (match String.get 0 rest with Some c => c | None => NUL end) "x"
                = false).
  { apply Ascii.eqb_neq. destruct rest as [|x r]; [discriminate|].
    cbn in *. congruence. }
  assert (Hc2 : Ascii.eqb (match String.get 0 rest with Some c => c | None => NUL end) "b"
                = false).
  { apply Ascii.eqb_neq. destruct rest as [|x r]; [discriminate|].
    cbn in *. congruence. }
  unfold parse_finite_number, bind, at_ptr, get_ptr, peek, parse_assert.
  unfold cheq in *.
  parser_steps ltac:(rewrite ?Hat, ?Hc1, ?Hc2; decide_cheq).
  rewrite Hrun. cbv beta iota. rewrite Hfl. rewrite Hstr.
  unfold skip. cbn [String.length Nat.ltb Nat.leb].
  parser_steps ltac:(rewrite ?Hat; decide_cheq).
  reflexivity.
Qed.

(** The decimal text of a 64-bit integer other than the least one is
    parsed to that integer. *)
Lemma parse_decimal_text (opts : FormatOptions) (doc : DocInfo)
    (dst : Config) (p : Parser) (i : Z) (rest : string) :
  INT64_MIN < i <= INT64_MAX ->
  parser_at (to_string i ++ rest) p ->
  ends_integer rest = true ->
  String.get 0 rest <> Some "x"%char ->
  String.get 0 rest <> Some "b"%char ->
  indentation_no_digit opts = true ->
  parse_finite_number opts doc dst p =
  Ok (move_assign dst (Config_int i), parser_skip (String.length (to_string i)) p).
Proof.
  intros Hi Hat Hrest Hx Hb Hind. unfold INT64_MIN, INT64_MAX in Hi.
  destruct i as [|n|n].
  - now apply (parse_zero_token opts doc dst p rest).
  - destruct (to_string_pos n) as [c [ds [Hs [Hd [Hc Hr]]]]].
    rewrite Hs in *.
    rewrite (parse_integer_token opts doc dst p (String c ds) rest Hat Hd);
      [| discriminate | exact Hrest
       | unfold peek; rewrite Hat; cbn [append String.get]; exact Hc].
    rewrite Hr, Z.min_r by (unfold INT64_MAX; lia). reflexivity.
  - destruct (to_string_pos n) as [c [ds [Hs [Hd [Hc Hr]]]]].
    assert (Hneg : to_string (Z.neg n) = String "-" (to_string (Z.pos n)))
      by reflexivity.
    rewrite Hneg, Hs in *. cbn [append] in Hat.
    rewrite (parse_negative_integer_token opts doc dst p (String c ds) rest Hat Hd);
      [| discriminate | exact Hrest | cbn [String.get]; congruence | exact Hind].
    rewrite Hr, Z.min_r by (unfold INT64_MAX; lia).
    rewrite parser_skip_skip. reflexivity.
Qed.




(** ** UTF-8 *)

Lemma code_chr (z : Z) : 0 <= z < 256 -> code (chr z) = z.
Proof.
  intros Hz. unfold code, chr. rewrite Z.mod_small by lia.
  rewrite N_ascii_embedding by lia. lia.
Qed.

Lemma land_high_low (h x k : Z) :
  0 <= k -> 0 <= x < 2 ^ k -> Z.land (h * 2 ^ k) x = 0.
Proof.
  intros Hk Hx. apply Z.bits_inj'. intros n Hn.
  rewrite Z.land_spec, Z.bits_0.
  destruct (Z.lt_ge_cases n k) as [Hlt|Hge].
  - now rewrite Z.mul_pow2_bits_low.
  - rewrite <- (Z.mod_small x (2 ^ k)) by lia.
    rewrite Z.mod_pow2_bits_high by lia. apply andb_false_r.
Qed.

Lemma lor_high_low (h x k : Z) :
  0 <= k -> 0 <= x < 2 ^ k -> Z.lor (h * 2 ^ k) x = h * 2 ^ k + x.
Proof.
  intros Hk Hx. rewrite <- Z.add_lor_land, land_high_low by assumption. lia.
Qed.



Lemma utf8_unmasked_byte (x : Z) :
  0 <= x < 256 ->
  code (chr (Z.lor 0x80 x)) = if x <? 128 then 128 + x else x.
Proof.
  intros Hx. destruct (Z.ltb_spec x 128) as [H|H].
  - change 0x80 with (1 * 2 ^ 7).
    rewrite lor_high_low by (change (2 ^ 7) with 128; lia).
    change (1 * 2 ^ 7) with 128. apply code_chr. lia.
  - replace x with (1 * 2 ^ 7 + (x - 128)) at 1 by (change (1 * 2 ^ 7) with 128; lia).
    rewrite <- lor_high_low by (change (2 ^ 7) with 128; lia).
    change (1 * 2 ^ 7) with 0x80.
    rewrite Z.lor_assoc, Z.lor_diag.
    change 0x80 with (1 * 2 ^ 7).
    rewrite lor_high_low by (change (2 ^ 7) with 128; lia).
    change (1 * 2 ^ 7) with 128.
    rewrite code_chr by lia. lia.
Qed.

Lemma testbit_24 (c : Z) :
  0 <= c -> (c / 262144 / 64) mod 2 = if Z.testbit c 24 then 1 else 0.
Proof.
  intros Hc.
  change 24 with (6 + 18). rewrite <- Z.div_pow2_bits by lia.
  rewrite Z.testbit_odd, Z.shiftr_div_pow2 by lia.
  change (2 ^ 18) with 262144. change (2 ^ 6) with 64.
  apply Zmod_odd.
Qed.



(** X14: for a code point of the form of five bytes whose bit 24 is set,
    the second byte that [encode_utf8] gives is no continuation byte: it is
    written without the mask of six bits. *)
Theorem encode_utf8_five_bytes_unmasked (c : Z) :
  0x200000 <= c <= 0x3FFFFFF ->
  Z.testbit c 24 = true ->
  exists b : ascii,
    String.get 1 (encode_utf8 c) = Some b /\ utf8_continuation b = None.
Proof.
  intros Hc Hbit. unfold encode_utf8.
  rewrite !(proj2 (Z.leb_gt _ _)) by lia.
  rewrite (proj2 (Z.leb_le c 0x3FFFFFF)) by lia.
  unfold str1. cbn [append String.get].
  eexists. split; [reflexivity|].
  rewrite Z.shiftr_div_pow2 by lia. change (2 ^ 18) with 262144.
  pose proof (testbit_24 c ltac:(lia)) as Hb. rewrite Hbit in Hb.
  pose proof (Z.div_mod (c / 262144 / 64) 2 ltac:(lia)) as D6.
  pose proof (Z.div_mod (c / 262144) 64 ltac:(lia)) as D3.
  pose proof (Z.mod_pos_bound (c / 262144) 64 ltac:(lia)) as M3.
  assert (Hx : 8 <= c / 262144 < 256)
    by (split; [apply Z.div_le_lower_bound; lia | apply Z.div_lt_upper_bound; lia]).
  unfold utf8_continuation. rewrite utf8_unmasked_byte by lia.
  destruct (Z.ltb_spec (c / 262144) 128) as [L|L].
  - now rewrite (proj2 (Z.ltb_ge (128 + c / 262144) 0xC0)), andb_false_r by lia.
  - now rewrite (proj2 (Z.ltb_ge (c / 262144) 0xC0)), andb_false_r by lia.
Qed.

Lemma encode_utf8_five_bytes_unmasked_witness :
  0x200000 <= 0x1000000 <= 0x3FFFFFF /\
  Z.testbit 0x1000000 24 = true /\
  exists b : ascii,
    String.get 1 (encode_utf8 0x1000000) = Some b /\ utf8_continuation b = None.
Proof.
  split; [lia|]. split; [reflexivity|].
  apply (encode_utf8_five_bytes_unmasked 0x1000000); [lia | reflexivity].
Defined.

(** ** Keys *)

Lemma prefix_append_cases (w key rest : string) :
  String.prefix w (key ++ rest) = true ->
  (exists k2 : string, key = w ++ k2) \/
  (exists (c : ascii) (w2 r : string), w = key ++ String c w2 /\ rest = String c r).
Proof.
  revert key. induction w as [|a w IH]; intros key H.
  - left. now exists key.
  - destruct key as [|b key].
    + right. cbn [append] in H. destruct rest as [|c r]; [discriminate|].
      cbn in H. destruct (ascii_dec a c) as [->|]; [|discriminate].
      now exists c, w, r.
    + cbn in H. destruct (ascii_dec a b) as [->|]; [|discriminate].
      destruct (IH key H) as [[k2 ->]|[c [w2 [r [-> ->]]]]].
      * left. now exists k2.
      * right. now exists c, w2, r.
Qed.

Lemma all_ident_chars_append (a b : string) :
  all_ident_chars (a ++ b) = all_ident_chars a && all_ident_chars b.
Proof.
  induction a as [|c a IH]; [reflexivity|]. cbn.
  destruct (is_ident_start c || in_range "0" "9" c); [exact IH | reflexivity].
Qed.

Lemma all_ident_chars_head (c : ascii) (s : string) :
  all_ident_chars (String c s) = true -> IDENT_CHARS c = true.
Proof.
  cbn. unfold IDENT_CHARS, is_ident_start.
  destruct (cheq c "_" || in_range "a" "z" c || in_range "A" "Z" c || in_range "0" "9" c);
    [reflexivity | discriminate].
Qed.

Lemma get_append_length (w : string) (x : ascii) (r : string) :
  String.get (String.length w) (w ++ String x r) = Some x.
Proof. induction w as [|c w IH]; [reflexivity | exact IH]. Qed.

Lemma not_reserved_word (w key rest : string) (ptr : cptr) :
  all_ident_chars w = true ->
  all_ident_chars key = true ->
  ends_identifier rest = true ->
  key <> w ->
  chars ptr = key ++ rest ->
  String.prefix w (chars ptr) = true ->
  negb (IDENT_CHARS (peek ptr (String.length w))) = false.
Proof.
  intros Hw Hkey Hrest Hne Hat Hp. rewrite Hat in Hp.
  destruct (prefix_append_cases w key rest Hp) as [[k2 ->]|[c [w2 [r [-> ->]]]]].
  - destruct k2 as [|x k2]; [now rewrite append_empty_r in Hne|].
    unfold peek. rewrite Hat, append_assoc. cbn [append].
    rewrite get_append_length.
    rewrite all_ident_chars_append in Hkey. apply andb_prop in Hkey as [_ Hx].
    now rewrite (all_ident_chars_head x k2 Hx).
  - rewrite all_ident_chars_append in Hw. apply andb_prop in Hw as [_ Hc].
    apply all_ident_chars_head in Hc. cbn in Hrest. now rewrite Hc in Hrest.
Qed.

Lemma identifier_length_key (key rest : string) :
  all_ident_chars key = true ->
  ends_identifier rest = true ->
  identifier_length (key ++ rest) = String.length key.
Proof.
  intros Hkey Hrest. induction key as [|c key IH].
  - destruct rest as [|x r]; [reflexivity|]. cbn in *.
    now destruct (IDENT_CHARS x).
  - pose proof (all_ident_chars_head c key Hkey) as Hc.
    cbn [append identifier_length String.length]. rewrite Hc. f_equal. apply IH.
    cbn in Hkey. now destruct (is_ident_start c || in_range "0" "9" c).
Qed.

Lemma substring_append (a b : string) :
  substring 0 (String.length a) (a ++ b) = a.
Proof.
  induction a as [|c a IH]; [now destruct b|]. cbn. now rewrite IH.
Qed.

Lemma is_identifier_inv (key : string) :
  is_identifier key = true -> c_string key = key ->
  exists (c : ascii) (s : string),
    key = String c s /\ is_ident_start c = true /\ all_ident_chars key = true.
Proof.
  unfold is_identifier. intros H E. rewrite E in H.
  destruct key as [|c s]; [discriminate|]. exists c, s.
  destruct (is_ident_start c) eqn:Hc; [|discriminate].
  split; [reflexivity|]. split; [reflexivity|]. cbn. now rewrite Hc.
Qed.

(** A bare key that is an identifier and not one of [true], [false] and
    [null] is read by the key parser. *)
Lemma parse_identifier_key (opts : FormatOptions) (doc : DocInfo)
    (key rest : string) (p : Parser) :
  identifiers_keys opts = true ->
  is_identifier key = true ->
  c_string key = key ->
  key <> "true" -> key <> "null" -> key <> "false" ->
  ends_identifier rest = true ->
  parser_at (key ++ rest) p ->
  parse_key opts doc p = Ok (key, parser_skip (String.length key) p).
Proof.
  intros Hopt Hid Hc Ht Hn Hf Hrest Hat. unfold parser_at in Hat.
  destruct (is_identifier_inv key Hid Hc) as [c [s [Ek [Hstart Hall]]]].
  assert (Hres : is_reserved_identifier (_ptr p) = false).
  { unfold is_reserved_identifier.
    destruct (String.prefix "true" (chars (_ptr p))) eqn:P1.
    - cbn [orb]. now apply (not_reserved_word "true" key rest).
    - destruct (String.prefix "null" (chars (_ptr p))) eqn:P2.
      + cbn [orb]. now apply (not_reserved_word "null" key rest).
      + cbn [orb]. destruct (String.prefix "false" (chars (_ptr p))) eqn:P3;
          [|reflexivity].
        now apply (not_reserved_word "false" key rest). }
  unfold parse_key, bind, get_ptr. cbv beta iota.
  rewrite Hres. unfold peek at 1. rewrite Hat, Ek. cbn [append String.get].
  change (IDENT_STARTERS c) with (is_ident_start c). rewrite Hstart. cbn [andb negb].
  unfold parse_assert. rewrite Hopt. unfold ret, skip. cbv beta iota.
  change (String c (s ++ rest)) with (String c s ++ rest). rewrite <- Ek.
  rewrite (identifier_length_key key rest Hall Hrest), substring_append.
  reflexivity.
Qed.

(** X15: a key that is an identifier and not one of [true], [false] and
    [null] is written bare and read back. *)
Theorem identifier_key_round_trip (opts : FormatOptions) (doc : DocInfo)
    (key rest : string) (p : Parser) :
  identifiers_keys opts = true ->
  is_identifier key = true ->
  c_string key = key ->
  key <> "true" -> key <> "null" -> key <> "false" ->
  ends_identifier rest = true ->
  parser_at (write_key opts key ++ rest) p ->
  write_key opts key = key /\
  parse_key opts doc p = Ok (key, parser_skip (String.length key) p).
Proof.
  intros Hopt Hid Hc Ht Hn Hf Hrest Hat.
  assert (Hw : write_key opts key = key) by (unfold write_key; now rewrite Hopt, Hid).
  split; [exact Hw|]. rewrite Hw in Hat.
  now apply (parse_identifier_key opts doc key rest p).
Qed.

Lemma identifier_key_round_trip_witness :
  identifiers_keys CFG = true /\
  is_identifier "true_color" = true /\
  c_string "true_color" = "true_color" /\
  "true_color" <> "true" /\ "true_color" <> "null" /\ "true_color" <> "false" /\
  ends_identifier ": 1" = true /\
  parser_at (write_key CFG "true_color" ++ ": 1") (Parser_new "true_color: 1" 0) /\
  write_key CFG "true_color" = "true_color" /\
  parse_key CFG sample_doc (Parser_new "true_color: 1" 0) =
  Ok ("true_color", parser_skip (String.length "true_color") (Parser_new "true_color: 1" 0)).
Proof.
  split; [reflexivity|]. split; [reflexivity|]. split; [reflexivity|].
  split; [discriminate|]. split; [discriminate|]. split; [discriminate|].
  split; [reflexivity|]. split; [reflexivity|].
  apply (identifier_key_round_trip CFG sample_doc "true_color" ": 1");
    try reflexivity; discriminate.
Defined.

Lemma peek_after (w rest : string) (ptr : cptr) :
  chars ptr = w ++ rest ->
  ends_identifier rest = true ->
  IDENT_CHARS (peek ptr (String.length w)) = false.
Proof.
  intros Hat Hrest. unfold peek. rewrite Hat.
  destruct rest as [|x r].
  - rewrite append_empty_r.
    assert (H : String.get (String.length w) w = None)
      by (clear; induction w as [|c w IH]; [reflexivity | exact IH]).
    now rewrite H.
  - rewrite get_append_length. cbn in Hrest. now destruct (IDENT_CHARS x).
Qed.

(** X16: the keys [true], [null] and [false] are written bare, and a bare
    [true], [null] or [false] is refused as a key. *)
Theorem reserved_word_key_is_refused (opts : FormatOptions) (doc : DocInfo)
    (key rest : string) (p : Parser) :
  identifiers_keys opts = true ->
  key = "true" \/ key = "null" \/ key = "false" ->
  ends_identifier rest = true ->
  parser_at (write_key opts key ++ rest) p ->
  write_key opts key = key /\
  parse_key opts doc p =
  throw_error doc
    ("Object key expected (either an identifier or a quoted string), got " ++
     quote (peek (_ptr p) 0)) p.
Proof.
  intros Hopt Hkey Hrest Hat.
  assert (Hw : write_key opts key = key).
  { unfold write_key. rewrite Hopt. now destruct Hkey as [->|[->| ->]]. }
  split; [exact Hw|]. rewrite Hw in Hat. unfold parser_at in Hat.
  pose proof (peek_after key rest (_ptr p) Hat Hrest) as Hpeek.
  unfold parse_key, bind, get_ptr. cbv beta iota.
  unfold is_reserved_identifier.
  destruct Hkey as [->|[->| ->]]; rewrite Hat; cbn [String.length] in Hpeek;
    rewrite Hpeek; unfold peek; rewrite Hat;
    cbn [append String.get String.prefix]; decide_cheq;
    repeat match goal with
           | |- context [ascii_dec ?a ?b] =>
               let v := eval vm_compute in (if ascii_dec a b then true else false) in
               match v with
               | true => destruct (ascii_dec a b) as [_|N]; [|exfalso; apply N; reflexivity]
               | false => destruct (ascii_dec a b) as [E|_]; [discriminate E|]
               end
           end;
    cbn [orb andb negb]; unfold cheq; decide_cheq; cbn [orb andb negb];
    destruct rest; reflexivity.
Qed.

Lemma reserved_word_key_is_refused_witness :
  identifiers_keys CFG = true /\
  ("true" = "true" \/ "true" = "null" \/ "true" = "false") /\
  ends_identifier ": 1" = true /\
  parser_at (write_key CFG "true" ++ ": 1") (Parser_new "true: 1" 0) /\
  write_key CFG "true" = "true" /\
  exists orientation : string,
    parse_key CFG sample_doc (Parser_new "true: 1" 0) =
    Throw (ParseError 1 1
             ("sample.cfg:1:1: Object key expected (either an identifier or a " ++
              "quoted string), got 't'" ++ orientation)).
Proof.
  split; [reflexivity|]. split; [now left|]. split; [reflexivity|].
  split; [reflexivity|].
  destruct (reserved_word_key_is_refused CFG sample_doc "true" ": 1"
              (Parser_new "true: 1" 0) eq_refl (or_introl eq_refl) eq_refl eq_refl)
    as [Hw Hp].
  split; [exact Hw|]. eexists. rewrite Hp. reflexivity.
Defined.

(** ** Multiline strings *)

Section MultilineString.
Variable doc : DocInfo.
Variable state : State.

Lemma c_string_tail (c : ascii) (t : string) :
  c_string (String c t) = String c t -> Ascii.eqb c NUL = false /\ c_string t = t.
Proof.
  cbn [c_string]. destruct (Ascii.eqb c NUL); [discriminate|].
  intros [= H]. now split.
Qed.

(** After a string without a zero come its closing quotes: the first
    three characters from any place in the string are no zeros. *)
Lemma multiline_no_zero (t rest : string) :
  c_string t = t ->
  let s := t ++ triple_quote ++ rest in
  Ascii.eqb (match String.get 0 s with Some c => c | None => NUL end) NUL = false /\
  Ascii.eqb (match String.get 1 s with Some c => c | None => NUL end) NUL = false /\
  Ascii.eqb (match String.get 2 s with Some c => c | None => NUL end) NUL = false.
Proof.
  intros Ht. destruct t as [|x t]; [now repeat split|].
  apply c_string_tail in Ht as [Hx Ht].
  destruct t as [|y t]; [now repeat split|].
  apply c_string_tail in Ht as [Hy Ht].
  destruct t as [|z t]; [now repeat split|].
  apply c_string_tail in Ht as [Hz Ht]. now repeat split.
Qed.

Lemma ascii_dec_eqb (a b : ascii) :
  (if ascii_dec a b then true else false) = Ascii.eqb a b.
Proof.
  destruct (ascii_dec a b) as [->|N]; [now rewrite Ascii.eqb_refl|].
  symmetry. now apply Ascii.eqb_neq.
Qed.

(** Inside a string that holds no three quotes in a row, no place looks
    like the end of the multiline string. *)
Lemma multiline_no_end (c : ascii) (t rest : string) :
  String.index 0 triple_quote (String c t) = None ->
  let s := String c t ++ triple_quote ++ rest in
  Ascii.eqb (match String.get 0 s with Some c => c | None => NUL end) DQUOTE &&
  Ascii.eqb (match String.get 1 s with Some c => c | None => NUL end) DQUOTE &&
  Ascii.eqb (match String.get 2 s with Some c => c | None => NUL end) DQUOTE &&
  negb (Ascii.eqb (match String.get 3 s with Some c => c | None => NUL end) DQUOTE) = false.
Proof.
  intros Hi. cbn [String.index] in Hi.
  destruct (String.prefix triple_quote (String c t)) eqn:Hp; [discriminate|]. clear Hi.
  cbv zeta. cbn [append String.get].
  destruct (Ascii.eqb_spec c DQUOTE) as [->|]; [|reflexivity]. cbn [andb].
  destruct t as [|x t]; [reflexivity|]. cbn [append String.get].
  destruct (Ascii.eqb_spec x DQUOTE) as [->|]; [|reflexivity]. cbn [andb].
  destruct t as [|y t]; [reflexivity|]. cbn [append String.get].
  destruct (Ascii.eqb_spec y DQUOTE) as [->|]; [|reflexivity].
  exfalso. revert Hp. unfold triple_quote, str1. cbn. now destruct t.
Qed.

Lemma index_tail (c : ascii) (t : string) :
  String.index 0 triple_quote (String c t) = None ->
  String.index 0 triple_quote t = None.
Proof.
  cbn [String.index].
  destruct (String.prefix triple_quote (String c t)); [discriminate|].
  now destruct (String.index 0 triple_quote t).
Qed.

Lemma multiline_loop_body (start : cptr) (rest : string) (t : string) :
  String.get 0 rest <> Some DQUOTE ->
  forall (fuel : nat) (p : Parser),
    chars (_ptr p) = t ++ triple_quote ++ rest ->
    c_string t = t ->
    String.index 0 triple_quote t = None ->
    (String.length t < fuel)%nat ->
    exists p' : Parser,
      multiline_loop doc fuel state start p =
      Ok (between start (mkPtr (offset (_ptr p) + String.length t) (triple_quote ++ rest)),
          p') /\
      _ptr p' = mkPtr (offset (_ptr p) + String.length t + 3) rest /\
      _indentation p' = _indentation p /\ _next_addr p' = _next_addr p.
Proof.
  intros Hrest. induction t as [|c t IH]; intros fuel p Hat Hz Hi Hf.
  - destruct fuel as [|fuel]; [cbn in Hf; lia|].
    cbn [append] in Hat. cbn [multiline_loop].
    unfold bind, at_ptr, get_ptr, skip, peek, advance, cheq. rewrite Hat.
    assert (H3 : Ascii.eqb (match String.get 3 (triple_quote ++ rest) with
                            | Some c => c | None => NUL end) DQUOTE = false).
    { cbn. destruct rest as [|x r]; [reflexivity|]. cbn in *.
      apply Ascii.eqb_neq. congruence. }
    cbv beta iota. rewrite H3.
    change (String.get 0 (triple_quote ++ rest)) with (Some DQUOTE).
    change (String.get 1 (triple_quote ++ rest)) with (Some DQUOTE).
    change (String.get 2 (triple_quote ++ rest)) with (Some DQUOTE).
    cbv beta iota. decide_cheq. cbn [orb andb negb]. cbv beta iota.
    rewrite Hat. unfold ret.
    exists (parser_with_ptr (mkPtr (offset (_ptr p) + 3) rest) p). split; [|split].
    + cbn [String.length]. rewrite Nat.add_0_r. destruct p as [[o s] ? ? ? ?].
      cbn in *. subst s. reflexivity.
    + cbn [_ptr parser_with_ptr String.length]. f_equal. lia.
    + now split.
  - destruct fuel as [|fuel]; [cbn in Hf; lia|].
    pose proof (multiline_no_zero (String c t) rest Hz) as [Z0 [Z1 Z2]].
    pose proof (multiline_no_end c t rest Hi) as Hend.
    apply c_string_tail in Hz as [Hc Hz]. apply index_tail in Hi.
    cbv zeta in Z0, Z1, Z2, Hend.
    cbn [multiline_loop].
    unfold bind, at_ptr, get_ptr, peek, cheq. rewrite Hat.
    cbv beta iota. rewrite Z0, Z1, Z2, Hend. cbn [orb]. cbv beta iota.
    assert (Hnext : forall q : Parser,
               chars (_ptr q) = t ++ triple_quote ++ rest ->
               offset (_ptr q) = (offset (_ptr p) + 1)%nat ->
               _indentation q = _indentation p ->
               _next_addr q = _next_addr p ->
               exists p' : Parser,
                 multiline_loop doc fuel state start q =
                 Ok (between start
                       (mkPtr (offset (_ptr p) + String.length (String c t))
                              (triple_quote ++ rest)), p') /\
                 _ptr p' = mkPtr (offset (_ptr p) + String.length (String c t) + 3) rest /\
                 _indentation p' = _indentation p /\ _next_addr p' = _next_addr p).
    { intros q Hq Ho Hqi Hqa.
      destruct (IH fuel q Hq Hz Hi ltac:(cbn in Hf; lia)) as [p' [E1 [E2 [E3 E4]]]].
      exists p'. rewrite E1, E2, E3, E4, Ho. cbn [String.length].
      replace (offset (_ptr p) + 1 + String.length t)%nat
        with (offset (_ptr p) + S (String.length t))%nat by lia.
      now repeat split. }
    cbn [append String.get].
    destruct (Ascii.eqb c LF); unfold skip, new_line, advance; cbv beta iota;
      apply Hnext; cbn [_ptr chars offset _indentation _next_addr]; rewrite ?Hat;
      reflexivity.
Qed.
End MultilineString.

Lemma quotes_readably_no_zero (str : string) :
  forallb quotes_readably (list_ascii_of_string str) = true -> c_string str = str.
Proof.
  induction str as [|c str IH]; [reflexivity|].
  cbn [forallb list_ascii_of_string c_string]. intros H.
  apply andb_prop in H as [Hc Hq].
  assert (Hn : Ascii.eqb c NUL = false).
  { destruct (Ascii.eqb_spec c NUL) as [->|]; [discriminate Hc | reflexivity]. }
  now rewrite Hn, IH.
Qed.

(** What [parse_string] does with the text that [write_string] gives for
    a string of characters that are written as they are, with a
    two-character escape or with a \u escape in decimal digits. *)
Lemma parse_written_string (opts : FormatOptions) (doc : DocInfo)
    (str rest : string) (p : Parser) :
  parser_at (write_string opts str ++ rest) p ->
  forallb quotes_readably (list_ascii_of_string str) = true ->
  String.get 0 rest <> Some DQUOTE ->
  exists p' : Parser,
    Parser_parse_string opts doc p = Ok (str, p') /\
    _ptr p' = mkPtr (offset (_ptr p) + String.length (write_string opts str)) rest /\
    _indentation p' = _indentation p /\ _next_addr p' = _next_addr p.
Proof.
  intros Hat Hq Hrest. unfold write_string in *.
  destruct (negb (str_python_multiline opts) || negb (contains (str1 LF) str) ||
            (String.length str <? 240)%nat ||
            contains (str1 DQUOTE ++ str1 DQUOTE ++ str1 DQUOTE) str) eqn:Hform.
  - exists (parser_skip (String.length (write_quoted_string str)) p). split; [|split].
    + apply (parse_quoted_text opts doc str rest p Hat Hq). intros _. exact Hrest.
    + unfold parser_skip, advance. cbn [_ptr]. unfold parser_at in Hat.
      now rewrite Hat, drop_append.
    + now split.
  - rewrite !orb_false_iff in Hform. destruct Hform as [[[Hm _] _] Hc].
    apply negb_false_iff in Hm.
    assert (Hi : String.index 0 triple_quote str = None).
    { unfold contains in Hc. fold triple_quote in Hc.
      now destruct (String.index 0 triple_quote str). }
    unfold parser_at, write_verbatim_string in Hat. fold triple_quote in Hat.
    cbv zeta in Hat. rewrite !append_assoc in Hat.
    assert (Hat3 : chars (_ptr p) =
                   String DQUOTE (String DQUOTE (String DQUOTE (str ++ triple_quote ++ rest))))
      by exact Hat.
    unfold Parser_parse_string, bind, get_state, at_ptr, parse_assert, skip, get_ptr.
    cbv beta iota. cbn [ptr]. unfold peek. rewrite Hat3. cbn [String.get].
    unfold cheq. decide_cheq. cbv beta iota. unfold ret. cbv beta iota.
    cbn [andb]. rewrite Hm. cbv beta iota.
    rewrite ?Hat3. cbn [String.get]. decide_cheq. cbn [andb]. cbv beta iota. cbn [_ptr].
    destruct (multiline_loop_body doc
                (mkState (_ptr p) (_line_nr p) (_line_start p))
                (advance (_ptr p) 3) rest str Hrest
                (S (String.length
                      (String DQUOTE (String DQUOTE (String DQUOTE
                         (str ++ triple_quote ++ rest))))))
                (mkParser (advance (_ptr p) 3) (_line_nr p) (_line_start p)
                          (_indentation p) (_next_addr p)))
      as [p' [E1 [E2 [E3 E4]]]].
    + unfold advance. cbn [_ptr chars]. now rewrite Hat3.
    + now apply quotes_readably_no_zero.
    + exact Hi.
    + cbn [String.length]. rewrite length_append. lia.
    + exists p'. rewrite E1, E2. split; [|split; [|now split]].
      * f_equal. f_equal. unfold between, advance. cbn [_ptr offset chars].
        rewrite Hat3. cbn [drop].
        replace (offset (_ptr p) + 3 + String.length str - (offset (_ptr p) + 3))%nat
          with (String.length str) by lia.
        apply substring_append.
      * cbn [_ptr advance offset]. f_equal. unfold write_verbatim_string.
        fold triple_quote. cbv zeta. rewrite !length_append. cbn [triple_quote String.length str1 append].
        lia.
Qed.


(** X7: a string of characters that [write_quoted_string] writes as they
    are, with a two-character escape or with a \u escape in decimal digits
    is read back from what [write_string] gives for it, in the quoted form
    and in the multiline form. *)
Theorem string_round_trip (opts : FormatOptions) (doc : DocInfo)
    (str rest : string) (p : Parser) :
  parser_at (write_string opts str ++ rest) p ->
  forallb quotes_readably (list_ascii_of_string str) = true ->
  String.get 0 rest <> Some DQUOTE ->
  exists p' : Parser,
    Parser_parse_string opts doc p = Ok (str, p') /\
    _ptr p' = mkPtr (offset (_ptr p) + String.length (write_string opts str)) rest.
Proof.
  intros Hat Hq Hrest.
  destruct (parse_written_string opts doc str rest p Hat Hq Hrest) as [p' [E1 [E2 _]]].
  now exists p'.
Qed.

Lemma string_round_trip_witness :
  parser_at (write_string CFG string_with_escapes ++ str1 LF)
            (Parser_new (write_string CFG string_with_escapes ++ str1 LF) 0) /\
  forallb quotes_readably (list_ascii_of_string string_with_escapes) = true /\
  String.get 0 (str1 LF) <> Some DQUOTE /\
  exists p' : Parser,
    Parser_parse_string CFG sample_doc
      (Parser_new (write_string CFG string_with_escapes ++ str1 LF) 0) =
    Ok (string_with_escapes, p') /\
    _ptr p' = mkPtr (0 + String.length (write_string CFG string_with_escapes)) (str1 LF).
Proof.
  split; [reflexivity|]. split; [reflexivity|]. split; [discriminate|].
  apply (string_round_trip CFG sample_doc string_with_escapes (str1 LF));
    [reflexivity | reflexivity | discriminate].
Defined.

(** ** Verbatim strings *)

Lemma verbatim_loop_text (opts : FormatOptions) (doc : DocInfo) (state : State)
    (str : string) :
  forall (acc : string) (fuel : nat) (p : Parser) (rest : string),
    forallb stays_on_line (list_ascii_of_string str) = true ->
    chars (_ptr p) = map_chars verbatim_char str ++ String DQUOTE rest ->
    String.get 0 rest <> Some DQUOTE ->
    (String.length str < fuel)%nat ->
    verbatim_loop doc fuel state acc p =
    Ok (acc ++ str,
        parser_with_ptr
          (mkPtr (offset (_ptr p) + S (String.length (map_chars verbatim_char str))) rest)
          p).
Proof.
  induction str as [|c str IH]; intros acc fuel p rest Hq Hat Hrest Hf;
    (destruct fuel as [|fuel]; [cbn in Hf; lia|]).
  - cbn [map_chars append] in Hat. cbn [verbatim_loop].
    assert (H1 : cheq (peek (_ptr p) 1) DQUOTE = false).
    { unfold peek, cheq. rewrite Hat. cbn [String.get].
      destruct (String.get 0 rest) as [x|] eqn:E.
      - apply Ascii.eqb_neq. congruence.
      - destruct rest; [reflexivity | discriminate]. }
    unfold bind, at_ptr. fold (peek (_ptr p) 1). rewrite H1.
    unfold peek, skip, advance, cheq.
    parser_steps ltac:(rewrite ?Hat; decide_cheq).
    rewrite append_empty_r. reflexivity.
  - cbn [forallb list_ascii_of_string map_chars String.length] in *.
    apply andb_prop in Hq as [Hc Hq].
    unfold stays_on_line in Hc. apply andb_prop in Hc as [Hc1 Hc2].
    apply negb_true_iff in Hc1, Hc2.
    rewrite length_append. rewrite append_assoc in Hat.
    unfold verbatim_char in Hat |- * at 1.
    destruct (cheq c DQUOTE) eqn:Hcq.
    + assert (c = DQUOTE) by (now apply Ascii.eqb_eq). subst c.
      unfold str1 in Hat. cbn [append] in Hat.
      cbn [verbatim_loop].
      unfold bind, at_ptr, peek, skip, advance, cheq.
      parser_steps ltac:(rewrite ?Hat; decide_cheq).
      rewrite (IH _ fuel _ rest Hq); [| first [reflexivity | cbn [_ptr chars]; now rewrite Hat] | exact Hrest | lia].
      rewrite append_assoc. unfold parser_with_ptr, str1.
      cbn [_ptr offset _line_nr _line_start _indentation _next_addr String.length].
      replace (offset (_ptr p) + 2 + S (String.length (map_chars verbatim_char str)))%nat
        with (offset (_ptr p) + S (2 + String.length (map_chars verbatim_char str)))%nat
        by lia.
      reflexivity.
    + unfold str1 in Hat. cbn [append] in Hat.
      cbn [verbatim_loop].
      unfold bind, at_ptr, peek, skip, advance.
      unfold cheq in *.
      parser_steps ltac:(rewrite ?Hat, ?Hc1, ?Hc2, ?Hcq).
      rewrite (IH _ fuel _ rest Hq); [| first [reflexivity | cbn [_ptr chars]; now rewrite Hat] | exact Hrest | lia].
      rewrite append_assoc. unfold parser_with_ptr, str1.
      cbn [_ptr offset _line_nr _line_start _indentation _next_addr String.length].
      replace (offset (_ptr p) + 1 + S (String.length (map_chars verbatim_char str)))%nat
        with (offset (_ptr p) + S (1 + String.length (map_chars verbatim_char str)))%nat
        by lia.
      reflexivity.
Qed.

Lemma verbatim_length_le (str : string) :
  (String.length str <= String.length (map_chars verbatim_char str))%nat.
Proof.
  induction str as [|c str IH]; [cbn; lia|].
  cbn [map_chars String.length]. rewrite length_append. unfold verbatim_char at 1.
  destruct (cheq c DQUOTE); unfold str1; cbn [String.length]; lia.
Qed.

(** X9: [parse_string] reads a C# verbatim string on one line: a doubled
    quote gives one quote and every other character, the backslash too,
    gives itself. *)
Theorem verbatim_string_is_read_literally (opts : FormatOptions) (doc : DocInfo)
    (str rest : string) (p : Parser) :
  str_csharp_verbatim opts = true ->
  forallb stays_on_line (list_ascii_of_string str) = true ->
  parser_at (verbatim_text str ++ rest) p ->
  String.get 0 rest <> Some DQUOTE ->
  Parser_parse_string opts doc p =
  Ok (str, parser_skip (String.length (verbatim_text str)) p).
Proof.
  unfold parser_at, verbatim_text. intros Hopt Hq Hat Hrest.
  unfold str1 in Hat. cbn [append] in Hat. rewrite append_assoc in Hat.
  cbn [append] in Hat.
  pose proof (verbatim_length_le str) as Hlen.
  unfold Parser_parse_string, bind, get_state, at_ptr, parse_assert, skip, swallow.
  cbv beta iota. cbn [ptr]. unfold peek. rewrite Hat. cbn [String.get].
  unfold cheq at 1. decide_cheq. cbv beta iota. rewrite Hopt. unfold ret. cbv beta iota.
  unfold bind, at_ptr, peek, skip, advance, cheq. rewrite Hat.
  cbn [_ptr chars drop offset _line_nr _line_start _indentation _next_addr String.get].
  decide_cheq. cbv beta iota.
  cbn [_ptr chars drop offset _line_nr _line_start _indentation _next_addr String.get].
  rewrite (verbatim_loop_text opts doc _ str "" _ _ rest Hq);
    [| reflexivity | exact Hrest | cbn [String.length]; rewrite length_append; lia].
  unfold parser_with_ptr, parser_skip, advance.
  cbn [_ptr offset chars _line_nr _line_start _indentation _next_addr append String.length].
  rewrite Hat.
  replace (String "@" (String DQUOTE (map_chars verbatim_char str ++ String DQUOTE rest)))
    with ((String "@" (String DQUOTE (map_chars verbatim_char str ++ String DQUOTE ""))) ++ rest)
    by (cbn [append]; now rewrite append_assoc).
  change (S (S (String.length (map_chars verbatim_char str ++ str1 DQUOTE))))
    with (String.length
            (String "@" (String DQUOTE (map_chars verbatim_char str ++ String DQUOTE "")))).
  rewrite drop_append. cbn [String.length]. rewrite length_append. cbn [String.length].
  replace (offset (_ptr p) + 1 + 1 + S (String.length (map_chars verbatim_char str)))%nat
    with (offset (_ptr p) + S (S (String.length (map_chars verbatim_char str) + 1)))%nat by lia.
  reflexivity.
Qed.

Lemma verbatim_string_is_read_literally_witness :
  str_csharp_verbatim CFG = true /\
  forallb stays_on_line (list_ascii_of_string ("C:\dir" ++ str1 DQUOTE)) = true /\
  parser_at (verbatim_text ("C:\dir" ++ str1 DQUOTE) ++ str1 LF)
    (Parser_new (verbatim_text ("C:\dir" ++ str1 DQUOTE) ++ str1 LF) 0) /\
  String.get 0 (str1 LF) <> Some DQUOTE /\
  Parser_parse_string CFG sample_doc
    (Parser_new (verbatim_text ("C:\dir" ++ str1 DQUOTE) ++ str1 LF) 0) =
  Ok ("C:\dir" ++ str1 DQUOTE,
      parser_skip (String.length (verbatim_text ("C:\dir" ++ str1 DQUOTE)))
        (Parser_new (verbatim_text ("C:\dir" ++ str1 DQUOTE) ++ str1 LF) 0)).
Proof.
  split; [reflexivity|]. split; [reflexivity|]. split; [reflexivity|].
  split; [discriminate|].
  apply (verbatim_string_is_read_literally CFG sample_doc ("C:\dir" ++ str1 DQUOTE) (str1 LF));
    [reflexivity | reflexivity | reflexivity | discriminate].
Defined.

(** ** Deep copies *)

Lemma Config_copy_id (c : Config) :
  type c <> BadLookupType -> Config_copy c = Some c.
Proof.
  destruct c as [u d l cm]. unfold Config_copy, assign, has_line, type.
  intros Ht. destruct u; cbn in *; try congruence; f_equal;
    destruct d as [d|], cm as [cm|]; try reflexivity;
    destruct (l =? 4294967295) eqn:E; try reflexivity;
    apply Z.eqb_eq in E; subst l; reflexivity.
Qed.

Lemma move_assign_default (o : Config) : move_assign Config_default o = o.
Proof.
  destruct o as [u d l cm]. unfold move_assign, has_line. cbn.
  destruct d as [d|], cm as [cm|]; try reflexivity;
    destruct (l =? 4294967295) eqn:E; try reflexivity;
    apply Z.eqb_eq in E; subst l; reflexivity.
Qed.

Lemma ltb_asym (a b : string) : String.ltb a b = true -> String.ltb b a = false.
Proof.
  unfold String.ltb. rewrite (String.compare_antisym a b).
  now destruct (String.compare b a).
Qed.

Section KeysInOrder.
Context {V : Type}.
Implicit Types (m : list (string * V)) (key : string).

Lemma keys_increasing_keys m1 m2 :
  map fst m1 = map fst m2 -> keys_increasing m1 = keys_increasing m2.
Proof.
  revert m2. induction m1 as [|[k x] m1 IH]; intros [|[k2 y] m2] H; try discriminate;
    [reflexivity|].
  cbn in H. injection H as -> H. cbn. f_equal; [|now apply IH].
  clear IH. revert m2 H. induction m1 as [|[k1 x1] m1 IH]; intros [|[k3 y3] m2] H;
    try discriminate; [reflexivity|].
  cbn in H. injection H as -> H. cbn. f_equal. now apply IH.
Qed.

Lemma keys_increasing_app_below m key (x : V) l :
  keys_increasing (m ++ (key, x) :: l) = true ->
  forallb (fun p => String.ltb (fst p) key) m = true.
Proof.
  induction m as [|[k y] m IH]; [reflexivity|]. cbn.
  intros H. apply andb_prop in H as [Hk Hm]. rewrite (IH Hm), andb_true_r.
  rewrite forallb_app in Hk. apply andb_prop in Hk as [_ Hk]. cbn in Hk.
  now apply andb_prop in Hk as [Hk _].
Qed.

Lemma map_find_below key m :
  forallb (fun p => String.ltb (fst p) key) m = true -> map_find key m = None.
Proof.
  induction m as [|[k y] m IH]; [reflexivity|]. cbn.
  intros H. apply andb_prop in H as [Hk Hm].
  rewrite (ltb_neq _ _ Hk). now apply IH.
Qed.

Lemma map_insert_above key (x : V) m :
  forallb (fun p => String.ltb (fst p) key) m = true ->
  map_insert key x m = (m ++ [(key, x)])%list.
Proof.
  induction m as [|[k y] m IH]; [reflexivity|]. cbn.
  intros H. apply andb_prop in H as [Hk Hm].
  rewrite (ltb_asym _ _ Hk). now rewrite IH.
Qed.
End KeysInOrder.

Lemma deep_clone_object (addr : nat) (object : ConfigObjectImpl) (d : DocInfo_SP)
    (l : Z) (cm : option ConfigComments) (next : nat) :
  deep_clone (mkConfig (VObject addr object) d l cm) next =
  match clone_entries deep_clone object [] (S next) with
  | Some (impl, n) => Some (mkConfig (VObject next impl) d l cm, n)
  | None => None
  end.
Proof.
  cbn [deep_clone _u]. rewrite Config_copy_id by discriminate.
  destruct (clone_entries deep_clone object [] (S next)) as [[impl n]|]; [|reflexivity].
  unfold move_assign, Config_object, Config_of, has_line. cbn. reflexivity.
Qed.

Lemma deep_clone_array (addr : nat) (array : ConfigArrayImpl) (d : DocInfo_SP)
    (l : Z) (cm : option ConfigComments) (next : nat) :
  deep_clone (mkConfig (VArray addr array) d l cm) next =
  match clone_elements deep_clone array [] (S next) with
  | Some (impl, n) => Some (mkConfig (VArray next impl) d l cm, n)
  | None => None
  end.
Proof.
  cbn [deep_clone _u]. rewrite Config_copy_id by discriminate.
  destruct (clone_elements deep_clone array [] (S next)) as [[impl n]|]; [|reflexivity].
  unfold move_assign, Config_array, Config_of, has_line. cbn. reflexivity.
Qed.

Lemma deep_clone_other (c : Config) (next : nat) :
  type c <> Array -> type c <> Object -> type c <> BadLookupType ->
  deep_clone c next = Some (c, next).
Proof.
  destruct c as [u d l cm]; destruct u; cbn [type _u]; intros; try congruence;
    cbn [deep_clone _u]; now rewrite Config_copy_id by discriminate.
Qed.

Lemma deep_clone_sentinel (c : Config) (next : nat) :
  type c = BadLookupType -> deep_clone c next = None.
Proof.
  destruct c as [u d l cm]; destruct u; cbn [type _u]; intros; try discriminate.
  reflexivity.
Qed.

Lemma clone_elements_spec (l : ConfigArrayImpl) :
  Forall clones_well l ->
  forallb keys_in_order l = true ->
  forallb holds_no_sentinel l = true ->
  forall (impl : ConfigArrayImpl) (next : nat),
  exists tail : ConfigArrayImpl,
    clone_elements deep_clone l impl next =
    Some ((impl ++ tail)%list, (next + List.length (flat_map addresses l))%nat) /\
    map content tail = map content l /\
    map (mark_accessed false) tail = tail /\
    flat_map addresses tail = seq next (List.length (flat_map addresses l)).
Proof.
  induction 1 as [|v l Hv Hl IH]; intros Hk Hs impl next.
  - exists []. cbn. rewrite app_nil_r, Nat.add_0_r. repeat split.
  - cbn [forallb] in Hk, Hs.
    apply andb_prop in Hk as [Hkv Hkl]. apply andb_prop in Hs as [Hsv Hsl].
    destruct (Hv Hkv Hsv next) as [clone [Hd [Hc [Hm Ha]]]].
    cbn [clone_elements]. rewrite Hd.
    destruct (IH Hkl Hsl (impl ++ [clone])%list (next + List.length (addresses v))%nat)
      as [tail [E1 [E2 [E3 E4]]]].
    exists (clone :: tail). rewrite E1, <- app_assoc. cbn [app map flat_map].
    rewrite Hc, E2, Hm, E3, Ha, E4, length_app, seq_app.
    repeat split. do 2 f_equal. lia.
Qed.

Lemma clone_entries_spec (l : ConfigObjectImpl) :
  Forall (fun p : string * ObjectEntry => clones_well (value (snd p))) l ->
  forallb (fun p : string * ObjectEntry => keys_in_order (value (snd p))) l = true ->
  forallb (fun p : string * ObjectEntry => holds_no_sentinel (value (snd p))) l = true ->
  forall (impl : ConfigObjectImpl) (next : nat),
  keys_increasing (impl ++ l) = true ->
  exists tail : ConfigObjectImpl,
    clone_entries deep_clone l impl next =
    Some ((impl ++ tail)%list, (next + List.length (flat_map entry_addresses l))%nat) /\
    map content_entry tail = map content_entry l /\
    map unread_entry tail = tail /\
    flat_map entry_addresses tail = seq next (List.length (flat_map entry_addresses l)).
Proof.
  induction 1 as [|[k e] l Hv Hl IH]; intros Hk Hn impl next Hs.
  - exists []. cbn. rewrite app_nil_r, Nat.add_0_r. repeat split.
  - cbn [forallb snd] in Hk, Hn.
    apply andb_prop in Hk as [Hkv Hkl]. apply andb_prop in Hn as [Hnv Hnl].
    cbn [snd] in Hv. destruct (Hv Hkv Hnv next) as [clone [Hd [Hc [Hm Ha]]]].
    cbn [clone_entries]. rewrite Hd.
    pose proof (keys_increasing_app_below impl k e l Hs) as Hbelow.
    rewrite (@map_find_below ObjectEntry k impl Hbelow), move_assign_default.
    rewrite (@map_insert_above (Config_Entry Config) k _ impl Hbelow).
    match goal with
    | |- context [clone_entries deep_clone l ?i ?n] => set (impl' := i) in *
    end.
    assert (Hs' : keys_increasing (impl' ++ l) = true).
    { rewrite <- Hs. apply keys_increasing_keys. subst impl'.
      rewrite <- app_assoc, !map_app. reflexivity. }
    destruct (IH Hkl Hnl impl' (next + List.length (addresses (value e)))%nat Hs')
      as [tail [E1 [E2 [E3 E4]]]].
    exists ((k, mkEntry clone (nr e) false) :: tail).
    rewrite E1. subst impl'.
    cbn [app map flat_map].
    unfold content_entry at 1 3, unread_entry at 1.
    change (entry_addresses (k, mkEntry clone (nr e) false)) with (addresses clone).
    change (entry_addresses (k, e)) with (addresses (value e)).
    cbn [fst snd value nr].
    rewrite <- app_assoc. cbn [app].
    rewrite Hc, E2, Hm, E3, Ha, E4, !length_app, seq_app.
    repeat split. do 2 f_equal. lia.
Qed.

(** X17: for a value that holds no [BadLookupType] value, [deep_clone] gives
    a value with the content of the source in allocations of its own, one
    for each array and object it meets, and with no entry marked as
    accessed. *)
Theorem deep_clone_renews_allocations (c : Config) (next : nat) :
  keys_in_order c = true ->
  holds_no_sentinel c = true ->
  exists clone : Config,
    deep_clone c next = Some (clone, (next + List.length (addresses c))%nat) /\
    content clone = content c /\
    mark_accessed false clone = clone /\
    addresses clone = seq next (List.length (addresses c)).
Proof.
  intros Hk Hn. revert next. revert Hk Hn. change (clones_well c).
  induction c using Config_induction; intros Hk Hn next.
  - cbn [keys_in_order holds_no_sentinel _u] in Hk, Hn.
    destruct (clone_elements_spec impl H Hk Hn [] (S next))
      as [tail [E1 [E2 [E3 E4]]]].
    rewrite deep_clone_array, E1. cbn [app].
    eexists. split.
    { cbn [addresses _u List.length]. do 2 f_equal. lia. }
    rewrite mark_accessed_array, E3.
    cbn [content addresses _u _doc _line _comments].
    rewrite E2, E4. cbn [List.length seq].
    repeat split.
  - cbn [keys_in_order holds_no_sentinel _u] in Hk, Hn. apply andb_prop in Hk as [Hs Hk].
    destruct (clone_entries_spec impl H Hk Hn [] (S next) Hs)
      as [tail [E1 [E2 [E3 E4]]]].
    rewrite deep_clone_object, E1. cbn [app].
    eexists. split.
    { cbn [addresses _u List.length].
      change (flat_map (fun p : string * ObjectEntry => addresses (value (snd p))))
        with (flat_map entry_addresses).
      do 2 f_equal. lia. }
    rewrite mark_accessed_object.
    change (map (fun p : string * ObjectEntry =>
                   (fst p, mkEntry (mark_accessed false (value (snd p))) (nr (snd p)) false))
                tail)
      with (map unread_entry tail).
    rewrite E3.
    cbn [content addresses _u _doc _line _comments].
    change (map (fun p : string * ObjectEntry =>
                   (fst p, mkEntry (content (value (snd p))) (nr (snd p)) false)))
      with (map content_entry).
    change (flat_map (fun p : string * ObjectEntry => addresses (value (snd p))))
      with (flat_map entry_addresses).
    rewrite E2, E4. cbn [List.length seq].
    repeat split.
  - assert (Hb : type c <> BadLookupType).
    { destruct c as [u d l cm]; destruct u; cbn in *; congruence. }
    assert (Ha : addresses c = [])
      by (destruct c as [u d l cm]; destruct u; cbn in *; congruence).
    exists c. rewrite (deep_clone_other c next H H0 Hb), Ha. cbn [List.length seq].
    rewrite Nat.add_0_r, (mark_accessed_other false c H H0).
    repeat split.
Qed.

Lemma deep_clone_renews_allocations_witness :
  keys_in_order object_with_shared_array = true /\
  holds_no_sentinel object_with_shared_array = true /\
  addresses object_with_shared_array = [0; 0; 1; 0]%nat /\
  exists clone : Config,
    deep_clone object_with_shared_array 7 =
      Some (clone, (7 + List.length (addresses object_with_shared_array))%nat) /\
    content clone = content object_with_shared_array /\
    mark_accessed false clone = clone /\
    addresses clone = seq 7 (List.length (addresses object_with_shared_array)).
Proof.
  split; [reflexivity|]. split; [reflexivity|]. split; [reflexivity|].
  exact (deep_clone_renews_allocations object_with_shared_array 7 eq_refl eq_refl).
Defined.

(** ** Documents of one value *)

Section WhiteSpace.
Variable opts : FormatOptions.
Variable doc : DocInfo.


Lemma skip_white_at_end (break_on_newline : bool) (p : Parser) :
  parser_at "" p ->
  skip_white opts doc break_on_newline p = Ok ((false, [], -1), p).
Proof.
  intros Hat. unfold parser_at in Hat.
  assert (H6 : negb (streq (indentation opts) "") &&
               String.prefix (indentation opts) "" = false).
  { destruct (indentation opts) as [|x r]; reflexivity. }
  unfold skip_white, bind, get_ptr. rewrite Hat.
  cbn [skip_white_loop String.length]. unfold bind, at_ptr, get_ptr, peek, cheq.
  parser_steps ltac:(rewrite ?Hat, ?H6; decide_cheq).
  now rewrite Nat.eqb_refl.
Qed.

Lemma skip_white_at_line_feed (p : Parser) (s : string) :
  parser_at (String LF s) p ->
  skip_white opts doc true p = Ok ((true, [], 0), parser_next_line p).
Proof.
  intros Hat. unfold parser_at in Hat.
  unfold skip_white, bind, get_ptr. rewrite Hat.
  cbn [skip_white_loop String.length]. unfold bind, at_ptr, get_ptr, peek, cheq, skip, new_line.
  parser_steps ltac:(rewrite ?Hat; decide_cheq).
  reflexivity.
Qed.
End WhiteSpace.

Section OneValueDocument.
Variable opts : FormatOptions.
Variable doc : DocInfo.

(** The loop of [parse_array_contents] over a text that holds one value
    and ends after it. *)
Lemma array_loop_one_value (f : nat) (value' : Config) (sep : bool)
    (p p_end : Parser) (a : nat) (d : DocInfo_SP) (l : Z) :
  skip_white opts doc false p = Ok ((false, [], -1), p) ->
  cheq (peek (_ptr p) 0) "]" = false ->
  cheq (peek (_ptr p) 0) NUL = false ->
  IDENT_STARTERS (peek (_ptr p) 0) && negb (is_reserved_identifier (_ptr p)) = false ->
  parse_value opts doc (S f) (fresh_value []) p = Ok ((value', sep), p_end) ->
  parser_at "" p_end ->
  array_loop opts doc (S (S f)) (mkConfig (VArray a []) d l None) [] p =
  Ok (mkConfig (VArray a [value']) d l None, p_end).
Proof.
  intros Hwhite Hclose Hzero Hident Hvalue Hend.
  assert (Hpe : peek (_ptr p_end) 0 = NUL) by (unfold peek; rewrite Hend; reflexivity).
  remember (S f) as fuel' eqn:Hfuel.
  cbn [array_loop]. fold (parse_value opts doc). fold (array_loop opts doc).
  unfold skip_pre_white, bind.
  rewrite Hwhite.
  cbv beta iota. cbn [is_nil negb]. unfold ret, get_indentation, get_ptr.
  cbv beta iota. rewrite Hclose, Hzero.
  change (0 <=? -1) with false. cbn [andb]. cbv beta iota.
  rewrite Hident. cbv beta iota.
  rewrite Hvalue.
  cbv beta iota.
  rewrite (skip_white_at_end opts doc false _ Hend).
  cbv beta iota. unfold get_state, at_ptr. cbv beta iota.
  rewrite Hpe. change (cheq NUL ",") with false. cbv beta iota.
  unfold lift, push_back, as_array, check_separator, bind, at_ptr.
  cbn [assert_type _u type Type_eqb negb rbind u_array with_array app].
  cbv beta iota. rewrite Hpe. change (cheq NUL NUL) with true. cbn [orb negb].
  unfold parse_assert_at, ret. cbv beta iota.
  rewrite Hfuel.
  cbn [array_loop]. unfold skip_pre_white, bind.
  rewrite (skip_white_at_end opts doc false _ Hend).
  cbv beta iota. cbn [is_nil negb]. unfold ret, get_indentation, get_ptr.
  cbv beta iota. rewrite Hpe.
  change (cheq NUL "]") with false. change (cheq NUL NUL) with true. cbv beta iota.
  reflexivity.
Qed.

(** [top_level] over a text that holds one value, no key before it, and
    ends after it. *)
Lemma top_level_one_value (f : nat) (value' : Config) (sep : bool) (p p_end : Parser) :
  (if implicit_top_object opts then
     bind get_state (fun state =>
     bind (skip_white_ignore_comments opts doc) (fun _ =>
     bind get_ptr (fun p0 =>
     bind (if IDENT_STARTERS (peek p0 0) && negb (is_reserved_identifier p0) then ret true
           else if cheq (peek p0 0) DQUOTE || cheq (peek p0 0) "@" then
             bind (Parser_parse_string opts doc) (fun _ =>
             bind (skip_white_ignore_comments opts doc) (fun _ =>
             bind (at_ptr 0) (fun c0 => ret (cheq c0 ":" || cheq c0 "="))))
           else ret false) (fun is_object =>
     bind (set_state state) (fun _ => ret is_object)))))
   else ret false) p = Ok (false, p) ->
  skip_white opts doc false (parser_after_alloc p) =
    Ok ((false, [], -1), parser_after_alloc p) ->
  cheq (peek (_ptr p) 0) "]" = false ->
  cheq (peek (_ptr p) 0) NUL = false ->
  IDENT_STARTERS (peek (_ptr p) 0) && negb (is_reserved_identifier (_ptr p)) = false ->
  parse_value opts doc (S f) (fresh_value []) (parser_after_alloc p) =
    Ok ((value', sep), p_end) ->
  parser_at "" p_end ->
  has_comments value' = false ->
  top_level opts doc (S (S f)) p = Ok (value', p_end).
Proof.
  intros Hobj Hwhite Hclose Hzero Hident Hvalue Hend Hcomments.
  assert (Hpe : peek (_ptr p_end) 0 = NUL) by (unfold peek; rewrite Hend; reflexivity).
  pose proof (array_loop_one_value f value' sep (parser_after_alloc p) p_end
                (_next_addr p) (Some doc) (_line_nr p)
                Hwhite Hclose Hzero Hident Hvalue Hend) as Harr.
  unfold top_level. unfold bind at 1. rewrite Hobj. cbv beta iota.
  unfold parser_tag, bind. cbv beta iota. cbn [negb andb].
  unfold parse_array_contents, bind, new_addr, lift, make_array.
  cbn [tag Config_default Config_of assert_type _u type Type_eqb negb rbind
       _doc _line _comments].
  cbv beta iota. fold (parser_after_alloc p).
  rewrite Harr. cbv beta iota.
  unfold array_size, as_array. cbn [assert_type _u type Type_eqb negb rbind u_array List.length].
  cbv beta iota. change (Z.of_nat 1 <=? 1) with true. cbn [orb].
  unfold parse_assert at 1. unfold ret at 1 2. cbv beta iota.
  unfold skip_post_white, bind.
  rewrite (skip_white_at_end opts doc true p_end Hend).
  cbv beta iota. cbn [is_nil negb]. unfold ret at 1. cbv beta iota.
  unfold at_ptr. rewrite Hpe. change (cheq NUL NUL) with true.
  unfold parse_assert at 1. unfold ret at 1. cbv beta iota.
  change (Z.of_nat 1 =? 0) with false. change (Z.of_nat 1 =? 1) with true.
  cbv beta iota.
  unfold at_index, as_array. cbn [assert_type _u type Type_eqb negb rbind u_array List.length].
  change (0 <? Z.of_nat 1) with true. unfold check. cbn [rbind nth Z.to_nat].
  cbv beta iota. unfold has_comments at 1. cbn [_comments]. reflexivity.
Qed.
End OneValueDocument.

Section NumberDocument.
Variable opts : FormatOptions.
Variable doc : DocInfo.
Hypothesis Hind : indentation_no_number opts = true.

Lemma parser_skip_at (a b : string) (p : Parser) :
  parser_at (a ++ b) p -> parser_at b (parser_skip (String.length a) p).
Proof.
  unfold parser_at, parser_skip, advance. intros ->. cbn [_ptr chars]. apply drop_append.
Qed.


End NumberDocument.

Lemma c_string_digits (ds rest : string) :
  all_digits ds = true -> c_string (ds ++ rest) = ds ++ c_string rest.
Proof.
  induction ds as [|c ds IH]; [reflexivity|]. cbn [all_digits append c_string].
  intros H. apply andb_prop in H as [Hc Hd].
  apply is_digit_code in Hc.
  assert (Hn : Ascii.eqb c NUL = false)
    by (apply (cheq_code_false c NUL); change (code NUL) with 0; lia).
  now rewrite Hn, IH.
Qed.




Section ScalarDocument.
Variable opts : FormatOptions.
Variable doc : DocInfo.
Hypothesis Hwhite : indentation_is_white opts = true.

Lemma skip_white_at_black (break_on_newline : bool) (p : Parser) (c : ascii) (s : string) :
  parser_at (String c s) p ->
  cheq c LF = false -> cheq c CR = false -> cheq c TAB = false ->
  cheq c " " = false -> cheq c "/" = false ->
  skip_white opts doc break_on_newline p = Ok ((false, [], -1), p).
Proof.
  unfold cheq. intros Hat H1 H2 H3 H4 H5. unfold parser_at in Hat.
  assert (H6 : negb (streq (indentation opts) "") &&
               String.prefix (indentation opts) (String c s) = false).
  { unfold indentation_is_white in Hwhite.
    destruct (indentation opts) as [|x r]; [reflexivity|].
    rewrite prefix_first_differs; [apply andb_false_r|].
    intros E; subst x. unfold cheq in Hwhite. now rewrite H3, H4 in Hwhite. }
  unfold skip_white, bind, get_ptr. rewrite Hat.
  cbn [skip_white_loop]. unfold bind, at_ptr, get_ptr, peek, cheq.
  parser_steps ltac:(rewrite ?Hat, ?H1, ?H2, ?H3, ?H4, ?H5, ?H6).
  now rewrite Nat.eqb_refl.
Qed.

Lemma skip_white_at_last_line_feed (p : Parser) :
  parser_at (str1 LF) p ->
  exists r : bool * Comments * Z,
    skip_white opts doc false p = Ok (r, parser_next_line p).
Proof.
  intros Hat. unfold parser_at, str1 in Hat.
  assert (H6 : forall s, negb (streq (indentation opts) "") &&
                         String.prefix (indentation opts) (String LF s) = false).
  { intros s. unfold indentation_is_white in Hwhite.
    destruct (indentation opts) as [|x r]; [reflexivity|].
    rewrite prefix_first_differs; [apply andb_false_r|].
    intros E; subst x. discriminate Hwhite. }
  assert (H7 : negb (streq (indentation opts) "") &&
               String.prefix (indentation opts) "" = false).
  { destruct (indentation opts) as [|x r]; reflexivity. }
  unfold skip_white, bind, get_ptr. rewrite Hat.
  cbn [skip_white_loop String.length str1].
  unfold bind, at_ptr, get_ptr, peek, cheq, skip, new_line, advance.
  parser_steps ltac:(rewrite ?Hat; decide_cheq).
  cbn [_ptr chars drop offset _line_nr _line_start _indentation _next_addr].
  parser_steps ltac:(rewrite ?Hat, ?H7; decide_cheq).
  cbn [_ptr chars drop offset _line_nr _line_start _indentation _next_addr String.get].
  parser_steps ltac:(rewrite ?Hat, ?H7; decide_cheq).
  unfold parser_next_line, advance. rewrite Hat. cbn [drop].
  destruct (Nat.eqb (offset (_ptr p)) (offset (_ptr p) + 1)); eexists; reflexivity.
Qed.

Lemma write_String (str : string) (d : DocInfo_SP) (l : Z) :
  write (mkConfig (VString str) d l None) opts = Ok (write_string opts str ++ str1 LF).
Proof.
  unfold write. cbn [_doc].
  replace (implicit_top_object opts && is_object (mkConfig (VString str) d l None))
    with false by (now destruct (implicit_top_object opts)).
  assert (Hbody : write_value opts d 0 (mkConfig (VString str) d l None) true true =
                  Ok (write_string opts str)).
  { cbn [write_value _doc _u]. unfold as_string.
    cbn [assert_type _u type Type_eqb negb rbind u_str].
    unfold write_prefix_comments, write_postfix_comments, comments.
    cbn [_comments prefix postfix no_comments is_nil negb map String.concat].
    assert (Hpre : (if negb (write_comments opts) then "" else "") = "")
      by (now destruct (write_comments opts)).
    rewrite !Hpre. cbn [append]. rewrite append_empty_r.
    destruct d as [d0|]; [|reflexivity].
    unfold doc_eq. rewrite Nat.eqb_refl. cbn [negb]. rewrite andb_false_r. reflexivity. }
  rewrite Hbody. reflexivity.
Qed.

Lemma written_string_first (str : string) :
  exists s : string, write_string opts str = String DQUOTE s.
Proof.
  unfold write_string.
  destruct (negb (str_python_multiline opts) || negb (contains (str1 LF) str) ||
            (String.length str <? 240)%nat ||
            contains (str1 DQUOTE ++ str1 DQUOTE ++ str1 DQUOTE) str);
    eexists; reflexivity.
Qed.

Lemma c_string_append (a b : string) :
  c_string a = a -> c_string (a ++ b) = a ++ c_string b.
Proof.
  induction a as [|c a IH]; [reflexivity|]. intros H.
  apply c_string_tail in H as [Hc Ha]. cbn [append c_string]. now rewrite Hc, IH.
Qed.

Lemma c_string_quoted (str : string) :
  forallb quotes_readably (list_ascii_of_string str) = true ->
  c_string (map_chars quoted_char str) = map_chars quoted_char str.
Proof.
  induction str as [|c str IH]; [reflexivity|].
  cbn [forallb list_ascii_of_string map_chars]. intros H.
  apply andb_prop in H as [Hc Hq]. specialize (IH Hq).
  rewrite c_string_append, IH; [reflexivity|].
  destruct (quotes_readably_cases c Hc) as [Hp|[ds [Hqc [_ [Hd _]]]]];
    [destruct (quoted_char_cases c Hp) as [[e [Hqc He]]|[Hqc [H1 _]]]|]; rewrite Hqc.
  - destruct He as [[-> _]|[[-> _]|[[-> _]|[[-> _]|[[-> _]|[[-> _]|[-> _]]]]]]];
      reflexivity.
  - unfold str1. cbn [c_string]. unfold cheq in H1. now rewrite H1.
  - cbn [c_string]. decide_cheq. cbv iota. do 2 f_equal.
    rewrite <- (append_empty_r ds) at 1. now rewrite c_string_digits, append_empty_r.
Qed.

Lemma c_string_written (str : string) :
  forallb quotes_readably (list_ascii_of_string str) = true ->
  c_string (write_string opts str ++ str1 LF) = write_string opts str ++ str1 LF.
Proof.
  intros Hq. unfold write_string.
  destruct (negb (str_python_multiline opts) || negb (contains (str1 LF) str) ||
            (String.length str <? 240)%nat ||
            contains (str1 DQUOTE ++ str1 DQUOTE ++ str1 DQUOTE) str).
  - rewrite write_quoted_string_quoted_char. unfold str1.
    rewrite !append_assoc. cbn [append c_string]. change (Ascii.eqb DQUOTE NUL) with false.
    cbv iota. f_equal. now rewrite c_string_append by now apply c_string_quoted.
  - unfold write_verbatim_string, str1. cbv zeta.
    rewrite !append_assoc. cbn [append c_string]. change (Ascii.eqb DQUOTE NUL) with false.
    cbv iota. do 3 f_equal.
    now rewrite c_string_append by now apply quotes_readably_no_zero.
Qed.

Lemma parse_value_string (fuel : nat) (dst : Config) (p : Parser) (str : string) :
  parser_at (write_string opts str ++ str1 LF) p ->
  forallb quotes_readably (list_ascii_of_string str) = true ->
  exists p_end : Parser,
    parse_value opts doc (S fuel) dst p =
    Ok ((move_assign (tag dst (Some doc) (_line_nr p) (column p)) (Config_string str),
         true), p_end) /\
    parser_at "" p_end.
Proof.
  intros Hat Hq.
  destruct (written_string_first str) as [s Hs].
  assert (Hat0 : parser_at (String DQUOTE (s ++ str1 LF)) p)
    by (unfold parser_at in *; now rewrite Hat, Hs).
  destruct (parse_written_string opts doc str (str1 LF) p Hat Hq ltac:(discriminate))
    as [p' [E1 [E2 _]]].
  assert (Hat' : parser_at (String LF "") p') by (unfold parser_at; now rewrite E2).
  exists (parser_next_line p'). split.
  - cbn [parse_value]. unfold skip_pre_white, skip_post_white, bind.
    rewrite (skip_white_at_black false p DQUOTE (s ++ str1 LF) Hat0) by reflexivity.
    cbv beta iota. cbn [is_nil negb]. unfold ret, parser_tag, get_indentation, at_ptr.
    cbv beta iota. change (0 <=? -1) with false. cbn [andb]. cbv beta iota.
    assert (Hp0 : peek (_ptr p) 0 = DQUOTE) by (unfold peek; rewrite Hat0; reflexivity).
    rewrite Hp0. change (cheq DQUOTE DQUOTE) with true. cbn [orb]. cbv beta iota.
    rewrite E1. cbv beta iota.
    rewrite (skip_white_at_line_feed opts doc p' "" Hat').
    reflexivity.
  - unfold parser_at, parser_next_line, advance. cbn [_ptr chars]. now rewrite E2.
Qed.


(** X5: a [String] value without comments, of characters that are written
    as they are, with a two-character escape or with a \u escape in decimal
    digits, is written as [write_string] gives the string and a line feed,
    and that text is parsed back to the string, under a dialect that
    passes the assertion of the parser and whose indentation is empty or
    begins with a space or a tab. *)
Theorem string_document_round_trip (str : string) (d : DocInfo_SP) (l : Z)
    (heap f : nat) :
  negb (streq (indentation opts) "") || negb (enforce_indentation opts) = true ->
  forallb quotes_readably (list_ascii_of_string str) = true ->
  exists (text : string) (c : Config),
    write (mkConfig (VString str) d l None) opts = Ok text /\
    text = write_string opts str ++ str1 LF /\
    parse_string_doc (S (S f)) text opts doc heap = Ok c /\
    _u c = VString str /\
    deep_eq c (mkConfig (VString str) d l None) = true.
Proof.
  intros Hassert Hq.
  set (text := write_string opts str ++ str1 LF).
  destruct (written_string_first str) as [s Hs].
  assert (Hcs : c_string text = text) by now apply c_string_written.
  set (p := Parser_new text heap).
  assert (Hat : parser_at (write_string opts str ++ str1 LF) p).
  { unfold parser_at, p, Parser_new. cbn [_ptr chars]. exact Hcs. }
  assert (Hat0 : parser_at (String DQUOTE (s ++ str1 LF)) p)
    by (unfold parser_at in *; now rewrite Hat, Hs).
  assert (Hp0 : peek (_ptr p) 0 = DQUOTE) by (unfold peek; rewrite Hat0; reflexivity).
  destruct (parse_value_string f (fresh_value []) (parser_after_alloc p) str Hat Hq)
    as [p_end [Hvalue Hend]].
  set (value' := move_assign (tag (fresh_value []) (Some doc) (_line_nr p) (column p))
                            (Config_string str)).
  exists text, value'.
  split; [apply write_String|]. split; [reflexivity|].
  split; [|split; [reflexivity | cbn; apply String.eqb_refl]].
  unfold parse_string_doc. rewrite Hassert. fold p.
  rewrite (top_level_one_value opts doc f value' true p p_end); [reflexivity | ..].
  - destruct (implicit_top_object opts); [|reflexivity].
    destruct (parse_written_string opts doc str (str1 LF) p Hat Hq ltac:(discriminate))
      as [p' [E1 [E2 [E3 E4]]]].
    assert (Hat' : parser_at (str1 LF) p') by (unfold parser_at; now rewrite E2).
    destruct (skip_white_at_last_line_feed p' Hat') as [r Hr].
    unfold bind, get_state, skip_white_ignore_comments, bind.
    rewrite (skip_white_at_black false p DQUOTE (s ++ str1 LF) Hat0) by reflexivity.
    cbv beta iota. unfold ret, get_ptr. cbv beta iota.
    rewrite Hp0. change (IDENT_STARTERS DQUOTE) with false.
    change (cheq DQUOTE DQUOTE) with true. cbn [andb orb]. cbv beta iota.
    rewrite E1. cbv beta iota. rewrite Hr. destruct r as [[r1 r2] r3]. cbv beta iota.
    unfold at_ptr, peek, parser_next_line, advance. cbn [_ptr chars].
    rewrite E2. cbn [drop String.get str1]. change (cheq NUL ":" || cheq NUL "=") with false.
    unfold set_state. cbn [ptr line_nr line_start _indentation _next_addr].
    rewrite E3, E4. now destruct p.
  - exact (skip_white_at_black false (parser_after_alloc p) DQUOTE (s ++ str1 LF) Hat0
             eq_refl eq_refl eq_refl eq_refl eq_refl).
  - now rewrite Hp0.
  - now rewrite Hp0.
  - now rewrite Hp0.
  - exact Hvalue.
  - exact Hend.
  - reflexivity.
Qed.
End ScalarDocument.

Lemma string_document_round_trip_witness :
  indentation_is_white JSON = true /\
  negb (streq (indentation JSON) "") || negb (enforce_indentation JSON) = true /\
  forallb quotes_readably (list_ascii_of_string string_with_escapes) = true /\
  exists (text : string) (c : Config),
    write (mkConfig (VString string_with_escapes) None BAD_ENTRY None) JSON = Ok text /\
    text = write_string JSON string_with_escapes ++ str1 LF /\
    parse_string_doc 2 text JSON sample_doc 0 = Ok c /\
    _u c = VString string_with_escapes /\
    deep_eq c (mkConfig (VString string_with_escapes) None BAD_ENTRY None) = true.
Proof.
  split; [reflexivity|]. split; [reflexivity|]. split; [reflexivity|].
  apply (string_document_round_trip JSON sample_doc eq_refl string_with_escapes
           None BAD_ENTRY 0 0); reflexivity.
Defined.

Section KeywordDocument.
Variable opts : FormatOptions.
Variable doc : DocInfo.
Hypothesis Hwhite : indentation_is_white opts = true.

(** The text of [null], [true] and [false]. *)
Lemma write_keyword (u : Payload Config) (d : DocInfo_SP) (l : Z) :
  u = VNull \/ u = VBool true \/ u = VBool false ->
  write (mkConfig u d l None) opts =
  Ok (match u with
      | VBool true => "true"
      | VBool false => "false"
      | _ => "null"
      end ++ str1 LF).
Proof.
  assert (Hpre : (if negb (write_comments opts) then "" else "") = "")
    by (now destruct (write_comments opts)).
  assert (Hdoc : forall d0, allow_macro opts && negb (doc_eq (Some d0) (Some d0)) = false).
  { intros d0. unfold doc_eq. rewrite Nat.eqb_refl. apply andb_false_r. }
  intros [->|[->| ->]]; unfold write; cbn [_doc];
    match goal with
    | |- context [implicit_top_object opts && ?b] =>
        replace (implicit_top_object opts && b) with false
          by (now destruct (implicit_top_object opts))
    end;
    cbn [write_value _doc _u]; unfold as_bool;
    cbn [assert_type _u type Type_eqb negb rbind u_b];
    unfold write_prefix_comments, write_postfix_comments, comments;
    cbn [_comments prefix postfix no_comments is_nil negb map String.concat];
    rewrite !Hpre; cbn [append];
    (destruct d as [d0|]; [rewrite Hdoc|]); reflexivity.
Qed.

Lemma parse_value_keyword (fuel : nat) (dst : Config) (p : Parser) (u : Payload Config) :
  u = VNull \/ u = VBool true \/ u = VBool false ->
  parser_at (match u with
             | VBool true => "true"
             | VBool false => "false"
             | _ => "null"
             end ++ str1 LF) p ->
  exists p_end : Parser,
    parse_value opts doc (S fuel) dst p =
    Ok ((move_assign (tag dst (Some doc) (_line_nr p) (column p)) (Config_of u), true),
        p_end) /\
    parser_at "" p_end.
Proof.
  intros Hu Hat.
  destruct Hu as [->|[->| ->]]; cbn [append] in Hat;
    match type of Hat with
    | parser_at (String ?c ?s) p =>
        pose proof (skip_white_at_black opts doc Hwhite false p c s Hat
                      eq_refl eq_refl eq_refl eq_refl eq_refl) as Hskip
    end;
    unfold parser_at in Hat;
    cbn [parse_value]; unfold skip_pre_white, skip_post_white, bind;
    rewrite Hskip;
    cbv beta iota; cbn [is_nil negb]; unfold ret, parser_tag, get_indentation, at_ptr;
    cbv beta iota; change (0 <=? -1) with false; cbn [andb]; cbv beta iota;
    unfold peek; rewrite Hat; cbn [String.get str1]; unfold cheq; decide_cheq;
    cbn [orb andb negb]; cbv beta iota;
    unfold parse_assert, ret; cbv beta iota;
    match goal with
    | |- context [IDENT_CHARS LF] => change (IDENT_CHARS LF) with false
    end;
    cbn [negb]; cbv beta iota; unfold skip; cbv beta iota;
    match goal with
    | |- context [skip_white opts doc true ?q] =>
        assert (Hq : parser_at (String LF "") q)
          by (unfold parser_at, advance; cbn [_ptr chars]; rewrite Hat; reflexivity);
        rewrite (skip_white_at_line_feed opts doc q "" Hq);
        exists (parser_next_line q)
    end;
    (split; [reflexivity|]);
    unfold parser_at, parser_next_line, advance; cbn [_ptr chars]; rewrite Hat;
    reflexivity.
Qed.

(** X6: a value without comments that is [null], [true] or [false] is
    written as that word and a line feed, and that text is parsed back to
    the value, under a dialect that passes the assertion of the parser and
    whose indentation is empty or begins with a space or a tab. *)
Theorem null_and_bool_document_round_trip (u : Payload Config) (d : DocInfo_SP)
    (l : Z) (heap f : nat) :
  u = VNull \/ u = VBool true \/ u = VBool false ->
  negb (streq (indentation opts) "") || negb (enforce_indentation opts) = true ->
  exists (text : string) (c : Config),
    write (mkConfig u d l None) opts = Ok text /\
    text = match u with
           | VBool true => "true"
           | VBool false => "false"
           | _ => "null"
           end ++ str1 LF /\
    parse_string_doc (S (S f)) text opts doc heap = Ok c /\
    _u c = u /\
    deep_eq c (mkConfig u d l None) = true.
Proof.
  intros Hu Hassert.
  set (text := match u with
               | VBool true => "true"
               | VBool false => "false"
               | _ => "null"
               end ++ str1 LF).
  set (p := Parser_new text heap).
  assert (Hat : parser_at text p) by (now destruct Hu as [->|[->| ->]]).
  destruct (parse_value_keyword f (fresh_value []) (parser_after_alloc p) u Hu Hat)
    as [p_end [Hvalue Hend]].
  set (value' := move_assign (tag (fresh_value []) (Some doc) (_line_nr p) (column p))
                             (Config_of u)).
  exists text, value'.
  split; [now apply write_keyword|].
  split; [reflexivity|].
  split; [|split; [reflexivity | now destruct Hu as [->|[->| ->]]]].
  unfold parse_string_doc. rewrite Hassert. fold p.
  rewrite (top_level_one_value opts doc f value' true p p_end); [reflexivity | ..].
  - destruct (implicit_top_object opts); [|reflexivity].
    unfold bind, get_state, skip_white_ignore_comments, bind.
    destruct Hu as [->|[->| ->]];
      match type of Hat with
      | parser_at ?t p =>
          let t' := eval cbv in t in
          match t' with
          | String ?c ?s =>
              rewrite (skip_white_at_black opts doc Hwhite false p c s Hat
                         eq_refl eq_refl eq_refl eq_refl eq_refl)
          end
      end; reflexivity.
  - destruct Hu as [->|[->| ->]];
      match type of Hat with
      | parser_at ?t p =>
          let t' := eval cbv in t in
          match t' with
          | String ?c ?s =>
              exact (skip_white_at_black opts doc Hwhite false (parser_after_alloc p) c s Hat
                       eq_refl eq_refl eq_refl eq_refl eq_refl)
          end
      end.
  - now destruct Hu as [->|[->| ->]].
  - now destruct Hu as [->|[->| ->]].
  - now destruct Hu as [->|[->| ->]].
  - exact Hvalue.
  - exact Hend.
  - now destruct Hu as [->|[->| ->]].
Qed.
End KeywordDocument.

Lemma null_and_bool_document_round_trip_witness :
  indentation_is_white CFG = true /\
  (@VBool Config true = VNull \/ @VBool Config true = VBool true \/
   @VBool Config true = VBool false) /\
  negb (streq (indentation CFG) "") || negb (enforce_indentation CFG) = true /\
  exists (text : string) (c : Config),
    write (mkConfig (VBool true) None BAD_ENTRY None) CFG = Ok text /\
    text = "true" ++ str1 LF /\
    parse_string_doc 2 text CFG sample_doc 0 = Ok c /\
    _u c = VBool true /\
    deep_eq c (mkConfig (VBool true) None BAD_ENTRY None) = true.
Proof.
  split; [reflexivity|]. split; [right; left; reflexivity|]. split; [reflexivity|].
  apply (null_and_bool_document_round_trip CFG sample_doc eq_refl (VBool true)
           None BAD_ENTRY 0 0); [right; left; reflexivity | reflexivity].
Defined.

(** ** Documents of an array of integers *)

Lemma c_string_all_digits (ds : string) :
  all_digits ds = true -> c_string ds = ds.
Proof.
  intros Hd. rewrite <- (append_empty_r ds) at 1.
  now rewrite (c_string_digits ds "" Hd), append_empty_r.
Qed.

Lemma to_string_token (i : Z) :
  exists (c : ascii) (s : string),
    to_string i = String c s /\
    (is_digit c = true \/
     (c = "-"%char /\ exists c1 s1, s = String c1 s1 /\ is_digit c1 = true)) /\
    c_string (to_string i) = to_string i.
Proof.
  destruct i as [|n|n].
  - exists "0"%char, "". repeat split. now left.
  - destruct (to_string_pos n) as [c [ds [Hs [Hd [Hc Hr]]]]].
    exists c, ds. split; [exact Hs|]. rewrite Hs.
    split; [left; cbn in Hd; now apply andb_prop in Hd as [Hd _]|].
    now apply c_string_all_digits.
  - destruct (to_string_pos n) as [c [ds [Hs [Hd [Hc Hr]]]]].
    assert (Hneg : to_string (Z.neg n) = String "-" (to_string (Z.pos n)))
      by reflexivity.
    rewrite Hneg, Hs. exists "-"%char, (String c ds). split; [reflexivity|].
    split; [right; split; [reflexivity|]; exists c, ds; split; [reflexivity|];
            cbn in Hd; now apply andb_prop in Hd as [Hd _]|].
    pose proof (c_string_all_digits (String c ds) Hd) as E.
    change (c_string (String "-" (String c ds)))
      with (String "-" (c_string (String c ds))).
    now rewrite E.
Qed.

Lemma token_first_is_black (c : ascii) :
  is_digit c = true \/ c = "-"%char -> is_black c = true.
Proof.
  intros Hc.
  assert (Hcode : 45 <= code c <= 57).
  { destruct Hc as [Hd| ->]; [apply is_digit_code in Hd; lia | vm_compute; split; discriminate]. }
  unfold is_black.
  rewrite (cheq_code_false c LF), (cheq_code_false c CR), (cheq_code_false c TAB),
    (cheq_code_false c " ") by (vm_compute (code _) at 2; lia).
  destruct Hc as [Hd| ->]; [|reflexivity].
  apply is_digit_code in Hd.
  now rewrite (cheq_code_false c "/") by (change (code "/") with 47; lia).
Qed.

Section WhiteSpaceOnALine.
Variable opts : FormatOptions.
Variable doc : DocInfo.
Hypothesis Htabs : indentation_is_tabs opts = true.

Lemma tabs_are_white : indentation_is_white opts = true.
Proof.
  unfold indentation_is_tabs, indentation_is_white in *.
  destruct (indentation opts) as [|x r]; [reflexivity|].
  rewrite Htabs. apply orb_true_r.
Qed.

Lemma tabs_are_no_number : indentation_no_number opts = true.
Proof.
  unfold indentation_is_tabs, indentation_no_number in *.
  destruct (indentation opts) as [|x r]; [reflexivity|].
  unfold cheq in Htabs. apply Ascii.eqb_eq in Htabs. now subst x.
Qed.

Lemma tabs_are_no_digit : indentation_no_digit opts = true.
Proof.
  unfold indentation_is_tabs, indentation_no_digit in *.
  destruct (indentation opts) as [|x r]; [reflexivity|].
  unfold cheq in Htabs. apply Ascii.eqb_eq in Htabs. now subst x.
Qed.

Lemma is_black_inv (c : ascii) :
  is_black c = true ->
  cheq c LF = false /\ cheq c CR = false /\ cheq c TAB = false /\
  cheq c " " = false /\ cheq c "/" = false.
Proof.
  unfold is_black. intros H. apply negb_true_iff in H.
  rewrite !orb_false_iff in H. tauto.
Qed.

Lemma skip_white_before_black (break_on_newline : bool) (p : Parser)
    (c : ascii) (s : string) :
  parser_at (String c s) p -> is_black c = true ->
  skip_white opts doc break_on_newline p = Ok ((false, [], -1), p).
Proof.
  intros Hat Hc. destruct (is_black_inv c Hc) as [H1 [H2 [H3 [H4 H5]]]].
  now apply (skip_white_at_black opts doc tabs_are_white break_on_newline p c s).
Qed.

Lemma skip_white_one_space (break_on_newline : bool) (p : Parser)
    (c : ascii) (s : string) :
  parser_at (String " " (String c s)) p -> is_black c = true ->
  skip_white opts doc break_on_newline p = Ok ((true, [], -1), parser_skip 1 p).
Proof.
  intros Hat Hc. destruct (is_black_inv c Hc) as [H1 [H2 [H3 [H4 H5]]]].
  unfold parser_at in Hat. unfold cheq in *.
  assert (H6 : forall x r, x = " "%char \/ x = c ->
                 negb (streq (indentation opts) "") &&
                 String.prefix (indentation opts) (String x r) = false).
  { intros x r Hx. unfold indentation_is_tabs in Htabs.
    destruct (indentation opts) as [|y t]; [reflexivity|].
    rewrite prefix_first_differs; [apply andb_false_r|].
    unfold cheq in Htabs. apply Ascii.eqb_eq in Htabs. subst y.
    destruct Hx as [->| ->]; [discriminate|].
    intros E. subst c. discriminate H3. }
  unfold skip_white, bind, get_ptr. rewrite Hat.
  cbn [skip_white_loop String.length].
  unfold bind, at_ptr, get_ptr, peek, cheq, skip, advance.
  parser_steps ltac:(rewrite ?Hat; decide_cheq; rewrite ?(H6 " "%char) by now left).
  cbn [_ptr chars drop offset _line_nr _line_start _indentation _next_addr String.get].
  parser_steps ltac:(rewrite ?H1, ?H2, ?H3, ?H4, ?H5; rewrite ?(H6 c) by now right).
  cbn [_ptr chars drop offset _line_nr _line_start _indentation _next_addr String.get].
  unfold parser_skip, advance. rewrite Hat. cbn [drop].
  replace (Nat.eqb (offset (_ptr p)) (offset (_ptr p) + 1)) with false
    by (symmetry; apply Nat.eqb_neq; lia).
  reflexivity.
Qed.
End WhiteSpaceOnALine.

Lemma parser_skip_0 (p : Parser) : parser_skip 0 p = p.
Proof.
  destruct p as [[o s] l ls i a]. unfold parser_skip, advance.
  cbn [_ptr offset chars drop _line_nr _line_start _indentation _next_addr].
  now rewrite Nat.add_0_r.
Qed.

Section IntegerInArray.
Variable opts : FormatOptions.
Variable doc : DocInfo.
Hypothesis Htabs : indentation_is_tabs opts = true.

Lemma parse_value_integer (fuel : nat) (dst : Config) (p p' : Parser) (i : Z)
    (rest : string) (b : bool) (z : Z) :
  above_INT64_MIN i = true ->
  parser_at (to_string i ++ rest) p ->
  ends_integer rest = true ->
  String.get 0 rest <> Some "x"%char ->
  String.get 0 rest <> Some "b"%char ->
  skip_white opts doc true (parser_skip (String.length (to_string i)) p) =
    Ok ((b, [], z), p') ->
  parse_value opts doc (S fuel) dst p =
  Ok ((move_assign (tag dst (Some doc) (_line_nr p) (column p)) (Config_int i), b), p').
Proof.
  intros Hi Hat Hrest Hx Hb Hpost.
  unfold above_INT64_MIN in Hi. apply andb_prop in Hi as [Hi1 Hi2].
  apply Z.ltb_lt in Hi1. apply Z.leb_le in Hi2.
  pose proof (fun dst' =>
                parse_decimal_text opts doc dst' p i rest (conj Hi1 Hi2) Hat Hrest Hx Hb
                  (tabs_are_no_digit opts Htabs)) as Hnum.
  destruct (to_string_token i) as [c [s [Hs [Hc _]]]].
  rewrite Hs in Hat. cbn [append] in Hat.
  assert (Hc' : is_digit c = true \/ c = "-"%char) by tauto.
  assert (Hcode : 45 <= code c <= 57).
  { destruct Hc' as [Hd| ->]; [apply is_digit_code in Hd; lia | vm_compute; split; discriminate]. }
  cbn [parse_value]. unfold skip_pre_white, skip_post_white, bind.
  rewrite (skip_white_before_black opts doc Htabs false p c (s ++ rest) Hat
             (token_first_is_black c Hc')).
  cbv beta iota. cbn [is_nil negb]. unfold ret, parser_tag, get_indentation, at_ptr.
  cbv beta iota. change (0 <=? -1) with false. cbn [andb]. cbv beta iota.
  assert (Hp0 : peek (_ptr p) 0 = c) by (unfold peek; rewrite Hat; reflexivity).
  assert (Hp1 : cheq (peek (_ptr p) 0) "-" && cheq (peek (_ptr p) 1) "i" = false).
  { rewrite Hp0. destruct Hc as [Hd|[-> [c1 [s1 [-> Hd]]]]].
    - destruct (digit_not_sign c Hd) as [Hm _]. unfold cheq. now rewrite Hm.
    - unfold peek. rewrite Hat. cbn [append String.get].
      apply is_digit_code in Hd. rewrite (cheq_code_false c1 "i"); [reflexivity|].
      change (code "i") with 105. lia. }
  assert (Hne : forall x, code x < 45 \/ 57 < code x -> cheq c x = false).
  { intros x Hx'. apply cheq_code_false. lia. }
  rewrite Hp1, Hp0.
  rewrite !Hne by (vm_compute; (left; reflexivity) || (right; reflexivity)).
  cbn [orb andb].
  assert (Hnumber : cheq c "-" || cheq c "." || in_range "0" "9" c = true).
  { destruct Hc' as [Hd| ->]; [|reflexivity].
    change (in_range "0" "9" c) with (is_digit c). rewrite Hd. apply orb_true_r. }
  rewrite Hnumber. rewrite (Hnum _).
  rewrite Hpost. reflexivity.
Qed.
End IntegerInArray.

Lemma skip_eq (doc : DocInfo) (n : nat) (p : Parser) :
  skip n p = Ok (tt, parser_skip n p).
Proof. reflexivity. Qed.

Lemma line_nr_parser_skip (n : nat) (p : Parser) :
  _line_nr (parser_skip n p) = _line_nr p.
Proof. reflexivity. Qed.

Section IntegerArray.
Variable opts : FormatOptions.
Variable doc : DocInfo.
Hypothesis Htabs : indentation_is_tabs opts = true.

Lemma integers_tail_first (ints : list Z) (rest : string) :
  exists (y : ascii) (t : string),
    integers_on_a_line opts ints ++ String "]" rest = String y t /\
    is_black y = true /\ cheq y "," = false /\ cheq y NUL = false /\
    cheq y "]" = is_nil ints /\ IDENT_STARTERS y = false.
Proof.
  destruct ints as [|i ints].
  - exists "]"%char, rest. repeat split.
  - destruct (to_string_token i) as [c [s [Hs [Hc _]]]].
    cbn [integers_on_a_line]. rewrite Hs. cbn [append].
    eexists c, _. split; [reflexivity|].
    assert (Hc' : is_digit c = true \/ c = "-"%char) by tauto.
    assert (Hcode : 45 <= code c <= 57).
    { destruct Hc' as [Hd| ->]; [apply is_digit_code in Hd; lia
                                | vm_compute; split; discriminate]. }
    split; [now apply token_first_is_black|].
    rewrite !cheq_code_false by (vm_compute (code _) at 2; lia).
    repeat split.
    unfold IDENT_STARTERS.
    rewrite cheq_code_false by (vm_compute (code _) at 2; lia).
    rewrite !in_range_false; [reflexivity | |];
      [change (code "Z") with 90; change (code "A") with 65
      |change (code "z") with 122; change (code "a") with 97]; lia.
Qed.

Lemma array_loop_turn (f a : nat) (acc : list Config) (d : DocInfo_SP) (l : Z)
    (p0 p : Parser) (b0 : bool) (i : Z) (ints : list Z) (rest : string) :
  skip_white opts doc false p0 = Ok ((b0, [], -1), p) ->
  above_INT64_MIN i = true ->
  parser_at (integers_on_a_line opts (i :: ints) ++ String "]" rest) p ->
  array_loop opts doc (S (S f)) (mkConfig (VArray a acc) d l None) [] p0 =
  array_loop opts doc (S f)
    (mkConfig (VArray a (acc ++ [Int_at (Some doc) (_line_nr p) i])) d l None) []
    (parser_skip
       (String.length (to_string i) +
        String.length (if array_omit_comma opts || is_nil ints then " " else ", ")) p).
Proof.
  intros Hwhite Hi Hat.
  destruct (integers_tail_first (i :: ints) rest)
    as [c [s [Hcs [Hcb [Hcc [Hcz [Hcl Hci]]]]]]].
  cbn [is_nil] in Hcl.
  destruct (integers_tail_first ints rest)
    as [y [t [Hyt [Hyb [Hyc [Hyz [Hyl Hyi]]]]]]].
  assert (Hp0 : peek (_ptr p) 0 = c) by (unfold peek; rewrite Hat, Hcs; reflexivity).
  cbn [integers_on_a_line] in Hat. rewrite !append_assoc in Hat. rewrite Hyt in Hat.
  set (n := String.length (to_string i)) in *.
  set (p1 := parser_skip n p).
  assert (Hat1 : parser_at
                   ((if array_omit_comma opts || is_nil ints then " " else ", ") ++
                    String y t) p1) by exact (parser_skip_at _ _ _ Hat).
  remember (S f) as fuel' eqn:Hfuel.
  cbn [array_loop]. fold (parse_value opts doc). fold (array_loop opts doc).
  unfold skip_pre_white, bind.
  rewrite Hwhite.
  cbv beta iota. cbn [is_nil negb]. unfold ret, get_indentation, get_ptr.
  cbv beta iota. rewrite Hp0, Hcl, Hcz.
  change (0 <=? -1) with false. cbn [andb]. cbv beta iota.
  rewrite Hci. cbn [andb]. cbv beta iota.
  rewrite Hfuel.
  assert (Hne : ends_integer (String " " (String y t)) = true /\
                ends_integer (String "," (String " " (String y t))) = true)
    by (split; reflexivity).
  destruct (array_omit_comma opts || is_nil ints) eqn:Hsep.
  - (* a space after the integer *)
    cbn [append] in Hat, Hat1.
    rewrite (parse_value_integer opts doc Htabs f (fresh_value []) p (parser_skip 1 p1)
               i (String " " (String y t)) true (-1) Hi Hat (proj1 Hne));
      [| discriminate | discriminate
       | exact (skip_white_one_space opts doc Htabs true p1 y t Hat1 Hyb)].
    assert (Hat2 : parser_at (String y t) (parser_skip 1 p1))
      by exact (parser_skip_at (String " " "") _ _ Hat1).
    cbv beta iota.
    rewrite (skip_white_before_black opts doc Htabs false _ y t Hat2 Hyb).
    cbv beta iota. unfold get_state, at_ptr. cbv beta iota.
    assert (Hp2 : peek (_ptr (parser_skip 1 p1)) 0 = y)
      by (unfold peek; rewrite Hat2; reflexivity).
    rewrite Hp2, Hyc. cbv beta iota.
    unfold lift, push_back, as_array, check_separator, bind, at_ptr.
    cbn [assert_type _u type Type_eqb negb rbind u_array with_array].
    cbv beta iota. rewrite Hp2, Hyz, Hyl. cbn [orb negb].
    assert (Hcheck : (if is_nil ints
                      then parse_assert_at doc true "Trailing comma forbidden."
                             (mkState (_ptr (parser_skip 1 p1))
                                      (_line_nr (parser_skip 1 p1))
                                      (_line_start (parser_skip 1 p1)))
                      else if array_omit_comma opts
                           then parse_assert doc true "Expected a space, newline, comma or ]"
                           else parse_assert doc false "Expected a comma or ]")
                       (parser_skip 1 p1) = Ok (tt, parser_skip 1 p1)).
    { destruct (is_nil ints); [reflexivity|].
      rewrite orb_false_r in Hsep. now rewrite Hsep. }
    rewrite Hcheck. cbv beta iota.
    subst p1. rewrite parser_skip_skip. reflexivity.
  - (* a comma and a space after the integer *)
    apply orb_false_iff in Hsep as [Homit Hnil].
    cbn [append] in Hat, Hat1.
    rewrite (parse_value_integer opts doc Htabs f (fresh_value []) p p1
               i (String "," (String " " (String y t))) false (-1) Hi Hat (proj2 Hne));
      [| discriminate | discriminate
       | exact (skip_white_before_black opts doc Htabs true p1 "," _ Hat1 eq_refl)].
    cbv beta iota.
    rewrite (skip_white_before_black opts doc Htabs false p1 "," _ Hat1 eq_refl).
    cbv beta iota. unfold get_state, at_ptr. cbv beta iota.
    assert (Hp1 : peek (_ptr p1) 0 = ","%char)
      by (unfold peek; rewrite Hat1; reflexivity).
    rewrite Hp1. change (cheq "," ",") with true. cbv beta iota.
    rewrite (skip_eq doc).
    assert (Hat2 : parser_at (String " " (String y t)) (parser_skip 1 p1))
      by exact (parser_skip_at (String "," "") _ _ Hat1).
    unfold skip_post_white, bind.
    rewrite (skip_white_one_space opts doc Htabs true _ y t Hat2 Hyb).
    cbv beta iota. cbn [is_nil negb]. unfold ret. cbv beta iota.
    assert (Hat3 : parser_at (String y t) (parser_skip 1 (parser_skip 1 p1)))
      by exact (parser_skip_at (String " " "") _ _ Hat2).
    assert (Hp3 : peek (_ptr (parser_skip 1 (parser_skip 1 p1))) 0 = y)
      by (unfold peek; rewrite Hat3; reflexivity).
    unfold lift, push_back, as_array, check_separator, bind, at_ptr.
    cbn [assert_type _u type Type_eqb negb rbind u_array with_array].
    cbv beta iota. rewrite Hp3, Hyz, Hyl, Hnil, Homit. cbn [orb negb].
    unfold parse_assert, ret. cbv beta iota.
    subst p1. rewrite !parser_skip_skip.
    replace (n + 1 + 1)%nat with (n + String.length ", ")%nat by (cbn; lia).
    reflexivity.
Qed.
Lemma array_loop_end (f a : nat) (acc : list Config) (d : DocInfo_SP) (l : Z)
    (p0 p : Parser) (b0 : bool) (rest : string) :
  skip_white opts doc false p0 = Ok ((b0, [], -1), p) ->
  parser_at (String "]" rest) p ->
  array_loop opts doc (S f) (mkConfig (VArray a acc) d l None) [] p0 =
  Ok (mkConfig (VArray a acc) d l None, p).
Proof.
  intros Hwhite Hat.
  assert (Hp0 : peek (_ptr p) 0 = "]"%char) by (unfold peek; rewrite Hat; reflexivity).
  cbn [array_loop]. unfold skip_pre_white, bind.
  rewrite Hwhite.
  cbv beta iota. cbn [is_nil negb]. unfold ret, get_indentation, get_ptr.
  cbv beta iota. rewrite Hp0. change (cheq "]" "]") with true.
  change (0 <=? -1) with false. cbn [andb]. cbv beta iota.
  reflexivity.
Qed.

Lemma array_loop_integers (ints : list Z) :
  forall (acc : list Config) (f a : nat) (d : DocInfo_SP) (l : Z)
         (p0 p : Parser) (b0 : bool) (rest : string),
    skip_white opts doc false p0 = Ok ((b0, [], -1), p) ->
    forallb above_INT64_MIN ints = true ->
    parser_at (integers_on_a_line opts ints ++ String "]" rest) p ->
    (List.length ints < f)%nat ->
    array_loop opts doc f (mkConfig (VArray a acc) d l None) [] p0 =
    Ok (mkConfig (VArray a (acc ++ map (Int_at (Some doc) (_line_nr p)) ints)) d l None,
        parser_skip (String.length (integers_on_a_line opts ints)) p).
Proof.
  induction ints as [|i ints IH]; intros acc f a d l p0 p b0 rest Hwhite Hall Hat Hf.
  - destruct f as [|f]; [cbn in Hf; lia|].
    cbn [integers_on_a_line append map String.length] in *.
    rewrite app_nil_r, parser_skip_0.
    exact (array_loop_end f a acc d l p0 p b0 rest Hwhite Hat).
  - cbn [forallb] in Hall. apply andb_prop in Hall as [Hi Hall].
    cbn [List.length] in Hf.
    destruct f as [|[|f]]; [lia | lia |].
    rewrite (array_loop_turn f a acc d l p0 p b0 i ints rest Hwhite Hi Hat).
    set (sep := if array_omit_comma opts || is_nil ints then " " else ", ") in *.
    set (p2 := parser_skip (String.length (to_string i) + String.length sep) p).
    assert (Hat2 : parser_at (integers_on_a_line opts ints ++ String "]" rest) p2).
    { cbn [integers_on_a_line] in Hat. fold sep in Hat.
      unfold p2. rewrite <- length_append. apply parser_skip_at.
      now rewrite !append_assoc in *. }
    destruct (integers_tail_first ints rest) as [y [t [Hyt [Hyb _]]]].
    assert (Hw2 : skip_white opts doc false p2 = Ok ((false, [], -1), p2)).
    { apply (skip_white_before_black opts doc Htabs false p2 y t); [|exact Hyb].
      unfold parser_at in *. now rewrite Hat2. }
    rewrite (IH _ (S f) a d l p2 p2 false rest Hw2 Hall Hat2 ltac:(lia)).
    subst p2. rewrite parser_skip_skip, line_nr_parser_skip.
    cbn [map integers_on_a_line]. fold sep.
    rewrite <- app_assoc. cbn [app].
    rewrite !length_append, Nat.add_assoc. reflexivity.
Qed.

Lemma parse_value_integer_array (f : nat) (p : Parser) (ints : list Z) :
  forallb above_INT64_MIN ints = true ->
  parser_at (String "[" (String " " (integers_on_a_line opts ints ++
                                      String "]" (str1 LF)))) p ->
  (List.length ints < f)%nat ->
  exists p_end : Parser,
    parse_value opts doc (S f) (fresh_value []) p =
    Ok ((Int_array_at (_next_addr p) (Some doc) (_line_nr p) ints, true), p_end) /\
    parser_at "" p_end.
Proof.
  intros Hall Hat Hf.
  assert (Hp0 : peek (_ptr p) 0 = "["%char) by (unfold peek; rewrite Hat; reflexivity).
  destruct (integers_tail_first ints (str1 LF)) as [y [t [Hyt [Hyb _]]]].
  set (p1 := mkParser (advance (_ptr p) 1) (_line_nr p) (_line_start p)
                      (_indentation p + 1) (S (_next_addr p))).
  assert (Hat1 : parser_at (String " " (integers_on_a_line opts ints ++
                                        String "]" (str1 LF))) p1).
  { unfold parser_at, p1, advance in *. cbn [_ptr chars]. now rewrite Hat. }
  rewrite Hyt in Hat1.
  pose proof (skip_white_one_space opts doc Htabs false p1 y t Hat1 Hyb) as Hw1.
  assert (Hat2 : parser_at (integers_on_a_line opts ints ++ String "]" (str1 LF))
                   (parser_skip 1 p1)).
  { rewrite Hyt. exact (parser_skip_at (String " " "") _ _ Hat1). }
  set (p3 := parser_skip (String.length (integers_on_a_line opts ints)) (parser_skip 1 p1)).
  assert (Hat3 : parser_at (String "]" (str1 LF)) p3)
    by exact (parser_skip_at _ _ _ Hat2).
  assert (Hp3 : peek (_ptr p3) 0 = "]"%char)
    by (unfold peek; rewrite Hat3; reflexivity).
  set (p4 := mkParser (_ptr p3) (_line_nr p3) (_line_start p3)
                      (_indentation p3 + -1) (_next_addr p3)).
  assert (Hat5 : parser_at (str1 LF) (parser_skip 1 p4)).
  { unfold parser_at, parser_skip, advance, p4. cbn [_ptr chars].
    unfold parser_at in Hat3. now rewrite Hat3. }
  exists (parser_next_line (parser_skip 1 p4)). split.
  - cbn [parse_value]. fold (parse_value opts doc). fold (array_loop opts doc).
    fold (object_loop opts doc).
    unfold skip_pre_white, bind.
    rewrite (skip_white_before_black opts doc Htabs false p "[" _ Hat eq_refl).
    cbv beta iota. cbn [is_nil negb]. unfold ret, parser_tag, get_indentation, at_ptr.
    cbv beta iota. change (0 <=? -1) with false. cbn [andb]. cbv beta iota.
    rewrite Hp0. unfold cheq. decide_cheq. cbn [orb]. cbv beta iota.
    unfold parse_array_with, bind, get_state, swallow, bind, at_ptr.
    cbv beta iota. rewrite ?Hp0. change (cheq "[" "[") with true. cbv beta iota.
    rewrite (skip_eq doc). cbv beta iota.
    unfold add_indentation at 1. cbv beta iota.
    unfold new_addr, lift, make_array.
    cbn [_ptr _line_nr _line_start _indentation _next_addr parser_skip
         fresh_value is_nil negb tag Config_default Config_of assert_type _u type
         Type_eqb rbind _doc _line _comments].
    cbv beta iota. fold p1.
    rewrite (array_loop_integers ints [] f (_next_addr p) (Some doc) (_line_nr p)
               p1 (parser_skip 1 p1) true (str1 LF) Hw1 Hall Hat2 Hf).
    cbn [app]. rewrite line_nr_parser_skip. fold p3.
    unfold add_indentation. cbv beta iota. fold p4.
    change (peek (_ptr p4) 0) with (peek (_ptr p3) 0).
    rewrite Hp3. change (cheq "]" "]") with true. cbv beta iota.
    rewrite (skip_eq doc). unfold ret. cbv beta iota.
    unfold skip_post_white, bind.
    rewrite (skip_white_at_line_feed opts doc (parser_skip 1 p4) "" Hat5).
    cbv beta iota. cbn [is_nil negb]. unfold ret. cbv beta iota.
    reflexivity.
  - unfold parser_at, parser_next_line, advance. cbn [_ptr chars].
    unfold parser_at in Hat5. now rewrite Hat5.
Qed.
End IntegerArray.

Lemma c_string_integers (opts : FormatOptions) (ints : list Z) :
  c_string (integers_on_a_line opts ints) = integers_on_a_line opts ints.
Proof.
  induction ints as [|i ints IH]; [reflexivity|].
  cbn [integers_on_a_line].
  destruct (to_string_token i) as [_ [_ [_ [_ Hc]]]].
  rewrite (c_string_append _ _ Hc). f_equal.
  destruct (array_omit_comma opts || is_nil ints); cbn [append c_string];
    decide_cheq; cbv iota; now rewrite IH.
Qed.

Section IntegerArrayDocument.
Variable opts : FormatOptions.
Hypothesis Hcompact : compact opts = false.

Lemma write_value_Int (w_doc : DocInfo_SP) (indent : nat) (l : Z) (i : Z) :
  above_INT64_MIN i = true ->
  write_value opts w_doc indent (Int_at w_doc l i) false true = Ok (to_string i).
Proof.
  intros Hi. unfold above_INT64_MIN in Hi. apply andb_prop in Hi as [Hi1 Hi2].
  apply Z.ltb_lt in Hi1. apply Z.leb_le in Hi2.
  unfold Int_at. cbn [write_value _doc _u].
  rewrite as_integer_Int.
  assert (Hcast : cast signed_long i = i).
  { unfold cast, signed_long. cbn [is_signed bits]. apply wrap_signed_id; [lia|].
    unfold INT64_MIN, INT64_MAX in *. lia. }
  rewrite Hcast, int64_id, Z.eqb_refl by (unfold INT64_MIN, INT64_MAX in *; lia).
  cbn [rbind].
  unfold write_postfix_comments, comments.
  cbn [_comments postfix no_comments map String.concat].
  assert (Hpost : (if negb (write_comments opts) then "" else "") = "")
    by (now destruct (write_comments opts)).
  rewrite Hpost. cbn [append]. rewrite append_empty_r.
  destruct w_doc as [doc|]; [|reflexivity].
  unfold doc_eq. rewrite Nat.eqb_refl. cbn [negb]. rewrite andb_false_r. reflexivity.
Qed.

Lemma write_elements_integers (w_doc : DocInfo_SP) (indent : nat) (l : Z)
    (ints : list Z) :
  forallb above_INT64_MIN ints = true ->
  write_elements_inline opts
    (map (fun e => write_value opts w_doc indent e false true)
         (map (Int_at w_doc l) ints)) =
  Ok (integers_on_a_line opts ints).
Proof.
  induction ints as [|i ints IH]; [reflexivity|].
  cbn [forallb map write_elements_inline integers_on_a_line]. intros H.
  apply andb_prop in H as [Hi Hall].
  rewrite (write_value_Int w_doc indent l i Hi), (IH Hall). cbn [rbind].
  rewrite Hcompact.
  replace (is_nil (map (fun e => write_value opts w_doc indent e false true)
                       (map (Int_at w_doc l) ints)))
    with (is_nil ints) by (now destruct ints).
  reflexivity.
Qed.

Lemma is_number_integers (d : DocInfo_SP) (l : Z) (ints : list Z) :
  forallb is_number (map (Int_at d l) ints) = true.
Proof. induction ints as [|i ints IH]; [reflexivity | exact IH]. Qed.

Lemma write_Int_array (a : nat) (d : DocInfo_SP) (l : Z) (ints : list Z) :
  (List.length ints <= 16)%nat ->
  forallb above_INT64_MIN ints = true ->
  write (Int_array_at a d l ints) opts =
  Ok (String "[" (String " " (integers_on_a_line opts ints ++ String "]" (str1 LF)))).
Proof.
  intros Hlen Hall. unfold write, Int_array_at. cbn [_doc].
  replace (implicit_top_object opts &&
           is_object (mkConfig (VArray a (map (Int_at d l) ints)) d l None))
    with false by (now destruct (implicit_top_object opts)).
  assert (Hpre : forall n, write_prefix_comments opts n [] = "").
  { intros n. unfold write_prefix_comments. now destruct (write_comments opts). }
  assert (Hpost : forall n, write_postfix_comments opts n [] = "").
  { intros n. unfold write_postfix_comments. now destruct (write_comments opts). }
  assert (Hsimple : is_simple_array
                      (mkConfig (VArray a (map (Int_at d l) ints)) d l None) = true).
  { unfold is_simple_array, is_all_numbers. cbn [u_array _u].
    rewrite is_number_integers, length_map.
    now rewrite (proj2 (Z.leb_le _ _)) by lia. }
  assert (Hbody : write_value opts d 0
                    (mkConfig (VArray a (map (Int_at d l) ints)) d l None) true true =
                  Ok (String "[" (String " " (integers_on_a_line opts ints ++ "]")))).
  { cbn [write_value _doc _u].
    rewrite Hsimple, Hcompact, (write_elements_integers d (0 + 1) l ints Hall).
    unfold has_pre_end_brace_comments, write_pre_brace_comments, comments, has_comments.
    cbn [_comments prefix postfix pre_end_brace no_comments andb negb orb rbind].
    rewrite !Hpre, Hpost. cbn [append].
    rewrite length_map, andb_true_r.
    assert (Hnil : (if (List.length ints =? 0)%nat
                    then Ok "[ ]"
                    else Ok (String "[" (String " " (integers_on_a_line opts ints ++ "]")))) =
                   Ok (String "[" (String " " (integers_on_a_line opts ints ++ "]")))).
    { now destruct ints. }
    rewrite Hnil. cbn [rbind]. rewrite append_empty_r.
    destruct d as [doc0|]; [|reflexivity].
    unfold doc_eq. rewrite Nat.eqb_refl. cbn [negb]. now rewrite andb_false_r. }
  rewrite Hbody. cbn [rbind append]. now rewrite append_assoc.
Qed.
End IntegerArrayDocument.

(** X2: an array without comments of at most sixteen [Int] values without
    comments, none of them the least integer, all with the document and
    the line of the array, is written on one line between brackets, and
    the text is parsed back to an array of the same integers, under a
    dialect that passes the assertion of the parser, is not compact and
    whose indentation begins with a tab. *)
Theorem integer_array_document_round_trip (opts : FormatOptions) (ints : list Z)
    (a : nat) (d : DocInfo_SP) (l : Z) (name : string) (doc_address heap f : nat) :
  compact opts = false ->
  indentation_is_tabs opts = true ->
  negb (streq (indentation opts) "") || negb (enforce_indentation opts) = true ->
  (List.length ints <= 16)%nat ->
  forallb above_INT64_MIN ints = true ->
  exists text : string,
    write (Int_array_at a d l ints) opts = Ok text /\
    text = "[ " ++ integers_on_a_line opts ints ++ "]" ++ str1 LF /\
    parse_string (S (S (S (List.length ints + f)))) text opts name doc_address heap =
    Ok (Int_array_at (S heap) (Some (mkDocInfo doc_address name [])) 1 ints).
Proof.
  intros Hcompact Htabs Hassert Hlen Hall.
  set (doc := mkDocInfo doc_address name []).
  set (text := String "[" (String " " (integers_on_a_line opts ints ++
                                       String "]" (str1 LF)))).
  exists text. split; [exact (write_Int_array opts Hcompact a d l ints Hlen Hall)|].
  split; [reflexivity|].
  set (p := Parser_new text heap).
  assert (Hat : parser_at text p).
  { unfold parser_at, p, Parser_new, text. cbn [_ptr chars c_string]. decide_cheq.
    cbv iota. do 2 f_equal.
    rewrite (c_string_append _ _ (c_string_integers opts ints)). reflexivity. }
  assert (Hat1 : parser_at text (parser_after_alloc p)) by exact Hat.
  assert (Hp0 : peek (_ptr p) 0 = "["%char) by reflexivity.
  destruct (parse_value_integer_array opts doc Htabs (S (List.length ints + f))
              (parser_after_alloc p) ints Hall Hat1 ltac:(lia)) as [p_end [Hvalue Hend]].
  unfold parse_string, parse_string_doc. fold doc. fold p. rewrite Hassert.
  rewrite (top_level_one_value opts doc (S (List.length ints + f))
             (Int_array_at (S heap) (Some doc) 1 ints) true p p_end);
    [reflexivity | | | | | | exact Hvalue | exact Hend | reflexivity].
  - destruct (implicit_top_object opts); [|reflexivity].
    unfold bind, get_state, skip_white_ignore_comments, bind.
    rewrite (skip_white_before_black opts doc Htabs false p "[" _ Hat eq_refl).
    cbv beta iota. unfold ret, get_ptr. cbv beta iota.
    rewrite Hp0. reflexivity.
  - exact (skip_white_before_black opts doc Htabs false _ "[" _ Hat1 eq_refl).
  - now rewrite Hp0.
  - now rewrite Hp0.
  - now rewrite Hp0.
Qed.

Lemma integer_array_document_round_trip_witness :
  compact JSON = false /\
  indentation_is_tabs JSON = true /\
  negb (streq (indentation JSON) "") || negb (enforce_indentation JSON) = true /\
  (List.length ([1; -20; 300])%Z <= 16)%nat /\
  forallb above_INT64_MIN [1; -20; 300] = true /\
  exists text : string,
    write (Int_array_at 0 None BAD_ENTRY [1; -20; 300]) JSON = Ok text /\
    text = "[ 1, -20, 300 ]" ++ str1 LF /\
    parse_string 6 text JSON "sample.json" 0 0 =
    Ok (Int_array_at 1 (Some (mkDocInfo 0 "sample.json" [])) 1 [1; -20; 300]).
Proof.
  split; [reflexivity|]. split; [reflexivity|]. split; [reflexivity|].
  split; [cbn; lia|]. split; [reflexivity|].
  apply (integer_array_document_round_trip JSON [1; -20; 300] 0 None BAD_ENTRY
           "sample.json" 0 0 0);
    [reflexivity | reflexivity | reflexivity | cbn; lia | reflexivity].
Defined.

(** ** Documents of an object of integers *)

Lemma length_repeat_space (n : nat) : String.length (repeat_string n " ") = n.
Proof. induction n as [|n IH]; [reflexivity|]. cbn. now rewrite IH. Qed.

Section WhiteSpaceInAnObject.
Variable opts : FormatOptions.
Variable doc : DocInfo.
Hypothesis Hind : indentation opts = str1 TAB.

Lemma one_tab_is_tabs : indentation_is_tabs opts = true.
Proof. unfold indentation_is_tabs. now rewrite Hind. Qed.

Lemma no_tab_no_indentation (x : ascii) (r : string) :
  cheq x TAB = false ->
  negb (streq (indentation opts) "") &&
  String.prefix (indentation opts) (String x r) = false.
Proof.
  intros Hx. rewrite Hind. unfold str1.
  rewrite prefix_first_differs; [apply andb_false_r|].
  intros E. subst x. discriminate Hx.
Qed.

Lemma tab_is_indentation (r : string) :
  negb (streq (indentation opts) "") &&
  String.prefix (indentation opts) (String TAB r) = true.
Proof. rewrite Hind. unfold str1. cbn. now destruct r. Qed.

Lemma skip_white_loop_black (break_on_newline found_newline : bool) (z : Z)
    (fuel : nat) (p : Parser) (y : ascii) (t : string) :
  parser_at (String y t) p ->
  is_black y = true ->
  skip_white_loop opts doc (S fuel) break_on_newline [] z found_newline p =
  Ok ((false, [], z), p).
Proof.
  intros Hat Hy. destruct (is_black_inv y Hy) as [H1 [H2 [H3 [H4 H5]]]].
  pose proof (no_tab_no_indentation y t H3) as H6.
  unfold parser_at in Hat. unfold cheq in *.
  cbn [skip_white_loop]. unfold bind, at_ptr, get_ptr, peek, cheq.
  parser_steps ltac:(rewrite ?Hat, ?H1, ?H2, ?H3, ?H4, ?H5, ?H6).
  reflexivity.
Qed.

Lemma skip_white_loop_spaces (break_on_newline : bool) (n : nat) :
  forall (z : Z) (fuel : nat) (p : Parser) (y : ascii) (t : string),
    parser_at (repeat_string n " " ++ String y t) p ->
    is_black y = true ->
    (n < fuel)%nat ->
    skip_white_loop opts doc fuel break_on_newline [] z false p =
    Ok ((false, [], if Nat.eqb n 0 then z else -1), parser_skip n p).
Proof.
  induction n as [|n IH]; intros z fuel p y t Hat Hy Hf;
    (destruct fuel as [|fuel]; [lia|]).
  - rewrite parser_skip_0.
    exact (skip_white_loop_black break_on_newline false z fuel p y t Hat Hy).
  - unfold parser_at in Hat. cbn [repeat_string append] in Hat.
    cbn [skip_white_loop]. unfold bind, at_ptr, get_ptr, peek, cheq.
    parser_steps ltac:(rewrite ?Hat; decide_cheq;
                       rewrite ?(no_tab_no_indentation " " _ eq_refl)).
    rewrite (skip_eq doc). cbv beta iota.
    rewrite (IH (-1) fuel (parser_skip 1 p) y t);
      [| exact (parser_skip_at (String " " "") _ _ Hat) | exact Hy | lia].
    rewrite parser_skip_skip. cbn [Nat.eqb Nat.add].
    now destruct (Nat.eqb n 0).
Qed.

Lemma skip_white_spaces (break_on_newline : bool) (n : nat) (p : Parser)
    (y : ascii) (t : string) :
  parser_at (repeat_string (S n) " " ++ String y t) p ->
  is_black y = true ->
  skip_white opts doc break_on_newline p = Ok ((true, [], -1), parser_skip (S n) p).
Proof.
  intros Hat Hy. unfold skip_white, bind, get_ptr. cbv beta iota.
  rewrite (skip_white_loop_spaces break_on_newline (S n) 0 _ p y t Hat Hy).
  - cbv beta iota. cbn [Nat.eqb parser_skip _ptr advance offset].
    replace (Nat.eqb (offset (_ptr p)) (offset (_ptr p) + S n)) with false
      by (symmetry; apply Nat.eqb_neq; lia).
    reflexivity.
  - unfold parser_at in Hat. rewrite Hat, length_append, length_repeat_space. lia.
Qed.

Lemma skip_white_loop_tab (break_on_newline found_newline : bool)
    (fuel : nat) (p : Parser) (y : ascii) (t : string) :
  parser_at (String TAB (String y t)) p ->
  is_black y = true ->
  skip_white_loop opts doc (S (S fuel)) break_on_newline [] 0 found_newline p =
  Ok ((false, [], 1), parser_skip 1 p).
Proof.
  intros Hat Hy. unfold parser_at in Hat.
  remember (S fuel) as fuel' eqn:Hfuel.
  cbn [skip_white_loop]. unfold bind, at_ptr, get_ptr, peek, cheq.
  parser_steps ltac:(rewrite ?Hat; decide_cheq; rewrite ?tab_is_indentation).
  rewrite Hind. rewrite (skip_eq doc). cbv beta iota.
  change (String.length (str1 TAB)) with 1%nat.
  assert (Hassert : (if enforce_indentation opts && streq (str1 TAB) (str1 TAB)
                     then parse_assert doc (negb (0 =? -1))
                            "Tabs should only occur on the start of a line!"
                     else fun p0 : Parser => Ok (tt, p0)) (parser_skip 1 p) =
                    Ok (tt, parser_skip 1 p)).
  { now destruct (enforce_indentation opts && streq (str1 TAB) (str1 TAB)). }
  rewrite Hassert. cbv beta iota. rewrite Hfuel.
  apply (skip_white_loop_black break_on_newline found_newline (0 + 1) fuel _ y t);
    [| exact Hy].
  exact (parser_skip_at (String TAB "") _ _ Hat).
Qed.

Lemma skip_white_one_tab (break_on_newline : bool) (p : Parser)
    (y : ascii) (t : string) :
  parser_at (String TAB (String y t)) p ->
  is_black y = true ->
  skip_white opts doc break_on_newline p = Ok ((true, [], 1), parser_skip 1 p).
Proof.
  intros Hat Hy. unfold skip_white, bind, get_ptr. cbv beta iota.
  assert (Hlen : String.length (chars (_ptr p)) = S (S (String.length t)))
    by (unfold parser_at in Hat; now rewrite Hat).
  rewrite Hlen.
  rewrite (skip_white_loop_tab break_on_newline false _ p y t Hat Hy).
  cbv beta iota. cbn [parser_skip _ptr advance offset].
  replace (Nat.eqb (offset (_ptr p)) (offset (_ptr p) + 1)) with false
    by (symmetry; apply Nat.eqb_neq; lia).
  reflexivity.
Qed.

Lemma skip_white_line_feed_tab (p : Parser) (y : ascii) (t : string) :
  parser_at (String LF (String TAB (String y t))) p ->
  is_black y = true ->
  skip_white opts doc false p =
  Ok ((true, [], 1), parser_skip 1 (parser_next_line p)).
Proof.
  intros Hat Hy. unfold skip_white, bind, get_ptr. cbv beta iota.
  assert (Hlen : String.length (chars (_ptr p)) = S (S (S (String.length t))))
    by (unfold parser_at in Hat; now rewrite Hat).
  rewrite Hlen. unfold parser_at in Hat.
  remember (S (S (S (String.length t)))) as fuel' eqn:Hfuel.
  cbn [skip_white_loop]. unfold bind, at_ptr, get_ptr, peek, cheq.
  parser_steps ltac:(rewrite ?Hat; decide_cheq).
  rewrite (skip_eq doc). cbv beta iota. unfold new_line. cbv beta iota.
  change (mkParser (_ptr (parser_skip 1 p)) (_line_nr (parser_skip 1 p) + 1)
            (_ptr (parser_skip 1 p)) (_indentation (parser_skip 1 p))
            (_next_addr (parser_skip 1 p)))
    with (parser_next_line p).
  rewrite Hfuel.
  rewrite (skip_white_loop_tab false true _ (parser_next_line p) y t);
    [| unfold parser_at, parser_next_line, advance; cbn [_ptr chars];
       now rewrite Hat | exact Hy].
  cbv beta iota. cbn [parser_skip parser_next_line _ptr advance offset].
  replace (Nat.eqb (offset (_ptr p)) (offset (_ptr p) + 1 + 1)) with false
    by (symmetry; apply Nat.eqb_neq; lia).
  reflexivity.
Qed.
End WhiteSpaceInAnObject.

Lemma ident_start_code (y : ascii) :
  is_ident_start y = true ->
  code y = 95 \/ 97 <= code y <= 122 \/ 65 <= code y <= 90.
Proof.
  unfold is_ident_start. intros H.
  apply orb_prop in H as [H|H]; [apply orb_prop in H as [H|H]|].
  - left. unfold cheq in H. apply Ascii.eqb_eq in H. now subst y.
  - right. left. now apply in_range_code in H.
  - right. right. now apply in_range_code in H.
Qed.

Section KeyOfAnEntry.
Variable opts : FormatOptions.
Variable doc : DocInfo.
Hypothesis Hind : indentation opts = str1 TAB.

Lemma write_string_on_a_line (key : string) :
  contains (str1 LF) key = false -> write_string opts key = write_quoted_string key.
Proof.
  intros Hlf. unfold write_string. rewrite Hlf.
  now destruct (negb (str_python_multiline opts)).
Qed.

Lemma written_key_first (key : string) :
  key_on_a_line opts key = true ->
  exists (y : ascii) (t : string),
    write_key opts key = String y t /\
    is_black y = true /\ cheq y "}" = false /\ cheq y NUL = false /\
    cheq y "," = false.
Proof.
  unfold key_on_a_line, write_key. intros H.
  destruct (identifiers_keys opts && is_identifier key) eqn:Hid.
  - apply andb_prop in Hid as [_ Hid]. apply andb_prop in H as [_ Hc].
    apply String.eqb_eq in Hc.
    destruct (is_identifier_inv key Hid Hc) as [y [t [Ek [Hstart _]]]].
    exists y, t. split; [exact Ek|].
    pose proof (ident_start_code y Hstart) as Hcode.
    unfold is_black.
    rewrite !cheq_code_false by (vm_compute (code _) at 2; lia).
    repeat split.
  - apply andb_prop in H as [_ Hlf]. apply negb_true_iff in Hlf.
    rewrite (write_string_on_a_line key Hlf).
    rewrite write_quoted_string_quoted_char.
    exists DQUOTE, (map_chars quoted_char key ++ str1 DQUOTE).
    repeat split.
Qed.

Lemma parse_written_key (key rest : string) (p : Parser) :
  key_on_a_line opts key = true ->
  parser_at (write_key opts key ++ String ":" rest) p ->
  parse_key opts doc p =
  Ok (key, parser_skip (String.length (write_key opts key)) p).
Proof.
  unfold key_on_a_line, write_key. intros H Hat.
  destruct (identifiers_keys opts && is_identifier key) eqn:Hid.
  - apply andb_prop in Hid as [Hopt Hid]. apply andb_prop in H as [Hres Hc].
    apply String.eqb_eq in Hc. apply negb_true_iff in Hres.
    rewrite !orb_false_iff in Hres. destruct Hres as [[Ht Hn] Hf].
    apply String.eqb_neq in Ht, Hn, Hf.
    now apply (parse_identifier_key opts doc key (String ":" rest) p).
  - apply andb_prop in H as [Hq Hlf]. apply negb_true_iff in Hlf.
    rewrite (write_string_on_a_line key Hlf) in *.
    assert (Hp0 : peek (_ptr p) 0 = DQUOTE).
    { unfold peek. unfold parser_at in Hat. rewrite Hat.
      rewrite write_quoted_string_quoted_char. reflexivity. }
    unfold parse_key, bind, get_ptr. cbv beta iota. rewrite Hp0.
    change (IDENT_STARTERS DQUOTE) with false. cbn [andb].
    change (cheq DQUOTE DQUOTE) with true. cbn [orb].
    apply (parse_quoted_text opts doc key (String ":" rest) p Hat Hq).
    intros _. discriminate.
Qed.

Lemma parse_key_separator_colon (n : nat) (p : Parser) (y : ascii) (t : string) :
  parser_at (String ":" (repeat_string (S n) " " ++ String y t)) p ->
  is_black y = true ->
  parse_key_separator opts doc p = Ok (tt, parser_skip (S (S n)) p).
Proof.
  intros Hat Hy.
  assert (Hp0 : peek (_ptr p) 0 = ":"%char)
    by (unfold peek; unfold parser_at in Hat; now rewrite Hat).
  unfold parse_key_separator, skip_white_ignore_comments, bind.
  rewrite (skip_white_before_black opts doc (one_tab_is_tabs opts Hind) false p ":" _
             Hat eq_refl).
  cbv beta iota. unfold ret, at_ptr. cbv beta iota.
  rewrite Hp0. change (cheq ":" ":") with true. cbn [orb negb].
  unfold parse_assert. rewrite !orb_true_r. unfold ret. cbv beta iota.
  rewrite (skip_eq doc). cbv beta iota.
  rewrite (skip_white_spaces opts doc Hind false n (parser_skip 1 p) y t);
    [| exact (parser_skip_at (String ":" "") _ _ Hat) | exact Hy].
  cbv beta iota. now rewrite parser_skip_skip.
Qed.
End KeyOfAnEntry.

Lemma map_replace_last {V : Type} (key : string) (x v : V) (m : list (string * V)) :
  map_find key m = None ->
  map_replace key v (m ++ [(key, x)]) = (m ++ [(key, v)])%list.
Proof.
  induction m as [|[k y] m IH]; cbn.
  - now rewrite String.eqb_refl.
  - destruct (String.eqb k key) eqn:E; [discriminate|]. intros H. now rewrite IH.
Qed.

Lemma map_find_last {V : Type} (key : string) (x : V) (m : list (string * V)) :
  map_find key m = None -> map_find key (m ++ [(key, x)]) = Some x.
Proof.
  induction m as [|[k y] m IH]; cbn.
  - now rewrite String.eqb_refl.
  - destruct (String.eqb k key) eqn:E; [discriminate|]. exact IH.
Qed.

(** [object[key] = std::move(value)] for a key above those of the
    object: a new entry after the others. *)
Lemma assign_new_last_key (a : nat) (acc : ConfigObjectImpl) (d : DocInfo_SP) (l : Z)
    (key : string) (doc : DocInfo) (line i : Z) :
  forallb (fun p => String.ltb (fst p) key) acc = true ->
  Z.of_nat (List.length acc) + 1 < 2 ^ 32 ->
  rbind (index (mkConfig (VObject a acc) d l None) key)
        (fun object => Ok (move_assign_at object key (Int_at (Some doc) line i))) =
  Ok (mkConfig
        (VObject a (acc ++ [(key, mkEntry (Int_at (Some doc) line i)
                                          (Z.of_nat (List.length acc)) false)]))
        d l None).
Proof.
  intros Hbelow Hlen.
  pose proof (@map_find_below ObjectEntry key acc Hbelow) as Hnone.
  unfold index, as_object.
  cbn [assert_type _u type Type_eqb negb rbind u_object].
  rewrite Hnone. cbn [rbind with_object _u _doc _line _comments].
  rewrite (@map_insert_above ObjectEntry key _ acc Hbelow).
  unfold move_assign_at, update_at. cbn [u_object _u].
  rewrite (map_find_last key _ acc Hnone).
  cbn [with_object _u _doc _line _comments].
  rewrite (map_replace_last key _ _ acc Hnone).
  unfold unsigned.
  rewrite (wrap_unsigned_id 32 (Z.of_nat (List.length acc) + 1)) by lia.
  rewrite (wrap_unsigned_id 32 (Z.of_nat (List.length acc) + 1 - 1)) by lia.
  replace (Z.of_nat (List.length acc) + 1 - 1) with (Z.of_nat (List.length acc)) by lia.
  reflexivity.
Qed.

Section EntryOfAnObject.
Variable opts : FormatOptions.
Variable doc : DocInfo.
Hypothesis Hind : indentation opts = str1 TAB.

Lemma object_loop_turn (f a : nat) (acc : ConfigObjectImpl) (d : DocInfo_SP) (l : Z)
    (p0 p : Parser) (b0 : bool) (z : Z) (key : string) (i : Z) (pad : nat)
    (last : bool) (next : string) :
  skip_white opts doc false p0 = Ok ((b0, [], z), p) ->
  z = -1 \/ z = 1 ->
  _indentation p = 1 ->
  key_on_a_line opts key = true ->
  above_INT64_MIN i = true ->
  forallb (fun e => String.ltb (fst e) key) acc = true ->
  Z.of_nat (List.length acc) + 1 < 2 ^ 32 ->
  parser_at (write_key opts key ++
             String ":" (repeat_string (S pad) " " ++ to_string i ++
                         (if array_omit_comma opts || last
                          then str1 LF else "," ++ str1 LF) ++ next)) p ->
  (if last then exists t, next = String "}" t
   else exists y t, next = String TAB (String y t) /\ is_black y = true /\
                    cheq y "," = false /\ cheq y NUL = false /\ cheq y "}" = false) ->
  object_loop opts doc (S (S f)) (mkConfig (VObject a acc) d l None) [] p0 =
  (let q := parser_skip (String.length (write_key opts key) +
                         (S (S pad) + String.length (to_string i))) p in
   if array_omit_comma opts && negb last && negb (object_omit_comma opts) then
     throw_error doc "Expected a comma or }" (parser_skip 1 (parser_next_line q))
   else
     object_loop opts doc (S f)
       (mkConfig
          (VObject a (acc ++ [(key, mkEntry (Int_at (Some doc) (_line_nr p) i)
                                            (Z.of_nat (List.length acc)) false)]))
          d l None) []
       (if array_omit_comma opts || last then
          if last then parser_next_line q else parser_skip 1 (parser_next_line q)
        else parser_next_line (parser_skip 1 q))).
Proof.
  intros Hwhite Hz Hindp Hkey Hi Hbelow Hlen Hat Hnext.
  pose proof (one_tab_is_tabs opts Hind) as Htabs.
  destruct (written_key_first opts key Hkey) as [c [s [Hcs [Hcb [Hcl [Hcz Hcc]]]]]].
  assert (Hp0 : peek (_ptr p) 0 = c).
  { unfold peek. unfold parser_at in Hat. now rewrite Hat, Hcs. }
  set (kt := write_key opts key) in *.
  set (tail := if array_omit_comma opts || last then str1 LF else "," ++ str1 LF) in *.
  set (pk := parser_skip (String.length kt) p).
  assert (Hatk : parser_at (String ":" (repeat_string (S pad) " " ++ to_string i ++
                                         tail ++ next)) pk)
    by exact (parser_skip_at _ _ _ Hat).
  destruct (to_string_token i) as [ci [si [Hsi [Hci _]]]].
  assert (Hci' : is_digit ci = true \/ ci = "-"%char) by tauto.
  set (pv := parser_skip (S (S pad)) pk).
  assert (Hatv : parser_at (to_string i ++ tail ++ next) pv).
  { unfold pv. change (S (S pad)) with (1 + S pad)%nat.
    rewrite <- parser_skip_skip.
    rewrite <- (length_repeat_space (S pad)).
    apply parser_skip_at.
    exact (parser_skip_at (String ":" "") _ _ Hatk). }
  assert (Hsep : parse_key_separator opts doc pk = Ok (tt, pv)).
  { apply (parse_key_separator_colon opts doc Hind pad pk ci (si ++ tail ++ next));
      [| now apply token_first_is_black].
    unfold parser_at in *. rewrite Hatk, Hsi. reflexivity. }
  set (q := parser_skip (String.length (to_string i)) pv).
  assert (Hatq : parser_at (tail ++ next) q) by exact (parser_skip_at _ _ _ Hatv).
  assert (Eq : parser_skip (String.length kt + (S (S pad) + String.length (to_string i))) p
               = q).
  { unfold q, pv, pk. now rewrite !parser_skip_skip, Nat.add_assoc. }
  cbv zeta. rewrite Eq.
  assert (Hdup : (if negb (object_duplicate_keys opts)
                  then lift (has_key (mkConfig (VObject a acc) d l None) key)
                  else fun p1 : Parser => Ok (false, p1)) pk = Ok (false, pk)).
  { pose proof (@map_find_below ObjectEntry key acc Hbelow) as Hnone.
    unfold has_key, as_object, map_count, lift.
    cbn [assert_type _u type Type_eqb negb rbind u_object].
    rewrite Hnone. now destruct (object_duplicate_keys opts). }
  pose proof (assign_new_last_key a acc d l key doc (_line_nr p) i Hbelow Hlen) as Hassign.
  destruct (index (mkConfig (VObject a acc) d l None) key) as [o1| |] eqn:Hix;
    cbn [rbind] in Hassign; try discriminate.
  injection Hassign as Hassign.
  remember (S f) as fuel' eqn:Hfuel.
  cbn [object_loop]. fold (parse_value opts doc). fold (object_loop opts doc).
  unfold skip_pre_white, bind.
  rewrite Hwhite.
  cbv beta iota. cbn [is_nil negb]. unfold ret, get_indentation, get_ptr.
  cbv beta iota. rewrite Hp0, Hcl, Hcz, Hindp.
  assert (Hcheck : (0 <=? z) && negb (1 =? z) = false)
    by (destruct Hz as [-> | ->]; reflexivity).
  rewrite Hcheck. cbv beta iota.
  unfold get_state. cbv beta iota.
  rewrite (parse_written_key opts doc key _ p Hkey Hat). fold kt. fold pk.
  cbv beta iota.
  rewrite Hdup. cbv beta iota. rewrite Hsep. cbv beta iota.
  rewrite Hfuel.
  assert (Hends : forall r, ends_integer (String LF r) = true /\
                            ends_integer (String "," r) = true)
    by (intros r; split; reflexivity).
  change (move_assign (tag (fresh_value []) (Some doc) (_line_nr pv) (column pv))
            (Config_int i))
    with (Int_at (Some doc) (_line_nr p) i).
  destruct (array_omit_comma opts || last) eqn:Hor.
  - (* a line feed after the integer *)
    subst tail. unfold str1 in Hatv, Hatq. cbn [append] in Hatv, Hatq.
    rewrite (parse_value_integer opts doc Htabs f (fresh_value []) pv
               (parser_next_line q) i (String LF next) true 0 Hi Hatv
               (proj1 (Hends next)));
      [| discriminate | discriminate | exact (skip_white_at_line_feed opts doc q next Hatq)].
    cbv beta iota.
    change (move_assign (tag (fresh_value []) (Some doc) (_line_nr pv) (column pv))
              (Config_int i))
      with (Int_at (Some doc) (_line_nr p) i).
    assert (Hatn : parser_at next (parser_next_line q)).
    { unfold parser_at, parser_next_line, advance in *. cbn [_ptr chars].
      now rewrite Hatq. }
    destruct last.
    + destruct Hnext as [t Hnext]. rewrite Hnext in Hatn.
      rewrite (skip_white_before_black opts doc Htabs false _ "}" t Hatn eq_refl).
      cbv beta iota. unfold at_ptr. cbv beta iota.
      assert (Hpn : peek (_ptr (parser_next_line q)) 0 = "}"%char)
        by (unfold peek; unfold parser_at in Hatn; now rewrite Hatn).
      rewrite Hpn. change (cheq "}" ",") with false. cbv beta iota.
      unfold lift. rewrite Hix. cbv beta iota. rewrite Hassign.
      unfold check_separator, bind, at_ptr. cbv beta iota. rewrite Hpn.
      change (cheq "}" NUL || cheq "}" "}") with true. cbn [negb orb]. cbv beta iota.
      unfold parse_assert_at, ret. cbv beta iota.
      now rewrite andb_false_r.
    + rewrite orb_false_r in Hor. rewrite Hor. cbn [negb andb].
      destruct Hnext as [y [t [Hnext [Hyb [Hyc [Hyz Hyl]]]]]]. rewrite Hnext in Hatn.
      rewrite (skip_white_one_tab opts doc Hind false _ y t Hatn Hyb).
      cbv beta iota. unfold at_ptr. cbv beta iota.
      assert (Hpn : peek (_ptr (parser_skip 1 (parser_next_line q))) 0 = y).
      { unfold peek. unfold parser_at in Hatn. unfold parser_skip, advance.
        cbn [_ptr chars]. now rewrite Hatn. }
      rewrite Hpn, Hyc. cbv beta iota.
      unfold lift. rewrite Hix. cbv beta iota. rewrite Hassign.
      unfold check_separator, bind, at_ptr. cbv beta iota. rewrite Hpn, Hyz, Hyl.
      cbn [negb orb]. cbv beta iota.
      unfold parse_assert, ret.
      destruct (object_omit_comma opts); reflexivity.
  - (* a comma and a line feed after the integer *)
    apply orb_false_iff in Hor as [Homit Hlast]. subst last.
    subst tail. unfold str1 in Hatv, Hatq. cbn [append] in Hatv, Hatq.
    rewrite (parse_value_integer opts doc Htabs f (fresh_value []) pv q i
               (String "," (String LF next)) false (-1) Hi Hatv
               (proj2 (Hends (String LF next))));
      [| discriminate | discriminate
       | exact (skip_white_before_black opts doc Htabs true q "," _ Hatq eq_refl)].
    cbv beta iota.
    change (move_assign (tag (fresh_value []) (Some doc) (_line_nr pv) (column pv))
              (Config_int i))
      with (Int_at (Some doc) (_line_nr p) i).
    rewrite (skip_white_before_black opts doc Htabs false q "," _ Hatq eq_refl).
    cbv beta iota. unfold at_ptr. cbv beta iota.
    assert (Hpq : peek (_ptr q) 0 = ","%char)
      by (unfold peek; unfold parser_at in Hatq; now rewrite Hatq).
    rewrite Hpq. change (cheq "," ",") with true. cbv beta iota.
    rewrite (skip_eq doc). cbv beta iota.
    assert (Hat1 : parser_at (String LF next) (parser_skip 1 q))
      by exact (parser_skip_at (String "," "") _ _ Hatq).
    unfold skip_post_white, bind.
    rewrite (skip_white_at_line_feed opts doc _ next Hat1).
    cbv beta iota. cbn [is_nil negb]. unfold ret. cbv beta iota.
    destruct Hnext as [y [t [Hnext [Hyb [Hyc [Hyz Hyl]]]]]].
    assert (Hpn : peek (_ptr (parser_next_line (parser_skip 1 q))) 0 = TAB).
    { unfold peek, parser_next_line, advance. cbn [_ptr chars].
      unfold parser_at in Hat1. now rewrite Hat1, Hnext. }
    unfold lift. rewrite Hix. cbv beta iota. rewrite Hassign.
    unfold check_separator, bind, at_ptr. cbv beta iota. rewrite Hpn.
    change (cheq TAB NUL || cheq TAB "}") with false. cbv beta iota.
    unfold parse_assert, ret. rewrite Homit. cbn [andb].
    destruct (object_omit_comma opts); reflexivity.
Qed.
End EntryOfAnObject.

Lemma integer_lines_after_tab (o : FormatOptions) (longest : nat)
    (entries : list (string * Z)) (close : string) :
  integer_lines o longest entries ++ close =
  (if is_nil entries then "" else str1 TAB) ++ lines_after_tab o longest entries close.
Proof.
  induction entries as [|[key i] entries IH]; [reflexivity|].
  cbn [integer_lines lines_after_tab is_nil].
  rewrite !append_assoc. rewrite IH. reflexivity.
Qed.

Lemma parser_at_after_entry (kt it x : string) (pad : nat) (p : Parser) :
  parser_at (kt ++ String ":" (repeat_string (S pad) " " ++ it ++ x)) p ->
  parser_at x (parser_skip (String.length kt + (S (S pad) + String.length it)) p).
Proof.
  intros Hat.
  rewrite <- (parser_skip_skip (String.length kt) (S (S pad) + String.length it) p).
  rewrite <- (parser_skip_skip (S (S pad)) (String.length it)).
  apply parser_skip_at.
  change (S (S pad)) with (1 + S pad)%nat.
  rewrite <- parser_skip_skip.
  rewrite <- (length_repeat_space (S pad)) at 1.
  apply parser_skip_at.
  apply (parser_skip_at (String ":" "")).
  exact (parser_skip_at _ _ _ Hat).
Qed.

Section EntriesOfAnObject.
Variable opts : FormatOptions.
Variable doc : DocInfo.
Hypothesis Hind : indentation opts = str1 TAB.
Hypothesis Hcommas : negb (array_omit_comma opts) || object_omit_comma opts = true.

Lemma object_loop_end (f a : nat) (acc : ConfigObjectImpl) (d : DocInfo_SP) (l : Z)
    (p0 p : Parser) (b0 : bool) (rest : string) :
  skip_white opts doc false p0 = Ok ((b0, [], -1), p) ->
  parser_at (String "}" rest) p ->
  object_loop opts doc (S f) (mkConfig (VObject a acc) d l None) [] p0 =
  Ok (mkConfig (VObject a acc) d l None, p).
Proof.
  intros Hwhite Hat.
  assert (Hp0 : peek (_ptr p) 0 = "}"%char)
    by (unfold peek; unfold parser_at in Hat; now rewrite Hat).
  cbn [object_loop]. unfold skip_pre_white, bind.
  rewrite Hwhite.
  cbv beta iota. cbn [is_nil negb]. unfold ret, get_indentation, get_ptr.
  cbv beta iota. rewrite Hp0. change (cheq "}" "}") with true.
  change (0 <=? -1) with false. cbn [andb]. cbv beta iota.
  reflexivity.
Qed.

Lemma lines_after_tab_next (longest : nat) (entries : list (string * Z)) (rest : string) :
  forallb (key_on_a_line opts) (map fst entries) = true ->
  if is_nil entries
  then exists t, (if is_nil entries then "" else str1 TAB) ++
                 lines_after_tab opts longest entries (String "}" rest) = String "}" t
  else exists y t,
         (if is_nil entries then "" else str1 TAB) ++
         lines_after_tab opts longest entries (String "}" rest) =
         String TAB (String y t) /\ is_black y = true /\
         cheq y "," = false /\ cheq y NUL = false /\ cheq y "}" = false.
Proof.
  destruct entries as [|[key i] entries]; intros Hkeys.
  - now exists rest.
  - cbn [map fst forallb] in Hkeys. apply andb_prop in Hkeys as [Hkey _].
    destruct (written_key_first opts key Hkey) as [y [t [Hyt [Hyb [Hyl [Hyz Hyc]]]]]].
    cbn [is_nil lines_after_tab]. rewrite Hyt. unfold str1. cbn [append].
    eexists y, _. split; [reflexivity|]. tauto.
Qed.

Lemma object_loop_integers (longest : nat) (entries : list (string * Z)) :
  forall (acc : ConfigObjectImpl) (f a : nat) (d : DocInfo_SP) (l : Z)
         (p0 p : Parser) (b0 : bool) (z : Z) (rest : string),
    skip_white opts doc false p0 = Ok ((b0, [], z), p) ->
    z = -1 \/ z = 1 ->
    (entries = [] -> z = -1) ->
    _indentation p = 1 ->
    forallb (key_on_a_line opts) (map fst entries) = true ->
    forallb above_INT64_MIN (map snd entries) = true ->
    keys_increasing (acc ++ Int_entries (Some doc) (_line_nr p) 1
                                        (Z.of_nat (List.length acc)) entries) = true ->
    Z.of_nat (List.length acc + List.length entries) < 2 ^ 32 ->
    parser_at (lines_after_tab opts longest entries (String "}" rest)) p ->
    (List.length entries < f)%nat ->
    exists p_end : Parser,
      object_loop opts doc f (mkConfig (VObject a acc) d l None) [] p0 =
      Ok (mkConfig
            (VObject a (acc ++ Int_entries (Some doc) (_line_nr p) 1
                                           (Z.of_nat (List.length acc)) entries))
            d l None, p_end) /\
      parser_at (String "}" rest) p_end.
Proof.
  induction entries as [|[key i] entries IH];
    intros acc f a d l p0 p b0 z rest Hwhite Hz Hz0 Hindp Hkeys Hints Hinc Hlen Hat Hf.
  - destruct f as [|f]; [cbn in Hf; lia|].
    rewrite (Hz0 eq_refl) in Hwhite.
    exists p. cbn [Int_entries]. rewrite app_nil_r.
    split; [exact (object_loop_end f a acc d l p0 p b0 rest Hwhite Hat) | exact Hat].
  - cbn [map fst snd forallb] in Hkeys, Hints.
    apply andb_prop in Hkeys as [Hkey Hkeys]. apply andb_prop in Hints as [Hi Hints].
    cbn [List.length] in Hf, Hlen.
    destruct f as [|[|f]]; [lia | lia |].
    cbn [Int_entries] in Hinc |- *.
    pose proof (@keys_increasing_app_below ObjectEntry acc key _ _ Hinc) as Hbelow.
    cbn [lines_after_tab] in Hat.
    pose proof (lines_after_tab_next longest entries rest Hkeys) as Hnext.
    set (next := (if is_nil entries then "" else str1 TAB) ++
                 lines_after_tab opts longest entries (String "}" rest)) in *.
    rewrite (object_loop_turn opts doc Hind f a acc d l p0 p b0 z key i
               (longest - String.length key) (is_nil entries) next
               Hwhite Hz Hindp Hkey Hi Hbelow ltac:(lia) Hat Hnext).
    cbv zeta.
    assert (Hno : array_omit_comma opts && negb (is_nil entries) &&
                  negb (object_omit_comma opts) = false).
    { destruct (array_omit_comma opts); [|reflexivity].
      cbn [negb orb] in Hcommas. rewrite Hcommas. apply andb_false_r. }
    rewrite Hno.
    set (q := parser_skip (String.length (write_key opts key) +
                           (S (S (longest - String.length key)) +
                            String.length (to_string i))) p).
    set (tail := if array_omit_comma opts || is_nil entries
                 then str1 LF else "," ++ str1 LF) in *.
    assert (Hatq : parser_at (tail ++ next) q)
      by exact (parser_at_after_entry _ _ _ _ p Hat).
    set (p_e := if array_omit_comma opts || is_nil entries
                then if is_nil entries then parser_next_line q
                     else parser_skip 1 (parser_next_line q)
                else parser_next_line (parser_skip 1 q)).
    assert (Hpe : exists (b1 : bool) (z1 : Z) (p' : Parser),
               skip_white opts doc false p_e = Ok ((b1, [], z1), p') /\
               (z1 = -1 \/ z1 = 1) /\ (entries = [] -> z1 = -1) /\
               _indentation p' = 1 /\ _line_nr p' = _line_nr p + 1 /\
               parser_at (lines_after_tab opts longest entries (String "}" rest)) p').
    { pose proof (one_tab_is_tabs opts Hind) as Htabs.
      unfold p_e, tail in *. clear p_e tail.
      destruct (array_omit_comma opts || is_nil entries) eqn:Hor.
      - assert (Hatn : parser_at next (parser_next_line q)).
        { unfold parser_at, parser_next_line, advance in *. cbn [_ptr chars].
          now rewrite Hatq. }
        destruct entries as [|[key2 i2] entries]; cbn [is_nil] in *.
        + destruct Hnext as [t Hnext]. unfold next in *. cbn [append lines_after_tab] in *.
          exists false, (-1), (parser_next_line q).
          split; [exact (skip_white_before_black opts doc Htabs false _ "}" rest Hatn
                           eq_refl)|].
          split; [now left|]. split; [reflexivity|]. split; [exact Hindp|].
          split; [reflexivity | exact Hatn].
        + destruct Hnext as [y [t [Hnext [Hyb _]]]].
          assert (Hat' : parser_at (lines_after_tab opts longest ((key2, i2) :: entries)
                                      (String "}" rest))
                           (parser_skip 1 (parser_next_line q)))
            by exact (parser_skip_at (str1 TAB) _ _ Hatn).
          exists false, (-1), (parser_skip 1 (parser_next_line q)).
          split.
          { apply (skip_white_before_black opts doc Htabs false _ y t); [|exact Hyb].
            unfold parser_at in *. rewrite Hat'.
            unfold next in Hnext. unfold str1 in Hnext. cbn [append] in Hnext.
            now injection Hnext. }
          split; [now left|]. split; [discriminate|]. split; [exact Hindp|].
          split; [reflexivity | exact Hat'].
      - apply orb_false_iff in Hor as [_ Hnil].
        destruct entries as [|[key2 i2] entries]; [discriminate|]. cbn [is_nil] in *.
        destruct Hnext as [y [t [Hnext [Hyb _]]]].
        assert (Hat1 : parser_at (String LF next) (parser_skip 1 q))
          by exact (parser_skip_at (String "," "") _ _ Hatq).
        assert (Hatn : parser_at next (parser_next_line (parser_skip 1 q))).
        { unfold parser_at, parser_next_line, advance in *. cbn [_ptr chars].
          now rewrite Hat1. }
        assert (Hat' : parser_at (lines_after_tab opts longest ((key2, i2) :: entries)
                                    (String "}" rest))
                         (parser_skip 1 (parser_next_line (parser_skip 1 q))))
          by exact (parser_skip_at (str1 TAB) _ _ Hatn).
        exists true, 1, (parser_skip 1 (parser_next_line (parser_skip 1 q))).
        split.
        { apply (skip_white_one_tab opts doc Hind false _ y t); [|exact Hyb].
          unfold parser_at in *. now rewrite Hatn. }
        split; [now right|]. split; [discriminate|]. split; [exact Hindp|].
        split; [reflexivity | exact Hat']. }
    destruct Hpe as [b1 [z1 [p' [Hw' [Hz1 [Hz10 [Hind' [Hline' Hat']]]]]]]].
    fold p_e.
    set (e := (key, mkEntry (Int_at (Some doc) (_line_nr p) i)
                            (Z.of_nat (List.length acc)) false)) in *.
    assert (Hlen' : Z.of_nat (List.length (acc ++ [e])) = Z.of_nat (List.length acc) + 1)
      by (rewrite length_app; cbn [List.length]; lia).
    destruct (IH (acc ++ [e])%list (S f) a d l p_e p' b1 z1 rest Hw' Hz1 Hz10 Hind'
                 Hkeys Hints) as [p_end [Hloop Hend]].
    + rewrite Hline', Hlen', <- app_assoc. exact Hinc.
    + rewrite length_app. cbn [List.length]. lia.
    + exact Hat'.
    + lia.
    + exists p_end. split; [|exact Hend].
      rewrite Hloop. rewrite Hline', Hlen', <- app_assoc. reflexivity.
Qed.
End EntriesOfAnObject.

Lemma keys_increasing_of_keys {V W : Type} (m1 : list (string * V))
    (m2 : list (string * W)) :
  map fst m1 = map fst m2 -> keys_increasing m1 = keys_increasing m2.
Proof.
  revert m2. induction m1 as [|[k x] m1 IH]; intros [|[k2 y] m2] H; try discriminate;
    [reflexivity|].
  cbn in H. injection H as -> H. cbn. f_equal; [|now apply IH].
  clear IH. revert m2 H. induction m1 as [|[k1 x1] m1 IH]; intros [|[k3 y3] m2] H;
    try discriminate; [reflexivity|].
  cbn in H. injection H as -> H. cbn. f_equal. now apply IH.
Qed.

Lemma map_fst_Int_entries (d : DocInfo_SP) (line step n : Z)
    (entries : list (string * Z)) :
  map fst (Int_entries d line step n entries) = map fst entries.
Proof.
  revert line n. induction entries as [|[key i] entries IH]; intros line n;
    [reflexivity|].
  cbn. now rewrite IH.
Qed.

Section ObjectInBraces.
Variable opts : FormatOptions.
Variable doc : DocInfo.
Hypothesis Hind : indentation opts = str1 TAB.
Hypothesis Hcommas : negb (array_omit_comma opts) || object_omit_comma opts = true.

Lemma parse_value_integer_object (longest f : nat) (p : Parser)
    (entries : list (string * Z)) :
  entries <> [] ->
  forallb (key_on_a_line opts) (map fst entries) = true ->
  forallb above_INT64_MIN (map snd entries) = true ->
  keys_increasing entries = true ->
  Z.of_nat (List.length entries) < 2 ^ 32 ->
  _indentation p = 0 ->
  parser_at (String "{" (String LF (integer_lines opts longest entries ++
                                     String "}" (str1 LF)))) p ->
  (List.length entries < f)%nat ->
  exists p_end : Parser,
    parse_value opts doc (S f) (fresh_value []) p =
    Ok ((mkConfig (VObject (_next_addr p)
                     (Int_entries (Some doc) (_line_nr p + 1) 1 0 entries))
                  (Some doc) (_line_nr p) None, true), p_end) /\
    parser_at "" p_end.
Proof.
  intros Hne Hkeys Hints Hinc Hlen Hindp Hat Hf.
  pose proof (one_tab_is_tabs opts Hind) as Htabs.
  assert (Hp0 : peek (_ptr p) 0 = "{"%char)
    by (unfold peek; unfold parser_at in Hat; now rewrite Hat).
  rewrite integer_lines_after_tab in Hat.
  pose proof (lines_after_tab_next opts longest entries (str1 LF) Hkeys) as Hnext.
  destruct entries as [|[key i] entries]; [contradiction|]. cbn [is_nil] in Hat, Hnext.
  destruct Hnext as [y [t [Hnext [Hyb _]]]].
  set (p1 := mkParser (advance (_ptr p) 1) (_line_nr p) (_line_start p)
                      (_indentation p + 1) (S (_next_addr p))).
  assert (Hat1 : parser_at (String LF (str1 TAB ++
                              lines_after_tab opts longest ((key, i) :: entries)
                                (String "}" (str1 LF)))) p1).
  { unfold parser_at, p1, advance in *. cbn [_ptr chars]. now rewrite Hat. }
  set (p2 := parser_skip 1 (parser_next_line p1)).
  assert (Hw1 : skip_white opts doc false p1 = Ok ((true, [], 1), p2)).
  { apply (skip_white_line_feed_tab opts doc Hind p1 y t); [|exact Hyb].
    unfold parser_at in *. now rewrite Hat1, Hnext. }
  assert (Hat2 : parser_at (lines_after_tab opts longest ((key, i) :: entries)
                              (String "}" (str1 LF))) p2).
  { apply (parser_skip_at (str1 TAB)).
    unfold parser_at, parser_next_line, advance in *. cbn [_ptr chars].
    now rewrite Hat1. }
  assert (Hind2 : _indentation p2 = 1)
    by (unfold p2, p1; cbn [parser_skip parser_next_line _indentation]; lia).
  assert (Hline2 : _line_nr p2 = _line_nr p + 1) by reflexivity.
  destruct (object_loop_integers opts doc Hind Hcommas longest ((key, i) :: entries)
              [] f (_next_addr p) (Some doc) (_line_nr p) p1 p2 true 1 (str1 LF)
              Hw1 ltac:(now right) ltac:(discriminate) Hind2 Hkeys Hints)
    as [p3 [Hloop Hat3]].
  { cbn [app List.length Z.of_nat].
    rewrite (keys_increasing_of_keys _ ((key, i) :: entries)); [exact Hinc|].
    apply map_fst_Int_entries. }
  { cbn [List.length Nat.add] in *. exact Hlen. }
  { exact Hat2. }
  { exact Hf. }
  cbn [app List.length Z.of_nat] in Hloop. rewrite Hline2 in Hloop.
  assert (Hp3 : peek (_ptr p3) 0 = "}"%char)
    by (unfold peek; unfold parser_at in Hat3; now rewrite Hat3).
  set (p4 := mkParser (_ptr p3) (_line_nr p3) (_line_start p3)
                      (_indentation p3 + -1) (_next_addr p3)).
  assert (Hat5 : parser_at (str1 LF) (parser_skip 1 p4)).
  { unfold parser_at, parser_skip, advance, p4. cbn [_ptr chars].
    unfold parser_at in Hat3. now rewrite Hat3. }
  exists (parser_next_line (parser_skip 1 p4)). split.
  - cbn [parse_value]. fold (parse_value opts doc). fold (array_loop opts doc).
    fold (object_loop opts doc).
    unfold skip_pre_white, bind.
    assert (Hat0 : parser_at (String "{" (String LF (str1 TAB ++
                      lines_after_tab opts longest ((key, i) :: entries)
                        (String "}" (str1 LF))))) p) by exact Hat.
    rewrite (skip_white_before_black opts doc Htabs false p "{" _ Hat0 eq_refl).
    cbv beta iota. cbn [is_nil negb]. unfold ret, parser_tag, get_indentation, at_ptr.
    cbv beta iota. change (0 <=? -1) with false. cbn [andb]. cbv beta iota.
    rewrite Hp0. unfold cheq. decide_cheq. cbn [orb]. cbv beta iota.
    unfold parse_object_with, bind, get_state, swallow, bind, at_ptr.
    cbv beta iota. rewrite ?Hp0. change (cheq "{" "{") with true. cbv beta iota.
    rewrite (skip_eq doc). cbv beta iota.
    unfold add_indentation at 1. cbv beta iota.
    unfold new_addr, lift, make_object.
    cbn [_ptr _line_nr _line_start _indentation _next_addr parser_skip
         fresh_value is_nil negb tag Config_default Config_of assert_type _u type
         Type_eqb rbind _doc _line _comments].
    cbv beta iota. fold p1.
    unfold ConfigObjectImpl, ObjectEntry in Hloop. rewrite Hloop.
    unfold add_indentation. cbv beta iota. fold p4.
    change (peek (_ptr p4) 0) with (peek (_ptr p3) 0).
    rewrite Hp3. change (cheq "}" "}") with true. cbv beta iota.
    rewrite (skip_eq doc). unfold ret. cbv beta iota.
    unfold skip_post_white, bind.
    rewrite (skip_white_at_line_feed opts doc (parser_skip 1 p4) "" Hat5).
    cbv beta iota. cbn [is_nil negb]. unfold ret. cbv beta iota.
    reflexivity.
  - unfold parser_at, parser_next_line, advance. cbn [_ptr chars].
    unfold parser_at in Hat5. now rewrite Hat5.
Qed.
End ObjectInBraces.

Lemma sort_in_sorted_order {A : Type} (lt : A -> A -> bool) (l : list A) :
  in_sorted_order lt l = true -> sort lt l = l.
Proof.
  induction l as [|x l IH]; [reflexivity|]. cbn [in_sorted_order]. intros H.
  apply andb_prop in H as [Hx Hl]. unfold sort in *. cbn [fold_right].
  rewrite (IH Hl). destruct l as [|y l]; [reflexivity|].
  cbn [insert_sorted]. apply negb_true_iff in Hx. now rewrite Hx.
Qed.

Lemma longest_of_Int_entries (d : DocInfo_SP) (step : Z) (entries : list (string * Z)) :
  forall (m : nat) (line n : Z),
    longest_of m (Int_entries d line step n entries) = longest_of m entries.
Proof.
  induction entries as [|[key i] entries IH]; intros m line n; [reflexivity|].
  unfold longest_of in *. cbn [Int_entries fold_left fst]. apply IH.
Qed.

Section ObjectWriter.
Variable opts : FormatOptions.
Hypothesis Hcompact : compact opts = false.
Hypothesis Hind : indentation opts = str1 TAB.

Lemma pairs_in_sorted_order (w : Config -> result string) (d : DocInfo_SP)
    (entries : list (string * Z)) :
  forall l n : Z,
    keys_increasing entries = true ->
    in_sorted_order
      (if sort_keys opts
       then fun a b : Pair => String.ltb (pair_key a) (pair_key b)
       else fun a b : Pair => nr (pair_entry a) <? nr (pair_entry b))
      (map (fun p => (fst p, snd p, w (value (snd p))))
           (Int_entries d l 0 n entries)) = true.
Proof.
  induction entries as [|[key i] entries IH]; intros l n Hinc; [reflexivity|].
  cbn [keys_increasing] in Hinc. apply andb_prop in Hinc as [Hkey Hinc].
  cbn [Int_entries map in_sorted_order]. rewrite (IH (l + 0) (n + 1) Hinc), andb_true_r.
  destruct entries as [|[key2 i2] entries]; [reflexivity|].
  cbn [Int_entries map fst snd]. cbn [forallb fst] in Hkey.
  apply andb_prop in Hkey as [Hlt _].
  destruct (sort_keys opts); unfold pair_key, pair_entry; cbn [fst snd nr].
  - now rewrite (ltb_asym _ _ Hlt).
  - now rewrite (proj2 (Z.ltb_ge (n + 1) n)) by lia.
Qed.

Lemma write_pairs_integers (w_doc : DocInfo_SP) (longest : nat)
    (entries : list (string * Z)) :
  forall l n : Z,
    forallb above_INT64_MIN (map snd entries) = true ->
    write_pairs opts 1 longest
      (map (fun p => (fst p, snd p,
                      write_value opts w_doc 1 (value (snd p)) false true))
           (Int_entries w_doc l 0 n entries)) =
    Ok (integer_lines opts longest entries).
Proof.
  induction entries as [|[key i] entries IH]; intros l n Hints; [reflexivity|].
  cbn [map snd forallb] in Hints. apply andb_prop in Hints as [Hi Hints].
  cbn [Int_entries map write_pairs integer_lines fst snd].
  unfold pair_key, pair_entry, pair_text. cbn [fst snd value].
  rewrite (write_value_Int opts w_doc 1 l i Hi), (IH (l + 0) (n + 1) Hints).
  cbn [rbind].
  rewrite Hcompact.
  unfold write_prefix_comments, write_indent, comments, Int_at.
  cbn [_comments prefix no_comments is_nil negb is_object _u type Type_eqb].
  rewrite Hcompact, Hind, andb_false_r.
  assert (Hpre : (if negb (write_comments opts) then "" else "") = "")
    by (now destruct (write_comments opts)).
  rewrite Hpre.
  cbn [repeat_string append]. rewrite !append_assoc. cbn [append].
  destruct entries as [|[k2 i2] entries]; reflexivity.
Qed.
End ObjectWriter.

Section ObjectDocument.
Variable opts : FormatOptions.
Hypothesis Hcompact : compact opts = false.
Hypothesis Hind : indentation opts = str1 TAB.
Hypothesis Hbraces : implicit_top_object opts = false.

Lemma write_Int_object (a : nat) (d : DocInfo_SP) (l : Z)
    (entries : list (string * Z)) :
  entries <> [] ->
  forallb above_INT64_MIN (map snd entries) = true ->
  keys_increasing entries = true ->
  write (Int_object_at a d l entries) opts =
  Ok (String "{" (String LF (integer_lines opts (longest_of 0 entries) entries ++
                             String "}" (str1 LF)))).
Proof.
  intros Hne Hints Hinc. unfold write, Int_object_at. cbn [_doc].
  rewrite Hbraces. cbn [andb].
  assert (Hpre : forall n, write_prefix_comments opts n [] = "").
  { intros n. unfold write_prefix_comments. now destruct (write_comments opts). }
  assert (Hpost : forall n, write_postfix_comments opts n [] = "").
  { intros n. unfold write_postfix_comments. now destruct (write_comments opts). }
  assert (Hbody : write_value opts d 0
                    (mkConfig (VObject a (Int_entries d l 0 0 entries)) d l None)
                    true true =
                  Ok (String "{" (String LF (integer_lines opts (longest_of 0 entries)
                                               entries ++ "}")))).
  { cbn [write_value _doc _u].
    unfold write_object_contents_with.
    fold (longest_of 0 (Int_entries d l 0 0 entries)).
    rewrite (longest_of_Int_entries d 0 entries 0 l 0).
    pose proof (pairs_in_sorted_order opts
                  (fun v => write_value opts d (0 + 1) v false true)
                  d entries l 0 Hinc) as Hsorted.
    assert (Hpairs :
              (if sort_keys opts
               then sort (fun a b : Pair => String.ltb (pair_key a) (pair_key b))
                      (map (fun p : string * Config_Entry Config => (fst p, snd p,
                                      write_value opts d (0 + 1) (value (snd p)) false true))
                           (Int_entries d l 0 0 entries))
               else sort (fun a b : Pair => nr (pair_entry a) <? nr (pair_entry b))
                      (map (fun p : string * Config_Entry Config => (fst p, snd p,
                                      write_value opts d (0 + 1) (value (snd p)) false true))
                           (Int_entries d l 0 0 entries))) =
              map (fun p : string * Config_Entry Config => (fst p, snd p,
                             write_value opts d (0 + 1) (value (snd p)) false true))
                  (Int_entries d l 0 0 entries)).
    { destruct (sort_keys opts); exact (sort_in_sorted_order _ _ Hsorted). }
    assert (Hlength : (@List.length (string * Config_Entry Config)
                         (Int_entries d l 0 0 entries) =? 0)%nat = false).
    { destruct entries as [|[k0 i0] entries]; [contradiction | reflexivity]. }
    assert (Hcontents :
              write_pairs opts (0 + 1) (longest_of 0 entries)
                (if sort_keys opts
                 then sort (fun a b : Pair => String.ltb (pair_key a) (pair_key b))
                        (map (fun p : string * Config_Entry Config => (fst p, snd p,
                                        write_value opts d (0 + 1) (value (snd p))
                                          false true))
                             (Int_entries d l 0 0 entries))
                 else sort (fun a b : Pair => nr (pair_entry a) <? nr (pair_entry b))
                        (map (fun p : string * Config_Entry Config => (fst p, snd p,
                                        write_value opts d (0 + 1) (value (snd p))
                                          false true))
                             (Int_entries d l 0 0 entries))) =
              Ok (integer_lines opts (longest_of 0 entries) entries)).
    { rewrite Hpairs.
      exact (write_pairs_integers opts Hcompact Hind d (longest_of 0 entries) entries
               l 0 Hints). }
    assert (Hmacro : match d with
                     | Some _ => allow_macro opts && negb (doc_eq d d) = false
                     | None => True
                     end).
    { destruct d as [doc0|]; [|exact I].
      unfold doc_eq. rewrite Nat.eqb_refl. cbn [negb]. apply andb_false_r. }
    destruct d as [doc0|]; [rewrite Hmacro|];
      rewrite Hlength, Hcontents; cbn [andb rbind];
      unfold write_pre_brace_comments, write_indent, comments;
      cbn [_comments prefix postfix pre_end_brace no_comments];
      rewrite !Hpre, Hpost, Hcompact; cbn [repeat_string append];
      rewrite !append_empty_r; unfold str1; cbn [append]; reflexivity. }
  rewrite Hbody. cbn [rbind append]. now rewrite append_assoc.
Qed.
End ObjectDocument.

Lemma c_string_spaces (n : nat) : c_string (repeat_string n " ") = repeat_string n " ".
Proof. induction n as [|n IH]; [reflexivity|]. cbn. now rewrite IH. Qed.

Lemma c_string_written_key (opts : FormatOptions) (key : string) :
  key_on_a_line opts key = true ->
  c_string (write_key opts key) = write_key opts key.
Proof.
  unfold key_on_a_line, write_key. intros H.
  destruct (identifiers_keys opts && is_identifier key).
  - apply andb_prop in H as [_ Hc]. now apply String.eqb_eq in Hc.
  - apply andb_prop in H as [Hq Hlf]. apply negb_true_iff in Hlf.
    rewrite (write_string_on_a_line opts key Hlf), write_quoted_string_quoted_char.
    unfold str1. cbn [append c_string]. decide_cheq. cbv iota. f_equal.
    rewrite (c_string_append _ _ (c_string_quoted key Hq)). reflexivity.
Qed.

Lemma c_string_integer_lines (opts : FormatOptions) (longest : nat)
    (entries : list (string * Z)) :
  forallb (key_on_a_line opts) (map fst entries) = true ->
  c_string (integer_lines opts longest entries) = integer_lines opts longest entries.
Proof.
  induction entries as [|[key i] entries IH]; [reflexivity|].
  cbn [map fst forallb integer_lines]. intros H. apply andb_prop in H as [Hkey Hkeys].
  destruct (to_string_token i) as [_ [_ [_ [_ Hi]]]].
  unfold str1 at 1. cbn [append c_string]. decide_cheq. cbv iota. f_equal.
  rewrite (c_string_append _ _ (c_string_written_key opts key Hkey)). f_equal.
  cbn [append c_string]. decide_cheq. cbv iota. do 2 f_equal.
  rewrite (c_string_append _ _ (c_string_spaces _)). f_equal.
  rewrite (c_string_append _ _ Hi). f_equal.
  destruct (array_omit_comma opts || is_nil entries); unfold str1;
    cbn [append c_string]; decide_cheq; cbv iota; now rewrite (IH Hkeys).
Qed.

(** X3: an object without comments whose values are [Int] values without
    comments, with the document and the line of the object, and whose
    entries are not accessed and numbered in the order of their keys, is
    written between braces, one entry on a line, and the text is parsed
    back to an object with the same keys, integers and entry numbers,
    under a dialect that indents with one tab, writes the braces of the
    top object and requires no comma that it does not write. *)
Theorem integer_object_document_round_trip (opts : FormatOptions)
    (entries : list (string * Z)) (a : nat) (d : DocInfo_SP) (l : Z)
    (name : string) (doc_address heap f : nat) :
  indentation opts = str1 TAB ->
  implicit_top_object opts = false ->
  negb (array_omit_comma opts) || object_omit_comma opts = true ->
  entries <> [] ->
  Z.of_nat (List.length entries) < 2 ^ 32 ->
  keys_increasing entries = true ->
  forallb (key_on_a_line opts) (map fst entries) = true ->
  forallb above_INT64_MIN (map snd entries) = true ->
  exists text : string,
    write (Int_object_at a d l entries) opts = Ok text /\
    text = "{" ++ str1 LF ++ integer_lines opts (longest_of 0 entries) entries ++
           "}" ++ str1 LF /\
    parse_string (S (S (S (List.length entries + f)))) text opts name doc_address heap =
    Ok (mkConfig
          (VObject (S heap)
             (Int_entries (Some (mkDocInfo doc_address name [])) 2 1 0 entries))
          (Some (mkDocInfo doc_address name [])) 1 None).
Proof.
  intros Hind Hbraces Hcommas Hne Hlen Hinc Hkeys Hints.
  assert (Hcompact : compact opts = false) by (unfold compact; now rewrite Hind).
  set (doc := mkDocInfo doc_address name []).
  set (longest := longest_of 0 entries).
  set (text := String "{" (String LF (integer_lines opts longest entries ++
                                      String "}" (str1 LF)))).
  exists text.
  split; [exact (write_Int_object opts Hcompact Hind Hbraces a d l entries Hne Hints Hinc)|].
  split; [reflexivity|].
  pose proof (one_tab_is_tabs opts Hind) as Htabs.
  set (p := Parser_new text heap).
  assert (Hat : parser_at text p).
  { unfold parser_at, p, Parser_new, text. cbn [_ptr chars c_string]. decide_cheq.
    cbv iota. do 2 f_equal.
    rewrite (c_string_append _ _ (c_string_integer_lines opts longest entries Hkeys)).
    reflexivity. }
  assert (Hat1 : parser_at text (parser_after_alloc p)) by exact Hat.
  assert (Hp0 : peek (_ptr p) 0 = "{"%char) by reflexivity.
  destruct (parse_value_integer_object opts doc Hind Hcommas longest
              (S (List.length entries + f)) (parser_after_alloc p) entries
              Hne Hkeys Hints Hinc Hlen eq_refl Hat1 ltac:(lia))
    as [p_end [Hvalue Hend]].
  unfold parse_string, parse_string_doc. fold doc. fold p.
  rewrite Hind. cbn [negb streq orb str1].
  rewrite (top_level_one_value opts doc (S (List.length entries + f))
             (mkConfig (VObject (S heap) (Int_entries (Some doc) 2 1 0 entries))
                       (Some doc) 1 None) true p p_end);
    [reflexivity | | | | | | exact Hvalue | exact Hend | reflexivity].
  - now rewrite Hbraces.
  - exact (skip_white_before_black opts doc Htabs false _ "{" _ Hat1 eq_refl).
  - now rewrite Hp0.
  - now rewrite Hp0.
  - now rewrite Hp0.
Qed.

Lemma integer_object_document_round_trip_witness :
  indentation JSON = str1 TAB /\
  implicit_top_object JSON = false /\
  negb (array_omit_comma JSON) || object_omit_comma JSON = true /\
  sample_integer_entries <> [] /\
  Z.of_nat (List.length sample_integer_entries) < 2 ^ 32 /\
  keys_increasing sample_integer_entries = true /\
  forallb (key_on_a_line JSON) (map fst sample_integer_entries) = true /\
  forallb above_INT64_MIN (map snd sample_integer_entries) = true /\
  exists text : string,
    write (Int_object_at 0 None BAD_ENTRY sample_integer_entries) JSON = Ok text /\
    text = "{" ++ str1 LF ++
           integer_lines JSON (longest_of 0 sample_integer_entries)
             sample_integer_entries ++
           "}" ++ str1 LF /\
    parse_string 6 text JSON "sample.json" 0 0 =
    Ok (mkConfig
          (VObject 1 (Int_entries (Some (mkDocInfo 0 "sample.json" [])) 2 1 0
                        sample_integer_entries))
          (Some (mkDocInfo 0 "sample.json" [])) 1 None).
Proof.
  split; [reflexivity|]. split; [reflexivity|].
  split; [reflexivity|]. split; [discriminate|]. split; [cbn; lia|].
  split; [reflexivity|]. split; [reflexivity|]. split; [reflexivity|].
  apply (integer_object_document_round_trip JSON sample_integer_entries 0 None BAD_ENTRY
           "sample.json" 0 0 0);
    [reflexivity | reflexivity | reflexivity | discriminate | cbn; lia
    | reflexivity | reflexivity | reflexivity].
Defined.

Section FailingDocument.
Variable opts : FormatOptions.
Variable doc : DocInfo.

(** [top_level] over a text without a key before its first value, when
    [parse_value] throws. *)
Lemma top_level_value_throws (f : nat) (e : exception) (p : Parser) :
  (if implicit_top_object opts then
     bind get_state (fun state =>
     bind (skip_white_ignore_comments opts doc) (fun _ =>
     bind get_ptr (fun p0 =>
     bind (if IDENT_STARTERS (peek p0 0) && negb (is_reserved_identifier p0) then ret true
           else if cheq (peek p0 0) DQUOTE || cheq (peek p0 0) "@" then
             bind (Parser_parse_string opts doc) (fun _ =>
             bind (skip_white_ignore_comments opts doc) (fun _ =>
             bind (at_ptr 0) (fun c0 => ret (cheq c0 ":" || cheq c0 "="))))
           else ret false) (fun is_object =>
     bind (set_state state) (fun _ => ret is_object)))))
   else ret false) p = Ok (false, p) ->
  skip_white opts doc false (parser_after_alloc p) =
    Ok ((false, [], -1), parser_after_alloc p) ->
  cheq (peek (_ptr p) 0) "]" = false ->
  cheq (peek (_ptr p) 0) NUL = false ->
  IDENT_STARTERS (peek (_ptr p) 0) && negb (is_reserved_identifier (_ptr p)) = false ->
  parse_value opts doc (S f) (fresh_value []) (parser_after_alloc p) = Throw e ->
  top_level opts doc (S (S f)) p = Throw e.
Proof.
  intros Hobj Hwhite Hclose Hzero Hident Hvalue.
  unfold top_level. unfold bind at 1. rewrite Hobj. cbv beta iota.
  unfold parser_tag, bind. cbv beta iota. cbn [negb andb].
  unfold parse_array_contents, bind, new_addr, lift, make_array.
  cbn [tag Config_default Config_of assert_type _u type Type_eqb negb rbind
       _doc _line _comments].
  cbv beta iota. fold (parser_after_alloc p).
  remember (S f) as fuel' eqn:Hfuel.
  cbn [array_loop]. fold (parse_value opts doc). fold (array_loop opts doc).
  unfold skip_pre_white, bind.
  rewrite Hwhite.
  cbv beta iota. cbn [is_nil negb]. unfold ret, get_indentation, get_ptr.
  cbv beta iota.
  change (peek (_ptr (parser_after_alloc p)) 0) with (peek (_ptr p) 0).
  change (is_reserved_identifier (_ptr (parser_after_alloc p)))
    with (is_reserved_identifier (_ptr p)).
  rewrite Hclose, Hzero.
  change (0 <=? -1) with false. cbn [andb]. cbv beta iota.
  rewrite Hident. cbv beta iota.
  rewrite Hvalue. reflexivity.
Qed.
End FailingDocument.

Section ObjectWithoutCommas.
Variable opts : FormatOptions.
Variable doc : DocInfo.
Hypothesis Hind : indentation opts = str1 TAB.
Hypothesis Harray : array_omit_comma opts = true.
Hypothesis Hobject : object_omit_comma opts = false.

Lemma parse_value_object_throws (longest f : nat) (p : Parser)
    (key : string) (i : Z) (entries : list (string * Z)) :
  entries <> [] ->
  forallb (key_on_a_line opts) (map fst ((key, i) :: entries)) = true ->
  above_INT64_MIN i = true ->
  _indentation p = 0 ->
  parser_at (String "{" (String LF (integer_lines opts longest ((key, i) :: entries) ++
                                     String "}" (str1 LF)))) p ->
  exists p_x : Parser,
    parse_value opts doc (S (S (S f))) (fresh_value []) p =
    throw_error doc "Expected a comma or }" p_x /\
    _line_nr p_x = _line_nr p + 2.
Proof.
  intros Hne Hkeys Hi Hindp Hat.
  pose proof (one_tab_is_tabs opts Hind) as Htabs.
  assert (Hp0 : peek (_ptr p) 0 = "{"%char)
    by (unfold peek; unfold parser_at in Hat; now rewrite Hat).
  rewrite integer_lines_after_tab in Hat. cbn [is_nil] in Hat.
  pose proof (lines_after_tab_next opts longest ((key, i) :: entries) (str1 LF) Hkeys)
    as Hnext.
  cbn [is_nil] in Hnext. destruct Hnext as [y [t [Hnext [Hyb _]]]].
  cbn [map fst forallb] in Hkeys. apply andb_prop in Hkeys as [Hkey Hkeys].
  set (p1 := mkParser (advance (_ptr p) 1) (_line_nr p) (_line_start p)
                      (_indentation p + 1) (S (_next_addr p))).
  assert (Hat1 : parser_at (String LF (str1 TAB ++
                              lines_after_tab opts longest ((key, i) :: entries)
                                (String "}" (str1 LF)))) p1).
  { unfold parser_at, p1, advance in *. cbn [_ptr chars]. now rewrite Hat. }
  set (p2 := parser_skip 1 (parser_next_line p1)).
  assert (Hw1 : skip_white opts doc false p1 = Ok ((true, [], 1), p2)).
  { apply (skip_white_line_feed_tab opts doc Hind p1 y t); [|exact Hyb].
    unfold parser_at in *. now rewrite Hat1, Hnext. }
  assert (Hat2 : parser_at (lines_after_tab opts longest ((key, i) :: entries)
                              (String "}" (str1 LF))) p2).
  { apply (parser_skip_at (str1 TAB)).
    unfold parser_at, parser_next_line, advance in *. cbn [_ptr chars].
    now rewrite Hat1. }
  assert (Hind2 : _indentation p2 = 1)
    by (unfold p2, p1; cbn [parser_skip parser_next_line _indentation]; lia).
  cbn [lines_after_tab] in Hat2.
  pose proof (lines_after_tab_next opts longest entries (str1 LF) Hkeys) as Hnext2.
  assert (Hnil : is_nil entries = false) by (destruct entries; [contradiction | reflexivity]).
  pose proof (object_loop_turn opts doc Hind f (_next_addr p) [] (Some doc) (_line_nr p)
                p1 p2 true 1 key i (longest - String.length key) (is_nil entries) _
                Hw1 ltac:(now right) Hind2 Hkey Hi eq_refl ltac:(cbn; lia) Hat2 Hnext2)
    as Hturn.
  cbv zeta in Hturn. rewrite Harray, Hobject, Hnil in Hturn. cbn [negb andb] in Hturn.
  eexists. split.
  - remember (S (S f)) as fuel' eqn:Hfuel.
    cbn [parse_value]. fold (parse_value opts doc). fold (array_loop opts doc).
    fold (object_loop opts doc).
    unfold skip_pre_white, bind.
    assert (Hat0 : parser_at (String "{" (String LF (str1 TAB ++
                      lines_after_tab opts longest ((key, i) :: entries)
                        (String "}" (str1 LF))))) p) by exact Hat.
    rewrite (skip_white_before_black opts doc Htabs false p "{" _ Hat0 eq_refl).
    cbv beta iota. cbn [is_nil negb]. unfold ret, parser_tag, get_indentation, at_ptr.
    cbv beta iota. change (0 <=? -1) with false. cbn [andb]. cbv beta iota.
    rewrite Hp0. unfold cheq. decide_cheq. cbn [orb]. cbv beta iota.
    unfold parse_object_with, bind, get_state, swallow, bind, at_ptr.
    cbv beta iota. rewrite ?Hp0. change (cheq "{" "{") with true. cbv beta iota.
    rewrite (skip_eq doc). cbv beta iota.
    unfold add_indentation at 1. cbv beta iota.
    unfold new_addr, lift, make_object.
    cbn [_ptr _line_nr _line_start _indentation _next_addr parser_skip
         fresh_value is_nil negb tag Config_default Config_of assert_type _u type
         Type_eqb rbind _doc _line _comments].
    cbv beta iota. fold p1.
    unfold ConfigObjectImpl, ObjectEntry in Hturn. rewrite Hturn.
    reflexivity.
  - cbn [parser_skip parser_next_line _line_nr]. unfold p2, p1.
    cbn [parser_skip parser_next_line _line_nr]. lia.
Qed.
End ObjectWithoutCommas.

(** X4: [write_object_contents] separates the entries of an object as
    [array_omit_comma] says, and the parser expects what [object_omit_comma]
    says: under a dialect with the former and without the latter, the text
    written for an object of two or more entries is refused. *)
Theorem object_without_commas_is_refused (opts : FormatOptions)
    (entries : list (string * Z)) (a : nat) (d : DocInfo_SP) (l : Z)
    (name : string) (doc_address heap f : nat) :
  indentation opts = str1 TAB ->
  implicit_top_object opts = false ->
  array_omit_comma opts = true ->
  object_omit_comma opts = false ->
  (2 <= List.length entries)%nat ->
  keys_increasing entries = true ->
  forallb (key_on_a_line opts) (map fst entries) = true ->
  forallb above_INT64_MIN (map snd entries) = true ->
  exists (text : string) (p_x : Parser),
    write (Int_object_at a d l entries) opts = Ok text /\
    _line_nr p_x = 3 /\
    parse_string (S (S (S (S f)))) text opts name doc_address heap =
    Throw (make_ParseError (mkDocInfo doc_address name []) (_line_nr p_x) (column p_x)
             ("Expected a comma or }" ++ str1 LF ++ orientation p_x)).
Proof.
  intros Hind Hbraces Harray Hobject Hlen Hinc Hkeys Hints.
  assert (Hcompact : compact opts = false) by (unfold compact; now rewrite Hind).
  destruct entries as [|[key i] entries]; [cbn in Hlen; lia|].
  assert (Hne : entries <> []) by (destruct entries; [cbn in Hlen; lia | discriminate]).
  set (doc := mkDocInfo doc_address name []).
  set (all := (key, i) :: entries) in *.
  set (longest := longest_of 0 all).
  set (text := String "{" (String LF (integer_lines opts longest all ++
                                      String "}" (str1 LF)))).
  pose proof (one_tab_is_tabs opts Hind) as Htabs.
  set (p := Parser_new text heap).
  assert (Hat : parser_at text p).
  { unfold parser_at, p, Parser_new, text. cbn [_ptr chars c_string]. decide_cheq.
    cbv iota. do 2 f_equal.
    rewrite (c_string_append _ _ (c_string_integer_lines opts longest all Hkeys)).
    reflexivity. }
  assert (Hat1 : parser_at text (parser_after_alloc p)) by exact Hat.
  assert (Hp0 : peek (_ptr p) 0 = "{"%char) by reflexivity.
  assert (Hi : above_INT64_MIN i = true).
  { unfold all in Hints. cbn [map snd forallb] in Hints.
    now apply andb_prop in Hints as [Hi _]. }
  destruct (parse_value_object_throws opts doc Hind Harray Hobject longest f
              (parser_after_alloc p) key i entries Hne Hkeys Hi eq_refl Hat1)
    as [p_x [Hvalue Hline]].
  exists text, p_x.
  split; [apply (write_Int_object opts Hcompact Hind Hbraces a d l all);
          [discriminate | exact Hints | exact Hinc]|].
  split; [exact Hline|].
  unfold parse_string, parse_string_doc. fold doc. fold p.
  rewrite Hind. cbn [negb streq orb str1].
  rewrite (top_level_value_throws opts doc (S (S f))
             (make_ParseError doc (_line_nr p_x) (column p_x)
                ("Expected a comma or }" ++ str1 LF ++ orientation p_x)) p);
    [reflexivity | | | | | | exact Hvalue].
  - now rewrite Hbraces.
  - exact (skip_white_before_black opts doc Htabs false _ "{" _ Hat1 eq_refl).
  - now rewrite Hp0.
  - now rewrite Hp0.
  - now rewrite Hp0.
Qed.

Lemma object_without_commas_is_refused_witness :
  indentation JSON_without_array_commas = str1 TAB /\
  implicit_top_object JSON_without_array_commas = false /\
  array_omit_comma JSON_without_array_commas = true /\
  object_omit_comma JSON_without_array_commas = false /\
  (2 <= List.length sample_integer_entries)%nat /\
  keys_increasing sample_integer_entries = true /\
  forallb (key_on_a_line JSON_without_array_commas)
    (map fst sample_integer_entries) = true /\
  forallb above_INT64_MIN (map snd sample_integer_entries) = true /\
  exists (text : string) (p_x : Parser),
    write (Int_object_at 0 None BAD_ENTRY sample_integer_entries)
      JSON_without_array_commas = Ok text /\
    _line_nr p_x = 3 /\
    parse_string 4 text JSON_without_array_commas "sample.json" 0 0 =
    Throw (make_ParseError (mkDocInfo 0 "sample.json" []) (_line_nr p_x) (column p_x)
             ("Expected a comma or }" ++ str1 LF ++ orientation p_x)).
Proof.
  split; [reflexivity|]. split; [reflexivity|]. split; [reflexivity|].
  split; [reflexivity|]. split; [cbn; lia|]. split; [reflexivity|].
  split; [reflexivity|]. split; [reflexivity|].
  apply (object_without_commas_is_refused JSON_without_array_commas
           sample_integer_entries 0 None BAD_ENTRY "sample.json" 0 0 0);
    [reflexivity | reflexivity | reflexivity | reflexivity | cbn; lia
    | reflexivity | reflexivity | reflexivity].
Defined.
